(* ===== verification/_CoqProject ===== *)
-Q . S2P
Prelude.v
Text.v
Utf8.v
Sha256.v
Json.v
Calendar.v
Timestamps.v
SessionDb.v
Fields.v
Recovery.v
AuditTrail.v
Outbox.v
Pipeline.v
Investigation.v
ControlStore.v
Leases.v
Dispatch.v
Scheduler.v
Novelty.v
Number.v
Ip.v
Url.v
Percent.v
Canonical.v
CanonicalFacts.v
WorkerJobs.v
Worker.v
WorkerFacts.v
Delivery.v
Receipts.v
Models.v
Contracts.v
JsonAscii.v
SubjectDelivery.v
SubjectFacts.v
