(* ===== verification/Prelude.v ===== *)
(** * The news-core verification library

    news-core collects news from search, feeds and articles, decides what is new,
    investigates candidates, and delivers reports.  It is a Python program of
    several processes that share SQLite databases: a host process that alone
    reaches the network, a container with a scheduler and a worker, and slices that
    read and write one database each.  This library models the parts that keep
    durable state and move it forward, the control plane and the outboxes, and
    proves what they promise.  Paths below are under [src/scripts/news_pipeline/]
    unless they say otherwise.

    ** The parts and the files

    Common ground: [Prelude] (this file: results, the state-and-error monad, loops
    and the tables they fill, automation), [Text] and [Utf8] ([str], [bytes]),
    [Sha256], [Json] and [JsonAscii] ([json.dumps], [json.loads]), [Number]
    (binary64 and [int]), [Ip] ([ipaddress]), [Url] and [Percent] ([urllib.parse]),
    [Calendar] ([phase6/time_inputs.py] and dates) and [Timestamps].  Except for
    [Calendar] they model Python itself and few of their definitions map to the
    program.

    The phase-6 sandbox ([phase6/]): [SessionDb] is the database of [schema.py]
    with the constraints of its tables, [Fields] the validators the slices share;
    [Recovery] ([recovery.py]: [evaluate_batch]), [AuditTrail] ([audit.py]:
    [audit_observations]) and [Outbox] ([outbox.py]: [queue_previews]) are the three
    slices, each an operation on that database; [Pipeline] composes them.

    The control plane ([src/scripts/news_container/]): [ControlStore] has the
    tables and the operations of [control_store.py] (enqueue, claim, renew,
    complete, retry, selection, sanitisers), [Leases] their guarantees;
    [Scheduler] is [scheduler.py], from the TOML document to the tasks it enqueues.
    [WorkerJobs] (paths, argument vectors, capture, dispatch, validation) and
    [Worker] (the loop, with the renewal thread and other clients of the store
    between any two of its statements) are [worker.py]; [WorkerFacts] has their
    guarantees.  [Investigation] is the job contract, the persistence policy
    and one run of [investigation.py]; [Dispatch] its dispatcher, which writes to the
    control store through the same [enqueue] as the scheduler.

    Delivery: [Delivery] has the tables of [delivery_schema_v6.py] and the process
    [deliver_report] of [delivery.py], [Receipts] its guarantees.  [Models]
    ([models.py]: categories, subjects, routing) and [Contracts] ([contracts.py]) are
    what [SubjectDelivery] ([subject_delivery.py], the tables of [schema_v9.py]) is
    built on, the outbox of subject reports; [SubjectFacts] has its guarantees.
    [Novelty] is [novelty.py].  [Canonical] is [canonicalization.py], [CanonicalFacts]
    its guarantees and the lemmas on paths that [WorkerJobs] shares.

    ** How state and operations are modelled

    A function that may raise returns [result E A]; one that works on a database is
    a computation [M S E A] that keeps the store it reached when it raises,
    [transaction] being the only thing that undoes it.  Tables are [gmap]s from the
    primary key (lists where the order of insertion is read), with the CHECK and key
    constraints of the DDL in the insert.  Where order in time matters the model is
    a step relation or a process: [Leases.control_step] (any interleaving of
    workers), [Pipeline.session_step], [Delivery.deliver_step] (a crash may stop it
    after any action, the provider and the database choose each outcome), the gaps of
    [Worker] (where anyone may change the store), [SubjectDelivery.proc] (a call as
    the sequence of its statements and transactions, between which other calls
    run).  Texts are lists of code points, lone surrogates included.

    ** What is shown

    - [Pipeline]: every preview in the outbox is backed by an audit event and a
      stored input; well-formed observations do come out, each as one row of the
      outbox, which holds nothing else.
    - [Recovery], [AuditTrail], [Outbox]: each slice refines its specification (a
      decision table, exactly the new events, exactly one row per event), is all or
      nothing, and repeating a batch changes nothing.
    - [Leases]: the invariant of the store under any interleaving; a lost lease is
      fenced for ever; claims succeed when they should; each operation on every
      branch.  [Leases.enqueued_exactly] says what a loop of enqueues leaves, and is
      what [Scheduler] and [Dispatch] establish for theirs.
    - [WorkerFacts]: a worker counts only tasks whose run it has recorded under its
      own lease; one that reports no failure completed all it claimed.
    - [Receipts]: at most once delivery across crashes and later calls, termination
      of the process and of the splitting, success when store and provider work.
    - [SubjectFacts]: any interleaving of calls takes each subject report through the
      steps of one abstract delivery: attempts for one recipient, the next only after
      a failed one, nothing after one that was sent.
    - [Investigation], [Dispatch]: stored investigations never go back; a write is
      fenced; the terminal state is the one the queries call for; each candidate gets
      its task once and nothing else is added.
    - [Scheduler]: while the zone keeps its offset the sweep finds exactly the due
      minutes (against a reference over UTC minutes) and the next slot is the
      earliest; what a slot's blocks decide; what a sweep adds to the store.
    - [Novelty]: the merge computes the reference sums, which conserve novelty.
    - [CanonicalFacts], [Models]: canonical URLs are stable and have their form; the
      primary subject does not depend on the order.

    Where the code does something else than it says, a lemma computes it on an
    example (for instance [Receipts.concurrent_call_sends_twice],
    [Scheduler.loop_misses_due_slot], [Scheduler.pause_exceeds_cap],
    [Leases.delivery_sentence_accepted],
    [SubjectFacts.late_read_returns_foreign_attempt]).

    ** Bounds and fuel

    [Json.loads] and [Delivery.split_loop] take the length of the text as fuel; it is
    enough by [Json.loads_canonical] and [Receipts.split_telegram_text_lossless].
    The sweep of the scheduler takes the minutes of its window and one more, which
    [Scheduler.compute_due_slots_steady] shows to be enough under a steady offset.
    The loops of the scheduler and of the worker recurse on the readings of the clock
    and on the turns they are given.

    ** Parameters

    Code that is not here is an argument: [IsoParser] and [IsoReader]
    ([datetime.fromisoformat]), [ZoneInfo] (the time zone database), the Unicode
    tables behind [str.lower], [str.casefold] and IDNA ([lower_text], [casefold],
    [netloc_ok], [unicode_idna]), [str] and [repr] of values, the query texts and the
    answers of the broker of an investigation, the Telegram client, the file system
    ([is_symlink], [realpath]), the files of the artifact root, and for the worker
    [jobs.main].  SHA-256 is computed; theorems that need two digests to differ name
    the collision that would refute them.

    ** Not modelled

    The argument parsers, logging, opening and migrating database files, sockets,
    threads and signals are I/O or glue.  The ledger, the engine and the renderer of
    the briefing, the filtering and semantic comparison of candidates, the
    verification of evidence and the egress broker are separate components that this
    library does not cover.  The event store and the migrations ([event_store.py],
    [db.py], [schema_v*.py]) are SQL that SQLite executes; the adapters, the article
    fetch and the parsers feed library parsers from the network; reports and subject
    artifacts render HTML and write files. *)
From stdpp Require Export base tactics list option gmap strings sorting.
From Stdlib Require Export ZArith NArith Lia Bool.
From Stdlib Require DecimalN.

(** ** Results and the state-and-error monad *)

Inductive result (E A : Type) : Type :=
  | Ok (a : A)
  | Err (e : E).
Arguments Ok {E A} a.
Arguments Err {E A} e.

#[export] Instance result_ret E : MRet (result E) := λ A a, Ok a.
#[export] Instance result_bind E : MBind (result E) := λ A B f r,
  match r with Ok a => f a | Err e => Err e end.
#[export] Instance result_fmap E : FMap (result E) := λ A B f r,
  match r with Ok a => Ok (f a) | Err e => Err e end.

#[export] Instance result_eq_dec E A `{EqDecision E, EqDecision A} :
  EqDecision (result E A).
Proof. solve_decision. Defined.

Definition is_ok {E A} (r : result E A) : bool :=
  match r with Ok _ => true | Err _ => false end.

(** [raise_if b e]: the statement [if b: raise e]. *)
Definition raise_if {E} (b : bool) (e : E) : result E unit :=
  if b then Err e else Ok tt.

(** [map_err f r]: [try: r / except X as exc: raise f(exc) from exc]. *)
Definition map_err {E F A} (f : E → F) (r : result E A) : result F A :=
  match r with Ok a => Ok a | Err e => Err (f e) end.

Definition of_option {E A} (e : E) (o : option A) : result E A :=
  match o with Some a => Ok a | None => Err e end.

(** A computation over a mutable store [S] that may raise [E]: the store
    reached so far is kept when an exception is raised, as in the program;
    only [transaction] undoes it. *)
Definition M (S E A : Type) : Type := S → result E A * S.

#[export] Instance M_ret S E : MRet (M S E) := λ A a s, (Ok a, s).
#[export] Instance M_bind S E : MBind (M S E) := λ A B f m s,
  match m s with
  | (Ok a, s') => f a s'
  | (Err e, s') => (Err e, s')
  end.

Definition get {S E} : M S E S := λ s, (Ok s, s).
Definition put {S E} (s' : S) : M S E unit := λ _, (Ok tt, s').
Definition modify {S E} (f : S → S) : M S E unit := λ s, (Ok tt, f s).
Definition throw {S E A} (e : E) : M S E A := λ s, (Err e, s).
Definition lift {S E A} (r : result E A) : M S E A := λ s, (r, s).

(** [BEGIN IMMEDIATE; body; COMMIT], with [ROLLBACK] and re-raise on any
    exception of the body. *)
Definition transaction {S E A} (body : M S E A) : M S E A := λ s,
  match body s with
  | (Ok a, s') => (Ok a, s')
  | (Err e, _) => (Err e, s)
  end.

(** A [for] loop that threads an accumulator. *)
Fixpoint foldM {S E A B} (f : B → A → M S E B) (b : B) (l : list A) : M S E B :=
  match l with
  | [] => mret b
  | x :: l' => b' ← f b x; foldM f b' l'
  end.

(** The same loop for a pure body that may raise. *)
Fixpoint foldR {E A B} (f : B → A → result E B) (b : B) (l : list A) : result E B :=
  match l with
  | [] => Ok b
  | x :: l' => b' ← f b x; foldR f b' l'
  end.

(** [[f(x) for x in l]] where [f] may raise. *)
Fixpoint mapR {E A B} (f : A → result E B) (l : list A) : result E (list B) :=
  match l with
  | [] => Ok []
  | x :: l' => y ← f x; ys ← mapR f l'; Ok (y :: ys)
  end.

Section result_lemmas.
Context {E A B : Type}.
Implicit Types (r : result E A) (f : A → result E B).

Lemma bind_Ok r f b :
  (r ≫= f) = Ok b ↔ ∃ a, r = Ok a ∧ f a = Ok b.
Proof. destruct r; naive_solver. Qed.

Lemma bind_Err r f e :
  (r ≫= f) = Err e ↔ r = Err e ∨ ∃ a, r = Ok a ∧ f a = Err e.
Proof. destruct r; naive_solver. Qed.

Lemma raise_if_Ok b (e : E) u : raise_if b e = Ok u ↔ b = false.
Proof. destruct b, u; naive_solver. Qed.

Lemma raise_if_Err b (e e' : E) : raise_if b e = Err e' ↔ b = true ∧ e = e'.
Proof. destruct b; naive_solver. Qed.

Lemma map_err_Ok {F} (g : E → F) r a : map_err g r = Ok a ↔ r = Ok a.
Proof. destruct r; naive_solver. Qed.

Lemma of_option_Ok (e : E) (o : option A) a : of_option e o = Ok a ↔ o = Some a.
Proof. destruct o; naive_solver. Qed.

Lemma is_ok_true r : is_ok r = true ↔ ∃ a, r = Ok a.
Proof. destruct r; naive_solver. Qed.

End result_lemmas.

Section mapR_lemmas.
Context {E A B : Type}.
Implicit Types (f : A → result E B).

Lemma mapR_Ok f l k : mapR f l = Ok k ↔ Forall2 (λ x y, f x = Ok y) l k.
Proof.
  split.
  - revert k. induction l as [|x l IH]; intros k; simpl; [naive_solver|].
    intros (y & Hy & (ys & Hys & [= <-])%bind_Ok)%bind_Ok. eauto.
  - induction 1 as [|x y l k Hy _ IH]; [done|]. simpl. rewrite Hy. simpl. by rewrite IH.
Qed.

Lemma mapR_length f l k : mapR f l = Ok k → length k = length l.
Proof. by intros ?%mapR_Ok%Forall2_length. Qed.
End mapR_lemmas.

Lemma foldR_app {E A B} (f : B → A → result E B) b l1 l2 :
  foldR f b (l1 ++ l2) = foldR f b l1 ≫= λ b', foldR f b' l2.
Proof.
  revert b. induction l1 as [|x l1 IH]; intros b; simpl; [done|].
  destruct (f b x); simpl; [apply IH | done].
Qed.

(** Invariant rule for pure loops. *)
Lemma foldR_ind {E A B} (I : list A → B → Prop) (f : B → A → result E B) b l b' :
  I [] b →
  (∀ l1 x l2 b b', l = l1 ++ x :: l2 → I l1 b → f b x = Ok b' → I (l1 ++ [x]) b') →
  foldR f b l = Ok b' → I l b'.
Proof.
  intros H0 Hstep.
  enough (∀ l1 l2 b, l = l1 ++ l2 → I l1 b → foldR f b l2 = Ok b' → I l b')
    as Haux by (by apply (Haux []); auto).
  intros l1 l2. revert l1. induction l2 as [|x l2 IH]; intros l1 c Hl HI; simpl.
  - intros [= <-]. by rewrite Hl, app_nil_r.
  - intros (c' & Hc & Hrest)%bind_Ok. eapply (IH (l1 ++ [x])); [|by eauto|done].
    by rewrite Hl, <-app_assoc.
Qed.

(** ** Reasoning about stores

    [steps R m]: every execution of [m], raising or not, relates the store
    before to the store after by [R].  With [R s s' := I s → I s'] it says that
    [I] is an invariant of [m]. *)

Definition steps {S E A} (R : S → S → Prop) (m : M S E A) : Prop :=
  ∀ s r s', m s = (r, s') → R s s'.

Definition keeps {S E A} (I : S → Prop) (m : M S E A) : Prop :=
  steps (λ s s', I s → I s') m.

#[export] Instance implies_preorder {S} (I : S → Prop) :
  PreOrder (λ s s', I s → I s').
Proof. split; unfold Reflexive, Transitive; tauto. Qed.

Section state_lemmas.
Context {S E A B : Type}.
Implicit Types (m : M S E A) (f : A → M S E B) (s : S).

Lemma M_bind_Ok m f s b s' :
  (m ≫= f) s = (Ok b, s') ↔
  ∃ a s1, m s = (Ok a, s1) ∧ f a s1 = (Ok b, s').
Proof.
  unfold mbind, M_bind. destruct (m s) as [[a|e] s1]; naive_solver.
Qed.

Lemma M_bind_Err m f s e s' :
  (m ≫= f) s = (Err e, s') ↔
  m s = (Err e, s') ∨ ∃ a s1, m s = (Ok a, s1) ∧ f a s1 = (Err e, s').
Proof.
  unfold mbind, M_bind. destruct (m s) as [[a|e'] s1]; naive_solver.
Qed.

Lemma transaction_Ok m s a s' :
  transaction m s = (Ok a, s') ↔ m s = (Ok a, s').
Proof. unfold transaction. destruct (m s) as [[]]; naive_solver. Qed.

(** An exception inside a transaction leaves the store as it was. *)
Lemma transaction_Err m s e s' :
  transaction m s = (Err e, s') ↔ s' = s ∧ ∃ s1, m s = (Err e, s1).
Proof. unfold transaction. destruct (m s) as [[]]; naive_solver. Qed.
End state_lemmas.

Section steps_lemmas.
Context {S E : Type} (R : S → S → Prop) `{!PreOrder R}.

Lemma steps_ret {A} (a : A) : steps (E:=E) R (mret a).
Proof. intros s r s' [= <- <-]. reflexivity. Qed.
Lemma steps_throw {A} (e : E) : steps (A:=A) R (throw e).
Proof. intros s r s' [= <- <-]. reflexivity. Qed.
Lemma steps_lift {A} (r : result E A) : steps R (lift r).
Proof. intros s r' s' [= <- <-]. reflexivity. Qed.
Lemma steps_get : steps (E:=E) R get.
Proof. intros s r s' [= <- <-]. reflexivity. Qed.
Lemma steps_modify (g : S → S) : (∀ s, R s (g s)) → steps (E:=E) R (modify g).
Proof. intros HR s r s' [= <- <-]. apply HR. Qed.

Lemma steps_bind {A B} (m : M S E A) (f : A → M S E B) :
  steps R m → (∀ a, steps R (f a)) → steps R (m ≫= f).
Proof.
  intros Hm Hf s r s'. unfold mbind, M_bind.
  destruct (m s) as [[a|e] s1] eqn:Hms.
  - intros Hr. etrans; [by eapply Hm|by eapply Hf].
  - intros [= <- <-]. by eapply Hm.
Qed.

Lemma steps_transaction {A} (m : M S E A) : steps R m → steps R (transaction m).
Proof.
  intros Hm s r s'. unfold transaction.
  destruct (m s) as [[a|e] s1] eqn:Hms; intros [= <- <-];
    [by eapply Hm|reflexivity].
Qed.

Lemma steps_foldM {A B} (f : B → A → M S E B) b l :
  (∀ b x, steps R (f b x)) → steps R (foldM f b l).
Proof.
  intros Hf. revert b. induction l as [|x l IH]; intros b; simpl.
  - apply steps_ret.
  - apply steps_bind; auto.
Qed.
End steps_lemmas.

Create HintDb steps.
#[export] Hint Resolve steps_ret steps_throw steps_lift steps_get
  steps_transaction steps_foldM : steps.
#[export] Hint Extern 2 (steps _ (_ ≫= _)) => apply steps_bind; [| |intro] : steps.
#[export] Hint Extern 2 (PreOrder _) => typeclasses eauto : steps.

(** ** Lists without repeated keys *)

Lemma NoDup_map_inj {A B} (f : A → B) (l : list A) x y :
  NoDup (map f l) → x ∈ l → y ∈ l → f x = f y → x = y.
Proof.
  induction l as [|z l IH]; [set_solver|]. cbn [map]. rewrite NoDup_cons.
  intros [Hz Hl] Hx Hy Hf.
  apply elem_of_cons in Hx as [->|Hx], Hy as [->|Hy]; [done| | |by apply IH].
  - destruct Hz. rewrite Hf. apply list_elem_of_fmap. eauto.
  - destruct Hz. rewrite <-Hf. apply list_elem_of_fmap. eauto.
Qed.

(** Either the images are distinct or two different elements clash. *)
Lemma NoDup_map_or {A B} `{EqDecision B} (f : A → B) (l : list A) :
  NoDup l → NoDup (map f l) ∨ ∃ x y, x ∈ l ∧ y ∈ l ∧ x ≠ y ∧ f x = f y.
Proof.
  induction 1 as [|x l Hx _ IH]; cbn [map]; [left; constructor|].
  destruct IH as [IH|(y & z & Hy & Hz & Hne & Hf)].
  - destruct (decide (f x ∈ map f l)) as [Hin|Hin]; [right|left; by constructor].
    apply list_elem_of_fmap in Hin as (y & Hf & Hy).
    exists x, y. split_and!; [set_solver|set_solver| |done]. by intros ->.
  - right. exists y, z. split_and!; [set_solver|set_solver|done|done].
Qed.

Lemma NoDup_map_filter {A B} (f : A → B) (P : A → Prop) `{∀ x, Decision (P x)} (l : list A) :
  NoDup (map f l) → NoDup (map f (filter P l)).
Proof.
  induction l as [|x l IH]; cbn [map filter list_filter]; [done|].
  rewrite NoDup_cons. intros [Hx Hl]. case_decide; [|by apply IH].
  cbn [map]. apply NoDup_cons. split; [|by apply IH].
  intros (y & Hy & [_ Hin]%list_elem_of_filter)%list_elem_of_fmap.
  apply Hx, list_elem_of_fmap. eauto.
Qed.

Lemma last_None_filter {A} (P : A → Prop) `{∀ x, Decision (P x)} (l : list A) :
  last (filter P l) = None ↔ ∀ x, x ∈ l → ¬ P x.
Proof.
  rewrite last_None. split.
  - intros Hf x Hx HP. assert (x ∈ filter P l) as Hin by by apply list_elem_of_filter.
    rewrite Hf in Hin. set_solver.
  - intros Hl. destruct (filter P l) as [|x k] eqn:Hk; [done|].
    assert (x ∈ filter P l) as [HP Hx]%list_elem_of_filter by (rewrite Hk; set_solver).
    by destruct (Hl x Hx).
Qed.

Lemma last_filter_Some {A} (P : A → Prop) `{∀ x, Decision (P x)} (l : list A) x :
  last (filter P l) = Some x → x ∈ l ∧ P x.
Proof.
  intros Hl%last_Some_elem_of. apply list_elem_of_filter in Hl. tauto.
Qed.

(** ** Dictionaries filled by a loop *)

Section fill.
Context {A V : Type} (key : A → list N) (val : A → V).
Implicit Types (l : list A) (m : gmap (list N) V).

(** [for x in l: m[key(x)] = val(x)] *)
Definition fill m l : gmap (list N) V := foldl (λ m x, <[key x := val x]> m) m l.

Lemma fill_other m l k : k ∉ map key l → fill m l !! k = m !! k.
Proof.
  unfold fill. revert m. induction l as [|x l IH]; intros m; simpl; [done|].
  rewrite not_elem_of_cons. intros [Hx Hl]. rewrite IH by done.
  by rewrite lookup_insert_ne.
Qed.

Lemma fill_lookup m l x :
  NoDup (map key l) → x ∈ l → fill m l !! key x = Some (val x).
Proof.
  unfold fill. revert m. induction l as [|y l IH]; intros m; simpl; [set_solver|].
  intros [Hy Hl]%NoDup_cons [->|Hx]%elem_of_cons.
  - pose proof (fill_other (<[key y := val y]> m) l (key y) Hy) as Ho.
    unfold fill in Ho. rewrite Ho. apply lookup_insert_eq.
  - by apply IH.
Qed.

(** The last entry of a key wins. *)
Lemma fill_last m l k :
  fill m l !! k =
    match last (filter (λ x, key x = k) l) with Some x => Some (val x) | None => m !! k end.
Proof.
  unfold fill. induction l as [|x l IH] using rev_ind; [done|].
  rewrite foldl_snoc, filter_app. cbn [filter list_filter].
  destruct (decide (key x = k)) as [<-|Hne].
  - rewrite last_snoc. apply lookup_insert_eq.
  - rewrite app_nil_r, lookup_insert_ne by done. apply IH.
Qed.

(** Filled from nothing with distinct keys: these entries and no others. *)
Lemma fill_empty_iff l k v :
  NoDup (map key l) → fill ∅ l !! k = Some v ↔ ∃ x, x ∈ l ∧ k = key x ∧ v = val x.
Proof.
  intros Hnd. split; [|by intros (x & Hx & -> & ->); apply fill_lookup].
  rewrite fill_last, lookup_empty.
  destruct (last _) as [x|] eqn:Hl; [intros [= <-]|done].
  apply last_Some_elem_of, list_elem_of_filter in Hl as [<- Hx]. by exists x.
Qed.

Lemma fill_size m l :
  NoDup (map key l) → (∀ x, x ∈ l → m !! key x = None) →
  size (fill m l) = (size m + length l)%nat.
Proof.
  unfold fill. revert m. induction l as [|x l IH]; intros m; cbn [map foldl length]; [lia|].
  intros [Hx Hnd]%NoDup_cons Hm. rewrite IH; [|done|].
  - rewrite map_size_insert_None; [lia|]. apply Hm, elem_of_cons. by left.
  - intros y Hy. rewrite lookup_insert_ne; [apply Hm, elem_of_cons; by right|].
    intros Heq. apply Hx. rewrite Heq. by apply list_elem_of_fmap_2.
Qed.
End fill.

(** Case analysis on everything a computation branches on. *)
Ltac case_all :=
  repeat (case_match || case_decide || case_bool_decide); simplify_eq/=.

(** Invert a chain of binds that succeeded. *)
Ltac inv_ok :=
  repeat match goal with
  | H : (_ ≫= _) = Ok _ |- _ => apply bind_Ok in H as (? & ? & H)
  | H : raise_if _ _ = Ok _ |- _ => apply raise_if_Ok in H
  | H : map_err _ _ = Ok _ |- _ => apply map_err_Ok in H
  | H : of_option _ _ = Ok _ |- _ => apply of_option_Ok in H
  | H : Ok _ = Ok _ |- _ => injection H as H; try subst
  | H : Err _ = Ok _ |- _ => discriminate H
  | H : (_ || _) = false |- _ => apply orb_false_iff in H as [? H]
  | H : negb _ = false |- _ => apply negb_false_iff in H
  | H : bool_decide _ = true |- _ => apply bool_decide_eq_true in H
  | H : bool_decide _ = false |- _ => apply bool_decide_eq_false in H
  end.

(** Invert a chain of stateful binds that succeeded. *)
Ltac inv_run :=
  repeat match goal with
  | H : (_ ≫= _) _ = (Ok _, _) |- _ =>
      apply M_bind_Ok in H as (? & ? & ? & H)
  | H : get _ = (_, _) |- _ => injection H as ??; subst
  | H : put _ _ = (_, _) |- _ => injection H as ??; subst
  | H : modify _ _ = (_, _) |- _ => injection H as ??; subst
  | H : mret _ _ = (_, _) |- _ => injection H as ??; subst
  | H : throw _ _ = (Ok _, _) |- _ => discriminate H
  | H : lift _ _ = (_, _) |- _ => injection H as ??; subst
  | H : transaction _ _ = (Ok _, _) |- _ => rewrite transaction_Ok in H
  end.
