(* ===== verification/Text.v ===== *)
(** * Text: Python's [str], [int] and [bytes] as far as the program uses them.

    A [str] is the list of its Unicode code points, so [len], slices,
    iteration and comparison are those of lists.  Decimal printing and
    parsing, UTF-8 encoding, stripping and lower-casing are defined on it,
    with the round-trip lemmas the other files rely on.  [lower] maps the
    ASCII letters only: the program compares its result with ASCII words, on
    which the Unicode mapping cannot produce a new match. *)
From S2P Require Import Prelude.
Local Open Scope N_scope.

Abbreviation str := (list N).

Fixpoint u (s : string) : str :=
  match s with
  | EmptyString => []
  | String c s' => Ascii.N_of_ascii c :: u s'
  end.

(** ** Order: Python compares strings by code points. *)
Fixpoint str_ltb (a b : str) : bool :=
  match a, b with
  | _, [] => false
  | [], _ :: _ => true
  | x :: a', y :: b' => (x <? y) || ((x =? y) && str_ltb a' b')
  end.
Definition str_leb (a b : str) : bool := negb (str_ltb b a).

(** ** Character classes *)
Definition in_range (lo hi c : N) : bool := (lo <=? c) && (c <=? hi).
Definition is_digit (c : N) : bool := in_range 48 57 c.
Definition is_upper (c : N) : bool := in_range 65 90 c.
Definition is_lower (c : N) : bool := in_range 97 122 c.

(** [str.isspace] of one character. *)
Definition is_space (c : N) : bool :=
  in_range 9 13 c || in_range 28 32 c || (c =? 133) || (c =? 160) ||
  (c =? 5760) || in_range 8192 8202 c || (c =? 8232) || (c =? 8233) ||
  (c =? 8239) || (c =? 8287) || (c =? 12288).

Definition lower_char (c : N) : N := if is_upper c then c + 32 else c.
Definition lower (s : str) : str := map lower_char s.

Fixpoint lstrip (s : str) : str :=
  match s with
  | [] => []
  | c :: s' => if is_space c then lstrip s' else s
  end.
Definition strip (s : str) : str := reverse (lstrip (reverse (lstrip s))).

Fixpoint starts_with (p s : str) : bool :=
  match p, s with
  | [], _ => true
  | x :: p', y :: s' => (x =? y) && starts_with p' s'
  | _ :: _, [] => false
  end.

(** [p in s] for two strings. *)
Fixpoint contains (p s : str) : bool :=
  starts_with p s || match s with [] => false | _ :: s' => contains p s' end.

Definition ends_with (p s : str) : bool := starts_with (reverse p) (reverse s).

(** [s.split(sep, 1)] for a one-character separator. *)
Fixpoint split1 (sep : N) (s : str) : str * option str :=
  match s with
  | [] => ([], None)
  | c :: s' =>
      if c =? sep then ([], Some s')
      else let '(a, b) := split1 sep s' in (c :: a, b)
  end.

(** [value[i:j]]. *)
Definition slice (i j : nat) (s : str) : str := take (j - i) (drop i s).

(** ** Decimal digits of any script

    Python's [\d] and [int] accept every character of category [Nd]; these come
    in 66 runs of ten (Unicode 14, Python 3.11). *)
Definition decimal_zeros : list N :=
  [48; 1632; 1776; 1984; 2406; 2534; 2662; 2790; 2918; 3046; 3174; 3302; 3430;
   3558; 3664; 3792; 3872; 4160; 4240; 6112; 6160; 6470; 6608; 6784; 6800; 6992;
   7088; 7232; 7248; 42528; 43216; 43264; 43472; 43504; 43600; 44016; 65296;
   66720; 68912; 69734; 69872; 69942; 70096; 70384; 70736; 70864; 71248; 71360;
   71472; 71904; 72016; 72784; 73040; 73120; 92768; 92864; 93008; 120782;
   120792; 120802; 120812; 120822; 123200; 123632; 125264; 130032].

Definition digit_value (c : N) : option Z :=
  match List.find (λ z, in_range z (z + 9) c) decimal_zeros with
  | Some z => Some (Z.of_N (c - z))
  | None => None
  end.
Definition is_decimal (c : N) : bool :=
  match digit_value c with Some _ => true | None => false end.

(** [int] of a non-empty run of decimal digits. *)
Fixpoint int_of_digits_from (acc : Z) (s : str) : option Z :=
  match s with
  | [] => Some acc
  | c :: s' =>
      match digit_value c with
      | Some d => int_of_digits_from (acc * 10 + d)%Z s'
      | None => None
      end
  end.
Definition int_of_digits (s : str) : option Z :=
  match s with [] => None | _ => int_of_digits_from 0 s end.

(** The value of [int(s)] where the program knows [s] to be digits. *)
Definition int_digits (s : str) : Z := default 0%Z (int_of_digits s).

(** ** Decimal printing *)

(** ["%0kd"] of a number below [10^k]. *)
Fixpoint pad (k : nat) (n : Z) : str :=
  match k with
  | O => []
  | S k' => pad k' (n / 10) ++ [48 + Z.to_N (n mod 10)]
  end.

Fixpoint uint_chars (d : Decimal.uint) : str :=
  match d with
  | Decimal.Nil => []
  | Decimal.D0 d => 48 :: uint_chars d
  | Decimal.D1 d => 49 :: uint_chars d
  | Decimal.D2 d => 50 :: uint_chars d
  | Decimal.D3 d => 51 :: uint_chars d
  | Decimal.D4 d => 52 :: uint_chars d
  | Decimal.D5 d => 53 :: uint_chars d
  | Decimal.D6 d => 54 :: uint_chars d
  | Decimal.D7 d => 55 :: uint_chars d
  | Decimal.D8 d => 56 :: uint_chars d
  | Decimal.D9 d => 57 :: uint_chars d
  end.

Definition uint_cons (c : N) (d : Decimal.uint) : Decimal.uint :=
  match c with
  | 48 => Decimal.D0 d | 49 => Decimal.D1 d | 50 => Decimal.D2 d
  | 51 => Decimal.D3 d | 52 => Decimal.D4 d | 53 => Decimal.D5 d
  | 54 => Decimal.D6 d | 55 => Decimal.D7 d | 56 => Decimal.D8 d
  | _ => Decimal.D9 d
  end.
Fixpoint chars_uint (s : str) : Decimal.uint :=
  match s with
  | [] => Decimal.Nil
  | c :: s' => uint_cons c (chars_uint s')
  end.

(** [str(n)] for an [int]. *)
Definition dec_of_N (n : N) : str := uint_chars (N.to_uint n).
Definition dec_of_Z (z : Z) : str :=
  match z with
  | Zneg p => 45 :: dec_of_N (Npos p)
  | _ => dec_of_N (Z.to_N z)
  end.
Definition N_of_dec (s : str) : N := N.of_uint (chars_uint s).

(** ** UTF-8: [s.encode("utf-8")] *)
Definition utf8_char (c : N) : list N :=
  if c <? 128 then [c]
  else if c <? 2048 then [192 + c / 64; 128 + c mod 64]
  else if c <? 65536 then
    [224 + c / 4096; 128 + (c / 64) mod 64; 128 + c mod 64]
  else
    [240 + c / 262144; 128 + (c / 4096) mod 64; 128 + (c / 64) mod 64;
     128 + c mod 64].
Definition utf8 (s : str) : list N := concat (map utf8_char s).

(** ** Lemmas *)

Lemma in_range_true lo hi c : in_range lo hi c = true ↔ lo ≤ c ≤ hi.
Proof. unfold in_range. by rewrite andb_true_iff, !N.leb_le. Qed.

Lemma str_ltb_irrefl a : str_ltb a a = false.
Proof.
  induction a as [|x a IH]; simpl; [done|].
  by rewrite N.ltb_irrefl, N.eqb_refl, IH.
Qed.

Lemma str_ltb_trans a b c :
  str_ltb a b = true → str_ltb b c = true → str_ltb a c = true.
Proof.
  revert b c. induction a as [|x a IH]; intros [|y b] [|z c]; simpl; try done.
  rewrite !orb_true_iff, !andb_true_iff, !N.ltb_lt, !N.eqb_eq.
  intros [?|[-> ?]] [?|[-> ?]]; [left; lia|auto|auto|eauto].
Qed.

Lemma str_ltb_antisym a b : str_ltb a b = false → str_ltb b a = false → a = b.
Proof.
  revert b. induction a as [|x a IH]; intros [|y b]; simpl; try done.
  rewrite !orb_false_iff, !andb_false_iff, !N.ltb_ge, !N.eqb_neq.
  intros [H1 H2] [H3 H4]. assert (x = y) as -> by lia. f_equal. apply IH; tauto.
Qed.

Lemma str_ltb_asym a b : str_ltb a b = true → str_ltb b a = false.
Proof.
  intros Hab. apply not_true_iff_false. intros Hba.
  pose proof (str_ltb_trans a b a Hab Hba) as Haa. by rewrite str_ltb_irrefl in Haa.
Qed.

Lemma str_leb_trans a b c : str_leb a b = true → str_leb b c = true → str_leb a c = true.
Proof.
  unfold str_leb. rewrite !negb_true_iff. intros Hab Hbc. apply not_true_iff_false. intros Hca.
  destruct (str_ltb a b) eqn:H.
  - rewrite (str_ltb_trans c a b) in Hbc by done. done.
  - pose proof (str_ltb_antisym a b H Hab). subst. congruence.
Qed.

Lemma str_leb_total a b : str_leb a b = true ∨ str_leb b a = true.
Proof.
  unfold str_leb. rewrite !negb_true_iff. destruct (str_ltb b a) eqn:Hb; [right|by left].
  by apply str_ltb_asym.
Qed.

Lemma str_ltb_app_same p a b : str_ltb (p ++ a) (p ++ b) = str_ltb a b.
Proof.
  induction p as [|x p IH]; simpl; [done|].
  by rewrite N.ltb_irrefl, N.eqb_refl, IH.
Qed.

(** Strings of one length compare by their first half, then by the rest. *)
Lemma str_ltb_app a1 a2 b1 b2 :
  length a1 = length b1 →
  str_ltb (a1 ++ a2) (b1 ++ b2) =
    str_ltb a1 b1 || (bool_decide (a1 = b1) && str_ltb a2 b2).
Proof.
  revert b1. induction a1 as [|x a1 IH]; intros [|y b1] Hl; simplify_eq/=; [done|].
  rewrite (IH _ Hl). destruct (N.ltb_spec x y); simpl; [done|].
  destruct (N.eqb_spec x y) as [->|]; simpl.
  - destruct (str_ltb a1 b1); simpl; [done|]. f_equal.
    apply bool_decide_ext. naive_solver.
  - rewrite bool_decide_eq_false_2 by naive_solver. done.
Qed.

Lemma pad_length k n : length (pad k n) = k.
Proof.
  revert n. induction k as [|k IH]; intros n; simpl; [done|].
  rewrite length_app, IH. simpl. lia.
Qed.

Lemma pad_digits k n : Forall (λ c, is_digit c = true) (pad k n).
Proof.
  revert n. induction k as [|k IH]; intros n; simpl; [done|].
  apply Forall_app. split; [apply IH|]. apply Forall_singleton.
  pose proof (Z.mod_pos_bound n 10 ltac:(lia)).
  apply in_range_true. lia.
Qed.

Lemma digit_value_ascii c :
  is_digit c = true → digit_value c = Some (Z.of_N c - 48)%Z.
Proof.
  unfold is_digit. intros H. unfold digit_value, decimal_zeros.
  cbn [List.find]. change (48 + 9) with 57. rewrite H.
  apply in_range_true in H. f_equal. lia.
Qed.

Lemma int_of_digits_from_app acc s1 s2 :
  int_of_digits_from acc (s1 ++ s2) =
    int_of_digits_from acc s1 ≫= λ a, int_of_digits_from a s2.
Proof.
  revert acc. induction s1 as [|c s1 IH]; intros acc; simpl; [done|].
  destruct (digit_value c); [apply IH|done].
Qed.

Lemma int_of_pad_from acc k n :
  (0 ≤ n < 10 ^ Z.of_nat k)%Z →
  int_of_digits_from acc (pad k n) = Some (acc * 10 ^ Z.of_nat k + n)%Z.
Proof.
  revert acc n. induction k as [|k IH]; intros acc n Hn; simpl.
  - f_equal. change (Z.of_nat 0) with 0%Z in *. lia.
  - rewrite Nat2Z.inj_succ, Z.pow_succ_r in * by lia.
    rewrite int_of_digits_from_app, IH by
      (split; [apply Z.div_pos; lia|apply Z.div_lt_upper_bound; lia]).
    simpl. pose proof (Z.mod_pos_bound n 10 ltac:(lia)).
    rewrite digit_value_ascii by (apply in_range_true; lia).
    f_equal. rewrite (Z.div_mod n 10) at 3 by lia. lia.
Qed.

(** A zero-padded number reads back as itself. *)
Lemma int_digits_pad k n :
  k ≠ O → (0 ≤ n < 10 ^ Z.of_nat k)%Z → int_digits (pad k n) = n.
Proof.
  intros Hk Hn. unfold int_digits, int_of_digits.
  destruct (pad k n) eqn:Hp.
  - apply (f_equal length) in Hp. rewrite pad_length in Hp. simpl in Hp. lia.
  - rewrite <-Hp, int_of_pad_from by done. simpl. lia.
Qed.

Lemma pad_inj k m n :
  (0 ≤ m < 10 ^ Z.of_nat k)%Z → (0 ≤ n < 10 ^ Z.of_nat k)%Z →
  pad k m = pad k n → m = n.
Proof.
  destruct k as [|k]; [simpl; change (10 ^ Z.of_nat 0)%Z with 1%Z; lia|].
  intros Hm Hn Heq. by rewrite <-(int_digits_pad (S k) m), Heq, int_digits_pad.
Qed.

(** Fixed-width decimals compare as the numbers they denote. *)
Lemma str_ltb_pad k m n :
  (0 ≤ m < 10 ^ Z.of_nat k)%Z → (0 ≤ n < 10 ^ Z.of_nat k)%Z →
  str_ltb (pad k m) (pad k n) = (m <? n)%Z.
Proof.
  revert m n. induction k as [|k IH]; intros m n Hm Hn.
  - change (10 ^ Z.of_nat 0)%Z with 1%Z in *. simpl. lia.
  - rewrite Nat2Z.inj_succ, Z.pow_succ_r in * by lia. simpl.
    rewrite str_ltb_app by (by rewrite !pad_length).
    assert (0 ≤ m / 10 < 10 ^ Z.of_nat k)%Z by
      (split; [apply Z.div_pos; lia|apply Z.div_lt_upper_bound; lia]).
    assert (0 ≤ n / 10 < 10 ^ Z.of_nat k)%Z by
      (split; [apply Z.div_pos; lia|apply Z.div_lt_upper_bound; lia]).
    rewrite IH by done.
    rewrite (bool_decide_ext _ (m / 10 = n / 10)%Z) by
      (split; [by apply pad_inj|congruence]).
    simpl. rewrite andb_false_r, orb_false_r.
    pose proof (Z.mod_pos_bound m 10 ltac:(lia)).
    pose proof (Z.mod_pos_bound n 10 ltac:(lia)).
    pose proof (Z.div_mod m 10 ltac:(lia)). pose proof (Z.div_mod n 10 ltac:(lia)).
    apply eq_true_iff_eq.
    rewrite orb_true_iff, andb_true_iff, bool_decide_eq_true, !Z.ltb_lt, N.ltb_lt.
    lia.
Qed.

Lemma uint_chars_digits d : Forall (λ c, is_digit c = true) (uint_chars d).
Proof. induction d; simpl; constructor; done. Qed.

Lemma chars_uint_chars d : chars_uint (uint_chars d) = d.
Proof. induction d; simpl; by f_equal. Qed.

Lemma N_of_dec_of_N n : N_of_dec (dec_of_N n) = n.
Proof.
  unfold N_of_dec, dec_of_N. rewrite chars_uint_chars.
  apply DecimalN.Unsigned.of_to.
Qed.

Lemma dec_of_N_digits n : Forall (λ c, is_digit c = true) (dec_of_N n).
Proof. apply uint_chars_digits. Qed.

Lemma dec_of_N_nonempty n : dec_of_N n ≠ [].
Proof.
  unfold dec_of_N. intros H.
  pose proof (DecimalN.Unsigned.to_of (N.to_uint n)) as H1.
  rewrite DecimalN.Unsigned.of_to in H1.
  destruct (N.to_uint n); simpl in *; discriminate.
Qed.

Lemma dec_of_N_inj m n : dec_of_N m = dec_of_N n → m = n.
Proof. intros H. by rewrite <-(N_of_dec_of_N m), H, N_of_dec_of_N. Qed.

(** ** Length of a decimal *)

Lemma of_uint_acc_bound d acc :
  (10 ^ N.of_nat (length (uint_chars d)) * N.pos acc <= N.pos (Pos.of_uint_acc d acc)).
Proof.
  revert acc. induction d as [|d IH|d IH|d IH|d IH|d IH|d IH|d IH|d IH|d IH|d IH];
    intros acc; cbn [uint_chars length Pos.of_uint_acc]; [simpl; lia|..];
    rewrite Nat2N.inj_succ, N.pow_succ_r';
    (etrans; [|apply IH]); rewrite <-N.mul_assoc, (N.mul_comm 10), <-N.mul_assoc;
    apply N.mul_le_mono_l; lia.
Qed.

Lemma dec_of_N_lower n :
  n ≠ 0 → 10 ^ (N.of_nat (length (dec_of_N n)) - 1) <= n.
Proof.
  intros Hn. unfold dec_of_N.
  pose proof (DecimalN.Unsigned.of_to n) as Hof.
  pose proof (DecimalN.Unsigned.to_of (N.to_uint n)) as H. rewrite Hof in H.
  unfold Decimal.unorm in H.
  assert (∀ d d', Decimal.nzhead d ≠ Decimal.D0 d') as Hz.
  { intros d d'. induction d; simpl; try done; auto. }
  rewrite <-Hof at 2. revert H. specialize (Hz (N.to_uint n)).
  destruct (Decimal.nzhead (N.to_uint n)) as [|d|d|d|d|d|d|d|d|d|d];
    intros H; [|by destruct (Hz d)|..].
  { rewrite H in Hof. simpl in Hof. lia. }
  all: rewrite H; cbn [uint_chars length N.of_uint Pos.of_uint];
    rewrite Nat2N.inj_succ, <-N.add_1_r, N.add_sub;
    (etrans; [|apply of_uint_acc_bound]); lia.
Qed.

(** A number below [10^k] prints on at most [k] characters. *)
Lemma dec_of_N_length n k :
  (0 < k)%nat → n < 10 ^ N.of_nat k → (length (dec_of_N n) <= k)%nat.
Proof.
  intros Hk Hn. destruct (N.eq_dec n 0) as [->|H0]; [simpl; lia|].
  pose proof (dec_of_N_lower n H0) as Hl.
  assert (10 ^ (N.of_nat (length (dec_of_N n)) - 1) < 10 ^ N.of_nat k) as Hlt by lia.
  apply N.pow_lt_mono_r_iff in Hlt; lia.
Qed.
