(* ===== verification/Utf8.v ===== *)
(** * Utf8: [bytes.decode("utf-8")], the strict decoder.

    It refuses truncated and overlong sequences, surrogates and values above
    U+10FFFF ([None] is [UnicodeDecodeError]); it inverts the encoder of
    [Text.v] on texts of scalar values. *)
From S2P Require Import Prelude Text.
Local Open Scope N_scope.

Definition is_continuation (b : N) : bool := in_range 128 191 b.

(** A Unicode scalar value: no surrogate. *)
Definition scalar (c : N) : bool := (c <? 55296) || in_range 57344 1114111 c.

Fixpoint utf8_decode (l : list N) : option str :=
  match l with
  | [] => Some []
  | b :: l1 =>
      if b <? 128 then cons b <$> utf8_decode l1
      else
        match l1 with
        | [] => None
        | b1 :: l2 =>
            if in_range 194 223 b && is_continuation b1
            then cons ((b - 192) * 64 + (b1 - 128)) <$> utf8_decode l2
            else
              match l2 with
              | [] => None
              | b2 :: l3 =>
                  if in_range 224 239 b && is_continuation b1 && is_continuation b2
                  then
                    let c := (b - 224) * 4096 + (b1 - 128) * 64 + (b2 - 128) in
                    if (2048 <=? c) && scalar c then cons c <$> utf8_decode l3 else None
                  else
                    match l3 with
                    | [] => None
                    | b3 :: l4 =>
                        if in_range 240 244 b && is_continuation b1 && is_continuation b2 &&
                           is_continuation b3
                        then
                          let c := (b - 240) * 262144 + (b1 - 128) * 4096 + (b2 - 128) * 64 +
                                   (b3 - 128) in
                          if in_range 65536 1114111 c then cons c <$> utf8_decode l4 else None
                        else None
                    end
              end
        end
  end.

#[local] Ltac Zify.zify_post_hook ::= Z.to_euclidean_division_equations.

Lemma continuation_byte x : is_continuation (128 + x mod 64) = true.
Proof.
  unfold is_continuation. apply in_range_true. lia.
Qed.

Ltac decide_bytes :=
  repeat match goal with
  | |- context [?a <? ?b] =>
      first [rewrite (proj2 (N.ltb_lt a b)) by lia | rewrite (proj2 (N.ltb_ge a b)) by lia]
  | |- context [in_range ?a ?b ?c] =>
      first [rewrite (proj2 (in_range_true a b c)) by lia
            |replace (in_range a b c) with false
               by (symmetry; apply not_true_iff_false; rewrite in_range_true; lia)]
  end; rewrite ?continuation_byte; cbn [andb].

Lemma utf8_decode_char c rest :
  scalar c = true → utf8_decode (utf8_char c ++ rest) = cons c <$> utf8_decode rest.
Proof.
  intros Hc. unfold utf8_char.
  assert (c < 55296 ∨ 57344 <= c <= 1114111) as Hs.
  { unfold scalar in Hc. rewrite orb_true_iff, N.ltb_lt, in_range_true in Hc. done. }
  destruct (N.ltb_spec c 128); [cbn [app utf8_decode]; by decide_bytes|].
  destruct (N.ltb_spec c 2048); [|destruct (N.ltb_spec c 65536)]; cbn [app utf8_decode].
  - assert (2 <= c / 64 < 32) as Hd by (split; [apply N.div_le_lower_bound|apply N.Div0.div_lt_upper_bound]; lia).
    decide_bytes. do 2 f_equal. pose proof (N.div_mod' c 64). lia.
  - assert (c / 4096 < 16) as Hd by (apply N.Div0.div_lt_upper_bound; lia).
    decide_bytes.
    replace ((224 + c / 4096 - 224) * 4096 + (128 + c / 64 mod 64 - 128) * 64 +
      (128 + c mod 64 - 128)) with c.
    + rewrite Hc, (proj2 (N.leb_le _ _)) by lia. done.
    + pose proof (N.div_mod' c 64). pose proof (N.div_mod' (c / 64) 64).
      rewrite N.Div0.div_div in *. change (64 * 64) with 4096 in *. lia.
  - assert (c / 262144 < 5) as Hd by (apply N.Div0.div_lt_upper_bound; lia).
    decide_bytes.
    replace ((240 + c / 262144 - 240) * 262144 + (128 + c / 4096 mod 64 - 128) * 4096 +
      (128 + c / 64 mod 64 - 128) * 64 + (128 + c mod 64 - 128)) with c; [by decide_bytes|].
    pose proof (N.div_mod' c 64). pose proof (N.div_mod' (c / 64) 64).
    pose proof (N.div_mod' (c / 4096) 64). rewrite !N.Div0.div_div in *.
    change (64 * 64) with 4096 in *. change (4096 * 64) with 262144 in *. lia.
Qed.

(** The decoder inverts the encoder on every text without surrogates. *)
Lemma utf8_decode_utf8 s : Forall (λ c, scalar c = true) s → utf8_decode (utf8 s) = Some s.
Proof.
  induction 1 as [|c s Hc _ IH]; [done|]. unfold utf8 in *. cbn [map concat].
  by rewrite utf8_decode_char, IH.
Qed.

(** [s.encode("utf-8")]; [None] is [UnicodeEncodeError], for a surrogate. *)
Definition utf8_encode (s : str) : option (list N) :=
  if forallb scalar s then Some (utf8 s) else None.

Lemma utf8_encode_Some s b : utf8_encode s = Some b ↔ Forall (λ c, scalar c = true) s ∧ b = utf8 s.
Proof.
  unfold utf8_encode. rewrite Forall_forall. destruct (forallb scalar s) eqn:Hs.
  - rewrite forallb_forall in Hs. split; [|naive_solver]. intros [= <-]. split; [|done].
    intros c Hc. apply Hs. by apply list_elem_of_In.
  - split; [done|]. intros [Hall _]. assert (forallb scalar s = true); [|congruence].
    apply forallb_forall. intros c Hc. apply Hall. by apply list_elem_of_In.
Qed.

(** Decoding inverts encoding. *)
Lemma utf8_decode_encode s b : utf8_encode s = Some b → utf8_decode b = Some s.
Proof. intros [Hs ->]%utf8_encode_Some. by apply utf8_decode_utf8. Qed.
