(* ===== verification/Sha256.v ===== *)
(** * Sha256: the digest behind every identity of the program.

    [hashlib.sha256(data).hexdigest()] (FIPS 180-4) on a list of bytes.  It is
    computed, not assumed, so identities can be evaluated on examples; nothing
    is claimed of it but the shape of its output.  Where the program relies on
    two digests differing, the theorems name the pair of inputs a failure would
    exhibit as a collision. *)
From S2P Require Import Prelude Text.
Local Open Scope N_scope.

Definition w32 (x : N) : N := N.land x 4294967295.
Definition rotr (n x : N) : N := w32 (N.lor (N.shiftr x n) (N.shiftl x (32 - n))).
Definition not32 (x : N) : N := N.lxor x 4294967295.

Definition round_constants : list N :=
  [1116352408; 1899447441; 3049323471; 3921009573; 961987163; 1508970993;
   2453635748; 2870763221; 3624381080; 310598401; 607225278; 1426881987;
   1925078388; 2162078206; 2614888103; 3248222580; 3835390401; 4022224774;
   264347078; 604807628; 770255983; 1249150122; 1555081692; 1996064986;
   2554220882; 2821834349; 2952996808; 3210313671; 3336571891; 3584528711;
   113926993; 338241895; 666307205; 773529912; 1294757372; 1396182291;
   1695183700; 1986661051; 2177026350; 2456956037; 2730485921; 2820302411;
   3259730800; 3345764771; 3516065817; 3600352804; 4094571909; 275423344;
   430227734; 506948616; 659060556; 883997877; 958139571; 1322822218;
   1537002063; 1747873779; 1955562222; 2024104815; 2227730452; 2361852424;
   2428436474; 2756734187; 3204031479; 3329325298].

Definition initial_hash : list N :=
  [1779033703; 3144134277; 1013904242; 2773480762; 1359893119; 2600822924;
   528734635; 1541459225].

Definition small_sigma0 (x : N) : N :=
  N.lxor (rotr 7 x) (N.lxor (rotr 18 x) (N.shiftr x 3)).
Definition small_sigma1 (x : N) : N :=
  N.lxor (rotr 17 x) (N.lxor (rotr 19 x) (N.shiftr x 10)).
Definition big_sigma0 (x : N) : N :=
  N.lxor (rotr 2 x) (N.lxor (rotr 13 x) (rotr 22 x)).
Definition big_sigma1 (x : N) : N :=
  N.lxor (rotr 6 x) (N.lxor (rotr 11 x) (rotr 25 x)).
Definition choose (x y z : N) : N := N.lxor (N.land x y) (N.land (not32 x) z).
Definition majority (x y z : N) : N :=
  N.lxor (N.land x y) (N.lxor (N.land x z) (N.land y z)).

(** The message schedule, newest word first. *)
Fixpoint extend_schedule (n : nat) (w : list N) : list N :=
  match n with
  | O => w
  | S n' =>
      let at_ i := nth i w 0 in
      let x := w32 (small_sigma1 (at_ 1%nat) + at_ 6%nat +
                    small_sigma0 (at_ 14%nat) + at_ 15%nat) in
      extend_schedule n' (x :: w)
  end.

Definition sha_round (h : list N) (kw : N * N) : list N :=
  match h with
  | [a; b; c; d; e; f; g; hh] =>
      let t1 := hh + big_sigma1 e + choose e f g + kw.1 + kw.2 in
      let t2 := big_sigma0 a + majority a b c in
      [w32 (t1 + t2); a; b; c; w32 (d + t1); e; f; g]
  | _ => h
  end.

Definition compress (h : list N) (block : list N) : list N :=
  let w := rev (extend_schedule 48 (rev block)) in
  zip_with (λ x y, w32 (x + y)) h (fold_left sha_round (zip round_constants w) h).

Fixpoint words_of_bytes (l : list N) : list N :=
  match l with
  | a :: b :: c :: d :: l' =>
      N.shiftl a 24 + N.shiftl b 16 + N.shiftl c 8 + d :: words_of_bytes l'
  | _ => []
  end.

Fixpoint be_bytes (k : nat) (n : N) : list N :=
  match k with
  | O => []
  | S k' => be_bytes k' (n / 256) ++ [n mod 256]
  end.

Definition sha_padding (len : N) : list N :=
  128 :: repeat 0 (N.to_nat ((119 - len mod 64) mod 64)) ++ be_bytes 8 (8 * len).

Fixpoint blocks (fuel : nat) (w : list N) : list (list N) :=
  match fuel, w with
  | O, _ | _, [] => []
  | S fuel', _ => take 16 w :: blocks fuel' (drop 16 w)
  end.

Definition sha256_words (data : list N) : list N :=
  let w := words_of_bytes (data ++ sha_padding (N.of_nat (length data))) in
  fold_left compress (blocks (length w) w) initial_hash.

Definition hex_digit (d : N) : N := if d <? 10 then 48 + d else 87 + d.

Fixpoint hex_pad (k : nat) (n : N) : str :=
  match k with
  | O => []
  | S k' => hex_pad k' (n / 16) ++ [hex_digit (n mod 16)]
  end.

(** [hashlib.sha256(data).hexdigest()] *)
Definition sha256_bytes (data : list N) : str :=
  concat (map (hex_pad 8) (sha256_words data)).

(** [hashlib.sha256(s.encode("utf-8")).hexdigest()] *)
Definition sha256 (s : str) : str := sha256_bytes (utf8 s).

Example sha256_empty :
  sha256 [] = u "e3b0c44298fc1c149afbf4c8996fb92427ae41e4649b934ca495991b7852b855".
Proof. vm_compute. reflexivity. Qed.
Example sha256_abc :
  sha256 (u "abc") = u "ba7816bf8f01cfea414140de5dae2223b00361a396177a9cb410ff61f20015ad".
Proof. vm_compute. reflexivity. Qed.
Example sha256_two_blocks :
  sha256 (u "abcdbcdecdefdefgefghfghighijhijkijkljklmklmnlmnomnopnopq") =
  u "248d6a61d20638b8e5c026930c3e6039a33ce45964ff2167f6ecedd419db06c1".
Proof. vm_compute. reflexivity. Qed.

(** ** The shape of a digest *)

Definition is_hex (c : N) : bool := is_digit c || in_range 97 102 c.

Lemma hex_digit_is_hex d : d < 16 → is_hex (hex_digit d) = true.
Proof.
  intros Hd. unfold is_hex, hex_digit.
  destruct (N.ltb_spec d 10); apply orb_true_iff; [left|right];
    apply in_range_true; lia.
Qed.

Lemma hex_pad_length k n : length (hex_pad k n) = k.
Proof.
  revert n. induction k as [|k IH]; intros n; simpl; [done|].
  rewrite length_app, IH. simpl. lia.
Qed.

Lemma hex_pad_hex k n : Forall (λ c, is_hex c = true) (hex_pad k n).
Proof.
  revert n. induction k as [|k IH]; intros n; simpl; [done|].
  apply Forall_app. split; [apply IH|]. apply Forall_singleton.
  apply hex_digit_is_hex. by apply N.mod_lt.
Qed.

Lemma compress_length h b : length h = 8%nat → length (compress h b) = 8%nat.
Proof.
  intros Hh. unfold compress. rewrite length_zip_with.
  set (l := zip round_constants _). clearbody l.
  enough (∀ g, length g = 8%nat → length (fold_left sha_round l g) = 8%nat)
    as -> by lia.
  induction l as [|kw l IH]; intros g Hg; simpl; [done|]. apply IH.
  do 9 (destruct g as [|? g]; try done).
Qed.

Lemma sha256_words_length data : length (sha256_words data) = 8%nat.
Proof.
  unfold sha256_words. set (l := blocks _ _). clearbody l.
  enough (∀ h, length h = 8%nat → length (fold_left compress l h) = 8%nat) as H
    by (by apply H).
  induction l as [|b l IH]; intros h Hh; simpl; [done|].
  by apply IH, compress_length.
Qed.

Lemma sha256_bytes_length data : length (sha256_bytes data) = 64%nat.
Proof.
  unfold sha256_bytes. pose proof (sha256_words_length data) as H.
  set (w := sha256_words data) in *. clearbody w.
  do 9 (destruct w as [|? w]; try discriminate H).
  cbn [map concat]. rewrite !length_app, !hex_pad_length. done.
Qed.

Lemma sha256_length s : length (sha256 s) = 64%nat.
Proof. apply sha256_bytes_length. Qed.

Lemma sha256_hex s : Forall (λ c, is_hex c = true) (sha256 s).
Proof.
  unfold sha256, sha256_bytes. apply Forall_concat, Forall_forall.
  intros x (n & -> & _)%list_elem_of_fmap. apply hex_pad_hex.
Qed.

Definition collision (a b : str) : Prop := a ≠ b ∧ sha256 a = sha256 b.

(** Equal digests come from equal texts, unless the texts are a collision. *)
Lemma sha256_eq a b : sha256 a = sha256 b → a = b ∨ collision a b.
Proof. intros H. destruct (decide (a = b)); [by left|by right]. Qed.
