(* ===== verification/Json.v ===== *)
(** * Json: Python's [json.dumps] and [json.loads] on the values stored by the
    program, with the round trip that makes byte comparison of canonical texts
    the same as comparison of the values.

    [dumps sort j] is [json.dumps(j, ensure_ascii=False, separators=(",", ":"),
    sort_keys=sort)].  A float is carried as its literal ([JFloat]): the
    program never computes with one.  [loads] accepts JSON's grammar with
    Python's extensions ([NaN], [Infinity]); its fuel is the length of the text,
    which bounds both the nesting and the number of elements. *)
From S2P Require Import Prelude Text.
Local Open Scope N_scope.

Inductive json : Type :=
  | JNull
  | JBool (b : bool)
  | JInt (z : Z)
  | JFloat (repr : str)
  | JStr (s : str)
  | JList (l : list json)
  | JObj (l : list (str * json)).

Section json_ind.
Context (P : json → Prop).
Context (Hnull : P JNull) (Hbool : ∀ b, P (JBool b)) (Hint : ∀ z, P (JInt z)).
Context (Hfloat : ∀ r, P (JFloat r)) (Hstr : ∀ s, P (JStr s)).
Context (Hlist : ∀ l, Forall P l → P (JList l)).
Context (Hobj : ∀ l, Forall (λ kv, P kv.2) l → P (JObj l)).
Fixpoint json_rect' (j : json) : P j :=
  match j with
  | JNull => Hnull
  | JBool b => Hbool b
  | JInt z => Hint z
  | JFloat r => Hfloat r
  | JStr s => Hstr s
  | JList l => Hlist l ((fix go l : Forall P l :=
      match l with
      | [] => Forall_nil_2 P
      | x :: l' => Forall_cons_2 P x l' (json_rect' x) (go l')
      end) l)
  | JObj l => Hobj l ((fix go l : Forall (λ kv, P kv.2) l :=
      match l with
      | [] => Forall_nil_2 _
      | x :: l' => Forall_cons_2 (λ kv, P kv.2) x l' (json_rect' x.2) (go l')
      end) l)
  end.
End json_ind.

(** ** Printing *)

(** One character inside a JSON string. *)
Definition escape_char (c : N) : str :=
  if c =? 34 then [92; 34]
  else if c =? 92 then [92; 92]
  else if c =? 8 then [92; 98]
  else if c =? 9 then [92; 116]
  else if c =? 10 then [92; 110]
  else if c =? 12 then [92; 102]
  else if c =? 13 then [92; 114]
  else if c <? 32 then
    [92; 117; 48; 48; 48 + c / 16; if c mod 16 <? 10 then 48 + c mod 16 else 87 + c mod 16]
  else [c].
Definition escape (s : str) : str := concat (map escape_char s).
Definition quote (s : str) : str := 34 :: escape s ++ [34].

Fixpoint join (l : list str) : str :=
  match l with
  | [] => []
  | [x] => x
  | x :: l' => x ++ 44 :: join l'
  end.

(** [sorted(d.items())]: the keys of a dict are distinct, so only they count. *)
Fixpoint insert_item {A} (k : str) (v : A) (l : list (str * A)) : list (str * A) :=
  match l with
  | [] => [(k, v)]
  | (k', v') :: l' =>
      if str_ltb k k' then (k, v) :: l else (k', v') :: insert_item k v l'
  end.
Definition sort_items {A} (l : list (str * A)) : list (str * A) :=
  fold_left (λ acc kv, insert_item kv.1 kv.2 acc) l [].

Definition member (kv : str * str) : str := quote kv.1 ++ 58 :: kv.2.

Fixpoint dumps (sort : bool) (j : json) : str :=
  match j with
  | JNull => u "null"
  | JBool true => u "true"
  | JBool false => u "false"
  | JInt z => dec_of_Z z
  | JFloat r => r
  | JStr s => quote s
  | JList l => 91 :: join (map (dumps sort) l) ++ [93]
  | JObj l =>
      let items := map (λ kv, (kv.1, dumps sort kv.2)) l in
      123 :: join (map member (if sort then sort_items items else items)) ++ [125]
  end.

(** ** Parsing *)

Definition is_ws (c : N) : bool :=
  (c =? 32) || (c =? 9) || (c =? 10) || (c =? 13).
Fixpoint skip_ws (s : str) : str :=
  match s with
  | [] => []
  | c :: s' => if is_ws c then skip_ws s' else s
  end.

Definition hex_value (c : N) : option N :=
  if is_digit c then Some (c - 48)
  else if in_range 97 102 c then Some (c - 87)
  else if in_range 65 70 c then Some (c - 55)
  else None.
Definition hex4 (a b c d : N) : option N :=
  a' ← hex_value a; b' ← hex_value b; c' ← hex_value c; d' ← hex_value d;
  Some (4096 * a' + 256 * b' + 16 * c' + d').

(** A high surrogate escape directly followed by a low one is one character. *)
Definition join_surrogates (c : N) (s : str) : str :=
  match s with
  | d :: s' =>
      if in_range 55296 56319 c && in_range 56320 57343 d
      then 65536 + 1024 * (c - 55296) + (d - 56320) :: s'
      else c :: s
  | [] => [c]
  end.

Definition unescape (c : N) : option N :=
  if (c =? 34) || (c =? 92) || (c =? 47) then Some c
  else if c =? 98 then Some 8
  else if c =? 102 then Some 12
  else if c =? 110 then Some 10
  else if c =? 114 then Some 13
  else if c =? 116 then Some 9
  else None.

(** The characters up to the closing quote, and the text after it. *)
Fixpoint parse_chars (s : str) : option (str * str) :=
  match s with
  | [] => None
  | c :: s1 =>
      if c =? 34 then Some ([], s1)
      else if c =? 92 then
        match s1 with
        | [] => None
        | e :: s2 =>
            if e =? 117 then
              match s2 with
              | a :: b :: c' :: d :: s3 =>
                  x ← hex4 a b c' d;
                  '(t, rest) ← parse_chars s3;
                  Some (join_surrogates x t, rest)
              | _ => None
              end
            else
              x ← unescape e;
              '(t, rest) ← parse_chars s2;
              Some (x :: t, rest)
        end
      else if c <? 32 then None
      else '(t, rest) ← parse_chars s1; Some (c :: t, rest)
  end.

Fixpoint span_digits (s : str) : str * str :=
  match s with
  | c :: s' =>
      if is_digit c then let '(a, b) := span_digits s' in (c :: a, b)
      else ([], s)
  | [] => ([], [])
  end.

Definition parse_fraction (s : str) : str * str :=
  match s with
  | 46 :: s' =>
      match span_digits s' with
      | ([], _) => ([], s)
      | (ds, rest) => (46 :: ds, rest)
      end
  | _ => ([], s)
  end.
Definition parse_exponent (s : str) : str * str :=
  match s with
  | c :: s' =>
      if (c =? 101) || (c =? 69) then
        let '(sign, s'') :=
          match s' with
          | d :: t => if (d =? 43) || (d =? 45) then ([d], t) else ([], s')
          | [] => ([], s')
          end in
        match span_digits s'' with
        | ([], _) => ([], s)
        | (ds, rest) => (c :: sign ++ ds, rest)
        end
      else ([], s)
  | [] => ([], s)
  end.

(** An optional minus, an integer part without a leading zero, an optional
    fraction and an optional exponent. *)
Definition parse_integer_part (s : str) : str * str :=
  match s with
  | c :: t => if c =? 48 then ([48], t) else span_digits s
  | [] => ([], s)
  end.
Definition parse_unsigned (neg : bool) (s : str) : option (json * str) :=
  let '(ds, s2) := parse_integer_part s in
  match ds with
  | [] => None
  | _ =>
      let '(frac, s3) := parse_fraction s2 in
      let '(ex, s4) := parse_exponent s3 in
      let lit := (if neg then [45] else []) ++ ds in
      match frac ++ ex with
      | [] =>
          let n := Z.of_N (N_of_dec ds) in
          Some (JInt (if neg then - n else n)%Z, s4)
      | fe => Some (JFloat (lit ++ fe), s4)
      end
  end.
Definition parse_number (s : str) : option (json * str) :=
  match s with
  | c :: t => if c =? 45 then parse_unsigned true t else parse_unsigned false s
  | [] => None
  end.

(** Key order is that of first insertion; a repeated key keeps the last value. *)
Fixpoint dict_set {A} (k : str) (v : A) (l : list (str * A)) : list (str * A) :=
  match l with
  | [] => [(k, v)]
  | (k', v') :: l' =>
      if decide (k = k') then (k', v) :: l' else (k', v') :: dict_set k v l'
  end.
Definition dict_of_pairs {A} (l : list (str * A)) : list (str * A) :=
  fold_left (λ d kv, dict_set kv.1 kv.2 d) l [].

Fixpoint drop_prefix (p s : str) : option str :=
  match p, s with
  | [], _ => Some s
  | x :: p', y :: s' => if x =? y then drop_prefix p' s' else None
  | _ :: _, [] => None
  end.
Definition parse_word (w : string) (j : json) (s : str) : option (json * str) :=
  s' ← drop_prefix (u w) s; Some (j, s').

(** The parser, with the hooks [object_pairs_hook] and [parse_constant] of
    [json.loads]; a hook that gives [None] raises. *)
Section parser.
Context (pairs_hook : list (str * json) → option json) (constant_hook : str → option json).

Definition parse_constant (w : string) (s : str) : option (json * str) :=
  s' ← drop_prefix (u w) s; j ← constant_hook (u w); Some (j, s').

Fixpoint parse_value (fuel : nat) (s : str) : option (json * str) :=
  match fuel with
  | O => None
  | S f =>
      match s with
      | [] => None
      | c :: s1 =>
          if c =? 34 then
            '(t, rest) ← parse_chars s1; Some (JStr t, rest)
          else if c =? 123 then
            match skip_ws s1 with
            | d :: s2 =>
                if d =? 125 then j ← pairs_hook []; Some (j, s2)
                else '(l, rest) ← parse_members f (d :: s2);
                     j ← pairs_hook l; Some (j, rest)
            | [] => None
            end
          else if c =? 91 then
            match skip_ws s1 with
            | d :: s2 =>
                if d =? 93 then Some (JList [], s2)
                else '(l, rest) ← parse_elements f (d :: s2); Some (JList l, rest)
            | [] => None
            end
          else if c =? 110 then parse_word "null" JNull s
          else if c =? 116 then parse_word "true" (JBool true) s
          else if c =? 102 then parse_word "false" (JBool false) s
          else if c =? 78 then parse_constant "NaN" s
          else if c =? 73 then parse_constant "Infinity" s
          else
            match drop_prefix (u "-Infinity") s with
            | Some _ => parse_constant "-Infinity" s
            | None => parse_number s
            end
      end
  end
with parse_elements (fuel : nat) (s : str) : option (list json * str) :=
  match fuel with
  | O => None
  | S f =>
      '(v, s1) ← parse_value f s;
      match skip_ws s1 with
      | c :: s2 =>
          if c =? 93 then Some ([v], s2)
          else if c =? 44 then
            '(l, rest) ← parse_elements f (skip_ws s2); Some (v :: l, rest)
          else None
      | [] => None
      end
  end
with parse_members (fuel : nat) (s : str) : option (list (str * json) * str) :=
  match fuel with
  | O => None
  | S f =>
      match s with
      | c :: s1 =>
          if c =? 34 then
            '(k, s2) ← parse_chars s1;
            match skip_ws s2 with
            | c' :: s3 =>
                if c' =? 58 then
                  '(v, s4) ← parse_value f (skip_ws s3);
                  match skip_ws s4 with
                  | d :: s5 =>
                      if d =? 125 then Some ([(k, v)], s5)
                      else if d =? 44 then
                        '(l, rest) ← parse_members f (skip_ws s5);
                        Some ((k, v) :: l, rest)
                      else None
                  | [] => None
                  end
                else None
            | [] => None
            end
          else None
      | [] => None
      end
  end.

Definition loads_with (s : str) : option json :=
  '(j, rest) ← parse_value (S (length s)) (skip_ws s);
  match skip_ws rest with [] => Some j | _ => None end.
End parser.

Definition dict_hook (l : list (str * json)) : option json := Some (JObj (dict_of_pairs l)).
Definition float_hook (w : str) : option json := Some (JFloat w).

(** [json.loads(s)]; [None] is [JSONDecodeError]. *)
Definition loads (s : str) : option json := loads_with dict_hook float_hook s.

(** A hook that refuses a repeated key. *)
Definition unique_hook (l : list (str * json)) : option json :=
  if bool_decide (NoDup l.*1) then Some (JObj l) else None.

(** [json.dumps] with [sort_keys=True], as every stored text is written. *)
Definition canonical (j : json) : str := dumps true j.

Fixpoint sorted_keys (j : json) : json :=
  match j with
  | JList l => JList (map sorted_keys l)
  | JObj l => JObj (sort_items (map (λ kv, (kv.1, sorted_keys kv.2)) l))
  | _ => j
  end.

(** What is read back of a text that was written with or without sorting. *)
Fixpoint read_back (sort : bool) (j : json) : json :=
  match j with
  | JList l => JList (map (read_back sort) l)
  | JObj l =>
      let items := map (λ kv, (kv.1, read_back sort kv.2)) l in
      JObj (if sort then sort_items items else items)
  | _ => j
  end.

(** Values whose objects have distinct keys and whose floats are JSON literals. *)
Fixpoint plain (j : json) : Prop :=
  match j with
  | JFloat r => parse_number r = Some (JFloat r, [])
  | JList l => foldr (λ x P, plain x ∧ P) True l
  | JObj l => NoDup l.*1 ∧ foldr (λ kv P, plain kv.2 ∧ P) True l
  | _ => True
  end.

Definition lookup_key {A} (k : str) (l : list (str * A)) : option A :=
  snd <$> List.find (λ kv, bool_decide (kv.1 = k)) l.

(** ** Round trip: strings and numbers *)

Lemma join_surrogates_low c s : c < 55296 → join_surrogates c s = c :: s.
Proof.
  intros Hc. unfold join_surrogates. destruct s; [done|].
  destruct (in_range 55296 56319 c) eqn:Hr; [|done].
  apply in_range_true in Hr. lia.
Qed.

Lemma escape_char_small c :
  c < 32 → ∀ t rest, parse_chars t = Some rest →
  parse_chars (escape_char c ++ t) = Some (c :: rest.1, rest.2).
Proof.
  intros Hc t [r1 r2] Ht.
  assert (c ∈ (N.of_nat <$> seq 0 32)) as Hin.
  { apply list_elem_of_fmap. exists (N.to_nat c).
    rewrite N2Nat.id, elem_of_seq. split; [done|lia]. }
  cbn in Hin. rewrite !elem_of_cons, elem_of_nil in Hin.
  repeat destruct Hin as [->|Hin]; try done;
    cbv [N.of_nat Pos.of_succ_nat Pos.succ]; simpl; rewrite Ht; simpl;
    rewrite ?join_surrogates_low by done; done.
Qed.

Lemma parse_chars_escape_char c t r1 r2 :
  parse_chars t = Some (r1, r2) →
  parse_chars (escape_char c ++ t) = Some (c :: r1, r2).
Proof.
  intros Ht. destruct (N.lt_ge_cases c 32) as [Hc|Hc].
  - by rewrite (escape_char_small c Hc t (r1, r2) Ht).
  - unfold escape_char.
    destruct (N.eqb_spec c 34) as [->|H34]; [simpl; by rewrite Ht|].
    destruct (N.eqb_spec c 92) as [->|H92]; [simpl; by rewrite Ht|].
    rewrite (proj2 (N.eqb_neq c 8)), (proj2 (N.eqb_neq c 9)),
      (proj2 (N.eqb_neq c 10)), (proj2 (N.eqb_neq c 12)),
      (proj2 (N.eqb_neq c 13)), (proj2 (N.ltb_ge c 32)) by lia.
    cbn [app parse_chars].
    rewrite (proj2 (N.eqb_neq c 34)), (proj2 (N.eqb_neq c 92)),
      (proj2 (N.ltb_ge c 32)) by done.
    by rewrite Ht.
Qed.

Lemma parse_chars_escape s rest :
  parse_chars (escape s ++ 34 :: rest) = Some (s, rest).
Proof.
  induction s as [|c s IH]; [done|]. unfold escape in *. cbn [map concat].
  rewrite <-app_assoc. by apply parse_chars_escape_char.
Qed.

(** What may follow a value inside a canonical text. *)
Definition delimited (rest : str) : Prop :=
  match rest with [] => True | c :: _ => c = 44 ∨ c = 93 ∨ c = 125 end.

Lemma delimited_cases rest :
  delimited rest →
  match rest with
  | [] => True
  | c :: _ => is_digit c = false ∧ is_ws c = false ∧ c ≠ 46 ∧ c ≠ 101 ∧ c ≠ 69
  end.
Proof. destruct rest; [done|]. intros [->|[->| ->]]; done. Qed.

Lemma span_digits_app ds rest :
  Forall (λ c, is_digit c = true) ds → delimited rest →
  span_digits (ds ++ rest) = (ds, rest).
Proof.
  intros Hds Hrest. induction Hds as [|c ds Hc _ IH]; simpl.
  - apply delimited_cases in Hrest. destruct rest; [done|]. simpl.
    by destruct Hrest as [-> _].
  - by rewrite Hc, IH.
Qed.

Lemma parse_fraction_delimited rest :
  delimited rest → parse_fraction rest = ([], rest).
Proof.
  destruct rest; [done|]. by intros [->|[->| ->]].
Qed.
Lemma parse_exponent_delimited rest :
  delimited rest → parse_exponent rest = ([], rest).
Proof.
  destruct rest; [done|]. by intros [->|[->| ->]].
Qed.

(** A number ends where a delimiter begins. *)
Lemma span_digits_delimited s rest :
  delimited rest → span_digits (s ++ rest) = ((span_digits s).1, (span_digits s).2 ++ rest).
Proof.
  intros Hrest. induction s as [|c s IH]; cbn [app span_digits].
  - apply (span_digits_app [] rest); [constructor|done].
  - destruct (is_digit c); [|done]. rewrite IH. by destruct (span_digits s).
Qed.

Lemma parse_fraction_no_point c s : c ≠ 46 → parse_fraction (c :: s) = ([], c :: s).
Proof.
  intros Hc. unfold parse_fraction. destruct c as [|p]; [done|].
  do 6 (destruct p as [p|p|]; try done).
Qed.

Lemma parse_fraction_app s rest :
  delimited rest → parse_fraction (s ++ rest) = ((parse_fraction s).1, (parse_fraction s).2 ++ rest).
Proof.
  intros Hrest. destruct s as [|c s]; [by apply parse_fraction_delimited|]. cbn [app].
  destruct (N.eq_dec c 46) as [->|Hc]; [|by rewrite !parse_fraction_no_point].
  cbn [parse_fraction]. rewrite span_digits_delimited by done.
  by destruct (span_digits s) as [[|d ds] t].
Qed.

Lemma parse_exponent_app s rest :
  delimited rest → parse_exponent (s ++ rest) = ((parse_exponent s).1, (parse_exponent s).2 ++ rest).
Proof.
  intros Hrest. destruct s as [|c s]; [by apply parse_exponent_delimited|].
  cbn [app parse_exponent]. destruct (_ || _); [|done].
  destruct s as [|d s]; cbn [app].
  - destruct rest as [|d rest]; [done|]. by destruct Hrest as [->|[->| ->]].
  - destruct ((d =? 43) || (d =? 45)).
    + rewrite span_digits_delimited by done. by destruct (span_digits s) as [[|e es] t].
    + change (d :: s ++ rest) with ((d :: s) ++ rest).
      rewrite span_digits_delimited by done. by destruct (span_digits (d :: s)) as [[|e es] t].
Qed.

Lemma parse_unsigned_app neg s rest j t :
  delimited rest → parse_unsigned neg s = Some (j, t) →
  parse_unsigned neg (s ++ rest) = Some (j, t ++ rest).
Proof.
  intros Hrest. unfold parse_unsigned. destruct s as [|c s]; [done|].
  assert (parse_integer_part ((c :: s) ++ rest) =
    ((parse_integer_part (c :: s)).1, (parse_integer_part (c :: s)).2 ++ rest)) as ->.
  { cbn [app parse_integer_part]. destruct (c =? 48); [done|]. by apply (span_digits_delimited (c :: s)). }
  destruct (parse_integer_part (c :: s)) as [ds s2]. cbn [fst snd]. destruct ds; [done|].
  rewrite parse_fraction_app by done. destruct (parse_fraction s2) as [frac s3]. cbn [fst snd].
  rewrite parse_exponent_app by done. destruct (parse_exponent s3) as [ex s4]. cbn [fst snd].
  destruct (frac ++ ex); by intros [= <- <-].
Qed.

Lemma parse_number_app s rest j t :
  delimited rest → parse_number s = Some (j, t) → parse_number (s ++ rest) = Some (j, t ++ rest).
Proof.
  intros Hrest. destruct s as [|c s]; [done|]. cbn [app parse_number].
  destruct (c =? 45); [by apply parse_unsigned_app|]. by apply (parse_unsigned_app false (c :: s)).
Qed.

(** [str(n)] has no leading zero. *)
Lemma dec_of_N_head n :
  dec_of_N n = [48] ∨ ∃ c t, dec_of_N n = c :: t ∧ c ≠ 48 ∧ is_digit c = true.
Proof.
  unfold dec_of_N.
  pose proof (DecimalN.Unsigned.to_of (N.to_uint n)) as H.
  rewrite DecimalN.Unsigned.of_to in H. unfold Decimal.unorm in H.
  destruct (Decimal.nzhead (N.to_uint n)) as [|d|d|d|d|d|d|d|d|d|d] eqn:Hz;
    rewrite H; [by left|exfalso|right; simpl; by eauto..].
  revert Hz. clear. induction (N.to_uint n); simpl; try done; auto.
Qed.

Lemma parse_number_nat (neg : bool) n rest :
  delimited rest →
  parse_number ((if neg then [45] else []) ++ dec_of_N n ++ rest) =
    Some (JInt (if neg then - Z.of_N n else Z.of_N n), rest).
Proof.
  intros Hrest. pose proof (dec_of_N_digits n) as Hds.
  pose proof (N_of_dec_of_N n) as Hn.
  unfold parse_number, parse_unsigned, parse_integer_part.
  destruct (dec_of_N_head n) as [H0|(c & t & Hct & Hc & Hd)].
  - rewrite H0 in *.
    destruct neg; cbn [app]; simpl;
      rewrite parse_fraction_delimited, parse_exponent_delimited by done;
      simpl; by rewrite <-Hn.
  - assert (span_digits (dec_of_N n ++ rest) = (dec_of_N n, rest)) as Hsp
      by by apply span_digits_app.
    rewrite Hct in *. cbn [app] in *.
    assert ((c =? 45) = false) as Hm by
      (apply N.eqb_neq; intros ->; discriminate Hd).
    destruct neg; cbn [app]; rewrite ?N.eqb_refl, ?Hm, (proj2 (N.eqb_neq c 48) Hc),
      Hsp, parse_fraction_delimited, parse_exponent_delimited by done;
      simpl; by rewrite Hn.
Qed.

Lemma parse_number_int z rest :
  delimited rest →
  parse_number (dec_of_Z z ++ rest) = Some (JInt z, rest).
Proof.
  intros Hrest. destruct z as [|p|p]; unfold dec_of_Z.
  - apply (parse_number_nat false (Z.to_N 0) rest Hrest).
  - apply (parse_number_nat false (Z.to_N (Zpos p)) rest Hrest).
  - apply (parse_number_nat true (Npos p) rest Hrest).
Qed.

(** ** Round trip: objects *)

Lemma insert_item_map {A B} (f : A → B) k v (l : list (str * A)) :
  insert_item k (f v) (map (λ kv, (kv.1, f kv.2)) l) =
  map (λ kv, (kv.1, f kv.2)) (insert_item k v l).
Proof.
  induction l as [|[k' v'] l IH]; simpl; [done|].
  destruct (str_ltb k k'); simpl; [done|]. by rewrite IH.
Qed.

Lemma sort_items_map {A B} (f : A → B) (l : list (str * A)) :
  sort_items (map (λ kv, (kv.1, f kv.2)) l) =
  map (λ kv, (kv.1, f kv.2)) (sort_items l).
Proof.
  unfold sort_items. change [] with (map (λ kv : str * A, (kv.1, f kv.2)) []) at 1.
  generalize (@nil (str * A)). induction l as [|[k v] l IH]; intros acc; simpl; [done|].
  by rewrite insert_item_map, IH.
Qed.

Lemma insert_item_perm {A} k v (l : list (str * A)) :
  insert_item k v l ≡ₚ (k, v) :: l.
Proof.
  induction l as [|[k' v'] l IH]; simpl; [done|].
  destruct (str_ltb k k'); [done|]. rewrite IH. apply perm_swap.
Qed.

Lemma sort_items_perm {A} (l : list (str * A)) : sort_items l ≡ₚ l.
Proof.
  unfold sort_items. transitivity (l ++ []); [|by rewrite app_nil_r].
  generalize (@nil (str * A)). induction l as [|[k v] l IH]; intros acc; simpl; [done|].
  rewrite IH, insert_item_perm. by rewrite Permutation_middle.
Qed.

Lemma dict_set_fresh {A} k (v : A) l : k ∉ l.*1 → dict_set k v l = l ++ [(k, v)].
Proof.
  induction l as [|[k' v'] l IH]; simpl; [done|].
  rewrite not_elem_of_cons. intros [Hk Hl].
  rewrite decide_False by done. by rewrite IH.
Qed.

Lemma dict_of_pairs_NoDup {A} (l : list (str * A)) :
  NoDup l.*1 → dict_of_pairs l = l.
Proof.
  unfold dict_of_pairs. intros Hl.
  enough (∀ acc, NoDup (acc ++ l).*1 →
    fold_left (λ d kv, dict_set kv.1 kv.2 d) l acc = acc ++ l) as H by by apply (H []).
  clear Hl. induction l as [|[k v] l IH]; intros acc Hnd; simpl.
  - by rewrite app_nil_r.
  - rewrite dict_set_fresh.
    + rewrite IH; rewrite <-app_assoc; done.
    + rewrite fmap_app in Hnd. apply NoDup_app in Hnd as (_ & Hd & _).
      intros Hin. apply (Hd k Hin). simpl. by left.
Qed.

(** The first character of a canonical text. *)
Definition opens (s : str) : Prop :=
  match s with
  | [] => False
  | c :: _ => is_ws c = false ∧ c ≠ 93 ∧ c ≠ 125
  end.

Lemma dec_of_N_cons n : ∃ c t, dec_of_N n = c :: t ∧ is_digit c = true.
Proof.
  destruct (dec_of_N_head n) as [->|(c & t & -> & _ & Hd)]; [by exists 48, []|].
  by exists c, t.
Qed.

Lemma dec_of_Z_head z :
  ∃ c t, dec_of_Z z = c :: t ∧
    (is_digit c = true ∨ c = 45 ∧ ∃ d t', t = d :: t' ∧ is_digit d = true).
Proof.
  destruct z as [|p|p]; unfold dec_of_Z.
  - exists 48, []. split; [done|by left].
  - destruct (dec_of_N_cons (Z.to_N (Zpos p))) as (c & t & -> & Hc).
    exists c, t. auto.
  - exists 45, (dec_of_N (Npos p)). split; [done|right].
    split; [done|]. apply dec_of_N_cons.
Qed.

Lemma unsigned_head neg s j t :
  parse_unsigned neg s = Some (j, t) → ∃ d s', s = d :: s' ∧ is_digit d = true.
Proof.
  destruct s as [|c s]; [done|]. intros Hc. exists c, s. split; [done|].
  unfold parse_unsigned in Hc. cbn [parse_integer_part] in Hc.
  destruct (N.eqb_spec c 48) as [->|_]; [done|]. cbn [span_digits] in Hc.
  by destruct (is_digit c).
Qed.

Lemma number_head r j t : parse_number r = Some (j, t) →
  ∃ c s, r = c :: s ∧ (is_digit c = true ∨ c = 45 ∧ ∃ d s', s = d :: s' ∧ is_digit d = true).
Proof.
  destruct r as [|c r]; [done|]. cbn [parse_number]. intros H. exists c, r. split; [done|].
  destruct (N.eqb_spec c 45) as [->|_]; apply unsigned_head in H; [by right|].
  left. by destruct H as (d & s' & [= <- <-] & Hd).
Qed.

Lemma opens_dumps sort j rest : plain j → opens (dumps sort j ++ rest).
Proof.
  destruct j as [|[]|z|r|s|l|l]; simpl; try done.
  2:{ intros (c & t & -> & [Hc|[-> _]])%number_head; [|done].
      apply in_range_true in Hc. simpl. unfold is_ws.
      rewrite !orb_false_iff, !N.eqb_neq. lia. }
  intros _. destruct (dec_of_Z_head z) as (c & t & -> & [Hc|[-> _]]); [|done].
  apply in_range_true in Hc. simpl. unfold is_ws.
  rewrite !orb_false_iff, !N.eqb_neq. lia.
Qed.

Lemma skip_ws_opens s : opens s → skip_ws s = s.
Proof. destruct s as [|c s]; simpl; [done|]. by intros [-> _]. Qed.

Lemma skip_ws_delimited s : delimited s → skip_ws s = s.
Proof. destruct s as [|c s]; simpl; [done|]. by intros [->|[->| ->]]. Qed.

Lemma drop_prefix_ne x y p s : x ≠ y → drop_prefix (x :: p) (y :: s) = None.
Proof. intros H. simpl. by rewrite (proj2 (N.eqb_neq x y)). Qed.
Lemma drop_prefix_eq x p s : drop_prefix (x :: p) (x :: s) = drop_prefix p s.
Proof. simpl. by rewrite N.eqb_refl. Qed.

Section round_trip.
Context (pairs_hook : list (str * json) → option json) (constant_hook : str → option json).
Hypothesis pairs_hook_dict : ∀ l, NoDup l.*1 → pairs_hook l = Some (JObj l).
Context (sort : bool).

Abbreviation parse_value := (parse_value pairs_hook constant_hook).
Abbreviation parse_elements := (parse_elements pairs_hook constant_hook).
Abbreviation parse_members := (parse_members pairs_hook constant_hook).

Lemma parse_value_number fuel r j t rest :
  parse_number r = Some (j, t) → parse_value (S fuel) (r ++ rest) = parse_number (r ++ rest).
Proof.
  intros (c & s & -> & Hc)%number_head. cbn [app parse_value].
  assert (∀ k, k ≠ 45 → is_digit k = false → (c =? k) = false) as Hne.
  { intros k Hk Hdk. apply N.eqb_neq. intros ->.
    destruct Hc as [Hc|[-> _]]; congruence. }
  rewrite !Hne by done.
  change (u "-Infinity") with (45 :: 73 :: u "nfinity").
  destruct Hc as [Hc|(-> & d & s' & -> & Hd)].
  - rewrite drop_prefix_ne; [done|]. by intros <-.
  - rewrite drop_prefix_eq. cbn [app]. rewrite drop_prefix_ne; [done|]. by intros <-.
Qed.

Lemma parse_value_int fuel z rest :
  delimited rest →
  parse_value (S fuel) (dec_of_Z z ++ rest) = Some (JInt z, rest).
Proof.
  intros Hrest. pose proof (parse_number_int z [] I) as Hz. rewrite app_nil_r in Hz.
  erewrite parse_value_number by done. by apply parse_number_int.
Qed.

Lemma parse_value_float fuel r rest :
  delimited rest → parse_number r = Some (JFloat r, []) →
  parse_value (S fuel) (r ++ rest) = Some (JFloat r, rest).
Proof.
  intros Hrest Hr. erewrite parse_value_number by done. by rewrite (parse_number_app r rest _ _ Hrest Hr).
Qed.

Definition obj_text (sort : bool) (l : list (str * json)) : str :=
  join (map (λ kv, member (kv.1, dumps sort kv.2)) l).

(** The statement proved by induction on values. *)
Definition parses (j : json) : Prop :=
  ∀ fuel rest, (length (dumps sort j) ≤ fuel)%nat → delimited rest →
    parse_value fuel (dumps sort j ++ rest) = Some (read_back sort j, rest).

Lemma join_cons x l : l ≠ [] → join (x :: l) = x ++ 44 :: join l.
Proof. by destruct l. Qed.

Lemma opens_join l rest :
  l ≠ [] → Forall plain l → opens (join (map (dumps sort) l) ++ rest).
Proof.
  intros Hl Hp. destruct l as [|y l]; [done|].
  apply Forall_cons in Hp as [Hpy _].
  destruct (decide (l = [])) as [->|Hne]; cbn [map].
  - simpl. by apply opens_dumps.
  - rewrite join_cons by (by destruct l). rewrite <-app_assoc. by apply opens_dumps.
Qed.

Lemma parse_elements_ok l fuel rest :
  l ≠ [] → Forall (λ j, plain j ∧ parses j) l →
  (length (join (map (dumps sort) l)) < fuel)%nat →
  parse_elements fuel (join (map (dumps sort) l) ++ 93 :: rest) =
    Some (map (read_back sort) l, rest).
Proof.
  revert fuel. induction l as [|x l IH]; intros fuel Hl Hall Hfuel; [done|].
  apply Forall_cons in Hall as [[Hpx Hx] Hall].
  destruct fuel as [|fuel]; [lia|].
  destruct (decide (l = [])) as [->|Hne]; cbn [map] in *; cbn [parse_elements].
  - simpl in Hfuel. rewrite Hx by (simpl; auto; lia). simpl. done.
  - rewrite join_cons in * by (by destruct l).
    rewrite length_app in Hfuel. simpl in Hfuel. rewrite <-app_assoc. simpl.
    rewrite Hx by (simpl; auto; lia). simpl.
    rewrite skip_ws_opens; [rewrite IH; [done..|lia]|].
    apply opens_join; [done|]. eapply Forall_impl; [exact Hall|]. by intros ? [].
Qed.

Lemma opens_obj_text l rest : l ≠ [] → opens (obj_text sort l ++ rest).
Proof. destruct l as [|x [|y l]]; [done|done|done]. Qed.

Lemma parse_members_ok l fuel rest :
  l ≠ [] → Forall (λ kv, plain kv.2 ∧ parses kv.2) l →
  (length (obj_text sort l) < fuel)%nat →
  parse_members fuel (obj_text sort l ++ 125 :: rest) =
    Some (map (λ kv, (kv.1, read_back sort kv.2)) l, rest).
Proof.
  unfold obj_text. revert fuel.
  induction l as [|[k x] l IH]; intros fuel Hl Hall Hfuel; [done|].
  apply Forall_cons in Hall as [[Hpx Hx] Hall]. simpl in Hpx, Hx.
  destruct fuel as [|fuel]; [lia|].
  destruct (decide (l = [])) as [->|Hne]; cbn [map] in *.
  - simpl in Hfuel. rewrite !length_app in Hfuel. simpl in Hfuel.
    unfold member, quote; cbn [fst snd join app parse_members].
    rewrite N.eqb_refl, <-!app_assoc. cbn [app]. rewrite parse_chars_escape.
    simpl. rewrite skip_ws_opens by by apply opens_dumps.
    rewrite Hx by (simpl; auto; lia). done.
  - rewrite join_cons in * by (by destruct l).
    rewrite length_app in Hfuel. simpl in Hfuel.
    rewrite !length_app in Hfuel. simpl in Hfuel.
    unfold member at 1, quote; cbn [fst snd app parse_members].
    rewrite N.eqb_refl, <-!app_assoc. cbn [app]. rewrite parse_chars_escape. simpl.
    rewrite skip_ws_opens by by apply opens_dumps.
    rewrite Hx by (simpl; auto; lia). simpl.
    rewrite skip_ws_opens by by apply opens_obj_text.
    rewrite IH; [done..|lia].
Qed.

Lemma plain_list_Forall l : foldr (λ x P, plain x ∧ P) True l ↔ Forall plain l.
Proof. induction l; simpl; [by split|]. rewrite Forall_cons. naive_solver. Qed.
Lemma plain_obj_Forall (l : list (str * json)) :
  foldr (λ kv P, plain kv.2 ∧ P) True l ↔ Forall (λ kv, plain kv.2) l.
Proof. induction l; simpl; [by split|]. rewrite Forall_cons. naive_solver. Qed.

Definition items_of (l : list (str * json)) : list (str * json) := if sort then sort_items l else l.

Lemma items_of_perm l : items_of l ≡ₚ l.
Proof. unfold items_of. destruct sort; [apply sort_items_perm|done]. Qed.

Lemma items_of_map {A} (f : json → A) (l : list (str * json)) :
  (if sort then sort_items (map (λ kv, (kv.1, f kv.2)) l) else map (λ kv, (kv.1, f kv.2)) l) =
  map (λ kv, (kv.1, f kv.2)) (items_of l).
Proof. unfold items_of. destruct sort; [apply sort_items_map|done]. Qed.

Lemma dumps_items l : dumps sort (JObj l) = 123 :: obj_text sort (items_of l) ++ [125].
Proof. cbn [dumps]. cbv zeta. rewrite (items_of_map (dumps sort) l), map_map. done. Qed.

Lemma dumps_nonempty j : plain j → (0 < length (dumps sort j))%nat.
Proof.
  intros Hp. pose proof (opens_dumps sort j [] Hp) as H. rewrite app_nil_r in H.
  destruct (dumps sort j); [done|simpl; lia].
Qed.

Lemma parse_value_list fuel l rest :
  Forall (λ j, plain j ∧ parses j) l →
  (length (dumps sort (JList l)) ≤ S fuel)%nat →
  parse_value (S fuel) (dumps sort (JList l) ++ rest) =
    Some (read_back sort (JList l), rest).
Proof.
  intros Hall Hfuel. destruct (decide (l = [])) as [->|Hne]; [done|].
  cbn [dumps] in *. simpl in Hfuel. rewrite length_app in Hfuel. simpl in Hfuel.
  cbn [app parse_value]. change (91 =? 34) with false.
  change (91 =? 123) with false. rewrite N.eqb_refl, <-app_assoc. cbn [app].
  assert (opens (join (map (dumps sort) l) ++ 93 :: rest)) as Hop.
  { apply opens_join; [done|]. eapply Forall_impl; [exact Hall|]. by intros ? []. }
  rewrite skip_ws_opens by done.
  destruct (join _ ++ _) as [|c t] eqn:Ht; [done|]. destruct Hop as (_ & Hc & _).
  rewrite (proj2 (N.eqb_neq c 93) Hc), <-Ht.
  by rewrite parse_elements_ok by (done || lia).
Qed.

Lemma parse_value_obj fuel l rest :
  NoDup l.*1 → Forall (λ kv, plain kv.2 ∧ parses kv.2) l →
  (length (dumps sort (JObj l)) ≤ S fuel)%nat →
  parse_value (S fuel) (dumps sort (JObj l) ++ rest) =
    Some (read_back sort (JObj l), rest).
Proof.
  intros Hnd Hall Hfuel. cbn [read_back]. cbv zeta. rewrite (items_of_map (read_back sort) l).
  rewrite dumps_items in *.
  assert (NoDup (items_of l).*1) as Hnd' by by rewrite items_of_perm.
  assert (Forall (λ kv, plain kv.2 ∧ parses kv.2) (items_of l)) as Hall'
    by by rewrite items_of_perm.
  revert Hnd' Hall' Hfuel. generalize (items_of l). clear l Hnd Hall.
  intros l Hnd Hall Hfuel. destruct (decide (l = [])) as [->|Hne].
  { cbn. rewrite pairs_hook_dict by constructor. done. }
  simpl in Hfuel. rewrite length_app in Hfuel. simpl in Hfuel.
  cbn [app parse_value]. change (123 =? 34) with false. rewrite N.eqb_refl.
  rewrite <-app_assoc. cbn [app].
  pose proof (opens_obj_text l (125 :: rest) Hne) as Hop.
  rewrite skip_ws_opens by done.
  destruct (obj_text sort l ++ _) as [|c t] eqn:Ht; [done|]. destruct Hop as (_ & _ & Hc).
  rewrite (proj2 (N.eqb_neq c 125) Hc), <-Ht.
  rewrite parse_members_ok by (done || lia). cbn [mbind option_bind].
  rewrite pairs_hook_dict; [done|].
  change (NoDup (fst <$> ((λ kv, (kv.1, read_back sort kv.2)) <$> l))).
  by rewrite <-list_fmap_compose.
Qed.

Lemma parse_value_dumps j : plain j → parses j.
Proof.
  induction j as [|b|z|r|s|l IH|l IH] using json_rect';
    intros Hp fuel rest Hfuel Hrest;
    (destruct fuel as [|fuel]; [apply dumps_nonempty in Hp; lia|]); try done.
  - by destruct b.
  - by apply parse_value_int.
  - by apply parse_value_float.
  - cbn [dumps quote app parse_value]. rewrite N.eqb_refl, <-app_assoc. cbn [app].
    by rewrite parse_chars_escape.
  - apply parse_value_list; [|done]. simpl in Hp. apply plain_list_Forall in Hp.
    rewrite Forall_forall in IH, Hp |- *. auto.
  - simpl in Hp. destruct Hp as [Hnd Hp%plain_obj_Forall].
    apply parse_value_obj; [done| |done].
    rewrite Forall_forall in IH, Hp |- *. auto.
Qed.

Lemma loads_with_dumps j : plain j → loads_with pairs_hook constant_hook (dumps sort j) = Some (read_back sort j).
Proof.
  intros Hp. unfold loads_with.
  pose proof (opens_dumps sort j [] Hp) as Hop. rewrite app_nil_r in Hop.
  rewrite skip_ws_opens by done.
  rewrite <-(app_nil_r (dumps sort j)) at 2.
  rewrite (parse_value_dumps j Hp) by (done || lia). done.
Qed.
End round_trip.

Lemma read_back_true j : read_back true j = sorted_keys j.
Proof.
  induction j as [|b|z|r|s|l IH|l IH] using json_rect'; try done; cbn [read_back sorted_keys].
  - f_equal. apply map_ext_in. intros x Hx%list_elem_of_In. rewrite Forall_forall in IH. by apply IH.
  - cbv zeta. do 2 f_equal. apply map_ext_in. intros x Hx%list_elem_of_In. rewrite Forall_forall in IH. by rewrite IH.
Qed.

Lemma read_back_false j : read_back false j = j.
Proof.
  induction j as [|b|z|r|s|l IH|l IH] using json_rect'; try done; cbn [read_back]; cbv zeta; f_equal.
  - rewrite <-(map_id l) at 2. apply map_ext_in. intros x Hx%list_elem_of_In. rewrite Forall_forall in IH. by apply IH.
  - rewrite <-(map_id l) at 2. apply map_ext_in. intros x Hx%list_elem_of_In. rewrite Forall_forall in IH.
    rewrite IH by done. by destruct x.
Qed.

Lemma dumps_obj l : dumps true (JObj l) = 123 :: obj_text true (sort_items l) ++ [125].
Proof. apply (dumps_items true). Qed.

Lemma loads_with_canonical pairs_hook constant_hook j :
  (∀ l, NoDup l.*1 → pairs_hook l = Some (JObj l)) → plain j →
  loads_with pairs_hook constant_hook (canonical j) = Some (sorted_keys j).
Proof. intros Hh Hp. unfold canonical. rewrite loads_with_dumps by done. by rewrite read_back_true. Qed.

(** A stored canonical text parses back to the value it was written from, up
    to the order of keys. *)
Lemma loads_canonical j : plain j → loads (canonical j) = Some (sorted_keys j).
Proof.
  apply loads_with_canonical. intros l Hl. unfold dict_hook. by rewrite dict_of_pairs_NoDup.
Qed.

(** ** Sorted keys *)

Definition key_order {A} (x y : str * A) : Prop := str_ltb y.1 x.1 = false.

Lemma insert_item_order {A} k (v : A) l :
  StronglySorted key_order l → StronglySorted key_order (insert_item k v l).
Proof.
  induction 1 as [|[k' v'] l Hl IH Hk']; cbn [insert_item]; [repeat constructor|].
  destruct (str_ltb k k') eqn:Hlt.
  - constructor; [by constructor|]. constructor; [by apply str_ltb_asym|].
    eapply Forall_impl; [exact Hk'|]. intros y Hy. unfold key_order in *. cbn [fst] in *.
    destruct (str_ltb y.1 k) eqn:Hyk; [|done]. rewrite (str_ltb_trans _ _ _ Hyk Hlt) in Hy. done.
  - constructor; [done|]. rewrite insert_item_perm. by constructor.
Qed.

Lemma sort_items_order {A} (l : list (str * A)) : StronglySorted key_order (sort_items l).
Proof.
  unfold sort_items. assert (StronglySorted (@key_order A) []) as Hnil by constructor. revert Hnil.
  generalize (@nil (str * A)). induction l as [|[k v] l IH]; intros acc Hacc; cbn [fold_left]; [done|].
  apply IH. by apply insert_item_order.
Qed.

Lemma insert_item_last {A} k (v : A) l :
  Forall (λ x, key_order x (k, v)) l → insert_item k v l = l ++ [(k, v)].
Proof.
  induction 1 as [|[k' v'] l Hk' _ IH]; cbn [insert_item app]; [done|]. unfold key_order in Hk'. cbn [fst] in Hk'.
  by rewrite Hk', IH.
Qed.

Lemma sort_items_id {A} (l : list (str * A)) : StronglySorted key_order l → sort_items l = l.
Proof.
  intros Hl. unfold sort_items. change l with ([] ++ l) at 2. revert Hl. change l with ([] ++ l) at 1.
  generalize (@nil (str * A)). induction l as [|[k v] l IH]; intros acc Hl; cbn [fold_left]; [by rewrite app_nil_r|].
  assert (Forall (λ x, key_order x (k, v)) acc) as Hk.
  { clear IH. induction acc as [|y acc IHacc]; [constructor|]. cbn [app] in Hl. inversion Hl as [|? ? Hl' Hy]; subst.
    constructor; [|by apply IHacc]. rewrite Forall_forall in Hy. apply Hy, elem_of_app. right. by left. }
  rewrite insert_item_last by done. cbn [fst snd].
  assert (acc ++ (k, v) :: l = (acc ++ [(k, v)]) ++ l) as Heq by by rewrite <-app_assoc.
  rewrite Heq in *. by apply IH.
Qed.

Lemma sort_items_idem {A} (l : list (str * A)) : sort_items (sort_items l) = sort_items l.
Proof. apply sort_items_id, sort_items_order. Qed.

Lemma dumps_sorted_keys j : canonical (sorted_keys j) = canonical j.
Proof.
  unfold canonical. induction j as [|b|z|r|s|l IH|l IH] using json_rect'; try done; cbn [sorted_keys dumps].
  - do 3 f_equal. rewrite map_map. apply map_ext_in. intros x Hx%list_elem_of_In. rewrite Forall_forall in IH. by apply IH.
  - do 4 f_equal. rewrite !sort_items_map, map_map, <-!sort_items_map, !sort_items_map, sort_items_idem.
    apply map_ext_in. intros x Hx%list_elem_of_In. rewrite sort_items_perm in Hx. cbn [fst snd].
    rewrite Forall_forall in IH. by rewrite IH.
Qed.

Lemma plain_sorted_keys j : plain j → plain (sorted_keys j).
Proof.
  induction j as [|b|z|r|s|l IH|l IH] using json_rect'; try done; cbn [sorted_keys plain].
  - rewrite !plain_list_Forall, !Forall_forall in *. intros Hp x (y & -> & Hy)%list_elem_of_fmap. by apply IH, Hp.
  - rewrite !plain_obj_Forall, sort_items_map. intros [Hnd Hp]. rewrite !Forall_forall in *. split.
    + change (NoDup (fst <$> ((λ kv, (kv.1, sorted_keys kv.2)) <$> sort_items l))).
      rewrite <-list_fmap_compose, sort_items_perm. done.
    + intros x (y & -> & Hy)%list_elem_of_fmap. rewrite sort_items_perm in Hy. cbn [snd]. by apply IH, Hp.
Qed.

(** Equal canonical texts come from equal values. *)
Lemma canonical_inj i j :
  plain i → plain j → canonical i = canonical j → sorted_keys i = sorted_keys j.
Proof.
  intros Hi Hj H. apply loads_canonical in Hi, Hj. congruence.
Qed.

(** ** Length of a quoted text *)

Lemma escape_char_length c : (length (escape_char c) <= 6)%nat.
Proof. unfold escape_char. repeat case_match; simpl; lia. Qed.

Lemma escape_length s : (length (escape s) <= 6 * length s)%nat.
Proof.
  induction s as [|c s IH]; [done|]. unfold escape in *. cbn [map concat length].
  rewrite length_app. pose proof (escape_char_length c). lia.
Qed.

Lemma escape_app a b : escape (a ++ b) = escape a ++ escape b.
Proof. unfold escape. by rewrite map_app, concat_app. Qed.

(** Characters that stand for themselves. *)
Definition unescaped (c : N) : Prop := 32 <= c ∧ c ≠ 34 ∧ c ≠ 92.

Lemma escape_unescaped s : Forall unescaped s → escape s = s.
Proof.
  induction 1 as [|c s (H1 & H2 & H3) _ IH]; [done|].
  unfold escape in *. cbn [map concat]. rewrite IH. unfold escape_char.
  rewrite (proj2 (N.eqb_neq c 34)), (proj2 (N.eqb_neq c 92)), (proj2 (N.eqb_neq c 8)),
    (proj2 (N.eqb_neq c 9)), (proj2 (N.eqb_neq c 10)), (proj2 (N.eqb_neq c 12)),
    (proj2 (N.eqb_neq c 13)), (proj2 (N.ltb_ge c 32)) by lia.
  done.
Qed.

(** ** Length of a canonical object *)

Lemma quote_length s : length (quote s) = (length (escape s) + 2)%nat.
Proof. unfold quote. simpl. rewrite length_app. simpl. lia. Qed.

Definition item_length (kv : str * json) : nat :=
  length (escape kv.1) + length (dumps true kv.2) + 4.

Lemma join_length (l : list str) :
  (length (join l) <= sum_list_with (λ t, S (length t)) l)%nat.
Proof.
  induction l as [|t l IH]; [done|]. destruct l as [|t' l]; [simpl; lia|].
  rewrite join_cons by done. rewrite length_app. cbn [length sum_list_with] in *. lia.
Qed.

Lemma canonical_obj_length l :
  (length (canonical (JObj l)) <= 2 + sum_list_with item_length l)%nat.
Proof.
  unfold canonical. rewrite dumps_obj. cbn [length]. rewrite length_app. cbn [length].
  enough (length (obj_text true (sort_items l)) <= sum_list_with item_length l)%nat by lia.
  assert (sum_list_with item_length l = sum_list_with item_length (sort_items l)) as ->
    by (by rewrite (sort_items_perm l)).
  unfold obj_text. etrans; [apply join_length|].
  induction (sort_items l) as [|kv k IH]; [done|]. cbn [map sum_list_with].
  unfold member at 1. unfold item_length at 1. cbn [fst snd].
  rewrite length_app, quote_length. cbn [length]. lia.
Qed.

(** Evaluate the lengths of the literal keys. *)
Ltac literal_lengths :=
  repeat match goal with |- context [length (escape (u ?x))] =>
    let n := eval vm_compute in (length (escape (u x))) in
    change (length (escape (u x))) with n end.

(** A flat object with literal, distinct keys is plain. *)
Ltac solve_plain :=
  split; [match goal with |- ?P =>
    let H := fresh in assert (bool_decide P = true) as H by (vm_compute; reflexivity);
    exact (bool_decide_eq_true_1 _ H) end | simpl; tauto].

(** ** Looking up keys *)

Lemma lookup_key_Some {A} k (v : A) l :
  NoDup l.*1 → lookup_key k l = Some v ↔ (k, v) ∈ l.
Proof.
  unfold lookup_key. induction l as [|[k' v'] l IH]; cbn [List.find fmap list_fmap fst].
  - intros _. split; [done|]. intros H; inversion H.
  - intros [Hk' Hl]%NoDup_cons. case_bool_decide as Hk; subst; cbn [fmap option_fmap option_map snd].
    + rewrite elem_of_cons. split; [intros [= ->]; auto|].
      intros [[= ->]|Hin]; [done|]. destruct Hk'. apply list_elem_of_fmap. by exists (k, v).
    + rewrite elem_of_cons, <-IH by done. unfold fmap, option_fmap, option_map. naive_solver.
Qed.

Lemma lookup_key_perm {A} k (l l' : list (str * A)) :
  NoDup l.*1 → l ≡ₚ l' → lookup_key k l = lookup_key k l'.
Proof.
  intros Hl Hp. assert (NoDup l'.*1) as Hl' by by rewrite <-Hp.
  apply option_eq. intros v. rewrite !lookup_key_Some by done. by rewrite Hp.
Qed.

Lemma lookup_key_map {A B} (f : A → B) k (l : list (str * A)) :
  lookup_key k (map (λ kv, (kv.1, f kv.2)) l) = f <$> lookup_key k l.
Proof.
  unfold lookup_key. induction l as [|[k' v'] l IH]; [done|]. cbn [map List.find fst snd].
  by case_bool_decide.
Qed.

Lemma lookup_key_In {A} k (v : A) l : lookup_key k l = Some v → (k, v) ∈ l.
Proof.
  unfold lookup_key. induction l as [|[k' v'] l IH]; cbn [List.find fst]; [done|].
  rewrite elem_of_cons. case_bool_decide as Hk; [|auto]. intros [= ->]. subst. by left.
Qed.

Lemma lookup_key_NoDup {A} k (v : A) l :
  NoDup l.*1 → (k, v) ∈ l → lookup_key k l = Some v.
Proof. intros Hl. by apply lookup_key_Some. Qed.
