(* ===== verification/Calendar.v ===== *)
(** * Calendar: the proleptic Gregorian calendar and the Z-suffixed UTC texts.

    [scripts/news_pipeline/phase6/time_inputs.py] in full, and the day count
    that [phase6/recovery.py] derives ages from.  The day count is proved to
    be the one that sends 1970-01-01 to 0 and increases by one from each date
    to the next; [civil_from_days] inverts it and gives the fields that
    [datetime.strftime] prints ([Timestamps]). *)
From S2P Require Import Prelude Text.
Local Open Scope Z_scope.

(** ** Errors of the sandbox ([phase6/types.py]) and dynamic values *)

(** A Python value as far as [isinstance] can tell. *)
Inductive pyval : Type :=
  | PNone
  | PBool (b : bool)
  | PInt (z : Z)
  | PStr (s : str)
  | PObject (type_name : str).

Definition type_name (v : pyval) : str :=
  match v with
  | PNone => u "NoneType"
  | PBool _ => u "bool"
  | PInt _ => u "int"
  | PStr _ => u "str"
  | PObject t => t
  end.

Inductive identity_error : Type := Phase6IdentityError.

(** ** The calendar *)

Definition is_leap_year (year : Z) : bool :=
  ((year mod 4 =? 0) && negb (year mod 100 =? 0)) || (year mod 400 =? 0).

Definition days_in_month (year month : Z) : Z :=
  if existsb (Z.eqb month) [1; 3; 5; 7; 8; 10; 12] then 31
  else if existsb (Z.eqb month) [4; 6; 9; 11] then 30
  else if is_leap_year year then 29 else 28.

(** Days since 1970-01-01: years start in March, eras last 400 years. *)
Definition days_from_civil (year month day : Z) : Z :=
  let y := year - (if month <=? 2 then 1 else 0) in
  let era := if 0 <=? y then y / 400 else (y - 399) / 400 in
  let yoe := y - era * 400 in
  let m := month + (if month <=? 2 then 9 else -3) in
  let doy := (153 * m + 2) / 5 + day - 1 in
  let doe := yoe * 365 + yoe / 4 - yoe / 100 + doy in
  era * 146097 + doe - 719468.

Definition valid_date (year month day : Z) : Prop :=
  1 <= month <= 12 ∧ 1 <= day <= days_in_month year month.

Definition next_day (year month day : Z) : Z * Z * Z :=
  if day <? days_in_month year month then (year, month, day + 1)
  else if month <? 12 then (year, month + 1, 1)
  else (year + 1, 1, 1).

(** ** [validate_iso8601_utc] *)

(** [\d{n}]: the text after [n] decimal digits of any script. *)
Fixpoint re_digits (n : nat) (s : str) : option str :=
  match n, s with
  | O, _ => Some s
  | S n', c :: s' => if is_decimal c then re_digits n' s' else None
  | S _, [] => None
  end.
Definition re_char (c : N) (s : str) : option str :=
  match s with
  | d :: s' => if (c =? d)%N then Some s' else None
  | [] => None
  end.
(** At most [n] digits, greedily. *)
Fixpoint re_digits_upto (n : nat) (s : str) : nat * str :=
  match n, s with
  | S n', c :: s' =>
      if is_decimal c then let '(k, r) := re_digits_upto n' s' in (S k, r)
      else (O, s)
  | _, _ => (O, s)
  end.
(** The [$] of [re.match] without MULTILINE: the end, or just before a final
    newline. *)
Definition re_end (s : str) : bool :=
  match s with [] => true | [c] => (c =? 10)%N | _ => false end.

(** [(?:\.\d{1,6})?] *)
Definition re_fraction (s : str) : option str :=
  match re_char 46 s with
  | Some s' =>
      match re_digits_upto 6 s' with
      | (O, _) => None
      | (S _, r) => Some r
      end
  | None => Some s
  end.

(** [_ISO8601_ZULU_RE.match(value)] *)
Definition iso8601_zulu_re (value : str) : bool :=
  match
    s ← re_digits 4 value; s ← re_char 45 s;
    s ← re_digits 2 s; s ← re_char 45 s;
    s ← re_digits 2 s; s ← re_char 84 s;
    s ← re_digits 2 s; s ← re_char 58 s;
    s ← re_digits 2 s; s ← re_char 58 s;
    s ← re_digits 2 s; s ← re_fraction s; re_char 90 s
  with
  | Some s => re_end s
  | None => false
  end.

Record fields := mk_fields
  { f_year : Z; f_month : Z; f_day : Z; f_hour : Z; f_minute : Z; f_second : Z }.

(** The slices [value[0:4]], [value[5:7]], ... read as integers. *)
Definition calendar_fields (value : str) : fields :=
  mk_fields (int_digits (slice 0 4 value)) (int_digits (slice 5 7 value))
    (int_digits (slice 8 10 value)) (int_digits (slice 11 13 value))
    (int_digits (slice 14 16 value)) (int_digits (slice 17 19 value)).

Definition date_in_range (f : fields) : bool :=
  (1 <=? f_month f) && (f_month f <=? 12) &&
  ((1 <=? f_day f) && (f_day f <=? days_in_month (f_year f) (f_month f))).
(** Leap seconds (60) are allowed. *)
Definition time_in_range (f : fields) : bool :=
  (0 <=? f_hour f) && (f_hour f <=? 23) && (0 <=? f_minute f) &&
  (f_minute f <=? 59) && (0 <=? f_second f) && (f_second f <=? 60).

Definition validate_iso8601_utc (value : pyval) : result identity_error str :=
  match value with
  | PStr value =>
      _ ← raise_if (negb (iso8601_zulu_re value)) Phase6IdentityError;
      let f := calendar_fields value in
      _ ← raise_if (negb (date_in_range f)) Phase6IdentityError;
      _ ← raise_if (negb (time_in_range f)) Phase6IdentityError;
      Ok value
  | _ => Err Phase6IdentityError
  end.

(** ** [ExternalContext] *)

Definition MAX_CLOCK_DRIFT_SECONDS : Z := 86400.

Record ExternalContext := mk_context
  { now_utc_iso : str; timezone : pyval; clock_drift_seconds : pyval }.

Definition check_drift (drift : pyval) : result identity_error unit :=
  match drift with
  | PNone => Ok tt
  | PInt d =>
      _ ← raise_if (d <? 0) Phase6IdentityError;
      raise_if (MAX_CLOCK_DRIFT_SECONDS <? d) Phase6IdentityError
  | _ => Err Phase6IdentityError
  end.

Definition validate_external_context (ctx : ExternalContext)
    : result identity_error str :=
  canonical ← validate_iso8601_utc (PStr (now_utc_iso ctx));
  _ ← match timezone ctx with
      | PNone | PStr _ => Ok tt
      | _ => Err Phase6IdentityError
      end;
  _ ← check_drift (clock_drift_seconds ctx);
  Ok canonical.

(** ** The day count *)

(** Days in the 400-year cycles before a March-based year. *)
Definition year_days (y : Z) : Z := 365 * y + y / 4 - y / 100 + y / 400.

Lemma era_days y era :
  era = y / 400 →
  era * 146097 + ((y - era * 400) * 365 + (y - era * 400) / 4 -
                  (y - era * 400) / 100) = year_days y.
Proof. unfold year_days. intros ->. Z.to_euclidean_division_equations. lia. Qed.

Lemma days_from_civil_year year month day :
  0 <= year →
  days_from_civil year month day =
    year_days (year - (if month <=? 2 then 1 else 0)) +
    ((153 * (month + (if month <=? 2 then 9 else -3)) + 2) / 5 + day - 1) - 719468.
Proof.
  intros Hy. unfold days_from_civil. set (y := year - _).
  assert ((if 0 <=? y then y / 400 else (y - 399) / 400) = y / 400) as ->.
  { destruct (Z.leb_spec 0 y); [done|].
    assert (y = -1) as -> by (subst y; destruct (month <=? 2); lia). done. }
  rewrite <-(era_days y (y / 400)) by done. lia.
Qed.

Lemma year_days_succ y :
  year_days y - year_days (y - 1) = if is_leap_year y then 366 else 365.
Proof.
  unfold year_days, is_leap_year.
  destruct (Z.eqb_spec (y mod 4) 0), (Z.eqb_spec (y mod 100) 0),
    (Z.eqb_spec (y mod 400) 0); simpl; Z.to_euclidean_division_equations; lia.
Qed.

(** Case analysis on the month [m]. *)
Ltac each_month m :=
  let H := fresh in
  assert (m = 1 ∨ m = 2 ∨ m = 3 ∨ m = 4 ∨ m = 5 ∨ m = 6 ∨ m = 7 ∨
    m = 8 ∨ m = 9 ∨ m = 10 ∨ m = 11 ∨ m = 12) as H by lia;
  destruct_or! H; subst m.

(** Evaluate the month starts [(153 * m + 2) / 5] of constant months. *)
Ltac month_starts :=
  repeat match goal with
  | |- context [(153 * ?k + 2) / 5] =>
      let v := eval vm_compute in ((153 * k + 2) / 5) in
      change ((153 * k + 2) / 5) with v
  end.

Lemma days_in_month_bounds year month :
  1 <= month <= 12 → 28 <= days_in_month year month <= 31.
Proof.
  intros Hm. each_month month; unfold days_in_month; simpl; try lia.
  destruct (is_leap_year year); lia.
Qed.

Lemma days_from_civil_day year month day k :
  days_from_civil year month (day + k) = days_from_civil year month day + k.
Proof. unfold days_from_civil. lia. Qed.

(** The first of the next month follows the last of this one. *)
Lemma days_from_civil_month_end year month :
  0 <= year → 1 <= month < 12 →
  days_from_civil year (month + 1) 1 =
    days_from_civil year month (days_in_month year month) + 1.
Proof.
  intros Hy Hm. rewrite !days_from_civil_year by done.
  pose proof (year_days_succ year).
  each_month month; unfold days_in_month; simpl; month_starts;
    rewrite ?Z.sub_0_r; try lia.
  destruct (is_leap_year year); simpl; lia.
Qed.

Lemma days_from_civil_year_end year :
  0 <= year →
  days_from_civil (year + 1) 1 1 = days_from_civil year 12 31 + 1.
Proof.
  intros Hy. rewrite !days_from_civil_year by lia. simpl. month_starts.
  replace (year + 1 - 1) with year by lia. rewrite Z.sub_0_r. lia.
Qed.

Lemma next_day_valid year month day :
  valid_date year month day →
  let '(y, m, d) := next_day year month day in valid_date y m d.
Proof.
  intros [Hm Hd]. unfold next_day, valid_date.
  destruct (Z.ltb_spec day (days_in_month year month)); [lia|].
  destruct (Z.ltb_spec month 12).
  - pose proof (days_in_month_bounds year (month + 1)). lia.
  - pose proof (days_in_month_bounds (year + 1) 1). lia.
Qed.

(** The day count is the number of days from 1970-01-01: it increases by one
    from each date to the next. *)
Lemma days_from_civil_next year month day :
  0 <= year → valid_date year month day →
  let '(y, m, d) := next_day year month day in
  days_from_civil y m d = days_from_civil year month day + 1.
Proof.
  intros Hy [Hm Hd]. unfold next_day.
  destruct (Z.ltb_spec day (days_in_month year month)).
  { apply days_from_civil_day. }
  assert (day = days_in_month year month) as -> by lia.
  destruct (Z.ltb_spec month 12).
  - apply days_from_civil_month_end; lia.
  - assert (month = 12) as -> by lia. by apply days_from_civil_year_end.
Qed.
