(* ===== verification/Timestamps.v ===== *)
(** * Timestamps: instants and the fixed-width texts they are stored as.

    An aware UTC [datetime] is the number of microseconds since the epoch.
    [utc_now_iso] is [_utc_now_iso] of [scripts/news_container/control_store.py]
    ([strftime("%Y-%m-%dT%H:%M:%S.%fZ")]); [format_utc_z] is [_format_utc_z] of
    [scheduler.py].  Both are injective and order preserving from year 1000 on,
    which is what lets SQL and Python compare the stored texts.  The inverse,
    [datetime.fromisoformat], is an interface ([IsoParser]): it accepts far more
    texts than the program writes, and only its behaviour on those is used. *)
From S2P Require Import Prelude Text Calendar.
Local Open Scope Z_scope.

(** ** From day numbers to dates *)

(** The March-based year that contains day [z] (counted from 0000-03-01). *)
Definition march_year (z : Z) : Z :=
  let y := 400 * z / 146097 in
  if year_days (y + 1) <=? z then y + 1
  else if z <? year_days y then y - 1
  else y.

Definition civil_from_days (days : Z) : Z * Z * Z :=
  let z := days + 719468 in
  let y := march_year z in
  let doy := z - year_days y in
  let mp := (5 * doy + 2) / 153 in
  let d := doy - (153 * mp + 2) / 5 + 1 in
  if mp <? 10 then (y, mp + 3, d) else (y + 1, mp - 9, d).

Lemma march_year_spec z :
  year_days (march_year z) <= z < year_days (march_year z + 1).
Proof.
  unfold march_year. set (y := 400 * z / 146097).
  assert (year_days (y - 1) <= z < year_days (y + 2)) as H.
  { subst y. unfold year_days. Z.to_euclidean_division_equations. lia. }
  destruct (Z.leb_spec (year_days (y + 1)) z).
  - replace (y + 1 + 1) with (y + 2) by lia. lia.
  - destruct (Z.ltb_spec z (year_days y)); [|lia].
    replace (y - 1 + 1) with y by lia. lia.
Qed.

Lemma year_days_mono y1 y2 : y1 <= y2 → year_days y1 <= year_days y2.
Proof. intros H. unfold year_days. Z.to_euclidean_division_equations. lia. Qed.

Lemma march_year_nonneg z : 0 <= z → 0 <= march_year z.
Proof.
  intros Hz. destruct (Z.lt_ge_cases (march_year z) 0) as [H|H]; [exfalso|done].
  pose proof (march_year_spec z) as [_ Hs].
  pose proof (year_days_mono (march_year z + 1) 0 ltac:(lia)) as Hm.
  change (year_days 0) with 0 in Hm. lia.
Qed.

(** The month starts at [(153 mp + 2) / 5] and is determined by the day. *)
Lemma march_month doy :
  0 <= doy < 366 →
  let mp := (5 * doy + 2) / 153 in
  0 <= mp <= 11 ∧ (153 * mp + 2) / 5 <= doy < (153 * (mp + 1) + 2) / 5.
Proof. intros H mp. subst mp. Z.to_euclidean_division_equations. lia. Qed.

Lemma civil_from_days_spec days :
  -719468 <= days →
  let '(y, m, d) := civil_from_days days in
  0 <= y ∧ valid_date y m d ∧ days_from_civil y m d = days.
Proof.
  intros Hd. unfold civil_from_days.
  set (z := days + 719468). pose proof (march_year_nonneg z ltac:(lia)) as Hy.
  pose proof (march_year_spec z) as Hs. set (y := march_year z) in *.
  pose proof (year_days_succ (y + 1)) as Hsucc.
  replace (y + 1 - 1) with y in Hsucc by lia.
  set (doy := z - year_days y) in *.
  assert (0 <= doy < 366) as Hdoy by (destruct (is_leap_year (y + 1)); lia).
  pose proof (march_month doy Hdoy) as [Hmp Hday]. simpl in Hmp, Hday.
  set (mp := (5 * doy + 2) / 153) in *. clearbody mp.
  assert (∃ m1, mp = m1 - 1 ∧ 1 <= m1 <= 12) as (m1 & -> & Hm1)
    by (exists (mp + 1); lia).
  unfold valid_date, days_in_month.
  each_month m1; simpl in *; rewrite days_from_civil_year by lia; simpl;
    revert Hday; month_starts; intros Hday;
    rewrite ?Z.sub_0_r, ?Z.add_simpl_r; try lia.
  replace (y + 1 - 1) with y by lia.
  destruct (is_leap_year (y + 1)) eqn:Hl; simpl; split_and!; try lia.
Qed.

(** ** Order of dates *)

Lemma year_start_mono y1 y2 :
  0 <= y1 → y1 <= y2 → days_from_civil y1 1 1 <= days_from_civil y2 1 1.
Proof.
  intros H0 H. rewrite !days_from_civil_year by lia. simpl.
  pose proof (year_days_mono (y1 - 1) (y2 - 1)). lia.
Qed.

Lemma month_end_before y m1 m2 :
  0 <= y → 1 <= m1 → m1 < m2 → m2 <= 12 →
  days_from_civil y m1 (days_in_month y m1) < days_from_civil y m2 1.
Proof.
  intros Hy Hm1 Hlt. pattern m2. apply Zlt_lower_bound_ind with (z := m1 + 1); [|lia].
  clear m2 Hlt. intros m2 IH Hge Hm2.
  replace m2 with (m2 - 1 + 1) by lia. rewrite days_from_civil_month_end by lia.
  pose proof (days_in_month_bounds y (m2 - 1) ltac:(lia)).
  replace (days_in_month y (m2 - 1)) with (1 + (days_in_month y (m2 - 1) - 1)) by lia.
  rewrite days_from_civil_day.
  destruct (Z.eq_dec (m2 - 1) m1) as [->|]; [|pose proof (IH (m2 - 1)); lia].
  rewrite <-days_from_civil_day. rewrite Zplus_minus. lia.
Qed.

Lemma in_month y m d :
  valid_date y m d →
  days_from_civil y m 1 <= days_from_civil y m d
    <= days_from_civil y m (days_in_month y m).
Proof. intros [_ Hd]. unfold days_from_civil. lia. Qed.

Lemma in_year y m d :
  0 <= y → valid_date y m d →
  days_from_civil y 1 1 <= days_from_civil y m d < days_from_civil (y + 1) 1 1.
Proof.
  intros Hy Hv. pose proof (in_month y m d Hv) as Hd. destruct Hv as [Hm _].
  rewrite days_from_civil_year_end by done.
  assert (days_from_civil y 1 1 <= days_from_civil y m 1).
  { destruct (Z.eq_dec m 1) as [->|]; [lia|].
    pose proof (month_end_before y 1 m Hy ltac:(lia) ltac:(lia) ltac:(lia)).
    pose proof (days_from_civil_day y 1 1 30) as H1.
    change (1 + 30) with (days_in_month y 1) in H1. lia. }
  assert (days_from_civil y m (days_in_month y m) <= days_from_civil y 12 31).
  { destruct (Z.eq_dec m 12) as [->|]; [reflexivity|].
    pose proof (month_end_before y m 12 Hy ltac:(lia) ltac:(lia) ltac:(lia)).
    pose proof (days_from_civil_day y 12 1 30) as H12.
    change (1 + 30) with 31 in H12. lia. }
  lia.
Qed.

Definition date_lt (a b : Z * Z * Z) : Prop :=
  let '(y1, m1, d1) := a in let '(y2, m2, d2) := b in
  y1 < y2 ∨ y1 = y2 ∧ (m1 < m2 ∨ m1 = m2 ∧ d1 < d2).

Lemma days_from_civil_lt y1 m1 d1 y2 m2 d2 :
  0 <= y1 → 0 <= y2 → valid_date y1 m1 d1 → valid_date y2 m2 d2 →
  date_lt (y1, m1, d1) (y2, m2, d2) →
  days_from_civil y1 m1 d1 < days_from_civil y2 m2 d2.
Proof.
  intros Hy1 Hy2 Hv1 Hv2 [Hy|[-> [Hm|[-> Hd]]]].
  - pose proof (in_year y1 m1 d1 Hy1 Hv1). pose proof (in_year y2 m2 d2 Hy2 Hv2).
    pose proof (year_start_mono (y1 + 1) y2). lia.
  - pose proof (in_month y2 m1 d1 Hv1). pose proof (in_month y2 m2 d2 Hv2).
    destruct Hv1, Hv2. pose proof (month_end_before y2 m1 m2). lia.
  - replace d2 with (d1 + (d2 - d1)) by lia. rewrite days_from_civil_day. lia.
Qed.

(** ** Printing *)

Definition DAY_US : Z := 86400000000.

Definition time_text (us : Z) : str :=
  pad 2 (us / 3600000000) ++ u ":" ++ pad 2 (us / 60000000 mod 60) ++ u ":" ++
  pad 2 (us / 1000000 mod 60).

Definition date_text (days : Z) : str :=
  let '(y, m, d) := civil_from_days days in
  pad 4 y ++ u "-" ++ pad 2 m ++ u "-" ++ pad 2 d.

(** [strftime("%Y-%m-%dT%H:%M:%S")] *)
Definition stamp (t : Z) : str :=
  date_text (t / DAY_US) ++ u "T" ++ time_text (t mod DAY_US).

(** [_utc_now_iso(now)] *)
Definition utc_now_iso (t : Z) : str :=
  stamp t ++ u "." ++ pad 6 (t mod 1000000) ++ u "Z".

(** [_format_utc_z(value)] *)
Definition format_utc_z (t : Z) : str := stamp t ++ u "Z".

(** Instants from year 1000, below which [%Y] is not padded, to 9999. *)
Definition instant (t : Z) : Prop :=
  days_from_civil 1000 1 1 * DAY_US <= t < days_from_civil 10000 1 1 * DAY_US.

#[export] Instance instant_dec t : Decision (instant t).
Proof. unfold instant. apply _. Defined.

(** A field fits the width it is printed at. *)
Ltac fits_width :=
  try change (10 ^ Z.of_nat 2) with 100; try change (10 ^ Z.of_nat 4) with 10000;
  try change (10 ^ Z.of_nat 6) with 1000000;
  Z.to_euclidean_division_equations; lia.

Lemma str_ltb_pad_app k m n a b :
  0 <= m < 10 ^ Z.of_nat k → 0 <= n < 10 ^ Z.of_nat k →
  str_ltb (pad k m ++ a) (pad k n ++ b) = (m <? n) || ((m =? n) && str_ltb a b).
Proof.
  intros Hm Hn. rewrite str_ltb_app by by rewrite !pad_length.
  rewrite str_ltb_pad by done. f_equal. f_equal.
  apply eq_true_iff_eq. rewrite bool_decide_eq_true, Z.eqb_eq.
  split; [by apply pad_inj|congruence].
Qed.

Lemma instant_day t :
  instant t → days_from_civil 1000 1 1 <= t / DAY_US < days_from_civil 10000 1 1.
Proof.
  unfold instant, DAY_US. intros H.
  split; [apply Z.div_le_lower_bound; lia|apply Z.div_lt_upper_bound; lia].
Qed.

(** The year printed for an instant has four digits. *)
Lemma civil_of_instant t :
  instant t →
  let '(y, m, d) := civil_from_days (t / DAY_US) in
  1000 <= y < 10000 ∧ valid_date y m d ∧ 1 <= d <= 31 ∧
  days_from_civil y m d = t / DAY_US.
Proof.
  intros Ht%instant_day.
  pose proof (civil_from_days_spec (t / DAY_US)) as Hs.
  destruct (civil_from_days (t / DAY_US)) as [[y m] d].
  destruct Hs as (Hy & Hv & Hd).
  { change (days_from_civil 1000 1 1) with (-354285) in Ht. lia. }
  pose proof (in_year y m d Hy Hv) as Hin. rewrite Hd in Hin.
  split_and!; [| |done|destruct Hv..|done];
    try (pose proof (days_in_month_bounds y m); lia).
  - destruct (Z.lt_ge_cases y 1000); [|done].
    pose proof (year_start_mono (y + 1) 1000). lia.
  - destruct (Z.lt_ge_cases y 10000); [done|].
    pose proof (year_start_mono 10000 y). lia.
Qed.

Lemma civil_of_instant_date_lt t1 t2 :
  instant t1 → instant t2 →
  date_lt (civil_from_days (t1 / DAY_US)) (civil_from_days (t2 / DAY_US)) ↔
  t1 / DAY_US < t2 / DAY_US.
Proof.
  intros H1%civil_of_instant H2%civil_of_instant.
  destruct (civil_from_days (t1 / DAY_US)) as [[y1 m1] d1].
  destruct (civil_from_days (t2 / DAY_US)) as [[y2 m2] d2].
  destruct H1 as (Hy1 & Hv1 & _ & <-), H2 as (Hy2 & Hv2 & _ & <-).
  split; [intros Hlt; apply days_from_civil_lt; (done || lia)|]. intros Hlt.
  assert (date_lt (y1, m1, d1) (y2, m2, d2) ∨ date_lt (y2, m2, d2) (y1, m1, d1) ∨
    (y1, m1, d1) = (y2, m2, d2)) as [?|[Hgt|[= -> -> ->]]]; [|done| |lia].
  - simpl. destruct (Z.lt_trichotomy y1 y2) as [?|[->|?]]; [auto| |auto].
    destruct (Z.lt_trichotomy m1 m2) as [?|[->|?]]; [auto 6| |auto 6].
    destruct (Z.lt_trichotomy d1 d2) as [?|[->|?]]; auto 8.
  - pose proof (days_from_civil_lt y2 m2 d2 y1 m1 d1 ltac:(lia) ltac:(lia) Hv2 Hv1 Hgt).
    lia.
Qed.

Lemma date_text_ltb t1 t2 a b :
  instant t1 → instant t2 →
  str_ltb (date_text (t1 / DAY_US) ++ a) (date_text (t2 / DAY_US) ++ b) =
  (t1 / DAY_US <? t2 / DAY_US) || ((t1 / DAY_US =? t2 / DAY_US) && str_ltb a b).
Proof.
  intros H1 H2. pose proof (civil_of_instant_date_lt t1 t2 H1 H2) as Hlt.
  pose proof (civil_of_instant_date_lt t2 t1 H2 H1) as Hgt.
  apply civil_of_instant in H1, H2. unfold date_text.
  destruct (civil_from_days (t1 / DAY_US)) as [[y1 m1] d1].
  destruct (civil_from_days (t2 / DAY_US)) as [[y2 m2] d2].
  destruct H1 as (Hy1 & [Hm1 _] & Hd1 & _), H2 as (Hy2 & [Hm2 _] & Hd2 & _).
  rewrite <-!app_assoc.
  rewrite str_ltb_pad_app by fits_width. rewrite str_ltb_app_same.
  rewrite str_ltb_pad_app by fits_width. rewrite str_ltb_app_same.
  rewrite str_ltb_pad_app by fits_width. simpl in Hlt, Hgt.
  generalize dependent (t1 / DAY_US). generalize dependent (t2 / DAY_US).
  intros D2 D1 Hlt Hgt. apply eq_true_iff_eq.
  rewrite !orb_true_iff, !andb_true_iff, !orb_true_iff, !andb_true_iff,
    !orb_true_iff, !andb_true_iff, !Z.ltb_lt, !Z.eqb_eq.
  destruct (str_ltb a b); lia.
Qed.

Lemma time_text_ltb r1 r2 a b :
  0 <= r1 < DAY_US → 0 <= r2 < DAY_US →
  str_ltb (time_text r1 ++ a) (time_text r2 ++ b) =
  (r1 / 1000000 <? r2 / 1000000) ||
    ((r1 / 1000000 =? r2 / 1000000) && str_ltb a b).
Proof.
  unfold DAY_US. intros H1 H2. unfold time_text. rewrite <-!app_assoc.
  rewrite str_ltb_pad_app by fits_width.
  rewrite str_ltb_app_same.
  rewrite str_ltb_pad_app by fits_width.
  rewrite str_ltb_app_same.
  rewrite str_ltb_pad_app by fits_width.
  apply eq_true_iff_eq.
  rewrite !orb_true_iff, !andb_true_iff, !orb_true_iff, !andb_true_iff,
    !orb_true_iff, !andb_true_iff, !Z.ltb_lt, !Z.eqb_eq.
  assert (∀ r, r / 3600000000 = r / 1000000 / 3600) as E1
    by (intros; by rewrite Z.div_div).
  assert (∀ r, r / 60000000 = r / 1000000 / 60) as E2
    by (intros; by rewrite Z.div_div).
  rewrite !E1, !E2. generalize (r1 / 1000000) (r2 / 1000000). intros s1 s2.
  destruct (str_ltb a b); Z.to_euclidean_division_equations; lia.
Qed.

Lemma day_split t :
  t = t / DAY_US * DAY_US + t mod DAY_US ∧ 0 <= t mod DAY_US < DAY_US.
Proof.
  pose proof (Z.div_mod t DAY_US). pose proof (Z.mod_pos_bound t DAY_US).
  unfold DAY_US in *. lia.
Qed.

(** Stored timestamps compare as the instants they denote. *)
Lemma utc_now_iso_ltb t1 t2 :
  instant t1 → instant t2 →
  str_ltb (utc_now_iso t1) (utc_now_iso t2) = (t1 <? t2).
Proof.
  intros H1 H2. unfold utc_now_iso, stamp. rewrite <-!app_assoc.
  destruct (day_split t1) as [E1 R1], (day_split t2) as [E2 R2].
  rewrite date_text_ltb, str_ltb_app_same, time_text_ltb by done.
  rewrite str_ltb_app_same, str_ltb_pad_app by fits_width.
  rewrite str_ltb_irrefl, andb_false_r, orb_false_r.
  assert (∀ t, t mod 1000000 = (t mod DAY_US) mod 1000000) as Em.
  { intros t. unfold DAY_US. Z.to_euclidean_division_equations. lia. }
  rewrite (Em t1), (Em t2). revert E1 R1 E2 R2. unfold DAY_US.
  generalize (t1 mod 86400000000) (t2 mod 86400000000)
    (t1 / 86400000000) (t2 / 86400000000).
  intros r1 r2 D1 D2 -> R1 -> R2. apply eq_true_iff_eq.
  rewrite !orb_true_iff, !andb_true_iff, !orb_true_iff, !andb_true_iff,
    !Z.ltb_lt, !Z.eqb_eq.
  Z.to_euclidean_division_equations. lia.
Qed.

Lemma utc_now_iso_inj t1 t2 :
  instant t1 → instant t2 → utc_now_iso t1 = utc_now_iso t2 → t1 = t2.
Proof.
  intros H1 H2 H. pose proof (utc_now_iso_ltb t1 t2 H1 H2) as Hl.
  pose proof (utc_now_iso_ltb t2 t1 H2 H1) as Hr.
  rewrite H, str_ltb_irrefl in Hl. rewrite <-H, str_ltb_irrefl in Hr. lia.
Qed.

Lemma utc_now_iso_leb t1 t2 :
  instant t1 → instant t2 →
  str_leb (utc_now_iso t1) (utc_now_iso t2) = (t1 <=? t2).
Proof.
  intros H1 H2. unfold str_leb. rewrite utc_now_iso_ltb by done. lia.
Qed.

(** Second-precision texts compare as instants rounded down to the second. *)
Lemma format_utc_z_ltb t1 t2 :
  instant t1 → instant t2 →
  str_ltb (format_utc_z t1) (format_utc_z t2) = (t1 / 1000000 <? t2 / 1000000).
Proof.
  intros H1 H2. unfold format_utc_z, stamp. rewrite <-!app_assoc.
  destruct (day_split t1) as [E1 R1], (day_split t2) as [E2 R2].
  rewrite date_text_ltb, str_ltb_app_same, time_text_ltb by done.
  rewrite str_ltb_irrefl, andb_false_r, orb_false_r.
  revert E1 R1 E2 R2. unfold DAY_US.
  generalize (t1 mod 86400000000) (t2 mod 86400000000)
    (t1 / 86400000000) (t2 / 86400000000).
  intros r1 r2 D1 D2 -> R1 -> R2. apply eq_true_iff_eq.
  rewrite !orb_true_iff, !andb_true_iff, !Z.ltb_lt, !Z.eqb_eq.
  Z.to_euclidean_division_equations. lia.
Qed.

(** ** Parsing *)

(** [datetime.fromisoformat(text).astimezone(UTC)] as the instant it denotes,
    [None] for [ValueError]: the inverse of the two formats above. *)
Class IsoParser := {
  fromisoformat : str → option Z;
  fromisoformat_us t :
    instant t → fromisoformat (stamp t ++ u "." ++ pad 6 (t mod 1000000) ++ u "+00:00") = Some t;
  fromisoformat_s t :
    instant t → t mod 1000000 = 0 → fromisoformat (stamp t ++ u "+00:00") = Some t }.

(** [_parse_utc_iso(value)] of the control store and [_parse_utc_z] of the
    scheduler; [None] is [ValueError]. *)
Definition parse_utc_iso `{IsoParser} (value : str) : option Z :=
  if ends_with (u "Z") value
  then fromisoformat (removelast value ++ u "+00:00")
  else None.

Lemma ends_with_app a b : ends_with b (a ++ b) = true.
Proof.
  unfold ends_with. rewrite reverse_app.
  generalize (reverse b) (reverse a). clear. intros p q.
  induction p as [|x p IH]; simpl; [done|]. by rewrite N.eqb_refl.
Qed.

Lemma removelast_snoc {A} (l : list A) x : removelast (l ++ [x]) = l.
Proof. apply removelast_last. Qed.

Lemma parse_utc_now_iso `{IsoParser} t :
  instant t → parse_utc_iso (utc_now_iso t) = Some t.
Proof.
  intros Ht. unfold parse_utc_iso, utc_now_iso. rewrite !app_assoc.
  rewrite ends_with_app. cbn [u]. rewrite removelast_snoc, <-!app_assoc.
  by apply fromisoformat_us.
Qed.

Lemma parse_format_utc_z `{IsoParser} t :
  instant t → t mod 1000000 = 0 → parse_utc_iso (format_utc_z t) = Some t.
Proof.
  intros Ht Hs. unfold parse_utc_iso, format_utc_z.
  rewrite ends_with_app. cbn [u]. rewrite removelast_snoc.
  by apply fromisoformat_s.
Qed.

(** A parser of exactly the two formats the program writes. *)
Definition number (k : nat) (s : str) : option (Z * str) :=
  if (k <=? length s)%nat && forallb is_digit (take k s)
  then Some (int_digits (take k s), drop k s) else None.

Definition us_of_fields (y m d h mi sec us : Z) : Z :=
  days_from_civil y m d * DAY_US + ((h * 60 + mi) * 60 + sec) * 1000000 + us.

Definition fixed_iso (s : str) : option Z :=
  '(y, s) ← number 4 s; s ← re_char 45 s;
  '(m, s) ← number 2 s; s ← re_char 45 s;
  '(d, s) ← number 2 s; s ← re_char 84 s;
  '(h, s) ← number 2 s; s ← re_char 58 s;
  '(mi, s) ← number 2 s; s ← re_char 58 s;
  '(sec, s) ← number 2 s;
  '(us, s) ←
    match re_char 46 s with
    | Some s' => number 6 s'
    | None => Some (0, s)
    end;
  if bool_decide (s = u "+00:00") &&
     (1 <=? y) && date_in_range (mk_fields y m d h mi sec) &&
     (h <=? 23) && (mi <=? 59) && (sec <=? 59)
  then Some (us_of_fields y m d h mi sec us) else None.

Lemma number_pad k n rest :
  k ≠ O → 0 <= n < 10 ^ Z.of_nat k → number k (pad k n ++ rest) = Some (n, rest).
Proof.
  intros Hk Hn. unfold number.
  rewrite take_app_length', drop_app_length' by by rewrite pad_length.
  rewrite int_digits_pad by done.
  rewrite length_app, pad_length, (proj2 (Nat.leb_le k _)) by lia.
  rewrite (proj2 (forallb_forall _ _)); [done|].
  intros x Hx. pose proof (pad_digits k n) as Hd. rewrite Forall_forall in Hd.
  by apply Hd, list_elem_of_In.
Qed.

(** What [stamp] prints, field by field. *)
Lemma stamp_fields t rest :
  instant t →
  let r := t mod DAY_US in
  ∃ y m d, civil_from_days (t / DAY_US) = (y, m, d) ∧
    1000 <= y < 10000 ∧ valid_date y m d ∧ 1 <= d <= 31 ∧
    us_of_fields y m d (r / 3600000000) (r / 60000000 mod 60)
      (r / 1000000 mod 60) (t mod 1000000) = t ∧
    0 <= r / 3600000000 <= 23 ∧
    stamp t ++ rest =
      pad 4 y ++ 45%N :: pad 2 m ++ 45%N :: pad 2 d ++ 84%N ::
      pad 2 (r / 3600000000) ++ 58%N :: pad 2 (r / 60000000 mod 60) ++ 58%N ::
      pad 2 (r / 1000000 mod 60) ++ rest.
Proof.
  intros Ht r. subst r. unfold stamp, date_text, time_text.
  pose proof (civil_of_instant t Ht) as Hc.
  destruct (civil_from_days (t / DAY_US)) as [[y m] d].
  destruct Hc as (Hy & Hv & Hd & Heq). exists y, m, d.
  split_and!; try done; try lia.
  - unfold us_of_fields. rewrite Heq. unfold DAY_US.
    Z.to_euclidean_division_equations. lia.
  - unfold DAY_US. Z.to_euclidean_division_equations. lia.
  - unfold DAY_US. Z.to_euclidean_division_equations. lia.
Qed.

Lemma fixed_iso_stamp t us rest :
  instant t → t mod 1000000 = us →
  (match re_char 46 rest with Some s => number 6 s | None => Some (0, rest) end)
    = Some (us, u "+00:00") →
  fixed_iso (stamp t ++ rest) = Some t.
Proof.
  intros Ht Hus Hrest.
  destruct (stamp_fields t rest Ht) as (y & m & d & _ & Hy & [Hm Hdd] & Hd & Heq & Hh & ->).
  unfold fixed_iso.
  rewrite number_pad by (done || fits_width). cbn [mbind option_bind re_char N.eqb Pos.eqb].
  do 2 (rewrite number_pad by (done || fits_width);
    cbn [mbind option_bind re_char N.eqb Pos.eqb]).
  do 3 (rewrite number_pad by
    (done || (unfold DAY_US; fits_width)); cbn [mbind option_bind re_char N.eqb Pos.eqb]).
  rewrite Hrest. cbn [mbind option_bind].
  rewrite bool_decide_eq_true_2 by done. unfold date_in_range. cbn [f_year f_month f_day].
  repeat (rewrite (proj2 (Z.leb_le _ _)) by
    (try lia; unfold DAY_US; Z.to_euclidean_division_equations; lia)).
  simpl. by rewrite <-Hus, Heq.
Qed.

Lemma fixed_iso_us t :
  instant t →
  fixed_iso (stamp t ++ u "." ++ pad 6 (t mod 1000000) ++ u "+00:00") = Some t.
Proof.
  intros Ht. eapply fixed_iso_stamp; [done|reflexivity|].
  cbn [u app re_char]. change (N.eqb 46 _) with true. cbn iota beta.
  by rewrite number_pad by (done || fits_width).
Qed.

Lemma fixed_iso_s t :
  instant t → t mod 1000000 = 0 → fixed_iso (stamp t ++ u "+00:00") = Some t.
Proof. intros Ht Hs. by eapply fixed_iso_stamp. Qed.

Definition fixed_parser : IsoParser :=
  {| fromisoformat := fixed_iso;
     fromisoformat_us := fixed_iso_us;
     fromisoformat_s := fixed_iso_s |}.
