(* ===== verification/SessionDb.v ===== *)
(** * SessionDb: the phase-6 session database and its field checks.

    The V1 tables of [scripts/news_pipeline/phase6/schema.py] that the recovery
    pipeline reads and writes, each INSERT with the CHECK, PRIMARY KEY and
    FOREIGN KEY constraints its DDL declares, and the exception classes and
    field validators the three slices ([recovery.py], [audit.py], [outbox.py])
    share.  Message texts of exceptions are left out; their classes are kept. *)
From S2P Require Import Prelude Text Sha256 Calendar.
Local Open Scope Z_scope.

(** ** Exceptions *)

Inductive exn : Type :=
  | RecoveryIdentityError
  | RecoveryConsistencyError
  | RecoveryBatchError
  | RecoveryDuplicateError
  | RecoverySchemaError
  | AuditIdentityError
  | AuditConsistencyError
  | AuditMissingInputError
  | AuditBatchError
  | AuditConflictError
  | AuditSchemaError
  | OutboxIdentityError
  | OutboxConsistencyError
  | OutboxMissingInputError
  | OutboxBatchError
  | OutboxConflictError
  | OutboxSchemaError.

#[export] Instance exn_eq_dec : EqDecision exn.
Proof. solve_decision. Defined.

(** ** Rows *)

(** [evaluation_inputs] *)
Record eval_row := mk_eval_row
  { er_job_id : str; er_reference_utc : str; er_age_seconds : Z;
    er_source_state : str; er_canonical_input_json : str; er_input_sha256 : str }.

(** [audit_events] *)
Record audit_row := mk_audit_row
  { ar_event_sha256 : str; ar_job_id : str; ar_event_kind : str;
    ar_result_value : str; ar_evaluation_utc : str; ar_age_seconds : Z;
    ar_input_sha256 : str; ar_canonical_event_json : str }.

(** [dry_run_outbox] *)
Record outbox_row := mk_outbox_row
  { or_payload_sha256 : str; or_event_sha256 : str; or_job_id : str;
    or_result_value : str; or_age_seconds : Z; or_state : str;
    or_template_id : str; or_canonical_payload_json : str; or_session_id : str;
    or_evaluation_utc : str; or_credential_free : Z; or_delivery_evidence : Z }.

#[export] Instance eval_row_eq_dec : EqDecision eval_row.
Proof. solve_decision. Defined.
#[export] Instance audit_row_eq_dec : EqDecision audit_row.
Proof. solve_decision. Defined.
#[export] Instance outbox_row_eq_dec : EqDecision outbox_row.
Proof. solve_decision. Defined.

(** The database as one connection sees it.  [tables] lists the columns that
    [PRAGMA table_info] reports; [write_locked] says whether another connection
    holds the write lock, in which case [BEGIN IMMEDIATE] fails; [foreign_keys]
    is the PRAGMA, which the sandbox leaves at the build's default.  Rows of
    [audit_events] are in insertion order. *)
Record session_db := mk_db
  { user_version : Z;
    tables : gmap str (list str);
    write_locked : bool;
    foreign_keys : bool;
    evaluation_inputs : gmap str eval_row;
    audit_events : list audit_row;
    dry_run_outbox : gmap str outbox_row }.

Definition set_evaluation_inputs (t : gmap str eval_row) (db : session_db) : session_db :=
  mk_db (user_version db) (tables db) (write_locked db) (foreign_keys db)
    t (audit_events db) (dry_run_outbox db).
Definition set_audit_events (t : list audit_row) (db : session_db) : session_db :=
  mk_db (user_version db) (tables db) (write_locked db) (foreign_keys db)
    (evaluation_inputs db) t (dry_run_outbox db).
Definition set_dry_run_outbox (t : gmap str outbox_row) (db : session_db) : session_db :=
  mk_db (user_version db) (tables db) (write_locked db) (foreign_keys db)
    (evaluation_inputs db) (audit_events db) t.

(** ** INSERT *)

Inductive integrity_error : Type := CheckFailed | UniqueFailed | ForeignKeyFailed.

(** SQLite's [length] and [GLOB] stop at the first NUL. *)
Fixpoint c_text (s : str) : str :=
  match s with
  | [] => []
  | c :: s' => if (c =? 0)%N then [] else c :: c_text s'
  end.

Definition is_lower_hex (c : N) : bool := is_digit c || in_range 97 102 c.
Definition is_source_state_char (c : N) : bool :=
  is_upper c || is_digit c || (c =? 95)%N || (c =? 58)%N || (c =? 45)%N.

(** [length(x) = 64 AND x NOT GLOB '*[^0-9a-f]*'] *)
Definition sql_hex64 (s : str) : bool :=
  (length (c_text s) =? 64)%nat && forallb is_lower_hex (c_text s).

(** [length(x) BETWEEN 1 AND 64 AND x NOT GLOB '*[^A-Z0-9_:-]*'] *)
Definition sql_source_state (s : str) : bool :=
  (1 <=? length (c_text s))%nat && (length (c_text s) <=? 64)%nat &&
  forallb is_source_state_char (c_text s).

Definition EXPIRED_OBSERVED : str := u "EXPIRED_OBSERVED".
Definition STALE_OBSERVED : str := u "STALE_OBSERVED".
Definition RESULT_NO_OBSERVATION : str := u "NO_OBSERVATION".
Definition RESULT_EXPIRED : str := u "EXPIRED".
Definition RESULT_STALE : str := u "STALE".
Definition DRY_RUN_STATE : str := u "PREVIEW_ONLY".
Definition TEMPLATE_ID : str := u "recovery-observation.v1".

Definition eval_row_checks (r : eval_row) : bool :=
  (0 <=? er_age_seconds r) && sql_source_state (er_source_state r) &&
  sql_hex64 (er_input_sha256 r).

Definition insert_evaluation_input (r : eval_row) (db : session_db)
    : result integrity_error session_db :=
  _ ← raise_if (negb (eval_row_checks r)) CheckFailed;
  match evaluation_inputs db !! er_job_id r with
  | Some _ => Err UniqueFailed
  | None => Ok (set_evaluation_inputs (<[er_job_id r := r]> (evaluation_inputs db)) db)
  end.

Definition same_audit_key (r r' : audit_row) : bool :=
  bool_decide (ar_event_sha256 r = ar_event_sha256 r' ∧ ar_job_id r = ar_job_id r').

Definition audit_row_checks (r : audit_row) : bool :=
  let expired := bool_decide (ar_event_kind r = EXPIRED_OBSERVED) &&
                 bool_decide (ar_result_value r = RESULT_EXPIRED) in
  let stale := bool_decide (ar_event_kind r = STALE_OBSERVED) &&
               bool_decide (ar_result_value r = RESULT_STALE) in
  (0 <=? ar_age_seconds r) && (expired || stale) &&
  sql_hex64 (ar_event_sha256 r) && sql_hex64 (ar_input_sha256 r).

Definition insert_audit_event (r : audit_row) (db : session_db)
    : result integrity_error session_db :=
  _ ← raise_if (negb (audit_row_checks r)) CheckFailed;
  _ ← raise_if (existsb (same_audit_key r) (audit_events db)) UniqueFailed;
  _ ← raise_if (foreign_keys db &&
        bool_decide (evaluation_inputs db !! ar_job_id r = None)) ForeignKeyFailed;
  Ok (set_audit_events (audit_events db ++ [r]) db).

Definition outbox_row_checks (r : outbox_row) : bool :=
  sql_hex64 (or_payload_sha256 r) &&
  (bool_decide (or_result_value r = RESULT_EXPIRED) ||
   bool_decide (or_result_value r = RESULT_STALE)) &&
  (0 <=? or_age_seconds r) && bool_decide (or_state r = DRY_RUN_STATE) &&
  bool_decide (or_template_id r = TEMPLATE_ID) &&
  (or_credential_free r =? 1) && (or_delivery_evidence r =? 0).

Definition audit_key_present (event_sha256 job_id : str) (db : session_db) : bool :=
  existsb (λ r, bool_decide (ar_event_sha256 r = event_sha256 ∧ ar_job_id r = job_id))
    (audit_events db).

Definition insert_dry_run_outbox (r : outbox_row) (db : session_db)
    : result integrity_error session_db :=
  _ ← raise_if (negb (outbox_row_checks r)) CheckFailed;
  match dry_run_outbox db !! or_payload_sha256 r with
  | Some _ => Err UniqueFailed
  | None =>
      _ ← raise_if (foreign_keys db &&
            negb (audit_key_present (or_event_sha256 r) (or_job_id r) db)) ForeignKeyFailed;
      Ok (set_dry_run_outbox (<[or_payload_sha256 r := r]> (dry_run_outbox db)) db)
  end.

(** [conn.execute(INSERT ...)] where an [IntegrityError] is re-raised as [f]. *)
Definition execute_insert {R} (insert : R → session_db → result integrity_error session_db)
    (f : integrity_error → exn) (r : R) : M session_db exn unit := λ db,
  match insert r db with
  | Ok db' => (Ok tt, db')
  | Err e => (Err (f e), db)
  end.

(** [BEGIN IMMEDIATE] (raised as [e] when another connection writes), the body,
    then COMMIT or ROLLBACK. *)
Definition immediate {A} (e : exn) (body : M session_db exn A) : M session_db exn A := λ db,
  if write_locked db then (Err e, db) else transaction body db.

(** ** Schema verification *)

Definition EVALUATION_INPUTS_COLUMNS : list str :=
  map u ["job_id"; "reference_utc"; "age_seconds"; "source_state";
         "canonical_input_json"; "input_sha256"].
Definition AUDIT_EVENTS_COLUMNS : list str :=
  map u ["event_sha256"; "job_id"; "event_kind"; "result_value"; "evaluation_utc";
         "age_seconds"; "input_sha256"; "canonical_event_json"].
Definition DRY_RUN_OUTBOX_COLUMNS : list str :=
  map u ["payload_sha256"; "event_sha256"; "job_id"; "result_value"; "age_seconds";
         "state"; "template_id"; "canonical_payload_json"; "session_id";
         "evaluation_utc"; "credential_free"; "delivery_evidence"].

(** [required - cols] is empty; a missing table has no columns. *)
Definition has_columns (table : string) (required : list str) (db : session_db) : bool :=
  let cols := default [] (tables db !! u table) in
  forallb (λ c, bool_decide (c ∈ cols)) required.

(** ** The tables only grow

    [extends db db']: every row of [db] is still in [db'], unchanged. *)
Definition extends (db db' : session_db) : Prop :=
  evaluation_inputs db ⊆ evaluation_inputs db' ∧
  audit_events db `prefix_of` audit_events db' ∧
  dry_run_outbox db ⊆ dry_run_outbox db' ∧
  user_version db' = user_version db ∧ tables db' = tables db ∧
  write_locked db' = write_locked db ∧ foreign_keys db' = foreign_keys db.

#[export] Instance extends_preorder : PreOrder extends.
Proof.
  split; unfold Reflexive, Transitive, extends.
  - intros db. split_and!; reflexivity.
  - intros a b c (? & ? & ? & ? & ? & ? & ?) (? & ? & ? & ? & ? & ? & ?).
    split_and!; try (etrans; eassumption); congruence.
Qed.

Lemma insert_evaluation_input_extends r db db' :
  insert_evaluation_input r db = Ok db' → extends db db'.
Proof.
  unfold insert_evaluation_input. intros H. inv_ok. case_all; inv_ok.
  split_and!; simpl; try reflexivity. by apply insert_subseteq.
Qed.
Lemma insert_audit_event_extends r db db' :
  insert_audit_event r db = Ok db' → extends db db'.
Proof.
  unfold insert_audit_event. intros H. inv_ok.
  split_and!; simpl; try reflexivity. by eexists.
Qed.
Lemma insert_dry_run_outbox_extends r db db' :
  insert_dry_run_outbox r db = Ok db' → extends db db'.
Proof.
  unfold insert_dry_run_outbox. intros H. inv_ok.
  destruct (dry_run_outbox db !! or_payload_sha256 r) eqn:Hl; inv_ok.
  split_and!; simpl; try reflexivity. by apply insert_subseteq.
Qed.

Lemma execute_insert_extends {R} (insert : R → session_db → result integrity_error session_db) f r :
  (∀ db db', insert r db = Ok db' → extends db db') →
  steps extends (execute_insert insert f r).
Proof.
  intros Hi db res db'. unfold execute_insert.
  destruct (insert r db) eqn:H; intros [= <- <-]; [eauto|reflexivity].
Qed.

Lemma steps_immediate {A} e (body : M session_db exn A) :
  steps extends body → steps extends (immediate e body).
Proof.
  intros Hb db r db'. unfold immediate. destruct (write_locked db).
  - intros [= <- <-]. reflexivity.
  - by apply steps_transaction; [typeclasses eauto|].
Qed.

#[export] Hint Resolve insert_evaluation_input_extends insert_audit_event_extends
  insert_dry_run_outbox_extends execute_insert_extends steps_immediate : steps.

(** The session database as [schema.py] creates it. *)
Definition v1_empty : session_db :=
  mk_db 1 (list_to_map [(u "evaluation_inputs", EVALUATION_INPUTS_COLUMNS);
                        (u "audit_events", AUDIT_EVENTS_COLUMNS);
                        (u "dry_run_outbox", DRY_RUN_OUTBOX_COLUMNS)])
    false false ∅ [] ∅.
