(* ===== verification/Fields.v ===== *)
(** * Fields: the validators shared by the three phase-6 slices.

    [recovery.py], [audit.py] and [outbox.py] each define [_check_job_id],
    [_check_source_state], [_check_age], ... with one text and their own
    exception classes.  They are written here once, over those classes.  Every
    pattern ends in [$], which [re.match] also lets match before a final
    newline; [re_class] keeps that. *)
From S2P Require Import Prelude Text Sha256 Calendar SessionDb.
Local Open Scope Z_scope.

Definition INT64_MAX : Z := 2 ^ 63 - 1.
Definition MAX_BATCH_SIZE : nat := 1024.
Definition MAX_JOB_ID_LEN : nat := 128.
Definition MAX_SOURCE_STATE_LEN : nat := 64.
Definition MAX_SESSION_ID_LEN : nat := 32.
Definition MAX_TIMESTAMP_LEN : nat := 32.

Fixpoint span_class (cls : N → bool) (s : str) : nat * str :=
  match s with
  | c :: s' =>
      if cls c then let '(k, r) := span_class cls s' in (S k, r) else (O, s)
  | [] => (O, [])
  end.

(** [re.match(r"^[cls]{1,max}$", s)]; no class contains the newline. *)
Definition re_class (cls : N → bool) (lo hi : nat) (s : str) : bool :=
  let '(k, r) := span_class cls s in
  (lo <=? k)%nat && (k <=? hi)%nat && re_end r.

(** [A-Za-z0-9._-] *)
Definition is_job_id_char (c : N) : bool :=
  is_upper c || is_lower c || is_digit c || (c =? 46)%N || (c =? 95)%N || (c =? 45)%N.
(** [A-Za-z0-9._:-] *)
Definition is_session_id_char (c : N) : bool := is_job_id_char c || (c =? 58)%N.

Section checks.
Context (identity consistency : exn).

Definition check_pattern (cls : N → bool) (hi : nat) (value : pyval) : result exn str :=
  match value with
  | PStr s =>
      _ ← raise_if (length s =? 0)%nat identity;
      _ ← raise_if (hi <? length s)%nat identity;
      _ ← raise_if (negb (re_class cls 1 hi s)) identity;
      Ok s
  | _ => Err identity
  end.

Definition check_job_id : pyval → result exn str :=
  check_pattern is_job_id_char MAX_JOB_ID_LEN.
Definition check_source_state : pyval → result exn str :=
  check_pattern is_source_state_char MAX_SOURCE_STATE_LEN.
Definition check_session_id : pyval → result exn str :=
  check_pattern is_session_id_char MAX_SESSION_ID_LEN.

(** [isinstance(value, bool) or not isinstance(value, int)] comes first. *)
Definition check_age (value : pyval) : result exn Z :=
  match value with
  | PInt z =>
      _ ← raise_if (z <? 0) consistency;
      _ ← raise_if (INT64_MAX <? z) identity;
      Ok z
  | _ => Err identity
  end.

(** [_check_timestamp_field] of the recovery slice. *)
Definition check_timestamp_field (value : pyval) : result exn str :=
  match value with
  | PStr s => _ ← raise_if (MAX_TIMESTAMP_LEN <? length s)%nat identity; Ok s
  | _ => Err identity
  end.

(** [_check_timestamp] of the audit and outbox slices. *)
Definition check_timestamp (value : pyval) : result exn str :=
  match value with
  | PStr s =>
      _ ← raise_if (length s =? 0)%nat identity;
      _ ← raise_if (MAX_TIMESTAMP_LEN <? length s)%nat identity;
      Ok s
  | _ => Err identity
  end.

Definition check_hex64 (value : pyval) : result exn str :=
  match value with
  | PStr s => _ ← raise_if (negb (re_class is_lower_hex 64 64 s)) identity; Ok s
  | _ => Err identity
  end.

Definition check_one_of (allowed : list str) (value : pyval) : result exn str :=
  match value with
  | PStr s => _ ← raise_if (negb (bool_decide (s ∈ allowed))) identity; Ok s
  | _ => Err identity
  end.
Definition check_event_kind : pyval → result exn str :=
  check_one_of [EXPIRED_OBSERVED; STALE_OBSERVED].
Definition check_result_value : pyval → result exn str :=
  check_one_of [RESULT_EXPIRED; RESULT_STALE].
End checks.

(** ** What the patterns accept *)

Lemma span_class_spec cls s :
  let '(k, r) := span_class cls s in
  s = take k s ++ r ∧ k = length (take k s) ∧ Forall (λ c, cls c = true) (take k s) ∧
  match r with [] => True | c :: _ => cls c = false end.
Proof.
  induction s as [|c s IH]; simpl; [done|].
  destruct (cls c) eqn:Hc; [|done].
  destruct (span_class cls s) as [k r]. destruct IH as (Hs & Hk & Hf & Hr).
  simpl. split_and!; [by f_equal|by f_equal|by constructor|done].
Qed.

(** Texts over a class, followed by at most one newline. *)
Definition over_class (cls : N → bool) (lo hi : nat) (s : str) : Prop :=
  ∃ t, (s = t ∨ s = t ++ [10%N]) ∧ (lo <= length t <= hi)%nat ∧
    Forall (λ c, cls c = true) t.

Lemma span_class_app cls t r :
  Forall (λ c, cls c = true) t →
  match r with [] => True | c :: _ => cls c = false end →
  span_class cls (t ++ r) = (length t, r).
Proof.
  intros Ht Hr. induction Ht as [|c t Hc _ IH]; simpl.
  - destruct r; [done|]. simpl. by rewrite Hr.
  - by rewrite Hc, IH.
Qed.

Lemma re_class_iff cls lo hi s :
  cls 10%N = false →
  re_class cls lo hi s = true ↔ over_class cls lo hi s.
Proof.
  intros Hnl. unfold re_class, over_class. split.
  - pose proof (span_class_spec cls s) as Hs.
    destruct (span_class cls s) as [k r]. destruct Hs as (Hs & Hk & Hf & Hr).
    rewrite !andb_true_iff, !Nat.leb_le. intros [[Hlo Hhi] Hend].
    exists (take k s). rewrite <-Hk. split_and!; [|lia|lia|done].
    destruct r as [|c [|]]; [left|right|done].
    + by rewrite <-(app_nil_r (take k s)).
    + simpl in Hend. apply N.eqb_eq in Hend. by subst c.
  - intros (t & [-> | ->] & Hl & Hf).
    + rewrite <-(app_nil_r t), span_class_app by done. simpl.
      rewrite !andb_true_iff, !Nat.leb_le. lia.
    + rewrite span_class_app by done. simpl.
      rewrite !andb_true_iff, !Nat.leb_le. lia.
Qed.

Lemma check_pattern_Ok identity cls hi s t :
  cls 10%N = false →
  check_pattern identity cls hi (PStr s) = Ok t ↔
  t = s ∧ (length s <= hi)%nat ∧ over_class cls 1 hi s.
Proof.
  intros Hnl. unfold check_pattern. rewrite <-re_class_iff by done.
  destruct (Nat.eqb_spec (length s) 0) as [H0|H0]; simpl.
  { apply length_zero_iff_nil in H0 as ->. split; [done|].
    intros (_ & _ & H). discriminate H. }
  destruct (Nat.ltb_spec hi (length s)); simpl; [split; [done|lia]|].
  destruct (re_class cls 1 hi s); simpl; split; try done; naive_solver.
Qed.

Lemma check_job_id_Ok identity s t :
  check_job_id identity (PStr s) = Ok t ↔
  t = s ∧ (length s <= 128)%nat ∧ over_class is_job_id_char 1 128 s.
Proof. by apply check_pattern_Ok. Qed.

Lemma check_source_state_Ok identity s t :
  check_source_state identity (PStr s) = Ok t ↔
  t = s ∧ (length s <= 64)%nat ∧ over_class is_source_state_char 1 64 s.
Proof. by apply check_pattern_Ok. Qed.

Lemma check_age_Ok identity consistency v z :
  check_age identity consistency v = Ok z ↔ v = PInt z ∧ 0 <= z <= INT64_MAX.
Proof.
  unfold check_age. destruct v; try naive_solver.
  destruct (Z.ltb_spec z0 0); simpl; [naive_solver lia|].
  destruct (Z.ltb_spec INT64_MAX z0); simpl; naive_solver lia.
Qed.

Lemma check_hex64_Ok identity s t :
  check_hex64 identity (PStr s) = Ok t ↔ t = s ∧ over_class is_lower_hex 64 64 s.
Proof.
  unfold check_hex64. rewrite <-re_class_iff by done.
  destruct (re_class is_lower_hex 64 64 s); simpl; naive_solver.
Qed.

Lemma over_class_exact cls lo hi s :
  (lo <= length s <= hi)%nat → Forall (λ c, cls c = true) s → over_class cls lo hi s.
Proof. intros Hl Hs. exists s. auto. Qed.

Lemma sha256_over_class s : over_class is_lower_hex 64 64 (sha256 s).
Proof.
  apply over_class_exact; [rewrite sha256_length; lia|]. apply sha256_hex.
Qed.

Lemma c_text_id s : Forall (λ c, c ≠ 0%N) s → c_text s = s.
Proof.
  induction 1 as [|c s Hc _ IH]; simpl; [done|].
  by rewrite (proj2 (N.eqb_neq c 0) Hc), IH.
Qed.

(** A digest satisfies the SQL CHECK on digest columns. *)
Lemma sql_hex64_sha256 s : sql_hex64 (sha256 s) = true.
Proof.
  unfold sql_hex64. pose proof (sha256_hex s) as Hx.
  rewrite c_text_id.
  - rewrite sha256_length. apply forallb_forall. intros c Hc.
    rewrite Forall_forall in Hx. by apply Hx, list_elem_of_In.
  - eapply Forall_impl; [exact Hx|]. by intros c Hc ->.
Qed.
