(* ===== verification/Recovery.v ===== *)
(** * Recovery: immutable evaluation of job observations.

    [scripts/news_pipeline/phase6/recovery.py]: a batch of job observations is
    validated, each age is put in one of three bands, and the expired and stale
    ones are recorded in [evaluation_inputs] in one transaction.  The checks
    that an argument is a [Connection], a context or a list of [JobInput] are
    those of the types below. *)
From S2P Require Import Prelude Text Sha256 Json Calendar Timestamps SessionDb Fields.
Local Open Scope Z_scope.

(** ** Data *)

Record JobInput := mk_job
  { job_id : str; reference_utc : str; evaluation_utc : str;
    age_seconds : Z; source_state : str }.

Record EvaluationResult := mk_result
  { r_job_id : str; r_result : str; r_age_band : str; r_age_seconds : Z;
    r_reference_utc : str; r_evaluation_utc : str; r_source_state : str;
    r_input_sha256 : str; r_persisted : bool }.

#[export] Instance JobInput_eq_dec : EqDecision JobInput.
Proof. solve_decision. Defined.
#[export] Instance EvaluationResult_eq_dec : EqDecision EvaluationResult.
Proof. solve_decision. Defined.

Definition MAX_CANONICAL_INPUT_JSON_LEN : nat := 1024.
Definition BAND_NO_OBSERVATION_UPPER_EXCLUSIVE : Z := 300.
Definition BAND_EXPIRED_UPPER_EXCLUSIVE : Z := 600.

(** ** Validation *)

Definition seconds_from_utc_calendar (year month day hour minute second : Z)
    : result exn Z :=
  _ ← raise_if (negb ((1 <=? month) && (month <=? 12))) RecoveryIdentityError;
  _ ← raise_if (negb ((1 <=? day) && (day <=? days_in_month year month)))
        RecoveryIdentityError;
  _ ← raise_if (negb (time_in_range (mk_fields year month day hour minute second)))
        RecoveryIdentityError;
  let days := days_from_civil year month day in
  Ok (((days * 24 + hour) * 60 + minute) * 60 + second).

Definition parse_canonical_utc_to_seconds (value : str) : result exn Z :=
  _ ← map_err (λ _, RecoveryIdentityError) (validate_iso8601_utc (PStr value));
  let head := removelast value in
  let main := (split1 46 head).1 in
  let f := calendar_fields main in
  seconds_from_utc_calendar (f_year f) (f_month f) (f_day f)
    (f_hour f) (f_minute f) (f_second f).

Definition _check_job_id : pyval → result exn str := check_job_id RecoveryIdentityError.
Definition _check_source_state : pyval → result exn str :=
  check_source_state RecoveryIdentityError.
Definition _check_age : pyval → result exn Z :=
  check_age RecoveryIdentityError RecoveryConsistencyError.
Definition _check_timestamp_field : pyval → result exn str :=
  check_timestamp_field RecoveryIdentityError.

Definition validate_job_input (job : JobInput) : result exn JobInput :=
  job_id' ← _check_job_id (PStr (job_id job));
  reference ← _check_timestamp_field (PStr (reference_utc job));
  evaluation ← _check_timestamp_field (PStr (evaluation_utc job));
  age ← _check_age (PInt (age_seconds job));
  state ← _check_source_state (PStr (source_state job));
  reference_seconds ← parse_canonical_utc_to_seconds reference;
  evaluation_seconds ← parse_canonical_utc_to_seconds evaluation;
  _ ← raise_if (evaluation_seconds <? reference_seconds) RecoveryConsistencyError;
  let derived_age := evaluation_seconds - reference_seconds in
  _ ← raise_if (negb (derived_age =? age)) RecoveryConsistencyError;
  Ok (mk_job job_id' reference evaluation age state).

(** ** Canonical text and bands *)

Definition canonical_input_payload (job : JobInput) : json :=
  JObj [(u "job_id", JStr (job_id job));
        (u "reference_utc", JStr (reference_utc job));
        (u "evaluation_utc", JStr (evaluation_utc job));
        (u "age_seconds", JInt (age_seconds job));
        (u "source_state", JStr (source_state job))].

Definition canonical_input_json (job : JobInput) : str :=
  canonical (canonical_input_payload job).

Definition input_sha256 (canonical_json : str) : str := sha256 canonical_json.

Definition band_for_age (age : Z) : str * str :=
  if age <? BAND_NO_OBSERVATION_UPPER_EXCLUSIVE
  then (u "BAND_NO_OBSERVATION", RESULT_NO_OBSERVATION)
  else if age <? BAND_EXPIRED_UPPER_EXCLUSIVE
  then (u "BAND_EXPIRED", RESULT_EXPIRED)
  else (u "BAND_STALE", RESULT_STALE).

(** ** The batch *)

Definition _verify_session_db (db : session_db) : result exn unit :=
  _ ← raise_if (negb (user_version db =? 1)) RecoverySchemaError;
  raise_if (negb (has_columns "evaluation_inputs" EVALUATION_INPUTS_COLUMNS db))
    RecoverySchemaError.

(** [job.job_id in seen] while the batch is scanned. *)
Definition check_unique_ids (ids : list str) : result exn (list str) :=
  foldR (λ seen id,
    _ ← raise_if (bool_decide (id ∈ seen)) RecoveryBatchError; Ok (id :: seen)) [] ids.

Record decision := mk_decision
  { d_job : JobInput; d_band : str; d_result : str; d_sha : str; d_persist : bool }.

Definition decide_job (job : JobInput) : result exn decision :=
  let '(band, res) := band_for_age (age_seconds job) in
  let canon := canonical_input_json job in
  _ ← raise_if (MAX_CANONICAL_INPUT_JSON_LEN <? length canon)%nat RecoveryIdentityError;
  Ok (mk_decision job band res (input_sha256 canon)
        (negb (bool_decide (res = RESULT_NO_OBSERVATION)))).

Definition eval_row_of (d : decision) : eval_row :=
  let job := d_job d in
  mk_eval_row (job_id job) (reference_utc job) (age_seconds job) (source_state job)
    (canonical_input_json job) (d_sha d).

(** The INSERT loop: every [IntegrityError] is reported as a duplicate. *)
Definition insert_decision (_ : unit) (d : decision) : M session_db exn unit :=
  if d_persist d
  then execute_insert insert_evaluation_input (λ _, RecoveryDuplicateError) (eval_row_of d)
  else mret tt.

Definition result_of (d : decision) : EvaluationResult :=
  let job := d_job d in
  mk_result (job_id job) (d_result d) (d_band d) (age_seconds job) (reference_utc job)
    (evaluation_utc job) (source_state job) (if d_persist d then d_sha d else [])
    (d_persist d).

(** Everything [evaluate_batch] does before BEGIN. *)
Definition plan_batch (context : ExternalContext) (inputs : list JobInput)
    (db : session_db) : result exn (list decision) :=
  _ ← raise_if (length inputs =? 0)%nat RecoveryBatchError;
  _ ← raise_if (MAX_BATCH_SIZE <? length inputs)%nat RecoveryBatchError;
  _ ← check_unique_ids (map job_id inputs);
  validated ← mapR validate_job_input inputs;
  _ ← map_err (λ _, RecoveryIdentityError) (validate_external_context context);
  _ ← _verify_session_db db;
  _ ← raise_if (existsb (λ j, bool_decide (is_Some (evaluation_inputs db !! job_id j)))
        validated) RecoveryDuplicateError;
  mapR decide_job validated.

(** The transaction: another connection may have written since the plan. *)
Definition commit_batch (decisions : list decision) : M session_db exn (list EvaluationResult) :=
  _ ← immediate RecoverySchemaError (foldM insert_decision tt decisions);
  mret (map result_of decisions).

Definition evaluate_batch (context : ExternalContext) (inputs : list JobInput)
    : M session_db exn (list EvaluationResult) :=
  db ← get;
  decisions ← lift (plan_batch context inputs db);
  commit_batch decisions.

(** ** Canonical texts identify jobs *)

Lemma canonical_input_json_inj a b :
  canonical_input_json a = canonical_input_json b → a = b.
Proof.
  unfold canonical_input_json. intros H%canonical_inj.
  - destruct a, b. vm_compute in H. by simplify_eq.
  - solve_plain.
  - solve_plain.
Qed.

(** C30: Distinct jobs have distinct canonical texts: the text that is stored and
    digested identifies every field of the job. *)
Theorem canonical_input_json_injective a b :
  canonical_input_json a = canonical_input_json b → a = b.
Proof. apply canonical_input_json_inj. Qed.

(** ** Timestamps read back as the second they were printed for *)

Lemma re_digits_app ds rest :
  Forall (λ c, is_digit c = true) ds → re_digits (length ds) (ds ++ rest) = Some rest.
Proof.
  induction 1 as [|c ds Hc _ IH]; simpl; [done|]. unfold is_decimal.
  by rewrite digit_value_ascii.
Qed.
Lemma re_digits_pad k n rest : re_digits k (pad k n ++ rest) = Some rest.
Proof. rewrite <-(pad_length k n) at 1. apply re_digits_app, pad_digits. Qed.

Lemma re_digits_upto_app ds rest :
  Forall (λ c, is_digit c = true) ds →
  re_digits_upto (length ds) (ds ++ rest) = (length ds, rest).
Proof.
  induction 1 as [|c ds Hc _ IH]; simpl; [by destruct rest|].
  unfold is_decimal. rewrite digit_value_ascii by done. by rewrite IH.
Qed.
Lemma re_digits_upto_pad k n rest : re_digits_upto k (pad k n ++ rest) = (k, rest).
Proof.
  rewrite <-(pad_length k n) at 1 3. apply re_digits_upto_app, pad_digits.
Qed.

Lemma split1_fresh sep a b :
  sep ∉ a → split1 sep (a ++ b) = ((a ++ (split1 sep b).1), (split1 sep b).2).
Proof.
  induction a as [|c a IH]; simpl; [by destruct (split1 sep b)|].
  rewrite not_elem_of_cons. intros [Hc Ha].
  rewrite (proj2 (N.eqb_neq c sep)) by done. by rewrite IH.
Qed.

Lemma pad_fresh k n c : is_digit c = false → c ∉ pad k n.
Proof.
  intros Hc Hin. pose proof (pad_digits k n) as Hd. rewrite Forall_forall in Hd.
  rewrite (Hd c Hin) in Hc. discriminate.
Qed.

Lemma stamp_fresh t : instant t → 46%N ∉ stamp t.
Proof.
  intros Ht. pose proof (stamp_fields t [] Ht) as (y & m & d & _ & _ & _ & _ & _ & _ & Hs).
  rewrite app_nil_r in Hs. rewrite Hs, app_nil_r.
  repeat first [rewrite not_elem_of_app | rewrite not_elem_of_cons].
  split_and!; first [by apply pad_fresh | done].
Qed.

Lemma iso8601_stamp t rest :
  instant t →
  iso8601_zulu_re (stamp t ++ rest) =
    match (s ← re_fraction rest; re_char 90 s) with
    | Some s => re_end s
    | None => false
    end.
Proof.
  intros Ht. destruct (stamp_fields t rest Ht) as (y & m & d & _ & _ & _ & _ & _ & _ & ->).
  unfold iso8601_zulu_re.
  repeat (rewrite re_digits_pad; cbn [mbind option_bind re_char N.eqb Pos.eqb]).
  done.
Qed.

Lemma calendar_fields_stamp t rest :
  instant t →
  let f := calendar_fields (stamp t ++ rest) in
  date_in_range f = true ∧ time_in_range f = true ∧
  seconds_from_utc_calendar (f_year f) (f_month f) (f_day f) (f_hour f)
    (f_minute f) (f_second f) = Ok (t / 1000000).
Proof.
  intros Ht f. subst f.
  destruct (stamp_fields t rest Ht)
    as (y & m & d & _ & Hy & Hv & Hd & Heq & Hh & ->).
  assert (0 <= t mod DAY_US < DAY_US) as Hr by apply day_split.
  revert Heq Hh. unfold us_of_fields, DAY_US in *. generalize dependent (t mod 86400000000).
  intros r Hr Heq Hh.
  set (h := r / 3600000000) in *. set (mi := r / 60000000 mod 60) in *.
  set (sec := r / 1000000 mod 60) in *.
  assert (0 <= mi < 60 ∧ 0 <= sec < 60) as [Hmi Hsec]
    by (subst mi sec; split; apply Z.mod_pos_bound; lia).
  assert (calendar_fields (pad 4 y ++ 45%N :: pad 2 m ++ 45%N :: pad 2 d ++ 84%N ::
      pad 2 h ++ 58%N :: pad 2 mi ++ 58%N :: pad 2 sec ++ rest) =
    mk_fields y m d h mi sec) as ->.
  { destruct Hv as [Hm _].
    transitivity (mk_fields (int_digits (pad 4 y)) (int_digits (pad 2 m))
      (int_digits (pad 2 d)) (int_digits (pad 2 h)) (int_digits (pad 2 mi))
      (int_digits (pad 2 sec))); [reflexivity|].
    by rewrite !int_digits_pad by (done || fits_width). }
  destruct Hv as [Hm Hdim]. unfold seconds_from_utc_calendar, date_in_range, time_in_range.
  cbn [f_year f_month f_day f_hour f_minute f_second].
  repeat (rewrite (proj2 (Z.leb_le _ _)) by lia). split_and!; try done.
  simpl. f_equal. clearbody h mi sec. Z.to_euclidean_division_equations. lia.
Qed.

Lemma parse_stamp t rest frac :
  instant t →
  (rest = u "Z" ∧ frac = [] ∨
   rest = u "." ++ pad 6 (t mod 1000000) ++ u "Z" ∧ frac = 46%N :: pad 6 (t mod 1000000)) →
  parse_canonical_utc_to_seconds (stamp t ++ rest) = Ok (t / 1000000).
Proof.
  intros Ht Hrest. unfold parse_canonical_utc_to_seconds, validate_iso8601_utc.
  destruct (calendar_fields_stamp t rest Ht) as (Hd & Htm & _).
  assert (iso8601_zulu_re (stamp t ++ rest) = true) as ->.
  { rewrite iso8601_stamp by done. destruct Hrest as [[-> _]|[-> _]]; [done|].
    unfold re_fraction. cbn [u app re_char].
    change (N.eqb 46 _) with true. cbn iota beta.
    rewrite re_digits_upto_pad. done. }
  rewrite Hd, Htm. cbn [negb raise_if mbind result_bind map_err].
  assert (rest = frac ++ [90%N]) as ->.
  { destruct Hrest as [[-> ->]|[-> ->]]; done. }
  rewrite app_assoc, removelast_snoc, split1_fresh by by apply stamp_fresh.
  assert ((split1 46 frac).1 = []) as ->.
  { destruct Hrest as [[_ ->]|[_ ->]]; [done|]. simpl. done. }
  destruct (calendar_fields_stamp t [] Ht) as (_ & _ & Hs). apply Hs.
Qed.

(** C36: A second-precision or microsecond-precision UTC text that [strftime] prints
    for an instant is parsed back to that instant's whole second. *)
Theorem parse_canonical_utc_printed t :
  instant t →
  parse_canonical_utc_to_seconds (format_utc_z t) = Ok (t / 1000000) ∧
  parse_canonical_utc_to_seconds (utc_now_iso t) = Ok (t / 1000000).
Proof.
  intros Ht. split; eapply parse_stamp; eauto.
Qed.

(** C38: The day count behind every age: 1970-01-01 is day 0, and each next calendar
    date is the next day, so elapsed days are exact in every year from 0 on. *)
Theorem seconds_from_utc_calendar_next_day year month day hour minute second s :
  0 <= year →
  seconds_from_utc_calendar year month day hour minute second = Ok s →
  let '(y, m, d) := next_day year month day in
  seconds_from_utc_calendar 1970 1 1 0 0 0 = Ok 0 ∧
  seconds_from_utc_calendar y m d hour minute second = Ok (s + 86400).
Proof.
  intros Hy. unfold seconds_from_utc_calendar. intros H. inv_ok.
  match goal with H : (_ && _) = true, H' : (_ && _) = true |- _ =>
    apply andb_true_iff in H as [Hm1 Hm2], H' as [Hd1 Hd2] end.
  assert (valid_date year month day) as Hv by (unfold valid_date; lia).
  pose proof (days_from_civil_next year month day Hy Hv) as Hn.
  pose proof (next_day_valid year month day Hv) as Hv'.
  destruct (next_day year month day) as [[y m] d]. destruct Hv' as [Hm Hd].
  split; [done|].
  repeat (rewrite (proj2 (Z.leb_le _ _)) by lia). simpl.
  match goal with H : time_in_range _ = true |- _ => unfold time_in_range in *; simpl in H |- *; rewrite H end.
  simpl. f_equal. rewrite Hn. lia.
Qed.

(** ** What a valid job is *)

Definition valid_job (job : JobInput) : Prop :=
  ∃ reference evaluation,
    ((length (job_id job) <= 128)%nat ∧ over_class is_job_id_char 1 128 (job_id job)) ∧
    ((length (source_state job) <= 64)%nat ∧
      over_class is_source_state_char 1 64 (source_state job)) ∧
    (length (reference_utc job) <= 32)%nat ∧ (length (evaluation_utc job) <= 32)%nat ∧
    parse_canonical_utc_to_seconds (reference_utc job) = Ok reference ∧
    parse_canonical_utc_to_seconds (evaluation_utc job) = Ok evaluation ∧
    age_seconds job = evaluation - reference ∧ 0 <= age_seconds job <= INT64_MAX.

Lemma validate_job_input_Ok job job' :
  validate_job_input job = Ok job' ↔ job' = job ∧ valid_job job.
Proof.
  unfold validate_job_input, _check_job_id, _check_timestamp_field, _check_age,
    _check_source_state, check_timestamp_field, MAX_TIMESTAMP_LEN. split.
  - intros H. inv_ok.
    repeat match goal with
    | H : check_job_id _ _ = Ok _ |- _ => apply check_job_id_Ok in H as (-> & ? & ?)
    | H : check_source_state _ _ = Ok _ |- _ => apply check_source_state_Ok in H as (-> & ? & ?)
    | H : check_age _ _ _ = Ok _ |- _ => apply check_age_Ok in H as ([= <-] & ?)
    | H : (_ <? _)%nat = false |- _ => apply Nat.ltb_ge in H
    | H : (_ <? _) = false |- _ => apply Z.ltb_ge in H
    | H : (_ =? _) = true |- _ => apply Z.eqb_eq in H
    end.
    split; [by destruct job|]. unfold valid_job. eauto 20.
  - intros (-> & r & e & [Hj1 Hj2] & [Hs1 Hs2] & Hr & He & Hpr & Hpe & Hage & Hb).
    rewrite (proj2 (check_job_id_Ok _ _ _)) by done. cbn [mbind result_bind raise_if negb].
    rewrite (proj2 (Nat.ltb_ge _ _) Hr), (proj2 (Nat.ltb_ge _ _) He). cbn [mbind result_bind raise_if negb].
    rewrite (proj2 (check_age_Ok _ _ _ _)) by done. cbn [mbind result_bind raise_if negb].
    rewrite (proj2 (check_source_state_Ok _ _ _)) by done. cbn [mbind result_bind raise_if negb].
    rewrite Hpr, Hpe. cbn [mbind result_bind raise_if negb].
    rewrite (proj2 (Z.ltb_ge e r)) by lia. cbn [mbind result_bind raise_if negb].
    rewrite (proj2 (Z.eqb_eq (e - r) _)) by done. cbn. by destruct job.
Qed.

(** C37: [validate_job_input] returns its argument for exactly the jobs whose fields
    are well formed and whose age is the difference of their two timestamps. *)
Theorem validate_job_input_spec job job' :
  validate_job_input job = Ok job' ↔ job' = job ∧ valid_job job.
Proof. apply validate_job_input_Ok. Qed.


(** The decision table: an observation younger than 300 s is not recorded, one
    younger than 600 s is EXPIRED, any other is STALE. *)
Definition expected_sha (job : JobInput) : str := sha256 (canonical_input_json job).
Definition recorded (job : JobInput) : bool := 300 <=? age_seconds job.

Definition expected_result (job : JobInput) : EvaluationResult :=
  mk_result (job_id job)
    (if age_seconds job <? 300 then RESULT_NO_OBSERVATION
     else if age_seconds job <? 600 then RESULT_EXPIRED else RESULT_STALE)
    (if age_seconds job <? 300 then u "BAND_NO_OBSERVATION"
     else if age_seconds job <? 600 then u "BAND_EXPIRED" else u "BAND_STALE")
    (age_seconds job) (reference_utc job) (evaluation_utc job) (source_state job)
    (if recorded job then expected_sha job else []) (recorded job).

Definition expected_row (job : JobInput) : eval_row :=
  mk_eval_row (job_id job) (reference_utc job) (age_seconds job) (source_state job)
    (canonical_input_json job) (expected_sha job).

Lemma decide_job_Ok job d :
  decide_job job = Ok d →
  d_job d = job ∧ d_persist d = recorded job ∧ result_of d = expected_result job ∧
  eval_row_of d = expected_row job.
Proof.
  unfold decide_job, band_for_age, BAND_NO_OBSERVATION_UPPER_EXCLUSIVE,
    BAND_EXPIRED_UPPER_EXCLUSIVE, expected_result, expected_row, recorded.
  destruct (Z.ltb_spec (age_seconds job) 300);
    [|destruct (Z.ltb_spec (age_seconds job) 600)];
    intros Hd; inv_ok; unfold result_of, eval_row_of; simpl;
    rewrite ?(proj2 (Z.leb_le 300 _)), ?(proj2 (Z.leb_gt 300 _)) by lia; done.
Qed.

Lemma check_unique_ids_Ok ids l : check_unique_ids ids = Ok l → NoDup ids.
Proof.
  unfold check_unique_ids. intros H.
  enough (NoDup ids ∧ ∀ x, x ∈ l ↔ x ∈ ids) as [? _] by done.
  revert H. apply (foldR_ind (λ done seen, NoDup done ∧ ∀ x, x ∈ seen ↔ x ∈ done)).
  - split; [constructor|]. set_solver.
  - intros l1 x l2 seen seen' _ [Hnd Hs] Hx. inv_ok. split.
    + apply NoDup_app. split_and!; [done|set_solver|apply NoDup_singleton].
    + set_solver.
Qed.

Lemma mapR_validate l k :
  mapR validate_job_input l = Ok k ↔ k = l ∧ Forall valid_job l.
Proof.
  rewrite mapR_Ok. split.
  - induction 1 as [|a b l k Hab _ [-> IH]]; [done|].
    apply validate_job_input_Ok in Hab as [-> ?]. by split; [|constructor].
  - intros [-> Hl]. induction Hl; constructor; [|done].
    by apply validate_job_input_Ok.
Qed.

Lemma plan_batch_Ok context inputs db ds :
  plan_batch context inputs db = Ok ds →
  NoDup (map job_id inputs) ∧ Forall valid_job inputs ∧
  mapR decide_job inputs = Ok ds ∧ (0 < length inputs <= MAX_BATCH_SIZE)%nat ∧
  (∀ job, job ∈ inputs → evaluation_inputs db !! job_id job = None).
Proof.
  unfold plan_batch. intros H. inv_ok.
  match goal with H : check_unique_ids _ = Ok _ |- _ => apply check_unique_ids_Ok in H end.
  match goal with H : mapR validate_job_input _ = Ok _ |- _ =>
    apply mapR_validate in H as [-> Hv] end.
  repeat match goal with
  | H : (_ <? _)%nat = false |- _ => apply Nat.ltb_ge in H
  | H : (_ =? _)%nat = false |- _ => apply Nat.eqb_neq in H
  end.
  split_and!; try done; try lia.
  intros job Hjob. match goal with H : existsb _ _ = false |- _ => rename H into He end.
  destruct (evaluation_inputs db !! job_id job) eqn:Hl; [|done]. exfalso.
  apply not_true_iff_false in He. apply He, existsb_exists. exists job.
  split; [by apply list_elem_of_In|]. apply bool_decide_eq_true. by rewrite Hl.
Qed.

(** ** Effect of the transaction *)

(** The rows a batch adds, job by job. *)
Definition record_rows (inputs : list JobInput) (m : gmap str eval_row)
    : gmap str eval_row :=
  foldl (λ m job, if recorded job then <[job_id job := expected_row job]> m else m)
    m inputs.

Lemma set_evaluation_inputs_id db :
  set_evaluation_inputs (evaluation_inputs db) db = db.
Proof. by destruct db. Qed.

(** One INSERT either adds the job's row or raises and changes nothing. *)
Lemma insert_decision_run job d u0 db :
  decide_job job = Ok d →
  insert_decision u0 d db =
    if recorded job && (negb (eval_row_checks (expected_row job)) ||
         bool_decide (is_Some (evaluation_inputs db !! job_id job)))
    then (Err RecoveryDuplicateError, db)
    else (Ok tt, set_evaluation_inputs (record_rows [job] (evaluation_inputs db)) db).
Proof.
  intros (_ & Hp & _ & Hr)%decide_job_Ok. unfold insert_decision, record_rows. simpl.
  rewrite Hp, Hr. destruct (recorded job); simpl;
    [|by rewrite set_evaluation_inputs_id].
  unfold execute_insert, insert_evaluation_input.
  destruct (eval_row_checks (expected_row job)); simpl; [|done].
  by destruct (evaluation_inputs db !! job_id job).
Qed.

Lemma insert_loop_Ok inputs ds db u0 db' :
  mapR decide_job inputs = Ok ds →
  foldM insert_decision tt ds db = (Ok u0, db') →
  db' = set_evaluation_inputs (record_rows inputs (evaluation_inputs db)) db.
Proof.
  intros Hds%mapR_Ok. revert db. induction Hds as [|job d inputs ds Hd _ IH];
    intros db; simpl.
  - intros [= _ <-]. by rewrite set_evaluation_inputs_id.
  - intros ([] & db1 & Hi & Hrest)%M_bind_Ok.
    rewrite (insert_decision_run job) in Hi by done.
    destruct (recorded job && _); simplify_eq. by apply IH in Hrest as ->.
Qed.

Lemma commit_batch_Ok inputs ds db rs db' :
  mapR decide_job inputs = Ok ds →
  commit_batch ds db = (Ok rs, db') →
  rs = map expected_result inputs ∧ write_locked db = false ∧
  db' = set_evaluation_inputs (record_rows inputs (evaluation_inputs db)) db.
Proof.
  intros Hds (u0 & db1 & Htx & Hret)%M_bind_Ok.
  unfold immediate in Htx. destruct (write_locked db); [done|].
  rewrite transaction_Ok in Htx. apply (insert_loop_Ok inputs) in Htx as ->; [|done].
  injection Hret as <- <-. split_and!; [|done..].
  apply mapR_Ok in Hds. induction Hds as [|job d inputs ds Hd _ IH]; simpl; [done|].
  apply decide_job_Ok in Hd as (_ & _ & -> & _). by rewrite IH.
Qed.

Lemma commit_batch_Err ds db e db' : commit_batch ds db = (Err e, db') → db' = db.
Proof.
  intros [Htx|(? & ? & _ & [=])]%M_bind_Err.
  unfold immediate in Htx. destruct (write_locked db); [by injection Htx|].
  rewrite transaction_Err in Htx. by destruct Htx as [-> _].
Qed.

Lemma evaluate_batch_Ok context inputs db rs db' :
  evaluate_batch context inputs db = (Ok rs, db') →
  NoDup (map job_id inputs) ∧ Forall valid_job inputs ∧
  (∀ job, job ∈ inputs → evaluation_inputs db !! job_id job = None) ∧
  rs = map expected_result inputs ∧
  db' = set_evaluation_inputs (record_rows inputs (evaluation_inputs db)) db.
Proof.
  intros (? & ? & [= <- <-] & (ds & ? & [= Hp <-] & Hc)%M_bind_Ok)%M_bind_Ok.
  apply plan_batch_Ok in Hp as (Hnd & Hv & Hds & _ & Hfresh).
  by apply (commit_batch_Ok inputs) in Hc as (-> & _ & ->).
Qed.

(** C8: A successful call returns one result per input, in order, as the decision
    table says; it adds the row of every job that is at least 300 s old and
    touches nothing else. *)
Theorem evaluate_batch_refines context inputs db rs db' :
  evaluate_batch context inputs db = (Ok rs, db') →
  NoDup (map job_id inputs) ∧ Forall valid_job inputs ∧
  (∀ job, job ∈ inputs → evaluation_inputs db !! job_id job = None) ∧
  rs = map expected_result inputs ∧
  db' = set_evaluation_inputs (record_rows inputs (evaluation_inputs db)) db.
Proof. apply evaluate_batch_Ok. Qed.

Lemma evaluate_batch_Err context inputs db e db' :
  evaluate_batch context inputs db = (Err e, db') → db' = db.
Proof.
  intros [[=]|(? & ? & [= <- <-] & [[= _ <-]|(ds & ? & [= _ <-] & Hc)]%M_bind_Err)]%M_bind_Err;
    [done|]. by eapply commit_batch_Err.
Qed.

(** C29: A call that raises leaves the database as it was. *)
Theorem evaluate_batch_atomic context inputs db e db' :
  evaluate_batch context inputs db = (Err e, db') → db' = db.
Proof. apply evaluate_batch_Err. Qed.


Lemma record_rows_lookup inputs m k :
  NoDup (map job_id inputs) →
  record_rows inputs m !! k =
    match List.find (λ job, bool_decide (job_id job = k) && recorded job) inputs with
    | Some job => Some (expected_row job)
    | None => m !! k
    end.
Proof.
  unfold record_rows. revert m. induction inputs as [|job l IH]; intros m; simpl; [done|].
  intros [Hj Hl]%NoDup_cons. rewrite IH by done.
  destruct (bool_decide_reflect (job_id job = k)) as [<-|Hne]; simpl.
  - destruct (List.find _ l) as [job'|] eqn:Hf.
    + apply find_some in Hf as [Hin Hk]. apply andb_true_iff in Hk as [Hk _].
      apply bool_decide_eq_true in Hk. exfalso. apply Hj.
      apply list_elem_of_fmap. exists job'. by rewrite list_elem_of_In.
    + destruct (recorded job); simpl; [by rewrite lookup_insert_eq|done].
  - destruct (List.find _ l); [done|].
    destruct (recorded job); [by rewrite lookup_insert_ne|done].
Qed.

(** ** Valid batches are recorded *)

Lemma over_class_escape cls lo hi s :
  (∀ c, cls c = true → unescaped c) → over_class cls lo hi s →
  (length (escape s) <= S (length s))%nat.
Proof.
  intros Hcls (t & Hs & _ & Ht).
  assert (escape t = t) as He by (apply escape_unescaped; by eapply Forall_impl).
  destruct Hs as [-> | ->]; [rewrite He; lia|].
  rewrite escape_app, He, !length_app. simpl. lia.
Qed.

Lemma job_id_char_unescaped c : is_job_id_char c = true → unescaped c.
Proof.
  unfold is_job_id_char, is_upper, is_lower, is_digit, unescaped.
  rewrite !orb_true_iff, !in_range_true, !N.eqb_eq. lia.
Qed.
Lemma source_state_char_unescaped c : is_source_state_char c = true → unescaped c.
Proof.
  unfold is_source_state_char, is_upper, is_digit, unescaped.
  rewrite !orb_true_iff, !in_range_true, !N.eqb_eq. lia.
Qed.

Lemma age_text_length age : 0 <= age <= INT64_MAX → (length (dec_of_Z age) <= 20)%nat.
Proof.
  unfold INT64_MAX. intros Hage. destruct age as [|p|p]; simpl; [lia| |lia].
  apply (dec_of_N_length _ 20); [lia|].
  change (10 ^ N.of_nat 20)%N with 100000000000000000000%N. lia.
Qed.

(** The 1024-character guard on the canonical text cannot fire for a valid job. *)
Lemma canonical_input_json_bounded job :
  valid_job job → (length (canonical_input_json job) <= MAX_CANONICAL_INPUT_JSON_LEN)%nat.
Proof.
  intros (r & e & [Hj Hjc] & [Hs Hsc] & Hr & He & _ & _ & _ & Hage).
  apply over_class_escape in Hjc; [|apply job_id_char_unescaped].
  apply over_class_escape in Hsc; [|apply source_state_char_unescaped].
  pose proof (escape_length (evaluation_utc job)).
  pose proof (escape_length (reference_utc job)).
  pose proof (age_text_length (age_seconds job) Hage).
  unfold canonical_input_json, MAX_CANONICAL_INPUT_JSON_LEN.
  etrans; [apply canonical_obj_length|].
  cbn [sum_list_with]. unfold item_length. cbn [fst snd dumps].
  rewrite !quote_length.
  literal_lengths.
  lia.
Qed.

Lemma decide_job_valid job :
  valid_job job → ∃ d, decide_job job = Ok d.
Proof.
  intros Hv. unfold decide_job. destruct (band_for_age _) as [band res].
  rewrite (proj2 (Nat.ltb_ge _ _)) by by apply canonical_input_json_bounded.
  simpl. eauto.
Qed.

(** The source state has no trailing newline, so the table's CHECK accepts it. *)
Definition storable (job : JobInput) : Prop :=
  Forall (λ c, is_source_state_char c = true) (source_state job).

Lemma expected_row_checks job :
  valid_job job → storable job → eval_row_checks (expected_row job) = true.
Proof.
  intros (r & e & _ & [Hs Hsc] & _ & _ & _ & _ & _ & Hage) Hst.
  unfold eval_row_checks, expected_row, expected_sha, sql_source_state.
  cbn [er_age_seconds er_source_state er_input_sha256].
  rewrite sql_hex64_sha256, (proj2 (Z.leb_le 0 _)) by lia.
  rewrite c_text_id by
    (eapply Forall_impl; [exact Hst|]; by intros c Hc ->).
  assert (1 <= length (source_state job))%nat.
  { destruct Hsc as (t & [-> | ->] & Ht & _); [lia|]. rewrite length_app. lia. }
  rewrite (proj2 (Nat.leb_le 1 _)), (proj2 (Nat.leb_le _ 64)) by lia. simpl.
  rewrite andb_true_r. apply forallb_forall. intros c Hc.
  unfold storable in Hst. rewrite Forall_forall in Hst. by apply Hst, list_elem_of_In.
Qed.

Lemma insert_loop_succeeds inputs ds db :
  mapR decide_job inputs = Ok ds → Forall valid_job inputs → Forall storable inputs →
  NoDup (map job_id inputs) →
  (∀ job, job ∈ inputs → evaluation_inputs db !! job_id job = None) →
  ∃ db', foldM insert_decision tt ds db = (Ok tt, db').
Proof.
  intros Hds%mapR_Ok. revert db.
  induction Hds as [|job d inputs ds Hd _ IH]; intros db Hv Hst Hnd Hfresh; simpl.
  { by eexists. }
  apply Forall_cons in Hv as [Hvj Hv], Hst as [Hsj Hst].
  apply NoDup_cons in Hnd as [Hnin Hnd].
  unfold mbind, M_bind. rewrite (insert_decision_run job) by done.
  rewrite expected_row_checks by done.
  rewrite bool_decide_eq_false_2
    by (rewrite Hfresh by set_solver; by intros []). rewrite andb_false_r.
  apply IH; [done..|]. intros job' Hjob'. simpl. unfold record_rows. simpl.
  destruct (recorded job); [|apply Hfresh; set_solver].
  rewrite lookup_insert_ne; [apply Hfresh; set_solver|].
  intros Heq. apply Hnin. rewrite Heq. apply list_elem_of_fmap. eauto.
Qed.

Lemma check_unique_ids_NoDup ids : NoDup ids → is_ok (check_unique_ids ids) = true.
Proof.
  unfold check_unique_ids. intros Hnd.
  enough (∀ seen, (∀ x, x ∈ ids → x ∉ seen) → is_ok (foldR (λ seen id,
    _ ← raise_if (bool_decide (id ∈ seen)) RecoveryBatchError; Ok (id :: seen)) seen ids) = true)
    as H by (apply H; set_solver).
  induction Hnd as [|x ids Hx _ IH]; intros seen Hseen; simpl; [done|].
  rewrite bool_decide_eq_false_2 by set_solver. simpl. apply IH. set_solver.
Qed.

Lemma evaluate_batch_runs context inputs db :
  (0 < length inputs <= MAX_BATCH_SIZE)%nat →
  NoDup (map job_id inputs) → Forall valid_job inputs → Forall storable inputs →
  (∀ job, job ∈ inputs → evaluation_inputs db !! job_id job = None) →
  is_ok (validate_external_context context) = true →
  user_version db = 1 →
  has_columns "evaluation_inputs" EVALUATION_INPUTS_COLUMNS db = true →
  write_locked db = false →
  ∃ db', evaluate_batch context inputs db = (Ok (map expected_result inputs), db').
Proof.
  intros Hlen Hnd Hv Hst Hfresh [ctx Hctx]%is_ok_true Hver Hcols Hlock.
  assert (∃ ds, mapR decide_job inputs = Ok ds) as [ds Hds].
  { clear -Hv. induction Hv as [|job l Hj _ [ds Hds]]; [by exists []|].
    destruct (decide_job_valid job Hj) as [d Hd]. exists (d :: ds).
    simpl. by rewrite Hd; simpl; rewrite Hds. }
  assert (plan_batch context inputs db = Ok ds) as Hplan.
  { unfold plan_batch.
    rewrite (proj2 (Nat.eqb_neq _ 0)), (proj2 (Nat.ltb_ge _ _)) by lia. simpl.
    destruct (proj1 (is_ok_true _) (check_unique_ids_NoDup _ Hnd)) as [seen ->]. simpl.
    rewrite (proj2 (mapR_validate inputs inputs)) by done. simpl.
    rewrite Hctx. simpl. unfold _verify_session_db. rewrite Hver, Hcols. simpl.
    match goal with |- context [raise_if ?b RecoveryDuplicateError] =>
      assert (b = false) as ->; [apply not_true_iff_false|done] end.
    intros (job & Hin & Hs)%existsb_exists. apply bool_decide_eq_true in Hs.
    rewrite Hfresh in Hs by by apply list_elem_of_In. by destruct Hs. }
  destruct (insert_loop_succeeds inputs ds db) as [db' Hrun]; try done.
  exists db'. unfold evaluate_batch, get, lift, mbind, M_bind. rewrite Hplan.
  assert (commit_batch ds db = (Ok (map result_of ds), db')) as Hc.
  { unfold commit_batch, mbind, M_bind, immediate, transaction.
    by rewrite Hlock, Hrun. }
  pose proof (commit_batch_Ok inputs ds db _ _ Hds Hc) as (<- & _). done.
Qed.

(** A non-empty batch of at most 1024 valid jobs with fresh, distinct
    identifiers is evaluated: the call returns, whatever their ages. *)
Theorem evaluate_batch_succeeds context inputs db :
  (0 < length inputs <= MAX_BATCH_SIZE)%nat →
  NoDup (map job_id inputs) → Forall valid_job inputs → Forall storable inputs →
  (∀ job, job ∈ inputs → evaluation_inputs db !! job_id job = None) →
  is_ok (validate_external_context context) = true →
  user_version db = 1 →
  has_columns "evaluation_inputs" EVALUATION_INPUTS_COLUMNS db = true →
  write_locked db = false →
  ∃ db', evaluate_batch context inputs db = (Ok (map expected_result inputs), db').
Proof. apply evaluate_batch_runs. Qed.

(** ** The table only grows *)

Lemma insert_decision_extends u0 d : steps extends (insert_decision u0 d).
Proof. unfold insert_decision. destruct (d_persist d); eauto with steps. Qed.
#[export] Hint Resolve insert_decision_extends : steps.

(** Whatever another connection wrote between the reads of [evaluate_batch] and
    its transaction, and whether or not the transaction raises, no stored row
    is changed or removed. *)
Theorem commit_batch_append_only decisions db r db' :
  commit_batch decisions db = (r, db') → extends db db'.
Proof.
  enough (steps extends (commit_batch decisions)) as H by by apply H.
  unfold commit_batch. eauto with steps.
Qed.

(** ** Concrete runs *)

Definition sample_context : ExternalContext :=
  mk_context (u "2026-01-01T00:20:00Z") PNone PNone.
Definition sample_job : JobInput :=
  mk_job (u "job-1") (u "2026-01-01T00:00:00Z") (u "2026-01-01T00:10:00Z") 600
    (u "RUNNING").
Definition sample_fresh_job : JobInput :=
  mk_job (u "job-2") (u "2026-01-01T00:09:00Z") (u "2026-01-01T00:10:00Z") 60
    (u "RUNNING").
Definition sample_inputs : list JobInput := [sample_job; sample_fresh_job].

(** The database after the sample batch. *)
Definition sample_evaluated : session_db :=
  (evaluate_batch sample_context sample_inputs v1_empty).2.

Lemma sample_evaluated_ok :
  evaluate_batch sample_context sample_inputs v1_empty =
    (Ok (map expected_result sample_inputs), sample_evaluated).
Proof. vm_compute. reflexivity. Qed.

Lemma sample_valid job : job ∈ sample_inputs → valid_job job.
Proof.
  intros Hj. enough (mapR validate_job_input sample_inputs = Ok sample_inputs) as H.
  { apply mapR_validate in H as [_ H]. rewrite Forall_forall in H. auto. }
  vm_compute. reflexivity.
Qed.

Lemma evaluate_batch_refines_witness :
  NoDup (map job_id sample_inputs) ∧ Forall valid_job sample_inputs ∧
  (∀ job, job ∈ sample_inputs → evaluation_inputs v1_empty !! job_id job = None) ∧
  map expected_result sample_inputs = map expected_result sample_inputs ∧
  sample_evaluated = set_evaluation_inputs (record_rows sample_inputs ∅) v1_empty.
Proof. exact (evaluate_batch_refines _ _ _ _ _ sample_evaluated_ok). Defined.

Lemma sample_resubmitted :
  evaluate_batch sample_context sample_inputs sample_evaluated =
    (Err RecoveryDuplicateError, sample_evaluated).
Proof. vm_compute. reflexivity. Qed.

Lemma evaluate_batch_atomic_witness : sample_evaluated = sample_evaluated.
Proof. exact (evaluate_batch_atomic _ _ _ _ _ sample_resubmitted). Defined.

Lemma evaluate_batch_succeeds_witness :
  ∃ db', evaluate_batch sample_context sample_inputs v1_empty =
    (Ok (map expected_result sample_inputs), db').
Proof.
  apply (evaluate_batch_succeeds sample_context sample_inputs v1_empty); try reflexivity.
  - vm_compute. lia.
  - apply (bool_decide_eq_true_1 _). vm_compute. reflexivity.
  - apply Forall_forall. apply sample_valid.
  - repeat constructor.
Defined.

Lemma canonical_input_json_injective_witness : sample_job = sample_job.
Proof. apply (canonical_input_json_injective sample_job sample_job). reflexivity. Defined.

(** 2026-01-01T00:00:00.000001Z *)
Definition sample_instant : Z := 1767225600000001.

Lemma parse_canonical_utc_printed_witness :
  parse_canonical_utc_to_seconds (u "2026-01-01T00:00:00Z") = Ok 1767225600 ∧
  parse_canonical_utc_to_seconds (u "2026-01-01T00:00:00.000001Z") = Ok 1767225600.
Proof. apply (parse_canonical_utc_printed sample_instant). vm_compute. split; congruence. Defined.

Lemma seconds_from_utc_calendar_next_day_witness :
  seconds_from_utc_calendar 1970 1 1 0 0 0 = Ok 0 ∧
  seconds_from_utc_calendar 2024 2 29 0 0 0 = Ok (1709078400 + 86400).
Proof.
  apply (seconds_from_utc_calendar_next_day 2024 2 28 0 0 0); [lia|reflexivity].
Defined.

Lemma commit_batch_append_only_witness : extends v1_empty sample_evaluated.
Proof.
  apply (commit_batch_append_only
    (match plan_batch sample_context sample_inputs v1_empty with Ok d => d | Err _ => [] end)
    v1_empty (Ok (map expected_result sample_inputs))).
  vm_compute. reflexivity.
Defined.

(** ** Texts with a final newline

    [$] also matches before a final newline, so [re.match] accepts identifiers
    and states that end in one.  Such a job identifier is stored; such a state
    passes validation and then fails the table's CHECK, which is reported as a
    duplicate identifier although the table is empty. *)
Definition newline_id_job : JobInput :=
  mk_job (u "job-1" ++ [10%N]) (u "2026-01-01T00:00:00Z") (u "2026-01-01T00:10:00Z") 600
    (u "RUNNING").
Definition newline_state_job : JobInput :=
  mk_job (u "job-1") (u "2026-01-01T00:00:00Z") (u "2026-01-01T00:10:00Z") 600
    (u "RUNNING" ++ [10%N]).

Lemma newline_job_id_stored :
  evaluation_inputs (evaluate_batch sample_context [newline_id_job] v1_empty).2
    !! (u "job-1" ++ [10%N]) = Some (expected_row newline_id_job).
Proof. vm_compute. reflexivity. Qed.

Lemma newline_state_reported_as_duplicate :
  validate_job_input newline_state_job = Ok newline_state_job ∧
  evaluate_batch sample_context [newline_state_job] v1_empty =
    (Err RecoveryDuplicateError, v1_empty).
Proof. split; vm_compute; reflexivity. Qed.

(** Surrounding whitespace is rejected by [validate_iso8601_utc], except for a
    final newline. *)
Lemma newline_timestamp_accepted :
  validate_iso8601_utc (PStr (u "2026-01-01T00:00:00Z" ++ [10%N])) =
    Ok (u "2026-01-01T00:00:00Z" ++ [10%N]).
Proof. vm_compute. reflexivity. Qed.
