(* ===== verification/AuditTrail.v ===== *)
(** * AuditTrail: append-only audit events.

    [scripts/news_pipeline/phase6/audit.py]: evaluation results that carry an
    observation are checked against the stored [evaluation_inputs] rows and
    appended to [audit_events].  The duplicate scan reads the table before the
    transaction opens; [commit_audit] therefore takes what was read as an
    argument and runs on whatever the table holds by then. *)
From S2P Require Import Prelude Text Sha256 Json Calendar Timestamps SessionDb Fields.
From S2P Require Import Recovery.
Local Open Scope Z_scope.

(** ** Data *)

Record AuditEvent := mk_event
  { ae_job_id : str; ae_event_kind : str; ae_result_value : str;
    ae_evaluation_utc : str; ae_age_seconds : Z; ae_input_sha256 : str;
    ae_canonical_event_json : str; ae_event_sha256 : str;
    ae_persisted : bool; ae_duplicate : bool }.

#[export] Instance AuditEvent_eq_dec : EqDecision AuditEvent.
Proof. solve_decision. Defined.

Definition MAX_CANONICAL_EVENT_JSON_LEN : nat := 2048.

(** ** Field checks *)

Definition _check_job_id : pyval → result exn str := check_job_id AuditIdentityError.
Definition _check_source_state : pyval → result exn str :=
  check_source_state AuditIdentityError.
Definition _check_timestamp : pyval → result exn str := check_timestamp AuditIdentityError.
Definition _check_age : pyval → result exn Z :=
  check_age AuditIdentityError AuditConsistencyError.
Definition _check_hex64 : pyval → result exn str := check_hex64 AuditIdentityError.
Definition _check_event_kind : pyval → result exn str := check_event_kind AuditIdentityError.
Definition _check_result_value : pyval → result exn str :=
  check_result_value AuditIdentityError.

(** ** Canonical event *)

Definition canonical_event_payload (event : AuditEvent) : json :=
  JObj [(u "age_seconds", JInt (ae_age_seconds event));
        (u "event_kind", JStr (ae_event_kind event));
        (u "evaluation_utc", JStr (ae_evaluation_utc event));
        (u "input_sha256", JStr (ae_input_sha256 event));
        (u "job_id", JStr (ae_job_id event));
        (u "result_value", JStr (ae_result_value event))].

Definition canonical_event_json (event : AuditEvent) : str :=
  canonical (canonical_event_payload event).

Definition event_sha256 (canonical_json : str) : str := sha256 canonical_json.

Definition _verify_session_db (db : session_db) : result exn unit :=
  _ ← raise_if (negb (user_version db =? 1)) AuditSchemaError;
  _ ← raise_if (negb (has_columns "evaluation_inputs" EVALUATION_INPUTS_COLUMNS db))
        AuditSchemaError;
  raise_if (negb (has_columns "audit_events" AUDIT_EVENTS_COLUMNS db)) AuditSchemaError.

Definition _expected_event_kind_and_value (age : Z) : result exn (str * str) :=
  if BAND_EXPIRED_UPPER_EXCLUSIVE <=? age then Ok (STALE_OBSERVED, RESULT_STALE)
  else if BAND_NO_OBSERVATION_UPPER_EXCLUSIVE <=? age
  then Ok (EXPIRED_OBSERVED, RESULT_EXPIRED)
  else Err AuditIdentityError.

Definition _build_audit_event (r : EvaluationResult) : result exn AuditEvent :=
  _ ← raise_if (bool_decide (r_result r = RESULT_NO_OBSERVATION)) AuditIdentityError;
  job ← _check_job_id (PStr (r_job_id r));
  reference ← _check_timestamp (PStr (r_reference_utc r));
  evaluation ← _check_timestamp (PStr (r_evaluation_utc r));
  age ← _check_age (PInt (r_age_seconds r));
  _ ← _check_source_state (PStr (r_source_state r));
  sha ← _check_hex64 (PStr (r_input_sha256 r));
  _ ← raise_if (str_ltb evaluation reference) AuditConsistencyError;
  kv ← _expected_event_kind_and_value age;
  _ ← _check_event_kind (PStr kv.1);
  _ ← _check_result_value (PStr kv.2);
  Ok (mk_event job kv.1 kv.2 evaluation age sha [] [] false false).

Definition _finalise_event (e : AuditEvent) : result exn AuditEvent :=
  let canonical := canonical_event_json e in
  _ ← raise_if (MAX_CANONICAL_EVENT_JSON_LEN <? length canonical)%nat AuditIdentityError;
  Ok (mk_event (ae_job_id e) (ae_event_kind e) (ae_result_value e) (ae_evaluation_utc e)
        (ae_age_seconds e) (ae_input_sha256 e) canonical (event_sha256 canonical)
        (ae_persisted e) (ae_duplicate e)).

(** [dataclasses.replace(event, persisted=..., duplicate=...)] *)
Definition mark (persisted duplicate : bool) (e : AuditEvent) : AuditEvent :=
  mk_event (ae_job_id e) (ae_event_kind e) (ae_result_value e) (ae_evaluation_utc e)
    (ae_age_seconds e) (ae_input_sha256 e) (ae_canonical_event_json e)
    (ae_event_sha256 e) persisted duplicate.

(** ** [audit_observations] *)

(** The planning loop: [seen] and [planned] are its accumulators. *)
Definition plan_event (acc : list str * list (EvaluationResult * AuditEvent))
    (r : EvaluationResult) : result exn (list str * list (EvaluationResult * AuditEvent)) :=
  if bool_decide (r_result r = RESULT_NO_OBSERVATION) then Ok acc else
  _ ← raise_if (bool_decide (r_job_id r ∈ acc.1)) AuditBatchError;
  event ← _build_audit_event r;
  event ← _finalise_event event;
  Ok (r_job_id r :: acc.1, acc.2 ++ [(r, event)]).

Definition canonical_input_json_for_result (r : EvaluationResult) : str :=
  canonical_input_json
    (mk_job (r_job_id r) (r_reference_utc r) (r_evaluation_utc r) (r_age_seconds r)
       (r_source_state r)).

(** One turn of the consistency loop, over the rows read from the table. *)
Definition check_against_input (rows : gmap str eval_row)
    (p : EvaluationResult * AuditEvent) : result exn unit :=
  let '(r, event) := p in
  row ← of_option AuditMissingInputError (rows !! ae_job_id event);
  _ ← raise_if (negb (bool_decide (er_canonical_input_json row =
        canonical_input_json_for_result r))) AuditConsistencyError;
  _ ← raise_if (negb (bool_decide (er_input_sha256 row = ae_input_sha256 event)))
        AuditConsistencyError;
  _ ← raise_if (negb (er_age_seconds row =? ae_age_seconds event)) AuditConsistencyError;
  _ ← raise_if (negb (bool_decide (er_reference_utc row = r_reference_utc r)))
        AuditConsistencyError;
  raise_if (negb (bool_decide (er_source_state row = r_source_state r)))
    AuditConsistencyError.

(** [{row[0]: row[1] for row in existing_rows}]: the last row of a job wins.  The
    query has no ORDER BY; rows are taken in the order of insertion here, which
    is immaterial where a job has one row, as the slice itself leaves it. *)
Definition existing_by_job (planned : list AuditEvent) (rows : list audit_row)
    : gmap str str :=
  foldl (λ m row, <[ar_job_id row := ar_event_sha256 row]> m) ∅
    (filter (λ row, ar_job_id row ∈ map ae_job_id planned) rows).

(** Everything [audit_observations] does before BEGIN. *)
Definition plan_audit (context : ExternalContext) (results : list EvaluationResult)
    (db : session_db) : result exn (list AuditEvent * gmap str str) :=
  _ ← raise_if (length results =? 0)%nat AuditBatchError;
  _ ← raise_if (MAX_BATCH_SIZE <? length results)%nat AuditBatchError;
  _ ← map_err (λ _, AuditIdentityError) (validate_external_context context);
  _ ← _verify_session_db db;
  acc ← foldR plan_event ([], []) results;
  _ ← mapR (check_against_input (evaluation_inputs db)) acc.2;
  let planned := map snd acc.2 in
  Ok (planned, existing_by_job planned (audit_events db)).

Definition audit_row_of (e : AuditEvent) : audit_row :=
  mk_audit_row (ae_event_sha256 e) (ae_job_id e) (ae_event_kind e) (ae_result_value e)
    (ae_evaluation_utc e) (ae_age_seconds e) (ae_input_sha256 e)
    (ae_canonical_event_json e).

(** One turn of the INSERT loop. *)
Definition write_event (existing : gmap str str) (written : gmap str AuditEvent)
    (event : AuditEvent) : M session_db exn (gmap str AuditEvent) :=
  match existing !! ae_job_id event with
  | Some sha =>
      if bool_decide (sha = ae_event_sha256 event)
      then mret (<[ae_job_id event := mark false true event]> written)
      else throw AuditConflictError
  | None =>
      _ ← execute_insert insert_audit_event (λ _, AuditConflictError) (audit_row_of event);
      mret (<[ae_job_id event := mark true (ae_duplicate event) event]> written)
  end.

(** The events in input order, NO_OBSERVATION skipped. *)
Definition emit_events (written : gmap str AuditEvent) (results : list EvaluationResult)
    : list AuditEvent :=
  omap (λ r, if bool_decide (r_result r = RESULT_NO_OBSERVATION) then None
             else written !! r_job_id r) results.

Definition commit_audit (results : list EvaluationResult) (planned : list AuditEvent)
    (existing : gmap str str) : M session_db exn (list AuditEvent) :=
  written ← immediate AuditSchemaError (foldM (write_event existing) ∅ planned);
  mret (emit_events written results).

Definition audit_observations (context : ExternalContext) (results : list EvaluationResult)
    : M session_db exn (list AuditEvent) :=
  db ← get;
  plan ← lift (plan_audit context results db);
  commit_audit results plan.1 plan.2.

(** ** What an audited result is *)

Definition auditable (r : EvaluationResult) : Prop := r_result r ≠ RESULT_NO_OBSERVATION.
#[export] Instance auditable_dec r : Decision (auditable r).
Proof. unfold auditable. apply _. Defined.

Definition valid_result (r : EvaluationResult) : Prop :=
  ((length (r_job_id r) <= 128)%nat ∧ over_class is_job_id_char 1 128 (r_job_id r)) ∧
  ((length (r_source_state r) <= 64)%nat ∧
    over_class is_source_state_char 1 64 (r_source_state r)) ∧
  (1 <= length (r_reference_utc r) <= 32)%nat ∧
  (1 <= length (r_evaluation_utc r) <= 32)%nat ∧
  str_ltb (r_evaluation_utc r) (r_reference_utc r) = false ∧
  over_class is_lower_hex 64 64 (r_input_sha256 r) ∧
  300 <= r_age_seconds r <= INT64_MAX.

(** The event of a result, by the age bands alone. *)
Definition event_of (r : EvaluationResult) : AuditEvent :=
  let stale := 600 <=? r_age_seconds r in
  let e := mk_event (r_job_id r) (if stale then STALE_OBSERVED else EXPIRED_OBSERVED)
    (if stale then RESULT_STALE else RESULT_EXPIRED) (r_evaluation_utc r)
    (r_age_seconds r) (r_input_sha256 r) [] [] false false in
  let text := canonical_event_json e in
  mk_event (ae_job_id e) (ae_event_kind e) (ae_result_value e) (ae_evaluation_utc e)
    (ae_age_seconds e) (ae_input_sha256 e) text (sha256 text) false false.

Lemma check_timestamp_Ok identity s t :
  check_timestamp identity (PStr s) = Ok t ↔ t = s ∧ (1 <= length s <= 32)%nat.
Proof.
  unfold check_timestamp, MAX_TIMESTAMP_LEN.
  destruct (Nat.eqb_spec (length s) 0); simpl; [naive_solver lia|].
  destruct (Nat.ltb_spec 32 (length s)); simpl; naive_solver lia.
Qed.

Lemma hex_unescaped c : is_lower_hex c = true → unescaped c.
Proof.
  unfold is_lower_hex, is_digit, unescaped.
  rewrite orb_true_iff, !in_range_true. lia.
Qed.

Lemma over_class_length cls lo hi s : over_class cls lo hi s → (length s <= S hi)%nat.
Proof. intros (t & [-> | ->] & Hl & _); rewrite ?length_app; simpl; lia. Qed.

(** The 2048-character guard on the canonical event cannot fire. *)
Lemma canonical_event_json_bounded r :
  valid_result r →
  (length (canonical_event_json (event_of r)) <= MAX_CANONICAL_EVENT_JSON_LEN)%nat.
Proof.
  intros ([Hj Hjc] & _ & _ & [_ He] & _ & Hx & Hage).
  pose proof (over_class_length _ _ _ _ Hx).
  apply over_class_escape in Hjc; [|apply job_id_char_unescaped].
  apply over_class_escape in Hx; [|apply hex_unescaped].
  pose proof (escape_length (r_evaluation_utc r)).
  pose proof (age_text_length (r_age_seconds r) ltac:(lia)).
  unfold canonical_event_json, MAX_CANONICAL_EVENT_JSON_LEN.
  etrans; [apply canonical_obj_length|].
  cbn [sum_list_with]. unfold item_length, event_of. cbn [fst snd dumps].
  cbn [ae_age_seconds ae_event_kind ae_evaluation_utc ae_input_sha256 ae_job_id
       ae_result_value].
  unfold STALE_OBSERVED, EXPIRED_OBSERVED, RESULT_STALE, RESULT_EXPIRED.
  rewrite !quote_length. case_match; literal_lengths; lia.
Qed.

Lemma canonical_event_json_event_of r e :
  canonical_event_payload e = canonical_event_payload (event_of r) →
  canonical_event_json e = canonical_event_json (event_of r).
Proof. unfold canonical_event_json. by intros ->. Qed.

Lemma expected_kind_value age :
  300 <= age →
  _expected_event_kind_and_value age =
    Ok (if 600 <=? age then (STALE_OBSERVED, RESULT_STALE)
        else (EXPIRED_OBSERVED, RESULT_EXPIRED)).
Proof.
  unfold _expected_event_kind_and_value, BAND_EXPIRED_UPPER_EXCLUSIVE,
    BAND_NO_OBSERVATION_UPPER_EXCLUSIVE. intros Ha.
  rewrite (proj2 (Z.leb_le 300 _)) by done. by destruct (600 <=? age).
Qed.

Lemma _build_audit_event_Ok r e :
  _build_audit_event r = Ok e →
  auditable r ∧ valid_result r ∧
  canonical_event_payload e = canonical_event_payload (event_of r) ∧
  ae_persisted e = false ∧ ae_duplicate e = false.
Proof.
  unfold _build_audit_event, _check_job_id, _check_source_state, _check_timestamp,
    _check_age, _check_hex64. intros Hb. inv_ok.
  repeat match goal with
  | H : check_job_id _ _ = Ok _ |- _ => apply check_job_id_Ok in H as (-> & ? & ?)
  | H : check_source_state _ _ = Ok _ |- _ => apply check_source_state_Ok in H as (-> & ? & ?)
  | H : check_timestamp _ _ = Ok _ |- _ => apply check_timestamp_Ok in H as (-> & ? & ?)
  | H : check_hex64 _ _ = Ok _ |- _ => apply check_hex64_Ok in H as (-> & ?)
  | H : check_age _ _ _ = Ok _ |- _ => apply check_age_Ok in H as ([= <-] & ? & ?)
  end.
  match goal with H : _expected_event_kind_and_value ?a = Ok _ |- _ =>
    destruct (Z.leb_spec 300 a) as [Hlo|Hlo];
    [rewrite expected_kind_value in H by done; injection H as <-|] end.
  - split; [done|]. split; [unfold valid_result; auto 20|]. split; [|done].
    unfold event_of, canonical_event_payload. simpl. by destruct (600 <=? _).
  - exfalso. unfold _expected_event_kind_and_value, BAND_EXPIRED_UPPER_EXCLUSIVE,
      BAND_NO_OBSERVATION_UPPER_EXCLUSIVE in *.
    rewrite (proj2 (Z.leb_gt 600 _)), (proj2 (Z.leb_gt 300 _)) in * by lia. done.
Qed.

Lemma _build_audit_event_valid r :
  auditable r → valid_result r → is_ok (_build_audit_event r) = true.
Proof.
  unfold _build_audit_event, _check_job_id, _check_source_state, _check_timestamp,
    _check_age, _check_hex64.
  intros Hr (Hj & Hs & Htr & Hte & Hle & Hx & Hage).
  rewrite bool_decide_eq_false_2 by done. cbn [mbind result_bind raise_if].
  rewrite (proj2 (check_job_id_Ok _ _ (r_job_id r))) by done. cbn [mbind result_bind].
  rewrite !(λ s H, proj2 (check_timestamp_Ok AuditIdentityError s s) (conj eq_refl H))
    by done. cbn [mbind result_bind].
  rewrite (proj2 (check_age_Ok _ _ _ (r_age_seconds r))) by (split; [done|lia]).
  cbn [mbind result_bind].
  rewrite (proj2 (check_source_state_Ok _ _ (r_source_state r))) by done.
  cbn [mbind result_bind].
  rewrite (proj2 (check_hex64_Ok _ _ (r_input_sha256 r))) by done.
  rewrite Hle, expected_kind_value by lia. cbn [mbind result_bind raise_if].
  by destruct (600 <=? r_age_seconds r).
Qed.

Lemma finalise_Ok r e e' :
  canonical_event_payload e = canonical_event_payload (event_of r) →
  ae_persisted e = false → ae_duplicate e = false →
  _finalise_event e = Ok e' → e' = event_of r.
Proof.
  intros Hp H1 H2. unfold _finalise_event.
  rewrite (canonical_event_json_event_of r e) by done. intros Hf. inv_ok.
  unfold canonical_event_payload in Hp. injection Hp as Ha Hk He Hx Hj Hv.
  rewrite Ha, Hk, He, Hx, Hj, Hv, H1, H2. reflexivity.
Qed.

(** ** The plan *)

Lemma plan_event_skip acc r : (¬ auditable r) → plan_event acc r = Ok acc.
Proof.
  intros Hr. unfold plan_event. rewrite bool_decide_eq_true_2; [done|].
  unfold auditable in Hr. by apply dec_stable.
Qed.

Lemma plan_event_Ok acc r acc' :
  auditable r → plan_event acc r = Ok acc' →
  (r_job_id r ∉ acc.1) ∧ valid_result r ∧
  acc' = (r_job_id r :: acc.1, acc.2 ++ [(r, event_of r)]).
Proof.
  intros Hr. unfold plan_event. rewrite bool_decide_eq_false_2 by done.
  cbv beta iota. intros Hp. inv_ok.
  match goal with H : _build_audit_event _ = Ok _ |- _ =>
    apply _build_audit_event_Ok in H as (_ & Hv & Hpay & Hpe & Hdu) end.
  match goal with H : _finalise_event _ = Ok _ |- _ =>
    apply (finalise_Ok r) in H as ->; [|done..] end.
  done.
Qed.

Lemma plan_event_valid acc r :
  auditable r → r_job_id r ∉ acc.1 → valid_result r →
  plan_event acc r = Ok (r_job_id r :: acc.1, acc.2 ++ [(r, event_of r)]).
Proof.
  intros Hr Hseen Hv.
  destruct (plan_event acc r) as [acc'|e] eqn:Hp.
  { apply plan_event_Ok in Hp as (_ & _ & ->); done. }
  exfalso. revert Hp. unfold plan_event.
  rewrite bool_decide_eq_false_2, bool_decide_eq_false_2 by done.
  destruct (proj1 (is_ok_true _) (_build_audit_event_valid r Hr Hv)) as [ev Hb].
  rewrite Hb. apply _build_audit_event_Ok in Hb as (_ & _ & Hpay & _).
  cbn [mbind result_bind raise_if]. unfold _finalise_event.
  rewrite (canonical_event_json_event_of r ev) by done.
  rewrite (proj2 (Nat.ltb_ge _ _)) by by apply canonical_event_json_bounded.
  done.
Qed.

Definition audited (results : list EvaluationResult) : list EvaluationResult :=
  filter auditable results.

Lemma plan_events_iff results acc :
  foldR plan_event ([], []) results = Ok acc ↔
  NoDup (map r_job_id (audited results)) ∧ Forall valid_result (audited results) ∧
  acc = (reverse (map r_job_id (audited results)),
         map (λ r, (r, event_of r)) (audited results)).
Proof.
  unfold audited. revert acc. induction results as [|r l IH] using rev_ind; intros acc.
  { simpl. split; [intros [= <-]; split_and!; constructor|]. by intros (_ & _ & ->). }
  rewrite foldR_app, filter_app. destruct (foldR plan_event ([], []) l) as [acc0|e].
  2: { simpl. split; [done|]. intros (Hnd & Hv & _).
       rewrite map_app, NoDup_app in Hnd. apply Forall_app in Hv as [Hv _].
       discriminate (proj2 (IH _) (conj (proj1 Hnd) (conj Hv eq_refl))). }
  destruct (proj1 (IH acc0) eq_refl) as (Hnd & Hv & ->). clear IH.
  cbn [mbind result_bind foldR filter list_filter].
  destruct (decide (auditable r)) as [Hr|Hr]; cycle 1.
  { rewrite plan_event_skip, app_nil_r by done. cbn. naive_solver. }
  rewrite !map_app, NoDup_app, Forall_app. cbn [map]. split.
  - intros (a & Hp & Ha)%bind_Ok. injection Ha as <-.
    apply plan_event_Ok in Hp as (Hs & Hvr & ->); [|done]. cbn [fst snd] in *.
    rewrite elem_of_reverse in Hs. split_and!; try done.
    + intros x Hx ->%list_elem_of_singleton. done.
    + apply NoDup_singleton.
    + by constructor.
    + by rewrite reverse_snoc.
  - intros ((_ & Hdis & _) & [_ [Hvr _]%Forall_cons_1] & ->).
    rewrite plan_event_valid; [|done| |done].
    + cbn. by rewrite reverse_snoc.
    + cbn. rewrite elem_of_reverse. intros Hin. apply (Hdis _ Hin). set_solver.
Qed.

(** The stored evaluation input says the same as the result. *)
Definition matches_input (db : session_db) (r : EvaluationResult) : Prop :=
  ∃ row, evaluation_inputs db !! r_job_id r = Some row ∧
    er_canonical_input_json row = canonical_input_json_for_result r ∧
    er_input_sha256 row = r_input_sha256 r ∧ er_age_seconds row = r_age_seconds r ∧
    er_reference_utc row = r_reference_utc r ∧ er_source_state row = r_source_state r.

Lemma check_against_input_Ok db r o :
  check_against_input (evaluation_inputs db) (r, event_of r) = Ok o ↔
  matches_input db r ∧ o = tt.
Proof.
  destruct o. unfold check_against_input, matches_input.
  generalize (canonical_input_json_for_result r) as text. intros text.
  change (ae_job_id (event_of r)) with (r_job_id r).
  change (ae_input_sha256 (event_of r)) with (r_input_sha256 r).
  change (ae_age_seconds (event_of r)) with (r_age_seconds r).
  split.
  - intros Hc. inv_ok.
    repeat match goal with H : (_ =? _) = true |- _ => apply Z.eqb_eq in H end.
    split; [|done]. eauto 10.
  - intros [(row & -> & <- & <- & <- & <- & <-) _]. cbn [of_option mbind result_bind].
    rewrite Z.eqb_refl, !bool_decide_eq_true_2 by done. done.
Qed.

Lemma check_inputs_iff db rs k :
  mapR (check_against_input (evaluation_inputs db)) (map (λ r, (r, event_of r)) rs) = Ok k ↔
  Forall (matches_input db) rs ∧ k = replicate (length rs) tt.
Proof.
  revert k. induction rs as [|r rs IH]; intros k; cbn [map mapR].
  { split; [intros [= <-]; by split|by intros [_ ->]]. }
  rewrite Forall_cons. split.
  - intros (? & [Hr ->]%check_against_input_Ok & (ks & [Hrs ->]%IH & [= <-])%bind_Ok)%bind_Ok.
    done.
  - intros [[Hr Hrs] ->]. rewrite (proj2 (check_against_input_Ok db r tt)) by done.
    cbn [mbind result_bind]. by rewrite (proj2 (IH (replicate (length rs) tt))).
Qed.

(** What the table says about a job before the batch: the digest of its last
    row. *)
Definition last_event (db : session_db) (job : str) : option str :=
  ar_event_sha256 <$> last (filter (λ row, ar_job_id row = job) (audit_events db)).

Lemma existing_by_job_lookup planned rows job :
  job ∈ map ae_job_id planned →
  existing_by_job planned rows !! job =
    ar_event_sha256 <$> last (filter (λ row, ar_job_id row = job) rows).
Proof.
  intros Hj. unfold existing_by_job.
  pose proof (fill_last ar_job_id ar_event_sha256 ∅
    (filter (λ row, ar_job_id row ∈ map ae_job_id planned) rows) job) as Hf.
  unfold fill in Hf. rewrite Hf, list_filter_filter_l by (intros ? <-; done).
  by destruct (last _).
Qed.

(** ** The INSERT loop *)

Definition is_duplicate (existing : gmap str str) (e : AuditEvent) : bool :=
  bool_decide (is_Some (existing !! ae_job_id e)).

Definition marked (existing : gmap str str) (e : AuditEvent) : AuditEvent :=
  if is_duplicate existing e then mark false true e else mark true (ae_duplicate e) e.

Definition new_events (existing : gmap str str) (planned : list AuditEvent)
    : list AuditEvent :=
  filter (λ e, is_duplicate existing e = false) planned.

Definition append_audit (rows : list audit_row) (db : session_db) : session_db :=
  set_audit_events (audit_events db ++ rows) db.

Lemma append_audit_nil db : append_audit [] db = db.
Proof. destruct db. unfold append_audit. simpl. by rewrite app_nil_r. Qed.

Lemma append_audit_app rows1 rows2 db :
  append_audit rows2 (append_audit rows1 db) = append_audit (rows1 ++ rows2) db.
Proof. unfold append_audit, set_audit_events. simpl. by rewrite app_assoc. Qed.

Lemma insert_audit_event_Ok row db db' :
  insert_audit_event row db = Ok db' ↔
  db' = append_audit [row] db ∧ audit_row_checks row = true ∧
  existsb (same_audit_key row) (audit_events db) = false ∧
  (foreign_keys db = true → is_Some (evaluation_inputs db !! ar_job_id row)).
Proof.
  unfold insert_audit_event, append_audit.
  destruct (audit_row_checks row); simpl; [|naive_solver].
  destruct (existsb _ _); simpl; [naive_solver|].
  destruct (foreign_keys db); simpl; [|naive_solver].
  destruct (evaluation_inputs db !! ar_job_id row); simpl; naive_solver.
Qed.

(** A turn of the loop either marks the event as a duplicate of the row that
    the scan found, or appends its row. *)
Lemma write_event_Ok existing w e db w' db' :
  write_event existing w e db = (Ok w', db') ↔
  w' = <[ae_job_id e := marked existing e]> w ∧
  match existing !! ae_job_id e with
  | Some sha => sha = ae_event_sha256 e ∧ db' = db
  | None => insert_audit_event (audit_row_of e) db = Ok db'
  end.
Proof.
  unfold write_event, marked, is_duplicate.
  destruct (existing !! ae_job_id e) as [sha|].
  - rewrite (bool_decide_eq_true_2 (is_Some (Some sha))) by eauto.
    case_bool_decide; unfold throw, mret, M_ret; naive_solver.
  - rewrite (bool_decide_eq_false_2 (is_Some None)) by apply is_Some_None.
    unfold execute_insert.
    unfold mbind, M_bind.
    destruct (insert_audit_event (audit_row_of e) db); unfold mret, M_ret; split.
    + by intros [= <- <-].
    + by intros [-> [= <-]].
    + done.
    + by intros [_ [=]].
Qed.

Lemma write_events_Ok existing planned w db w' db' :
  foldM (write_event existing) w planned db = (Ok w', db') →
  w' = fill ae_job_id (marked existing) w planned ∧
  db' = append_audit (map audit_row_of (new_events existing planned)) db ∧
  Forall (λ e, existing !! ae_job_id e ∈ [None; Some (ae_event_sha256 e)]) planned.
Proof.
  revert w db. induction planned as [|e l IH]; intros w db; cbn [foldM].
  { intros [= <- <-]. unfold new_events. simpl. by rewrite append_audit_nil. }
  intros (w1 & db1 & [-> He]%write_event_Ok & Hrest)%M_bind_Ok.
  apply IH in Hrest as (-> & -> & Hl). split; [done|].
  unfold new_events, is_duplicate in *. cbn [filter list_filter] in *.
  destruct (existing !! ae_job_id e) as [sha|] eqn:Hx.
  - destruct He as [-> ->]. rewrite (bool_decide_eq_true_2 (is_Some (Some _))) by eauto.
    rewrite decide_False by done. split; [done|]. constructor; [|done].
    rewrite Hx. set_solver.
  - apply insert_audit_event_Ok in He as (-> & _).
    rewrite (bool_decide_eq_false_2 (is_Some None)) by apply is_Some_None.
    rewrite decide_True by done. cbn [map]. rewrite append_audit_app. split; [done|].
    constructor; [|done]. rewrite Hx. set_solver.
Qed.

(** ** What a successful call does *)

(** The event returned for an audited result. *)
Definition outcome (db : session_db) (r : EvaluationResult) : AuditEvent :=
  match last_event db (r_job_id r) with
  | Some _ => mark false true (event_of r)
  | None => mark true false (event_of r)
  end.

(** The rows the batch adds: those of the jobs the table does not know. *)
Definition added_rows (db : session_db) (rs : list EvaluationResult) : list audit_row :=
  map (λ r, audit_row_of (event_of r)) (filter (λ r, last_event db (r_job_id r) = None) rs).

(** No job is audited with two different events. *)
Definition agrees (db : session_db) (r : EvaluationResult) : Prop :=
  last_event db (r_job_id r) = None ∨
  last_event db (r_job_id r) = Some (ae_event_sha256 (event_of r)).

Lemma plan_audit_Ok context results db planned existing :
  plan_audit context results db = Ok (planned, existing) →
  NoDup (map r_job_id (audited results)) ∧ Forall valid_result (audited results) ∧
  Forall (matches_input db) (audited results) ∧
  planned = map event_of (audited results) ∧
  existing = existing_by_job planned (audit_events db).
Proof.
  unfold plan_audit. intros Hp. inv_ok.
  match goal with H : foldR _ _ _ = Ok _ |- _ =>
    apply plan_events_iff in H as (Hnd & Hv & ->) end.
  match goal with H : mapR _ _ = Ok _ |- _ => apply check_inputs_iff in H as [Hm _] end.
  cbn [snd] in *. rewrite map_map. done.
Qed.

Section existing.
Context (db : session_db) (rs : list EvaluationResult).
Let existing := existing_by_job (map event_of rs) (audit_events db).

Lemma existing_lookup r :
  r ∈ rs → existing !! ae_job_id (event_of r) = last_event db (r_job_id r).
Proof.
  intros Hr. apply existing_by_job_lookup.
  apply list_elem_of_fmap. exists (event_of r). split; [done|].
  apply list_elem_of_fmap. eauto.
Qed.

Lemma marked_outcome r : r ∈ rs → marked existing (event_of r) = outcome db r.
Proof.
  intros Hr. unfold marked, is_duplicate, outcome. rewrite (existing_lookup r) by done.
  by destruct (last_event db (r_job_id r)).
Qed.

Lemma new_events_rows l :
  l ⊆ rs → map audit_row_of (new_events existing (map event_of l)) = added_rows db l.
Proof.
  unfold new_events, added_rows. induction l as [|r l IH]; intros Hl; [done|].
  assert (is_duplicate existing (event_of r) = bool_decide (is_Some (last_event db (r_job_id r))))
    as Hdup by (unfold is_duplicate; rewrite (existing_lookup r) by set_solver; done).
  cbn [map filter list_filter]. rewrite Hdup.
  destruct (last_event db (r_job_id r)) as [sha|] eqn:Hx.
  - rewrite (bool_decide_eq_true_2 (is_Some (Some _))) by eauto.
    rewrite !decide_False by done. apply IH. set_solver.
  - rewrite (bool_decide_eq_false_2 (is_Some None)) by apply is_Some_None.
    rewrite !decide_True by done. cbn [map]. f_equal. apply IH. set_solver.
Qed.

Lemma emitted results w :
  rs = audited results → NoDup (map r_job_id rs) →
  w = fill ae_job_id (marked existing) ∅ (map event_of rs) →
  emit_events w results = map (outcome db) rs.
Proof.
  intros Hrs Hnd ->.
  assert (∀ r, r ∈ rs → fill ae_job_id (marked existing) ∅ (map event_of rs)
    !! r_job_id r = Some (outcome db r)) as Hw.
  { intros r Hr. rewrite <-(marked_outcome r) by done.
    apply (fill_lookup ae_job_id (marked existing) ∅ _ (event_of r)).
    - rewrite map_map. done.
    - apply list_elem_of_fmap. eauto. }
  generalize dependent (fill ae_job_id (marked existing) ∅ (map event_of rs)).
  intros w Hw. unfold emit_events, audited in *. rewrite Hrs in Hw |- *. clear Hrs Hnd.
  induction results as [|r l IH]; [done|]. cbn [omap list_omap filter list_filter] in *.
  destruct (decide (auditable r)) as [Hr|Hr].
  - rewrite bool_decide_eq_false_2, (Hw r) by (done || set_solver). cbn [map].
    f_equal. apply IH. set_solver.
  - rewrite bool_decide_eq_true_2 by (unfold auditable in Hr; by apply dec_stable).
    by apply IH.
Qed.
End existing.

Lemma commit_audit_Ok results db out db' :
  let rs := audited results in
  NoDup (map r_job_id rs) →
  commit_audit results (map event_of rs)
    (existing_by_job (map event_of rs) (audit_events db)) db = (Ok out, db') →
  Forall (agrees db) rs ∧ out = map (outcome db) rs ∧
  db' = append_audit (added_rows db rs) db.
Proof.
  intros rs Hnd (w & db1 & Htx & Hret)%M_bind_Ok.
  unfold immediate in Htx. destruct (write_locked db); [done|].
  rewrite transaction_Ok in Htx. apply write_events_Ok in Htx as (Hw & Hdb & Hag).
  injection Hret as <- <-. split_and!.
  - apply Forall_forall. intros r Hr. rewrite Forall_forall in Hag.
    specialize (Hag (event_of r)). rewrite (existing_lookup db rs) in Hag by done.
    unfold agrees. assert (event_of r ∈ map event_of rs) as Hin
      by (apply list_elem_of_fmap; eauto).
    apply Hag in Hin. set_solver.
  - by apply emitted.
  - by rewrite Hdb, new_events_rows.
Qed.

Lemma audit_observations_Ok context results db out db' :
  audit_observations context results db = (Ok out, db') →
  let rs := audited results in
  NoDup (map r_job_id rs) ∧ Forall valid_result rs ∧ Forall (matches_input db) rs ∧
  Forall (agrees db) rs ∧ out = map (outcome db) rs ∧
  db' = append_audit (added_rows db rs) db.
Proof.
  intros (? & ? & [= <- <-] & ([planned existing] & ? & [= Hp <-] & Hc)%M_bind_Ok)%M_bind_Ok.
  apply plan_audit_Ok in Hp as (Hnd & Hv & Hm & -> & ->).
  by apply commit_audit_Ok in Hc.
Qed.

(** C9: A successful call audits the results that carry an observation, each once:
    the batch has no job twice, every result is valid and says what the stored
    evaluation input says, one event per result is returned in order, the jobs
    the table does not know are appended, and the others are already audited
    with the same digest.  Nothing else changes. *)
Theorem audit_observations_refines context results db out db' :
  audit_observations context results db = (Ok out, db') →
  let rs := audited results in
  NoDup (map r_job_id rs) ∧ Forall valid_result rs ∧ Forall (matches_input db) rs ∧
  Forall (agrees db) rs ∧ out = map (outcome db) rs ∧
  db' = append_audit (added_rows db rs) db.
Proof. apply audit_observations_Ok. Qed.

Lemma audit_observations_Err context results db e db' :
  audit_observations context results db = (Err e, db') → db' = db.
Proof.
  intros [[=]|(? & ? & [= <- <-] & [[= _ <-]|(plan & ? & [= _ <-] & Hc)]%M_bind_Err)]%M_bind_Err;
    [done|].
  apply M_bind_Err in Hc as [Htx|(? & ? & _ & [=])].
  unfold immediate in Htx. destruct (write_locked db); [by injection Htx|].
  rewrite transaction_Err in Htx. by destruct Htx as [-> _].
Qed.

(** C32: A call that raises leaves the database as it was. *)
Theorem audit_observations_atomic context results db e db' :
  audit_observations context results db = (Err e, db') → db' = db.
Proof. apply audit_observations_Err. Qed.

Lemma write_event_extends existing w e : steps extends (write_event existing w e).
Proof.
  unfold write_event. destruct (existing !! _); [case_bool_decide|]; eauto 6 with steps.
Qed.
#[export] Hint Resolve write_event_extends : steps.

(** Whatever was planned, and whatever another connection wrote since the scan
    of the table, the transaction only appends. *)
Theorem commit_audit_append_only results planned existing db r db' :
  commit_audit results planned existing db = (r, db') → extends db db'.
Proof.
  enough (steps extends (commit_audit results planned existing)) as H by apply H.
  unfold commit_audit. eauto with steps.
Qed.

(** ** When a call succeeds *)

Lemma last_event_None db job :
  last_event db job = None ↔ job ∉ map ar_job_id (audit_events db).
Proof.
  unfold last_event. rewrite fmap_None, last_None_filter. split.
  - intros Hl (row & -> & Hr)%list_elem_of_fmap. by apply (Hl row).
  - intros Hj row Hr Heq. apply Hj, list_elem_of_fmap. eauto.
Qed.

Lemma event_of_row_checks r :
  valid_result r → sql_hex64 (r_input_sha256 r) = true →
  audit_row_checks (audit_row_of (event_of r)) = true.
Proof.
  intros (_ & _ & _ & _ & _ & _ & Hage) Hx. unfold audit_row_checks.
  change (ar_input_sha256 (audit_row_of (event_of r))) with (r_input_sha256 r).
  change (ar_age_seconds (audit_row_of (event_of r))) with (r_age_seconds r).
  change (ar_event_sha256 (audit_row_of (event_of r)))
    with (sha256 (canonical_event_json (event_of r))).
  rewrite Hx, sql_hex64_sha256, (proj2 (Z.leb_le 0 _)) by lia. rewrite !andb_true_r.
  change (ar_event_kind (audit_row_of (event_of r)))
    with (if 600 <=? r_age_seconds r then STALE_OBSERVED else EXPIRED_OBSERVED).
  change (ar_result_value (audit_row_of (event_of r)))
    with (if 600 <=? r_age_seconds r then RESULT_STALE else RESULT_EXPIRED).
  by destruct (600 <=? r_age_seconds r).
Qed.

Lemma write_events_succeed existing planned w db :
  NoDup (map ae_job_id planned) →
  Forall (λ e, existing !! ae_job_id e ∈ [None; Some (ae_event_sha256 e)]) planned →
  Forall (λ e, existing !! ae_job_id e = None →
    audit_row_checks (audit_row_of e) = true ∧
    is_Some (evaluation_inputs db !! ae_job_id e) ∧
    ae_job_id e ∉ map ar_job_id (audit_events db)) planned →
  ∃ w' db', foldM (write_event existing) w planned db = (Ok w', db').
Proof.
  revert w db. induction planned as [|e l IH]; intros w db; cbn [foldM map].
  { intros _ _ _. by eexists _, _. }
  intros [He Hnd]%NoDup_cons [Hag Hagl]%Forall_cons_1 [Hok Hokl]%Forall_cons_1.
  assert (∃ db1, write_event existing w e db =
      (Ok (<[ae_job_id e := marked existing e]> w), db1) ∧
      evaluation_inputs db1 = evaluation_inputs db ∧
      map ar_job_id (audit_events db1) ⊆ ae_job_id e :: map ar_job_id (audit_events db))
    as (db1 & Hw & Hev & Hau).
  { setoid_rewrite write_event_Ok. destruct (existing !! ae_job_id e) as [sha|].
    - exists db. split_and!; [done|set_solver|done|done|set_solver].
    - destruct (Hok eq_refl) as (Hc & Hin & Hnew).
      exists (append_audit [audit_row_of e] db). rewrite insert_audit_event_Ok.
      split_and!; try done.
      + apply not_true_iff_false. intros (row & Hrow & Hk)%existsb_exists.
        apply bool_decide_eq_true in Hk as [_ Hk]. apply Hnew.
        apply list_elem_of_fmap. exists row. split; [by rewrite <-Hk|].
        by apply list_elem_of_In.
      + simpl. rewrite map_app. set_solver. }
  unfold mbind, M_bind. rewrite Hw. apply IH; [done..|].
  apply Forall_forall. intros e' He' Hx. rewrite Forall_forall in Hokl.
  destruct (Hokl e' He' Hx) as (Hc & Hin & Hnew). rewrite Hev.
  split_and!; [done..|]. intros [Heq|Hin']%Hau%elem_of_cons; [|done].
  apply He. rewrite <-Heq. apply list_elem_of_fmap. eauto.
Qed.

(** The conditions under which a batch is audited. *)
Definition auditable_batch (db : session_db) (results : list EvaluationResult) : Prop :=
  let rs := audited results in
  (0 < length results <= MAX_BATCH_SIZE)%nat ∧ NoDup (map r_job_id rs) ∧
  Forall valid_result rs ∧ Forall (matches_input db) rs ∧ Forall (agrees db) rs ∧
  Forall (λ r, sql_hex64 (r_input_sha256 r) = true) rs.

(** The database is the V1 schema and no other connection is writing. *)
Definition writable (verify : session_db → result exn unit) (db : session_db) : Prop :=
  verify db = Ok tt ∧ write_locked db = false.

Lemma audit_observations_runs context results db :
  auditable_batch db results → writable _verify_session_db db →
  is_ok (validate_external_context context) = true →
  audit_observations context results db =
    (Ok (map (outcome db) (audited results)),
     append_audit (added_rows db (audited results)) db).
Proof.
  intros (Hlen & Hnd & Hv & Hm & Hag & Hx) [Hver Hlock] [ctx Hctx]%is_ok_true.
  set (rs := audited results) in *.
  set (existing := existing_by_job (map event_of rs) (audit_events db)).
  assert (plan_audit context results db = Ok (map event_of rs, existing)) as Hplan.
  { unfold plan_audit.
    rewrite (proj2 (Nat.eqb_neq _ 0)), (proj2 (Nat.ltb_ge _ _)) by lia.
    rewrite Hctx, Hver, (proj2 (plan_events_iff results _)) by done.
    cbn [mbind result_bind raise_if map_err snd]. fold rs.
    rewrite (proj2 (check_inputs_iff db rs _)) by done. cbn [mbind result_bind].
    by rewrite map_map. }
  destruct (write_events_succeed existing (map event_of rs) ∅ db) as (w & db' & Hw).
  - by rewrite map_map.
  - apply Forall_fmap, Forall_forall. intros r Hr. unfold compose.
    rewrite Forall_forall in Hag. specialize (Hag r Hr). unfold existing.
    rewrite (existing_lookup db rs) by done.
    destruct Hag as [-> | ->]; set_solver.
  - apply Forall_fmap, Forall_forall. intros r Hr. unfold compose, existing.
    rewrite (existing_lookup db rs) by done. intros Hnone%last_event_None.
    rewrite !Forall_forall in *.
    destruct (Hm r Hr) as (row & Hrow & _). split_and!; [|by eexists|done].
    apply event_of_row_checks; auto.
  - assert (∃ out db1, audit_observations context results db = (Ok out, db1)) as (out & db1 & Hrun).
    { unfold audit_observations, get, lift, mbind, M_bind. rewrite Hplan.
      unfold commit_audit, mbind, M_bind, immediate, transaction. cbn [fst snd].
      rewrite Hlock, Hw. by eexists _, _. }
    rewrite Hrun. unfold audit_observations, get, lift, mbind, M_bind in Hrun.
    rewrite Hplan in Hrun. cbn [fst snd] in Hrun.
    apply commit_audit_Ok in Hrun as (_ & -> & ->); done.
Qed.

(** A batch whose results are valid, match their stored inputs and do not
    contradict an earlier event is audited: the call returns. *)
Theorem audit_observations_succeeds context results db :
  auditable_batch db results → writable _verify_session_db db →
  is_ok (validate_external_context context) = true →
  audit_observations context results db =
    (Ok (map (outcome db) (audited results)),
     append_audit (added_rows db (audited results)) db).
Proof. apply audit_observations_runs. Qed.

(** ** Resubmission *)

Lemma audited_Forall_auditable results : Forall auditable (audited results).
Proof. apply Forall_forall. by intros r [Hr _]%list_elem_of_filter. Qed.

Lemma last_event_added db rs r :
  NoDup (map r_job_id rs) → r ∈ rs → agrees db r →
  last_event (append_audit (added_rows db rs) db) (r_job_id r) =
    Some (ae_event_sha256 (event_of r)).
Proof.
  intros Hnd Hr Hag. unfold last_event. simpl audit_events.
  rewrite filter_app, last_app.
  set (added := filter (λ row, ar_job_id row = r_job_id r) (added_rows db rs)).
  assert (∀ row, row ∈ added →
      row = audit_row_of (event_of r) ∧ last_event db (r_job_id r) = None) as Hadded.
  { intros row [Hj Hrow]%list_elem_of_filter. unfold added_rows in Hrow.
    apply list_elem_of_fmap in Hrow as (r' & -> & [Hnone Hr']%list_elem_of_filter).
    change (r_job_id r' = r_job_id r) in Hj.
    assert (r' = r) as -> by by apply (NoDup_map_inj r_job_id rs). done. }
  destruct (last added) as [row|] eqn:Hl.
  - apply last_Some_elem_of, Hadded in Hl as [-> _]. done.
  - destruct Hag as [Hnone|Hsome]; [exfalso|exact Hsome].
    unfold added in Hl. rewrite last_None_filter in Hl.
    apply (Hl (audit_row_of (event_of r))); [|done].
    unfold added_rows. apply list_elem_of_fmap. exists r. split; [done|].
    by apply list_elem_of_filter.
Qed.

(** C31: Submitting the same batch again, in any later context, changes nothing and
    reports every event as a duplicate. *)
Theorem audit_observations_idempotent context context' results db out db' :
  audit_observations context results db = (Ok out, db') →
  Forall (λ r, sql_hex64 (r_input_sha256 r) = true) (audited results) →
  (0 < length results <= MAX_BATCH_SIZE)%nat → writable _verify_session_db db →
  is_ok (validate_external_context context') = true →
  audit_observations context' results db' = (Ok (map (mark false true) out), db').
Proof.
  intros (? & ? & [= <- <-] & ([planned existing] & ? & [= Hp <-] & Hc)%M_bind_Ok)%M_bind_Ok.
  intros Hx Hlen [Hver Hlock] Hctx.
  apply plan_audit_Ok in Hp as (Hnd & Hv & Hm & -> & ->).
  apply commit_audit_Ok in Hc as (Hag & -> & ->); [|done].
  set (rs := audited results) in *. set (db' := append_audit (added_rows db rs) db).
  assert (∀ r, r ∈ rs → last_event db' (r_job_id r) = Some (ae_event_sha256 (event_of r)))
    as Hlast.
  { intros r Hr. apply last_event_added; [done..|]. rewrite Forall_forall in Hag. auto. }
  assert (auditable_batch db' results) as Hbatch.
  { unfold auditable_batch. fold rs. do 4 (split; [done|]). split; [|done].
    apply Forall_forall. intros r Hr. right. auto. }
  rewrite audit_observations_runs by done.
  fold rs. f_equal.
  - f_equal. rewrite map_map. apply map_ext_Forall, Forall_forall.
    intros r Hr. unfold outcome. rewrite (Hlast r Hr).
    by destruct (last_event db (r_job_id r)).
  - assert (added_rows db' rs = []) as ->; [|apply append_audit_nil].
    unfold added_rows.
    enough (last (filter (λ r, last_event db' (r_job_id r) = None) rs) = None)
      as ->%last_None by done.
    apply last_None_filter. intros r Hr. by rewrite Hlast.
Qed.

(** ** The audit trail invariant

    One event per job, each the event of a valid result that matches the stored
    evaluation input; in particular its text and digest are those of its own
    fields and its kind is that of its age. *)
Definition audit_wf (db : session_db) : Prop :=
  NoDup (map ar_job_id (audit_events db)) ∧
  ∀ row, row ∈ audit_events db →
    ∃ r, valid_result r ∧ matches_input db r ∧ row = audit_row_of (event_of r).

Lemma matches_input_extends db db' r :
  evaluation_inputs db ⊆ evaluation_inputs db' → matches_input db r → matches_input db' r.
Proof.
  intros Hsub (row & Hrow & Hrest). exists row. split; [|done].
  by eapply lookup_weaken.
Qed.

Lemma audit_wf_append db rs :
  NoDup (map r_job_id rs) → Forall valid_result rs → Forall (matches_input db) rs →
  audit_wf db → audit_wf (append_audit (added_rows db rs) db).
Proof.
  intros Hnd Hv Hm [Hwf Hrows]. split.
  - simpl. rewrite map_app. apply NoDup_app. split_and!; [done| |].
    + intros j Hj (row & -> & Hrow)%list_elem_of_fmap.
      unfold added_rows in Hrow.
      apply list_elem_of_fmap in Hrow as (r & -> & [Hnone _]%list_elem_of_filter).
      apply last_event_None in Hnone. done.
    + unfold added_rows. rewrite map_map.
      change (NoDup (map r_job_id (filter (λ r, last_event db (r_job_id r) = None) rs))).
      by apply NoDup_map_filter.
  - intros row [Hrow|Hrow]%elem_of_app; [by apply Hrows|].
    unfold added_rows in Hrow.
    apply list_elem_of_fmap in Hrow as (r & -> & [_ Hr]%list_elem_of_filter).
    rewrite Forall_forall in Hv, Hm. exists r.
    split; [by apply Hv|]. split; [by apply (Hm r)|done].
Qed.

Lemma audit_observations_keeps_wf context results db r db' :
  audit_observations context results db = (r, db') → audit_wf db → audit_wf db'.
Proof.
  intros Hrun Hwf. revert Hrun.
  unfold audit_observations, get, lift, mbind, M_bind.
  destruct (plan_audit context results db) as [[planned existing]|e] eqn:Hp;
    [|by intros [= _ <-]].
  apply plan_audit_Ok in Hp as (Hnd & Hv & Hm & -> & ->). cbn [fst snd].
  destruct r as [out|e]; intros Hc.
  - apply commit_audit_Ok in Hc as (_ & _ & ->); [|done]. by apply audit_wf_append.
  - apply M_bind_Err in Hc as [Htx|(? & ? & _ & [=])].
    unfold immediate in Htx. destruct (write_locked db); [by injection Htx as _ <-|].
    rewrite transaction_Err in Htx. by destruct Htx as [-> _].
Qed.

(** Whether it returns or raises, [audit_observations] keeps the trail well
    formed. *)
Theorem audit_observations_wf context results db r db' :
  audit_observations context results db = (r, db') → audit_wf db → audit_wf db'.
Proof. apply audit_observations_keeps_wf. Qed.

(** ** Concrete runs *)

Definition sample_results : list EvaluationResult := map expected_result sample_inputs.

Definition sample_audited : session_db :=
  (audit_observations sample_context sample_results sample_evaluated).2.
Definition sample_events : list AuditEvent := [mark true false (event_of (expected_result sample_job))].

Lemma sample_audited_ok :
  audit_observations sample_context sample_results sample_evaluated =
    (Ok sample_events, sample_audited).
Proof. vm_compute. reflexivity. Qed.

Lemma audit_observations_refines_witness :
  let rs := audited sample_results in
  NoDup (map r_job_id rs) ∧ Forall valid_result rs ∧
  Forall (matches_input sample_evaluated) rs ∧ Forall (agrees sample_evaluated) rs ∧
  sample_events = map (outcome sample_evaluated) rs ∧
  sample_audited = append_audit (added_rows sample_evaluated rs) sample_evaluated.
Proof. exact (audit_observations_refines _ _ _ _ _ sample_audited_ok). Defined.

(** A result whose stored input is missing. *)
Lemma sample_unknown :
  audit_observations sample_context sample_results v1_empty =
    (Err AuditMissingInputError, v1_empty).
Proof. vm_compute. reflexivity. Qed.

Lemma audit_observations_atomic_witness : v1_empty = v1_empty.
Proof. exact (audit_observations_atomic _ _ _ _ _ sample_unknown). Defined.

Lemma audit_observations_idempotent_witness :
  audit_observations sample_context sample_results sample_audited =
    (Ok (map (mark false true) sample_events), sample_audited).
Proof.
  apply (audit_observations_idempotent sample_context sample_context sample_results
    sample_evaluated).
  - exact sample_audited_ok.
  - assert (audited sample_results = [expected_result sample_job]) as ->
      by (vm_compute; reflexivity).
    constructor; [vm_compute; reflexivity|constructor].
  - vm_compute. lia.
  - split; vm_compute; reflexivity.
  - reflexivity.
Defined.

Lemma audit_wf_empty db : audit_events db = [] → audit_wf db.
Proof. unfold audit_wf. intros ->. split; [constructor|]. by intros row ?%elem_of_nil. Qed.

Lemma sample_evaluated_wf : audit_wf sample_evaluated.
Proof. apply audit_wf_empty. vm_compute. reflexivity. Qed.

Lemma audit_observations_wf_witness : audit_wf sample_audited.
Proof.
  exact (audit_observations_wf _ _ _ _ _ sample_audited_ok sample_evaluated_wf).
Defined.

(** ** The label of a result is not audited

    [audit_observations] never reads [result.result] except to skip
    NO_OBSERVATION: any other label is accepted, and the event's kind and value
    come from the age. *)
Definition mislabelled (label : str) : EvaluationResult :=
  let r := expected_result sample_job in
  mk_result (r_job_id r) label (r_age_band r) (r_age_seconds r) (r_reference_utc r)
    (r_evaluation_utc r) (r_source_state r) (r_input_sha256 r) (r_persisted r).

Lemma mislabelled_result_audited :
  audit_observations sample_context [mislabelled RESULT_EXPIRED] sample_evaluated =
    (Ok sample_events, sample_audited) ∧
  audit_observations sample_context [mislabelled (u "BOGUS")] sample_evaluated =
    (Ok sample_events, sample_audited) ∧
  map ae_result_value sample_events = [RESULT_STALE].
Proof. split_and!; vm_compute; reflexivity. Qed.
