(* ===== verification/Outbox.v ===== *)
(** * Outbox: inert previews of audited events.

    [scripts/news_pipeline/phase6/outbox.py]: each audited event is read back
    from [audit_events] and [evaluation_inputs], rendered as one [PreviewRow] and
    appended to [dry_run_outbox].  All reads and writes run in one transaction. *)
From S2P Require Import Prelude Text Sha256 Json Calendar Timestamps SessionDb Fields.
From S2P Require Import Recovery AuditTrail.
Local Open Scope Z_scope.

(** ** Data *)

Record PreviewRow := mk_preview
  { pr_payload_sha256 : str; pr_event_sha256 : str; pr_job_id : str;
    pr_result_value : str; pr_age_seconds : Z; pr_state : str; pr_template_id : str;
    pr_session_id : str; pr_evaluation_utc : str; pr_credential_free : Z;
    pr_delivery_evidence : Z; pr_canonical_payload_json : str;
    pr_persisted : bool; pr_duplicate : bool }.

#[export] Instance PreviewRow_eq_dec : EqDecision PreviewRow.
Proof. solve_decision. Defined.

Definition MAX_OUTBOX_PAYLOAD_JSON_LEN : nat := 4096.

(** ** Field checks *)

Definition _check_session_id : pyval → result exn str := check_session_id OutboxIdentityError.
Definition _check_job_id : pyval → result exn str := check_job_id OutboxIdentityError.
Definition _check_timestamp : pyval → result exn str := check_timestamp OutboxIdentityError.
Definition _check_age : pyval → result exn Z :=
  check_age OutboxIdentityError OutboxConsistencyError.
Definition _check_hex64 : pyval → result exn str := check_hex64 OutboxIdentityError.
Definition _check_event_kind : pyval → result exn str := check_event_kind OutboxIdentityError.
Definition _check_result_value : pyval → result exn str :=
  check_result_value OutboxIdentityError.

(** ** Canonical payload *)

Definition canonical_payload_payload (e : AuditEvent) (session_id : str) : json :=
  JObj [(u "age_seconds", JInt (ae_age_seconds e));
        (u "credential_free", JInt 1);
        (u "delivery_evidence", JInt 0);
        (u "evaluation_utc", JStr (ae_evaluation_utc e));
        (u "event_sha256", JStr (ae_event_sha256 e));
        (u "input_sha256", JStr (ae_input_sha256 e));
        (u "job_id", JStr (ae_job_id e));
        (u "result_value", JStr (ae_result_value e));
        (u "session_id", JStr session_id);
        (u "state", JStr DRY_RUN_STATE);
        (u "template_id", JStr TEMPLATE_ID)].

Definition canonical_payload_json (e : AuditEvent) (session_id : str) : str :=
  canonical (canonical_payload_payload e session_id).

Definition payload_sha256 (canonical_json : str) : str := sha256 canonical_json.

(** The column list of [audit_events] has no [canonical_event_json] here. *)
Definition _verify_session_db (db : session_db) : result exn unit :=
  _ ← raise_if (negb (user_version db =? 1)) OutboxSchemaError;
  _ ← raise_if (negb (has_columns "evaluation_inputs" EVALUATION_INPUTS_COLUMNS db))
        OutboxSchemaError;
  _ ← raise_if (negb (has_columns "audit_events" (removelast AUDIT_EVENTS_COLUMNS) db))
        OutboxSchemaError;
  raise_if (negb (has_columns "dry_run_outbox" DRY_RUN_OUTBOX_COLUMNS db)) OutboxSchemaError.

Definition _build_preview_row (e : AuditEvent) (session_id : str) : result exn PreviewRow :=
  let canonical := canonical_payload_json e session_id in
  _ ← raise_if (MAX_OUTBOX_PAYLOAD_JSON_LEN <? length canonical)%nat OutboxIdentityError;
  Ok (mk_preview (payload_sha256 canonical) (ae_event_sha256 e) (ae_job_id e)
        (ae_result_value e) (ae_age_seconds e) DRY_RUN_STATE TEMPLATE_ID session_id
        (ae_evaluation_utc e) 1 0 canonical false false).

Definition _preview_row_values (p : PreviewRow) : outbox_row :=
  mk_outbox_row (pr_payload_sha256 p) (pr_event_sha256 p) (pr_job_id p)
    (pr_result_value p) (pr_age_seconds p) (pr_state p) (pr_template_id p)
    (pr_canonical_payload_json p) (pr_session_id p) (pr_evaluation_utc p)
    (pr_credential_free p) (pr_delivery_evidence p).

Definition _audit_row_to_event (row : audit_row) : AuditEvent :=
  mk_event (ar_job_id row) (ar_event_kind row) (ar_result_value row)
    (ar_evaluation_utc row) (ar_age_seconds row) (ar_input_sha256 row)
    (ar_canonical_event_json row) (ar_event_sha256 row) true false.

(** The row of a primary key, and the field-by-field comparison with it. *)
Definition audit_row_at (event_sha256 job_id : str) (db : session_db) : option audit_row :=
  List.find (λ row, bool_decide (ar_event_sha256 row = event_sha256 ∧ ar_job_id row = job_id))
    (audit_events db).

Definition same_event_fields (a b : AuditEvent) : bool :=
  bool_decide (ae_event_sha256 a = ae_event_sha256 b) &&
  bool_decide (ae_job_id a = ae_job_id b) &&
  bool_decide (ae_event_kind a = ae_event_kind b) &&
  bool_decide (ae_result_value a = ae_result_value b) &&
  bool_decide (ae_evaluation_utc a = ae_evaluation_utc b) &&
  bool_decide (ae_age_seconds a = ae_age_seconds b) &&
  bool_decide (ae_input_sha256 a = ae_input_sha256 b) &&
  bool_decide (ae_canonical_event_json a = ae_canonical_event_json b).

Definition _load_persisted_audit_event (db : session_db) (caller : AuditEvent)
    : result exn AuditEvent :=
  row ← of_option OutboxConsistencyError
          (audit_row_at (ae_event_sha256 caller) (ae_job_id caller) db);
  let persisted := _audit_row_to_event row in
  _ ← raise_if (negb (same_event_fields caller persisted)) OutboxConsistencyError;
  Ok persisted.

Definition _load_persisted_evaluation_input (db : session_db) (e : AuditEvent)
    : result exn eval_row :=
  row ← of_option OutboxMissingInputError (evaluation_inputs db !! ae_job_id e);
  _ ← raise_if (negb (bool_decide (er_job_id row = ae_job_id e))) OutboxConsistencyError;
  _ ← raise_if (negb (er_age_seconds row =? ae_age_seconds e)) OutboxConsistencyError;
  _ ← raise_if (negb (bool_decide (er_input_sha256 row = ae_input_sha256 e)))
        OutboxConsistencyError;
  let persisted_input_sha256 := input_sha256 (er_canonical_input_json row) in
  _ ← raise_if (negb (bool_decide (persisted_input_sha256 = er_input_sha256 row)))
        OutboxConsistencyError;
  let expected_canonical := canonical_input_json
    (mk_job (er_job_id row) (er_reference_utc row) (ae_evaluation_utc e)
       (er_age_seconds row) (er_source_state row)) in
  _ ← raise_if (negb (bool_decide (er_canonical_input_json row = expected_canonical)))
        OutboxConsistencyError;
  Ok row.

Definition EXPECTED_RESULT_FOR_EVENT_KIND : gmap str str :=
  {[EXPIRED_OBSERVED := RESULT_EXPIRED; STALE_OBSERVED := RESULT_STALE]}.

Definition _validate_audit_event (e : AuditEvent) : result exn AuditEvent :=
  _ ← _check_job_id (PStr (ae_job_id e));
  _ ← _check_timestamp (PStr (ae_evaluation_utc e));
  _ ← _check_age (PInt (ae_age_seconds e));
  _ ← _check_hex64 (PStr (ae_input_sha256 e));
  _ ← _check_hex64 (PStr (ae_event_sha256 e));
  event_kind ← _check_event_kind (PStr (ae_event_kind e));
  result_value ← _check_result_value (PStr (ae_result_value e));
  _ ← raise_if (bool_decide (result_value = RESULT_NO_OBSERVATION)) OutboxIdentityError;
  expected ← of_option OutboxIdentityError (EXPECTED_RESULT_FOR_EVENT_KIND !! event_kind);
  _ ← raise_if (negb (bool_decide (expected = result_value))) OutboxIdentityError;
  Ok e.

(** [dataclasses.replace(preview, persisted=..., duplicate=...)] *)
Definition mark_preview (persisted duplicate : bool) (p : PreviewRow) : PreviewRow :=
  mk_preview (pr_payload_sha256 p) (pr_event_sha256 p) (pr_job_id p) (pr_result_value p)
    (pr_age_seconds p) (pr_state p) (pr_template_id p) (pr_session_id p)
    (pr_evaluation_utc p) (pr_credential_free p) (pr_delivery_evidence p)
    (pr_canonical_payload_json p) persisted duplicate.

(** ** [queue_previews] *)

(** One turn of the planning loop, which reads the tables as it goes. *)
Definition plan_preview (db : session_db) (session_id : str)
    (acc : list str * list (AuditEvent * PreviewRow)) (raw : AuditEvent)
    : result exn (list str * list (AuditEvent * PreviewRow)) :=
  caller ← _validate_audit_event raw;
  _ ← raise_if (bool_decide (ae_job_id caller ∈ acc.1)) OutboxBatchError;
  persisted ← _load_persisted_audit_event db caller;
  _ ← _load_persisted_evaluation_input db persisted;
  preview ← _build_preview_row persisted session_id;
  Ok (ae_job_id caller :: acc.1, acc.2 ++ [(persisted, preview)]).

(** [SELECT payload_sha256 FROM dry_run_outbox WHERE job_id = ?], first row. *)
Definition payload_of_job (db : session_db) (job_id : str) : option str :=
  or_payload_sha256 <$>
    head (filter (λ row, or_job_id row = job_id) (map snd (map_to_list (dry_run_outbox db)))).

(** The INSERT and its three error branches. *)
Definition insert_preview (event : AuditEvent) (preview : PreviewRow)
    (written : gmap str PreviewRow) : M session_db exn (gmap str PreviewRow) := λ db,
  let expected_row := _preview_row_values preview in
  match insert_dry_run_outbox expected_row db with
  | Ok db' => (Ok (<[ae_job_id event := mark_preview true (pr_duplicate preview) preview]>
                     written), db')
  | Err UniqueFailed =>
      match dry_run_outbox db !! pr_payload_sha256 preview with
      | Some existing_after =>
          if bool_decide (existing_after = expected_row)
          then (Ok (<[ae_job_id event := mark_preview false true preview]> written), db)
          else (Err OutboxSchemaError, db)
      | None => (Err OutboxConflictError, db)
      end
  | Err _ => (Err OutboxSchemaError, db)
  end.

(** One turn of the writing loop. *)
Definition write_preview (written : gmap str PreviewRow) (p : AuditEvent * PreviewRow)
    : M session_db exn (gmap str PreviewRow) :=
  let '(event, preview) := p in
  db ← get;
  match dry_run_outbox db !! pr_payload_sha256 preview with
  | Some existing_row =>
      if bool_decide (existing_row = _preview_row_values preview)
      then mret (<[ae_job_id event := mark_preview false true preview]> written)
      else throw OutboxSchemaError
  | None =>
      _ ← lift (raise_if
            (match payload_of_job db (ae_job_id event) with
             | Some sha => negb (bool_decide (sha = pr_payload_sha256 preview))
             | None => false
             end) OutboxConflictError);
      insert_preview event preview written
  end.

(** The rows in input order. *)
Definition emit_previews (written : gmap str PreviewRow) (events : list AuditEvent)
    : list PreviewRow :=
  omap (λ raw, if bool_decide (ae_result_value raw ∈ [RESULT_EXPIRED; RESULT_STALE])
               then written !! ae_job_id raw else None) events.

(** The checks before BEGIN. *)
Definition check_preview_batch (context : ExternalContext) (session_id : str)
    (events : list AuditEvent) (db : session_db) : result exn str :=
  _ ← raise_if (length events =? 0)%nat OutboxBatchError;
  _ ← raise_if (MAX_BATCH_SIZE <? length events)%nat OutboxBatchError;
  _ ← map_err (λ _, OutboxIdentityError) (validate_external_context context);
  session ← _check_session_id (PStr session_id);
  _ ← _verify_session_db db;
  Ok session.

(** The body of the transaction. *)
Definition preview_body (session_id : str) (events : list AuditEvent)
    : M session_db exn (gmap str PreviewRow) :=
  db ← get;
  acc ← lift (foldR (plan_preview db session_id) ([], []) events);
  foldM write_preview ∅ acc.2.

Definition queue_previews (context : ExternalContext) (session_id : str)
    (events : list AuditEvent) : M session_db exn (list PreviewRow) :=
  db ← get;
  session ← lift (check_preview_batch context session_id events db);
  written ← immediate OutboxSchemaError (preview_body session events);
  mret (emit_previews written events).

(** ** What an event must be *)

Definition valid_event (e : AuditEvent) : Prop :=
  ((length (ae_job_id e) <= 128)%nat ∧ over_class is_job_id_char 1 128 (ae_job_id e)) ∧
  (1 <= length (ae_evaluation_utc e) <= 32)%nat ∧ 0 <= ae_age_seconds e <= INT64_MAX ∧
  over_class is_lower_hex 64 64 (ae_input_sha256 e) ∧
  over_class is_lower_hex 64 64 (ae_event_sha256 e) ∧
  (ae_event_kind e = EXPIRED_OBSERVED ∧ ae_result_value e = RESULT_EXPIRED ∨
   ae_event_kind e = STALE_OBSERVED ∧ ae_result_value e = RESULT_STALE).

(** Its row is in [audit_events], with the same fields. *)
Definition persisted_event (db : session_db) (e : AuditEvent) : Prop :=
  audit_row_at (ae_event_sha256 e) (ae_job_id e) db = Some (audit_row_of e).

(** Its stored input agrees and is intact. *)
Definition intact_input (db : session_db) (e : AuditEvent) : Prop :=
  ∃ row, evaluation_inputs db !! ae_job_id e = Some row ∧
    er_job_id row = ae_job_id e ∧ er_age_seconds row = ae_age_seconds e ∧
    er_input_sha256 row = ae_input_sha256 e ∧
    sha256 (er_canonical_input_json row) = er_input_sha256 row ∧
    er_canonical_input_json row = canonical_input_json
      (mk_job (er_job_id row) (er_reference_utc row) (ae_evaluation_utc e)
         (er_age_seconds row) (er_source_state row)).

Definition previewable (db : session_db) (e : AuditEvent) : Prop :=
  valid_event e ∧ persisted_event db e ∧ intact_input db e.

Lemma check_one_of_Ok identity allowed s t :
  check_one_of identity allowed (PStr s) = Ok t ↔ t = s ∧ s ∈ allowed.
Proof. unfold check_one_of. case_bool_decide; simpl; naive_solver. Qed.

Lemma kind_value_pairing kind value expected :
  kind ∈ [EXPIRED_OBSERVED; STALE_OBSERVED] →
  EXPECTED_RESULT_FOR_EVENT_KIND !! kind = Some expected → expected = value →
  kind = EXPIRED_OBSERVED ∧ value = RESULT_EXPIRED ∨
  kind = STALE_OBSERVED ∧ value = RESULT_STALE.
Proof.
  rewrite !elem_of_cons, elem_of_nil. intros [->|[->|[]]] Hl <-.
  - left. by injection Hl as <-.
  - right. by injection Hl as <-.
Qed.

Lemma _validate_audit_event_Ok e e' :
  _validate_audit_event e = Ok e' ↔ e' = e ∧ valid_event e.
Proof.
  unfold _validate_audit_event, valid_event, _check_job_id, _check_timestamp, _check_age,
    _check_hex64, _check_event_kind, _check_result_value, check_event_kind,
    check_result_value. split.
  - intros Hv. inv_ok.
    repeat match goal with
    | H : check_job_id _ _ = Ok _ |- _ => apply check_job_id_Ok in H as (-> & ? & ?)
    | H : check_timestamp _ _ = Ok _ |- _ => apply check_timestamp_Ok in H as (-> & ?)
    | H : check_hex64 _ _ = Ok _ |- _ => apply check_hex64_Ok in H as (-> & ?)
    | H : check_age _ _ _ = Ok _ |- _ => apply check_age_Ok in H as ([= <-] & ?)
    | H : check_one_of _ _ _ = Ok _ |- _ => apply check_one_of_Ok in H as (-> & ?)
    end.
    split; [done|]. do 5 (split; [by auto|]). by eapply kind_value_pairing.
  - intros (-> & Hj & Ht & Ha & Hx & He & Hk).
    rewrite (proj2 (check_job_id_Ok _ _ _) (conj eq_refl Hj)).
    rewrite (proj2 (check_timestamp_Ok _ _ _) (conj eq_refl Ht)).
    rewrite (proj2 (check_age_Ok _ _ _ _) (conj eq_refl Ha)).
    rewrite (proj2 (check_hex64_Ok _ _ _) (conj eq_refl Hx)).
    rewrite (proj2 (check_hex64_Ok _ _ _) (conj eq_refl He)).
    by destruct Hk as [[-> ->]|[-> ->]].
Qed.

Lemma same_event_fields_row e row :
  same_event_fields e (_audit_row_to_event row) = true ↔ row = audit_row_of e.
Proof.
  unfold same_event_fields. rewrite !andb_true_iff, !bool_decide_eq_true.
  destruct row, e. unfold audit_row_of. simpl. split; [|by intros [=]; subst].
  intros [[[[[[[-> ->] ->] ->] ->] ->] ->] ->]. done.
Qed.

Lemma _load_persisted_audit_event_Ok db e p :
  _load_persisted_audit_event db e = Ok p ↔ persisted_event db e ∧ p = mark true false e.
Proof.
  unfold _load_persisted_audit_event, persisted_event.
  destruct (audit_row_at _ _ db) as [row|]; cbn [of_option mbind result_bind];
    [|split; [done|by intros [[=] _]]].
  destruct (same_event_fields e (_audit_row_to_event row)) eqn:Hs.
  - apply same_event_fields_row in Hs as ->. cbn. split; [by intros [= <-]|by intros [_ ->]].
  - cbn. split; [done|]. intros [[= Hrow] _]. by apply same_event_fields_row in Hrow; rewrite Hrow in Hs.
Qed.

Lemma _load_persisted_evaluation_input_Ok db e :
  is_ok (_load_persisted_evaluation_input db e) = true ↔ intact_input db e.
Proof.
  unfold _load_persisted_evaluation_input, intact_input, input_sha256. rewrite is_ok_true. split.
  - intros [row Hl]. inv_ok.
    repeat match goal with H : (_ =? _) = true |- _ => apply Z.eqb_eq in H end. eauto 10.
  - intros (row & -> & Hj & Ha & Hx & Hs & Ht). exists row.
    cbn [of_option mbind result_bind].
    by rewrite (bool_decide_eq_true_2 _ Hj), (proj2 (Z.eqb_eq _ _) Ha),
      (bool_decide_eq_true_2 _ Hx), (bool_decide_eq_true_2 _ Hs), (bool_decide_eq_true_2 _ Ht).
Qed.

(** ** The plan *)

Definition preview_of (session_id : str) (e : AuditEvent) : PreviewRow :=
  let text := canonical_payload_json e session_id in
  mk_preview (sha256 text) (ae_event_sha256 e) (ae_job_id e) (ae_result_value e)
    (ae_age_seconds e) DRY_RUN_STATE TEMPLATE_ID session_id (ae_evaluation_utc e) 1 0
    text false false.

Definition valid_session (session_id : str) : Prop :=
  (length session_id <= 32)%nat ∧ over_class is_session_id_char 1 32 session_id.

Lemma session_id_char_unescaped c : is_session_id_char c = true → unescaped c.
Proof.
  unfold is_session_id_char. rewrite orb_true_iff, N.eqb_eq.
  intros [H| ->]; [by apply job_id_char_unescaped|]. by unfold unescaped.
Qed.

(** The 4096-character guard on the payload cannot fire. *)
Lemma canonical_payload_json_bounded session_id e :
  valid_session session_id → valid_event e →
  (length (canonical_payload_json e session_id) <= MAX_OUTBOX_PAYLOAD_JSON_LEN)%nat.
Proof.
  intros [Hsl Hs] ([Hj Hjc] & [_ He] & Hage & Hx & Hsha & Hkv).
  pose proof (over_class_length _ _ _ _ Hx). pose proof (over_class_length _ _ _ _ Hsha).
  apply over_class_escape in Hjc; [|apply job_id_char_unescaped].
  apply over_class_escape in Hs; [|apply session_id_char_unescaped].
  apply over_class_escape in Hx, Hsha; [|apply hex_unescaped..].
  pose proof (escape_length (ae_evaluation_utc e)).
  pose proof (age_text_length (ae_age_seconds e) Hage).
  assert (length (escape (ae_result_value e)) <= 7)%nat
    by (destruct Hkv as [[_ ->]|[_ ->]]; vm_compute; lia).
  unfold canonical_payload_json, MAX_OUTBOX_PAYLOAD_JSON_LEN.
  etrans; [apply canonical_obj_length|].
  cbn [sum_list_with]. unfold item_length. cbn [fst snd dumps].
  unfold DRY_RUN_STATE, TEMPLATE_ID. rewrite !quote_length. literal_lengths.
  change (length (dec_of_Z 1)) with 1%nat. change (length (dec_of_Z 0)) with 1%nat. lia.
Qed.

Lemma plan_preview_Ok db s acc e acc' :
  plan_preview db s acc e = Ok acc' →
  (ae_job_id e ∉ acc.1) ∧ previewable db e ∧
  acc' = (ae_job_id e :: acc.1, acc.2 ++ [(mark true false e, preview_of s e)]).
Proof.
  unfold plan_preview. intros Hp. inv_ok.
  repeat match goal with
  | H : _validate_audit_event _ = Ok _ |- _ => apply _validate_audit_event_Ok in H as [-> Hv]
  | H : _load_persisted_audit_event _ _ = Ok _ |- _ =>
      apply _load_persisted_audit_event_Ok in H as [Hper ->]
  | H : _load_persisted_evaluation_input _ _ = Ok _ |- _ =>
      apply (ex_intro (λ a, _ = Ok a)), is_ok_true, _load_persisted_evaluation_input_Ok in H
  end.
  split; [done|]. split; [done|].
  match goal with H : _build_preview_row _ _ = Ok _ |- _ =>
    unfold _build_preview_row in H; apply bind_Ok in H as (? & _ & [= <-]) end.
  done.
Qed.

Lemma plan_preview_valid db s acc e :
  valid_session s → (ae_job_id e ∉ acc.1) → previewable db e →
  plan_preview db s acc e =
    Ok (ae_job_id e :: acc.1, acc.2 ++ [(mark true false e, preview_of s e)]).
Proof.
  intros Hs Hnew (Hv & Hper & Hin). unfold plan_preview.
  rewrite (proj2 (_validate_audit_event_Ok e e)) by done. cbn [mbind result_bind].
  rewrite bool_decide_eq_false_2 by done. cbn [mbind result_bind raise_if].
  rewrite (proj2 (_load_persisted_audit_event_Ok db e _)) by done. cbn [mbind result_bind].
  assert (intact_input db (mark true false e)) as Hin' by exact Hin.
  apply _load_persisted_evaluation_input_Ok, is_ok_true in Hin' as [row ->].
  cbn [mbind result_bind]. unfold _build_preview_row.
  rewrite (proj2 (Nat.ltb_ge _ _)); [done|].
  by apply (canonical_payload_json_bounded s (mark true false e)).
Qed.

Lemma plan_previews_iff db s events acc :
  valid_session s →
  foldR (plan_preview db s) ([], []) events = Ok acc ↔
  NoDup (map ae_job_id events) ∧ Forall (previewable db) events ∧
  acc = (reverse (map ae_job_id events),
         map (λ e, (mark true false e, preview_of s e)) events).
Proof.
  intros Hs. revert acc. induction events as [|e l IH] using rev_ind; intros acc.
  { simpl. split; [intros [= <-]; split_and!; constructor|]. by intros (_ & _ & ->). }
  rewrite foldR_app, !map_app, NoDup_app, Forall_app. cbn [map].
  destruct (foldR (plan_preview db s) ([], []) l) as [acc0|er].
  2: { simpl. split; [done|]. intros ((Hnd & _) & [Hv _] & _).
       discriminate (proj2 (IH _) (conj Hnd (conj Hv eq_refl))). }
  destruct (proj1 (IH acc0) eq_refl) as (Hnd & Hv & ->). clear IH.
  cbn [mbind result_bind foldR]. split.
  - intros (a & Hp & Ha)%bind_Ok. injection Ha as <-.
    apply plan_preview_Ok in Hp as (Hnew & Hve & ->). cbn [fst snd] in *.
    rewrite elem_of_reverse in Hnew. split; [|split; [by split; [|constructor]|]].
    + split_and!; [done| |apply NoDup_singleton]. intros x Hx ->%list_elem_of_singleton. done.
    + by rewrite reverse_snoc.
  - intros ((_ & Hdis & _) & [_ [Hve _]%Forall_cons_1] & ->).
    rewrite plan_preview_valid; [|done| |done].
    + cbn. by rewrite reverse_snoc.
    + cbn. rewrite elem_of_reverse. intros Hin. apply (Hdis _ Hin). set_solver.
Qed.

(** ** The writing loop *)

Definition key_of (s : str) (e : AuditEvent) : str := pr_payload_sha256 (preview_of s e).
Definition row_of (s : str) (e : AuditEvent) : outbox_row :=
  _preview_row_values (preview_of s e).
Definition planned_pair (s : str) (e : AuditEvent) : AuditEvent * PreviewRow :=
  (mark true false e, preview_of s e).

Lemma key_of_row s e : or_payload_sha256 (row_of s e) = key_of s e.
Proof. done. Qed.
Lemma job_of_row s e : or_job_id (row_of s e) = ae_job_id e.
Proof. done. Qed.

(** The row returned for an event. *)
Definition preview_outcome (db : session_db) (s : str) (e : AuditEvent) : PreviewRow :=
  match dry_run_outbox db !! key_of s e with
  | Some _ => mark_preview false true (preview_of s e)
  | None => mark_preview true false (preview_of s e)
  end.

(** [fill_outbox]: the table once the rows of [events] are in. *)
Definition fill_outbox (s : str) (events : list AuditEvent) (db : session_db) : session_db :=
  set_dry_run_outbox (fill (key_of s) (row_of s) (dry_run_outbox db) events) db.

Lemma insert_dry_run_outbox_Ok row db db' :
  insert_dry_run_outbox row db = Ok db' ↔
  outbox_row_checks row = true ∧ dry_run_outbox db !! or_payload_sha256 row = None ∧
  (foreign_keys db = true → audit_key_present (or_event_sha256 row) (or_job_id row) db = true) ∧
  db' = set_dry_run_outbox (<[or_payload_sha256 row := row]> (dry_run_outbox db)) db.
Proof.
  unfold insert_dry_run_outbox.
  destruct (outbox_row_checks row); simpl; [|naive_solver].
  destruct (dry_run_outbox db !! or_payload_sha256 row); [naive_solver|].
  destruct (foreign_keys db), (audit_key_present _ _ db); simpl; naive_solver.
Qed.

Lemma write_preview_Ok s w e db w' db' :
  write_preview w (planned_pair s e) db = (Ok w', db') →
  w' = <[ae_job_id e := preview_outcome db s e]> w ∧
  (dry_run_outbox db !! key_of s e = Some (row_of s e) ∧ db' = db ∨
   dry_run_outbox db !! key_of s e = None ∧
   (payload_of_job db (ae_job_id e) = None ∨
    payload_of_job db (ae_job_id e) = Some (key_of s e)) ∧
   insert_dry_run_outbox (row_of s e) db = Ok db').
Proof.
  unfold write_preview, planned_pair, preview_outcome. fold (key_of s e).
  unfold mbind, M_bind, get, lift, throw, mret, M_ret.
  destruct (dry_run_outbox db !! key_of s e) as [r|] eqn:Hl.
  - fold (row_of s e). case_bool_decide as Hr; [|done]. intros [= <- <-].
    split; [done|]. left. by rewrite Hr.
  - change (ae_job_id (mark true false e)) with (ae_job_id e).
    destruct (raise_if _ _) as [[]|] eqn:Hc; [|done].
    unfold insert_preview. fold (row_of s e) (key_of s e). rewrite Hl.
    destruct (insert_dry_run_outbox (row_of s e) db) as [db1|[]]; try done.
    intros [= <- <-]. split; [done|]. right. split; [done|]. split; [|done].
    apply raise_if_Ok in Hc. destruct (payload_of_job db (ae_job_id e)); [|by left].
    apply negb_false_iff, bool_decide_eq_true in Hc as ->. by right.
Qed.

Lemma write_preview_db s w e db w' db' :
  write_preview w (planned_pair s e) db = (Ok w', db') → db' = fill_outbox s [e] db.
Proof.
  intros (_ & [[Hl ->]|(Hl & _ & Hi)])%write_preview_Ok; unfold fill_outbox, fill; simpl.
  - rewrite insert_id by done. by destruct db.
  - by apply insert_dry_run_outbox_Ok in Hi as (_ & _ & _ & ->).
Qed.

(** An earlier row of the batch never answers for a later event. *)
Lemma batch_lookup (s : str) (m : gmap str outbox_row) prefix e (v : option outbox_row) :
  (ae_job_id e ∉ map ae_job_id prefix) →
  (v = None ∨ v = Some (row_of s e)) →
  fill (key_of s) (row_of s) m prefix !! key_of s e = v → m !! key_of s e = v.
Proof.
  intros Hj Hv. rewrite fill_last.
  destruct (last (filter _ prefix)) as [x|] eqn:Hl; [|done].
  apply last_filter_Some in Hl as [Hx _]. intros <-.
  destruct Hv as [?|Hrow%(inj Some)]; [done|]. exfalso. apply Hj.
  rewrite <-(job_of_row s e), <-Hrow, job_of_row. apply list_elem_of_fmap. eauto.
Qed.

Lemma write_previews_Ok s db0 prefix rest w w' db' :
  NoDup (map ae_job_id (prefix ++ rest)) →
  foldM write_preview w (map (planned_pair s) rest) (fill_outbox s prefix db0) =
    (Ok w', db') →
  db' = fill_outbox s (prefix ++ rest) db0 ∧
  w' = fill ae_job_id (preview_outcome db0 s) w rest ∧
  Forall (λ e, dry_run_outbox db0 !! key_of s e = None ∨
               dry_run_outbox db0 !! key_of s e = Some (row_of s e)) rest.
Proof.
  revert prefix w. induction rest as [|e l IH]; intros prefix w Hnd; cbn [map foldM].
  { intros [= <- <-]. by rewrite app_nil_r. }
  intros (w1 & db1 & Hw & Hrest)%M_bind_Ok.
  pose proof (write_preview_db _ _ _ _ _ _ Hw) as ->.
  assert (fill_outbox s [e] (fill_outbox s prefix db0) = fill_outbox s (prefix ++ [e]) db0)
    as Hdb by (unfold fill_outbox, fill; simpl; by rewrite foldl_app).
  rewrite Hdb in Hrest. apply (IH (prefix ++ [e])) in Hrest as (-> & -> & Hl);
    [|by rewrite <-app_assoc]. rewrite <-app_assoc. split; [done|].
  assert (ae_job_id e ∉ map ae_job_id prefix) as Hj.
  { rewrite map_app, NoDup_app in Hnd. destruct Hnd as (_ & Hdis & _).
    intros Hin. apply (Hdis _ Hin). cbn [map]. apply elem_of_cons. by left. }
  apply write_preview_Ok in Hw as [-> Hcase].
  assert (∃ v, (v = None ∨ v = Some (row_of s e)) ∧
    dry_run_outbox (fill_outbox s prefix db0) !! key_of s e = v) as (v & Hv & Hlook)
    by (destruct Hcase as [[Hx _]|[Hx _]]; eauto).
  pose proof (batch_lookup s _ prefix e v Hj Hv Hlook) as Hlook0.
  split.
  - unfold fill. simpl. f_equal. unfold preview_outcome.
    unfold fill_outbox, set_dry_run_outbox, fill in Hlook |- *. simpl in Hlook |- *.
    by rewrite Hlook, Hlook0.
  - constructor; [|done]. rewrite Hlook0. done.
Qed.

Lemma insert_preview_extends e p w : steps extends (insert_preview e p w).
Proof.
  intros db r db'. unfold insert_preview.
  destruct (insert_dry_run_outbox _ db) as [db1|[]] eqn:Hi;
    [intros [= <- <-]; by eapply insert_dry_run_outbox_extends|..];
    repeat case_match; intros [= <- <-]; reflexivity.
Qed.
Lemma write_preview_extends w p : steps extends (write_preview w p).
Proof.
  pose proof insert_preview_extends. unfold write_preview. destruct p as [e p].
  apply steps_bind; [typeclasses eauto|apply steps_get, _|intros db].
  case_match; [case_bool_decide|]; eauto with steps.
Qed.
#[export] Hint Resolve write_preview_extends : steps.

(** Every planned row is in the table at the end. *)
Lemma write_previews_stored s events w db w' db' :
  foldM write_preview w (map (planned_pair s) events) db = (Ok w', db') →
  Forall (λ e, dry_run_outbox db' !! key_of s e = Some (row_of s e)) events.
Proof.
  revert w db. induction events as [|e l IH]; intros w db; cbn [map foldM]; [constructor|].
  intros (w1 & db1 & Hw & Hrest)%M_bind_Ok. constructor; [|by eapply IH].
  assert (extends db1 db') as (_ & _ & Hsub & _).
  { eapply (steps_foldM extends); [intros; apply write_preview_extends|exact Hrest]. }
  eapply lookup_weaken; [|exact Hsub].
  apply write_preview_Ok in Hw as (_ & [[Hl ->]|(_ & _ & Hi)]); [done|].
  apply insert_dry_run_outbox_Ok in Hi as (_ & _ & _ & ->). apply lookup_insert_eq.
Qed.

(** ** What a call does *)

Lemma emitted_previews db s events :
  NoDup (map ae_job_id events) → Forall valid_event events →
  emit_previews (fill ae_job_id (preview_outcome db s) ∅ events) events =
    map (preview_outcome db s) events.
Proof.
  intros Hnd Hv.
  assert (∀ e, e ∈ events → fill ae_job_id (preview_outcome db s) ∅ events
    !! ae_job_id e = Some (preview_outcome db s e)) as Hw
    by (intros e He; by apply fill_lookup).
  generalize dependent (fill ae_job_id (preview_outcome db s) ∅ events).
  intros w Hw. clear Hnd. unfold emit_previews.
  induction Hv as [|e l (_ & _ & _ & _ & _ & Hk) _ IH]; [done|]. cbn [omap list_omap map].
  rewrite bool_decide_eq_true_2
    by (destruct Hk as [[_ ->]|[_ ->]]; rewrite !elem_of_cons; auto).
  rewrite Hw by set_solver. f_equal. apply IH. set_solver.
Qed.

Lemma check_preview_batch_Ok context s events db s' :
  check_preview_batch context s events db = Ok s' → s' = s ∧ valid_session s.
Proof.
  unfold check_preview_batch, _check_session_id, check_session_id. intros Hc. inv_ok.
  match goal with H : check_pattern _ _ _ _ = Ok _ |- _ =>
    apply check_pattern_Ok in H as (-> & ? & ?); [|done] end.
  done.
Qed.

Lemma preview_body_Ok s events db w db' :
  valid_session s → preview_body s events db = (Ok w, db') →
  NoDup (map ae_job_id events) ∧ Forall (previewable db) events ∧
  Forall (λ e, dry_run_outbox db !! key_of s e = None ∨
               dry_run_outbox db !! key_of s e = Some (row_of s e)) events ∧
  w = fill ae_job_id (preview_outcome db s) ∅ events ∧ db' = fill_outbox s events db ∧
  Forall (λ e, dry_run_outbox db' !! key_of s e = Some (row_of s e)) events.
Proof.
  intros Hs (? & ? & [= <- <-] & (acc & ? & [= Hp <-] & Hw)%M_bind_Ok)%M_bind_Ok.
  apply plan_previews_iff in Hp as (Hnd & Hpv & ->); [|done]. cbn [snd] in Hw.
  assert (fill_outbox s [] db = db) as Hnil by by destruct db.
  pose proof (write_previews_stored _ _ _ _ _ _ Hw) as Hst.
  rewrite <-Hnil in Hw. apply (write_previews_Ok s db []) in Hw as (-> & -> & Hl); done.
Qed.

Lemma queue_previews_runs context s events db :
  valid_session s → Forall (previewable db) events → NoDup (map ae_job_id events) →
  ∀ s' w db',
  check_preview_batch context s events db = Ok s' → write_locked db = false →
  preview_body s events db = (Ok w, db') →
  queue_previews context s events db =
    (Ok (map (preview_outcome db s) events), fill_outbox s events db).
Proof.
  intros Hs Hpv Hnd s' w db' Hc Hlock Hb.
  pose proof Hb as (_ & _ & _ & -> & -> & _)%preview_body_Ok; [|done].
  unfold queue_previews, mbind, M_bind, get, lift. rewrite Hc.
  apply check_preview_batch_Ok in Hc as [-> _].
  unfold immediate, transaction. rewrite Hlock, Hb. unfold mret, M_ret.
  rewrite emitted_previews; [done..|].
  eapply Forall_impl; [exact Hpv|]. by intros e [Hv _].
Qed.

Lemma queue_previews_Ok context s events db out db' :
  queue_previews context s events db = (Ok out, db') →
  NoDup (map ae_job_id events) ∧ Forall (previewable db) events ∧
  Forall (λ e, dry_run_outbox db !! key_of s e = None ∨
               dry_run_outbox db !! key_of s e = Some (row_of s e)) events ∧
  out = map (preview_outcome db s) events ∧ db' = fill_outbox s events db ∧
  Forall (λ e, dry_run_outbox db' !! key_of s e = Some (row_of s e)) events.
Proof.
  intros (? & ? & [= <- <-] & (s' & ? & [= Hc <-] & (w & db1 & Htx & Hret)%M_bind_Ok)%M_bind_Ok)%M_bind_Ok.
  apply check_preview_batch_Ok in Hc as [-> Hs].
  unfold immediate in Htx. destruct (write_locked db); [done|].
  rewrite transaction_Ok in Htx.
  apply preview_body_Ok in Htx as (Hnd & Hpv & Hl & -> & -> & Hst); [|done].
  injection Hret as <- <-. do 3 (split; [done|]). split; [|by split].
  rewrite emitted_previews; [done..|].
  eapply Forall_impl; [exact Hpv|]. by intros e [Hv _].
Qed.

Lemma queue_previews_Err context s events db e db' :
  queue_previews context s events db = (Err e, db') → db' = db.
Proof.
  intros [[=]|(? & ? & [= <- <-] & [[= _ <-]|(s' & ? & [= _ <-] & Hc)]%M_bind_Err)]%M_bind_Err;
    [done|].
  apply M_bind_Err in Hc as [Htx|(? & ? & _ & [=])].
  unfold immediate in Htx. destruct (write_locked db); [by injection Htx|].
  rewrite transaction_Err in Htx. by destruct Htx as [-> _].
Qed.

Lemma preview_body_extends s events : steps extends (preview_body s events).
Proof. unfold preview_body. eauto 12 with steps. Qed.
#[export] Hint Resolve preview_body_extends : steps.

Lemma queue_previews_extends context s events :
  steps extends (queue_previews context s events).
Proof. unfold queue_previews. eauto 12 with steps. Qed.
#[export] Hint Resolve queue_previews_extends : steps.

(** C10: A successful call previews every event, each job once: each event is valid,
    stored with the same fields, and its stored evaluation input is intact; one
    row per event is returned in order; the table then holds exactly the row of
    each event besides what it held, and no other table changes. *)
Theorem queue_previews_refines context s events db out db' :
  queue_previews context s events db = (Ok out, db') →
  NoDup (map ae_job_id events) ∧ Forall (previewable db) events ∧
  out = map (preview_outcome db s) events ∧ db' = fill_outbox s events db ∧
  Forall (λ e, dry_run_outbox db' !! key_of s e = Some (row_of s e)) events.
Proof. by intros (? & ? & _ & ? & ? & ?)%queue_previews_Ok. Qed.

(** A call that raises leaves the database as it was; whether it returns or
    raises, it changes or removes no stored row of any table. *)
Theorem queue_previews_atomic_append_only context s events db r db' :
  queue_previews context s events db = (r, db') →
  (is_ok r = false → db' = db) ∧ extends db db'.
Proof.
  intros Hrun. split; [|by eapply queue_previews_extends].
  destruct r; [done|]. intros _. by eapply queue_previews_Err.
Qed.

(** ** The outbox invariant

    Each row previews one audited event under one session, under the digest of
    its own payload, and no job has two rows. *)
Definition outbox_wf (db : session_db) : Prop :=
  (∀ k r, dry_run_outbox db !! k = Some r →
    ∃ s e, valid_session s ∧ previewable db e ∧ r = row_of s e ∧ k = key_of s e) ∧
  (∀ k1 k2 r1 r2, dry_run_outbox db !! k1 = Some r1 → dry_run_outbox db !! k2 = Some r2 →
    or_job_id r1 = or_job_id r2 → k1 = k2).

Lemma find_prefix {A} (f : A → bool) l k x :
  l `prefix_of` k → List.find f l = Some x → List.find f k = Some x.
Proof.
  intros [t ->]. induction l as [|y l IH]; simpl; [done|]. by destruct (f y).
Qed.

Lemma previewable_extends db db' e : extends db db' → previewable db e → previewable db' e.
Proof.
  intros (Hev & Hau & _) (Hv & Hp & row & Hrow & Hrest). split; [done|]. split.
  - by eapply find_prefix.
  - exists row. split; [by eapply lookup_weaken|done].
Qed.

Lemma payload_of_job_None db j :
  payload_of_job db j = None ↔
  ∀ k r, dry_run_outbox db !! k = Some r → or_job_id r ≠ j.
Proof.
  unfold payload_of_job. rewrite fmap_None. split.
  - intros Hh k r Hk Hj.
    assert (r ∈ filter (λ row, or_job_id row = j) (map snd (map_to_list (dry_run_outbox db))))
      as Hin.
    { apply list_elem_of_filter. split; [done|]. apply list_elem_of_fmap.
      exists (k, r). split; [done|]. by apply elem_of_map_to_list. }
    apply head_None in Hh. rewrite Hh in Hin. by apply elem_of_nil in Hin.
  - intros Hall. apply head_None. destruct (filter _ _) as [|r l] eqn:Hf; [done|].
    assert (r ∈ r :: l) as Hin by (apply elem_of_cons; by left). rewrite <-Hf in Hin.
    apply list_elem_of_filter in Hin as [Hj Hin].
    apply list_elem_of_fmap in Hin as ([k r'] & -> & Hk%elem_of_map_to_list).
    by destruct (Hall k r').
Qed.

Lemma payload_of_job_Some db j sha :
  payload_of_job db j = Some sha →
  ∃ k r, dry_run_outbox db !! k = Some r ∧ or_job_id r = j ∧ or_payload_sha256 r = sha.
Proof.
  unfold payload_of_job. intros (r & Hh & Hr)%fmap_Some.
  apply head_Some_elem_of, list_elem_of_filter in Hh as [Hj Hin].
  apply list_elem_of_fmap in Hin as ([k r'] & -> & Hk%elem_of_map_to_list). eauto.
Qed.

Lemma write_preview_wf s w e db w' db' :
  write_preview w (planned_pair s e) db = (Ok w', db') →
  valid_session s → previewable db e → outbox_wf db → outbox_wf db'.
Proof.
  intros Hw Hs He [Hrows Hone].
  pose proof (write_preview_extends _ _ _ _ _ Hw) as Hext.
  apply write_preview_Ok in Hw as [_ [[_ ->]|(Hnone & Hjob & Hi)]]; [done|].
  apply insert_dry_run_outbox_Ok in Hi as (_ & _ & _ & ->).
  rewrite key_of_row in *. cbn [dry_run_outbox set_dry_run_outbox].
  assert (∀ k r, dry_run_outbox db !! k = Some r → or_job_id r ≠ ae_job_id e) as Hnojob.
  { destruct Hjob as [Hjob|Hjob]; [by apply payload_of_job_None|].
    apply payload_of_job_Some in Hjob as (k & r & Hk & _ & Hpay).
    destruct (Hrows k r Hk) as (s' & e' & _ & _ & -> & ->).
    rewrite key_of_row in Hpay. rewrite Hpay in Hk. congruence. }
  split.
  - intros k r. cbn [dry_run_outbox set_dry_run_outbox]. rewrite lookup_insert_Some.
    intros [[<- <-]|[_ Hk]].
    + exists s, e. split; [done|]. split; [by eapply previewable_extends|done].
    + destruct (Hrows k r Hk) as (s' & e' & Hs' & He' & -> & ->).
      exists s', e'. split; [done|]. split; [by eapply previewable_extends|done].
  - intros k1 k2 r1 r2. cbn [dry_run_outbox set_dry_run_outbox].
    rewrite !lookup_insert_Some.
    intros [[<- <-]|[_ H1]] [[<- <-]|[_ H2]]; [done|..|by eapply Hone].
    + intros Hj. exfalso. by eapply (Hnojob k2 r2).
    + intros Hj. exfalso. by eapply (Hnojob k1 r1).
Qed.

Lemma write_previews_wf s events w db w' db' :
  foldM write_preview w (map (planned_pair s) events) db = (Ok w', db') →
  valid_session s → Forall (previewable db) events → outbox_wf db → outbox_wf db'.
Proof.
  revert w db. induction events as [|e l IH]; intros w db; cbn [map foldM].
  { by intros [= _ <-]. }
  intros (w1 & db1 & Hw & Hrest)%M_bind_Ok Hs [He Hl]%Forall_cons_1 Hwf.
  eapply IH; [exact Hrest|done| |by eapply write_preview_wf].
  eapply Forall_impl; [exact Hl|]. intros e' He'.
  eapply previewable_extends; [|exact He']. by eapply write_preview_extends.
Qed.

Lemma queue_previews_keeps_wf context s events db r db' :
  queue_previews context s events db = (r, db') → outbox_wf db → outbox_wf db'.
Proof.
  intros Hrun Hwf. revert Hrun. unfold queue_previews, mbind, M_bind, get, lift.
  destruct (check_preview_batch context s events db) as [s'|] eqn:Hc; [|by intros [= _ <-]].
  apply check_preview_batch_Ok in Hc as [-> Hs].
  unfold immediate. destruct (write_locked db); [by intros [= _ <-]|].
  unfold transaction.
  destruct (preview_body s events db) as [[w|e] db1] eqn:Hb; [|by intros [= _ <-]].
  intros [= _ <-]. revert Hb. unfold preview_body, mbind, M_bind, get, lift.
  destruct (foldR _ _ _) as [acc|] eqn:Hp; [|done].
  apply plan_previews_iff in Hp as (_ & Hpv & ->); [|done]. intros Hw.
  by eapply write_previews_wf.
Qed.

(** C35: Whether it returns or raises, [queue_previews] keeps the outbox well
    formed: every row previews an audited event whose input is intact, and no
    job is previewed twice. *)
Theorem queue_previews_wf context s events db r db' :
  queue_previews context s events db = (r, db') → outbox_wf db → outbox_wf db'.
Proof. apply queue_previews_keeps_wf. Qed.

(** C34: A batch that would preview a job a second time, with another payload, is
    rejected as a whole. *)
Theorem queue_previews_conflict context s events db k r e :
  outbox_wf db → dry_run_outbox db !! k = Some r → e ∈ events →
  or_job_id r = ae_job_id e → k ≠ key_of s e →
  ∃ err, queue_previews context s events db = (Err err, db).
Proof.
  intros Hwf Hk He Hj Hne.
  destruct (queue_previews context s events db) as [[out|err] db'] eqn:Hrun.
  2: { exists err. f_equal. by eapply queue_previews_Err. }
  exfalso. pose proof (queue_previews_keeps_wf _ _ _ _ _ _ Hrun Hwf) as [_ Hone].
  pose proof (queue_previews_extends _ _ _ _ _ _ Hrun) as (_ & _ & Hsub & _).
  apply queue_previews_Ok in Hrun as (_ & _ & _ & _ & _ & Hrun). rewrite Forall_forall in Hrun.
  apply Hne. eapply Hone; [by eapply lookup_weaken|by apply Hrun|].
  by rewrite job_of_row.
Qed.

(** ** When a call succeeds *)

(** The table can take the row of [e]: it has it already, or it has no row of
    its job and none under its digest. *)
Definition open_for (db : session_db) (s : str) (e : AuditEvent) : Prop :=
  dry_run_outbox db !! key_of s e = Some (row_of s e) ∨
  dry_run_outbox db !! key_of s e = None ∧
  ∀ k r, dry_run_outbox db !! k = Some r → or_job_id r ≠ ae_job_id e.

Lemma row_of_checks s e : valid_event e → outbox_row_checks (row_of s e) = true.
Proof.
  intros (_ & _ & Hage & _ & _ & Hk). unfold outbox_row_checks.
  change (or_payload_sha256 (row_of s e)) with (sha256 (canonical_payload_json e s)).
  change (or_result_value (row_of s e)) with (ae_result_value e).
  change (or_age_seconds (row_of s e)) with (ae_age_seconds e).
  rewrite sql_hex64_sha256, (proj2 (Z.leb_le 0 _)) by lia.
  by destruct Hk as [[_ ->]|[_ ->]].
Qed.

Lemma persisted_event_key db e :
  persisted_event db e → audit_key_present (ae_event_sha256 e) (ae_job_id e) db = true.
Proof.
  unfold persisted_event, audit_row_at, audit_key_present. intros Hf.
  apply existsb_exists. eexists. by apply find_some in Hf.
Qed.

Lemma write_preview_succeeds s w e db :
  previewable db e → open_for db s e →
  ∃ w', write_preview w (planned_pair s e) db = (Ok w', fill_outbox s [e] db).
Proof.
  intros (Hv & Hp & _) Ho.
  enough (∃ w' db', write_preview w (planned_pair s e) db = (Ok w', db')) as (w' & db' & Hw)
    by (rewrite Hw; exists w'; by apply write_preview_db in Hw as ->).
  unfold write_preview, planned_pair, mbind, M_bind, get, lift, mret, M_ret.
  fold (key_of s e). destruct Ho as [-> |[Hno Hnone]]; [|rewrite Hno].
  - rewrite bool_decide_eq_true_2 by done. by eexists _, _.
  - change (ae_job_id (mark true false e)) with (ae_job_id e).
    rewrite (proj2 (payload_of_job_None _ _) Hnone). cbn [raise_if].
    unfold insert_preview. fold (row_of s e).
    destruct (insert_dry_run_outbox (row_of s e) db) as [db1|er] eqn:Hi; [by eexists _, _|].
    exfalso. unfold insert_dry_run_outbox in Hi. rewrite row_of_checks in Hi by done.
    cbn [negb raise_if mbind result_bind] in Hi.
    destruct (dry_run_outbox db !! or_payload_sha256 (row_of s e)) as [r|] eqn:Hl.
    + rewrite key_of_row in Hl. congruence.
    + change (or_event_sha256 (row_of s e)) with (ae_event_sha256 e) in Hi.
      change (or_job_id (row_of s e)) with (ae_job_id e) in Hi.
      rewrite persisted_event_key, andb_false_r in Hi by done. done.
Qed.

Lemma open_for_filled db s e e' :
  ae_job_id e ≠ ae_job_id e' → key_of s e ≠ key_of s e' →
  open_for db s e' → open_for (fill_outbox s [e] db) s e'.
Proof.
  intros Hj Hk. unfold open_for, fill_outbox, fill. simpl foldl.
  cbn [set_dry_run_outbox dry_run_outbox]. rewrite lookup_insert_ne by done.
  intros [?|[? Hnone]]; [by left|]. right. split; [done|].
  intros k r. rewrite lookup_insert_Some. intros [[_ <-]|[_ Hr]]; [|by eapply Hnone].
  by rewrite job_of_row.
Qed.

Lemma write_previews_succeed s events w db :
  NoDup (map ae_job_id events) → NoDup (map (key_of s) events) →
  Forall (previewable db) events → Forall (open_for db s) events →
  ∃ w' db', foldM write_preview w (map (planned_pair s) events) db = (Ok w', db').
Proof.
  revert w db. induction events as [|e l IH]; intros w db; cbn [map foldM].
  { by eexists _, _. }
  intros [Hj Hjl]%NoDup_cons [Hk Hkl]%NoDup_cons [He Hl]%Forall_cons_1 [Ho Hol]%Forall_cons_1.
  destruct (write_preview_succeeds s w e db He Ho) as [w1 Hw].
  unfold mbind, M_bind. rewrite Hw. apply IH; [done..| |].
  - eapply Forall_impl; [exact Hl|]. intros e' He'.
    eapply previewable_extends; [by eapply write_preview_extends|exact He'].
  - rewrite Forall_forall in Hol |- *. intros e' He'. apply open_for_filled; [| |by apply Hol].
    + intros Heq. apply Hj. rewrite Heq. apply list_elem_of_fmap. eauto.
    + intros Heq. apply Hk. rewrite Heq. apply list_elem_of_fmap. eauto.
Qed.

Definition previewable_batch (db : session_db) (s : str) (events : list AuditEvent) : Prop :=
  (0 < length events <= MAX_BATCH_SIZE)%nat ∧ valid_session s ∧
  NoDup (map ae_job_id events) ∧ NoDup (map (key_of s) events) ∧
  Forall (previewable db) events ∧ Forall (open_for db s) events.

Lemma queue_previews_run context s events db :
  previewable_batch db s events → writable _verify_session_db db →
  is_ok (validate_external_context context) = true →
  queue_previews context s events db =
    (Ok (map (preview_outcome db s) events), fill_outbox s events db).
Proof.
  intros (Hlen & Hs & Hnd & Hk & Hpv & Ho) [Hver Hlock] [ctx Hctx]%is_ok_true.
  destruct (write_previews_succeed s events ∅ db Hnd Hk Hpv Ho) as (w & db' & Hw).
  eapply queue_previews_runs; [done..| |done|].
  - unfold check_preview_batch, _check_session_id, check_session_id.
    rewrite (proj2 (Nat.eqb_neq _ 0)), (proj2 (Nat.ltb_ge _ _)) by lia.
    rewrite Hctx. cbn [raise_if mbind result_bind map_err].
    rewrite (proj2 (check_pattern_Ok _ _ _ s s eq_refl) (conj eq_refl Hs)).
    cbn [mbind result_bind]. by rewrite Hver.
  - unfold preview_body, mbind, M_bind, get, lift.
    rewrite (proj2 (plan_previews_iff db s events _ Hs)) by done. exact Hw.
Qed.

(** A batch of stored events, of distinct jobs with distinct payload digests,
    none of whose jobs was previewed under another payload, is previewed. *)
Theorem queue_previews_succeeds context s events db :
  previewable_batch db s events → writable _verify_session_db db →
  is_ok (validate_external_context context) = true →
  queue_previews context s events db =
    (Ok (map (preview_outcome db s) events), fill_outbox s events db).
Proof. apply queue_previews_run. Qed.

Lemma fill_outbox_present s events db :
  Forall (λ e, dry_run_outbox db !! key_of s e = Some (row_of s e)) events →
  fill_outbox s events db = db.
Proof.
  intros Hl. unfold fill_outbox, fill.
  enough (foldl (λ m e, <[key_of s e := row_of s e]> m) (dry_run_outbox db) events =
    dry_run_outbox db) as -> by by destruct db.
  induction Hl as [|e l He _ IH]; [done|]. simpl. by rewrite insert_id.
Qed.

(** C33: Submitting the same events again under the same session, in any later
    context, changes nothing and reports every row as a duplicate. *)
Theorem queue_previews_idempotent context context' s events db out db' :
  queue_previews context s events db = (Ok out, db') →
  (0 < length events <= MAX_BATCH_SIZE)%nat → NoDup (map (key_of s) events) →
  writable _verify_session_db db' → valid_session s →
  is_ok (validate_external_context context') = true →
  queue_previews context' s events db' = (Ok (map (mark_preview false true) out), db').
Proof.
  intros Hrun Hlen Hk Hw Hs Hctx.
  pose proof (queue_previews_extends _ _ _ _ _ _ Hrun) as Hext.
  apply queue_previews_Ok in Hrun as (Hnd & Hpv & _ & -> & _ & Hst).
  assert (previewable_batch db' s events) as Hb.
  { do 4 (split; [done|]). split.
    - eapply Forall_impl; [exact Hpv|]. intros e. by apply previewable_extends.
    - eapply Forall_impl; [exact Hst|]. intros e He. by left. }
  rewrite queue_previews_run by done. rewrite fill_outbox_present by done. f_equal.
  f_equal. rewrite map_map. apply map_ext_Forall. eapply Forall_impl; [exact Hst|].
  intros e He. cbn beta. unfold preview_outcome. rewrite He.
  by destruct (dry_run_outbox db !! key_of s e).
Qed.

(** ** Concrete runs *)

Definition sample_session : str := u "session:1".

Definition sample_previewed : session_db :=
  (queue_previews sample_context sample_session sample_events sample_audited).2.
Definition sample_rows : list PreviewRow :=
  [mark_preview true false (preview_of sample_session (event_of (expected_result sample_job)))].

Lemma sample_previewed_ok :
  queue_previews sample_context sample_session sample_events sample_audited =
    (Ok sample_rows, sample_previewed).
Proof. vm_compute. reflexivity. Qed.

Lemma sample_session_valid : valid_session sample_session.
Proof.
  eapply check_preview_batch_Ok.
  instantiate (2 := sample_audited). instantiate (2 := sample_events).
  instantiate (2 := sample_context). vm_compute. reflexivity.
Qed.

Lemma queue_previews_refines_witness :
  NoDup (map ae_job_id sample_events) ∧ Forall (previewable sample_audited) sample_events ∧
  sample_rows = map (preview_outcome sample_audited sample_session) sample_events ∧
  sample_previewed = fill_outbox sample_session sample_events sample_audited ∧
  Forall (λ e, dry_run_outbox sample_previewed !! key_of sample_session e =
               Some (row_of sample_session e)) sample_events.
Proof. exact (queue_previews_refines _ _ _ _ _ _ sample_previewed_ok). Defined.

(** An event that was never audited. *)
Lemma sample_unaudited :
  queue_previews sample_context sample_session sample_events sample_evaluated =
    (Err OutboxConsistencyError, sample_evaluated).
Proof. vm_compute. reflexivity. Qed.

Lemma queue_previews_atomic_append_only_witness :
  (false = false → sample_evaluated = sample_evaluated) ∧
  extends sample_evaluated sample_evaluated.
Proof. exact (queue_previews_atomic_append_only _ _ _ _ _ _ sample_unaudited). Defined.

Lemma queue_previews_succeeds_conditions :
  previewable_batch sample_audited sample_session sample_events.
Proof.
  split; [vm_compute; lia|]. split; [exact sample_session_valid|].
  pose proof (queue_previews_Ok _ _ _ _ _ _ sample_previewed_ok) as (Hnd & Hpv & _).
  split; [exact Hnd|]. split; [apply NoDup_singleton|]. split; [exact Hpv|].
  constructor; [|constructor]. right. split; [vm_compute; reflexivity|].
  intros k r. vm_compute. discriminate.
Qed.

Lemma queue_previews_succeeds_witness :
  queue_previews sample_context sample_session sample_events sample_audited =
    (Ok (map (preview_outcome sample_audited sample_session) sample_events),
     fill_outbox sample_session sample_events sample_audited).
Proof.
  apply queue_previews_succeeds; [exact queue_previews_succeeds_conditions| |reflexivity].
  split; vm_compute; reflexivity.
Defined.

Lemma queue_previews_idempotent_witness :
  queue_previews sample_context sample_session sample_events sample_previewed =
    (Ok (map (mark_preview false true) sample_rows), sample_previewed).
Proof.
  apply (queue_previews_idempotent sample_context sample_context sample_session
    sample_events sample_audited).
  - exact sample_previewed_ok.
  - vm_compute. lia.
  - apply NoDup_singleton.
  - split; vm_compute; reflexivity.
  - exact sample_session_valid.
  - reflexivity.
Defined.

Lemma outbox_wf_empty db : dry_run_outbox db = ∅ → outbox_wf db.
Proof. unfold outbox_wf. intros ->. by split; intros k *; rewrite lookup_empty. Qed.

Lemma sample_audited_outbox_wf : outbox_wf sample_audited.
Proof. apply outbox_wf_empty. vm_compute. reflexivity. Qed.

Lemma queue_previews_wf_witness : outbox_wf sample_previewed.
Proof. exact (queue_previews_wf _ _ _ _ _ _ sample_previewed_ok sample_audited_outbox_wf). Defined.

(** The same job under another session. *)
Lemma queue_previews_conflict_witness :
  ∃ err, queue_previews sample_context (u "session:2") sample_events sample_previewed =
    (Err err, sample_previewed).
Proof.
  apply (queue_previews_conflict sample_context (u "session:2") sample_events sample_previewed
    (key_of sample_session (event_of (expected_result sample_job)))
    (row_of sample_session (event_of (expected_result sample_job)))
    (mark true false (event_of (expected_result sample_job)))).
  - exact (queue_previews_keeps_wf _ _ _ _ _ _ sample_previewed_ok sample_audited_outbox_wf).
  - vm_compute. reflexivity.
  - apply elem_of_cons. by left.
  - reflexivity.
  - vm_compute. discriminate.
Defined.
