(* ===== verification/Pipeline.v ===== *)
(** * Pipeline: recovery, audit and outbox over one session database.

    The three slices only meet in the tables.  This file states what holds of
    every database they can produce, and that a batch of well-formed
    observations goes through all three. *)
From S2P Require Import Prelude Text Sha256 Json Calendar Timestamps SessionDb Fields.
From S2P Require Import Recovery AuditTrail Outbox.
Local Open Scope Z_scope.

(** ** The combined invariant *)

(** Each evaluation input is the record of a valid job at least 300 s old. *)
Definition eval_wf (db : session_db) : Prop :=
  ∀ k row, evaluation_inputs db !! k = Some row →
    ∃ job, valid_job job ∧ recorded job = true ∧ job_id job = k ∧ row = expected_row job.

Definition session_wf (db : session_db) : Prop :=
  eval_wf db ∧ audit_wf db ∧ outbox_wf db.

(** One call of one of the three slices, whether it returned or raised. *)
Inductive session_step : session_db → session_db → Prop :=
  | step_recovery context inputs db r db' :
      evaluate_batch context inputs db = (r, db') → session_step db db'
  | step_audit context results db r db' :
      audit_observations context results db = (r, db') → session_step db db'
  | step_outbox context session_id events db r db' :
      queue_previews context session_id events db = (r, db') → session_step db db'.

Inductive session_reachable (db0 : session_db) : session_db → Prop :=
  | reach_refl : session_reachable db0 db0
  | reach_step db db' :
      session_reachable db0 db → session_step db db' → session_reachable db0 db'.

(** The freshly created schema: no rows. *)
Definition empty_session (db : session_db) : Prop :=
  evaluation_inputs db = ∅ ∧ audit_events db = [] ∧ dry_run_outbox db = ∅.

Lemma empty_session_wf db : empty_session db → session_wf db.
Proof.
  intros (He & Ha & Ho). split; [|split].
  - intros k row. rewrite He. by rewrite lookup_empty.
  - by apply audit_wf_empty.
  - by apply outbox_wf_empty.
Qed.

Lemma eval_wf_record db inputs :
  NoDup (map job_id inputs) → Forall valid_job inputs → eval_wf db →
  eval_wf (set_evaluation_inputs (record_rows inputs (evaluation_inputs db)) db).
Proof.
  intros Hnd Hv Hwf k row. cbn [evaluation_inputs set_evaluation_inputs].
  rewrite record_rows_lookup by done. destruct (List.find _ inputs) as [job|] eqn:Hf; [|apply Hwf].
  intros [= <-]. apply find_some in Hf as [Hin Hk]. apply andb_true_iff in Hk as [Hk Hr].
  apply bool_decide_eq_true in Hk. rewrite Forall_forall in Hv.
  exists job. split; [|done]. by apply Hv, list_elem_of_In.
Qed.

Lemma audit_wf_extends db db' :
  extends db db' → audit_events db' = audit_events db → audit_wf db → audit_wf db'.
Proof.
  intros Hext Ha [Hnd Hrows]. split; rewrite Ha; [done|].
  intros row Hrow. destruct (Hrows row Hrow) as (r & Hv & Hm & ->).
  exists r. split; [done|]. split; [|done].
  eapply matches_input_extends; [apply Hext|done].
Qed.

Lemma outbox_wf_extends db db' :
  extends db db' → dry_run_outbox db' = dry_run_outbox db → outbox_wf db → outbox_wf db'.
Proof.
  intros Hext Ho [Hprev Hone]. split; rewrite Ho; [|done].
  intros k row Hk. destruct (Hprev k row Hk) as (s & e & Hs & He & -> & ->).
  exists s, e. split; [done|]. split; [by eapply previewable_extends|done].
Qed.

Lemma evaluate_batch_extends context inputs : steps extends (evaluate_batch context inputs).
Proof. unfold evaluate_batch, commit_batch. eauto 20 with steps. Qed.
Lemma audit_observations_extends context results :
  steps extends (audit_observations context results).
Proof. unfold audit_observations, commit_audit. eauto 20 with steps. Qed.

Lemma session_step_extends db db' : session_step db db' → extends db db'.
Proof.
  intros []; [by eapply evaluate_batch_extends|by eapply audit_observations_extends|].
  by eapply queue_previews_extends.
Qed.

(** Each call writes one table only. *)
Lemma session_step_tables db db' :
  session_step db db' →
  (audit_events db' = audit_events db ∨ evaluation_inputs db' = evaluation_inputs db ∧
    dry_run_outbox db' = dry_run_outbox db).
Proof.
  intros [c i db1 [rs|e] db2 Hr|c i db1 [rs|e] db2 Hr|c s i db1 [rs|e] db2 Hr].
  - apply evaluate_batch_Ok in Hr as (_ & _ & _ & _ & ->). by left.
  - apply evaluate_batch_Err in Hr as ->. by left.
  - apply audit_observations_Ok in Hr as (_ & _ & _ & _ & _ & ->). by right.
  - apply audit_observations_Err in Hr as ->. by left.
  - apply queue_previews_Ok in Hr as (_ & _ & _ & _ & -> & _). by left.
  - apply queue_previews_Err in Hr as ->. by left.
Qed.

Lemma session_step_wf db db' : session_step db db' → session_wf db → session_wf db'.
Proof.
  intros Hs (He & Ha & Ho). pose proof (session_step_extends db db' Hs) as Hext.
  destruct Hs as [c i db [rs|e] db' Hr|c i db r db' Hr|c s i db r db' Hr].
  - apply evaluate_batch_Ok in Hr as (Hnd & Hv & _ & _ & ->). split; [|split].
    + by apply eval_wf_record.
    + by eapply audit_wf_extends.
    + by eapply outbox_wf_extends.
  - apply evaluate_batch_Err in Hr as ->. by split.
  - assert (evaluation_inputs db' = evaluation_inputs db ∧ dry_run_outbox db' = dry_run_outbox db)
      as [Hev Hob].
    { destruct r as [out|e].
      - by apply audit_observations_Ok in Hr as (_ & _ & _ & _ & _ & ->).
      - by apply audit_observations_Err in Hr as ->. }
    split; [|split].
    + unfold eval_wf. by rewrite Hev.
    + by eapply audit_observations_keeps_wf.
    + by eapply outbox_wf_extends.
  - assert (evaluation_inputs db' = evaluation_inputs db ∧ audit_events db' = audit_events db)
      as [Hev Hau].
    { destruct r as [out|e].
      - by apply queue_previews_Ok in Hr as (_ & _ & _ & _ & -> & _).
      - by apply queue_previews_Err in Hr as ->. }
    split; [|split].
    + unfold eval_wf. by rewrite Hev.
    + by eapply audit_wf_extends.
    + by eapply queue_previews_keeps_wf.
Qed.

Lemma session_reachable_wf db0 db : session_reachable db0 db → session_wf db0 → session_wf db.
Proof. induction 1; eauto using session_step_wf. Qed.

(** ** Every preview is traceable *)

(** C2: In a database the three slices produced from the empty schema, every outbox
    row previews the event of the job it names: the job was valid and at least
    300 s old, its evaluation input and its one audit event are stored, the
    result is that of its age, and the row is inert. *)
Theorem preview_traceable db0 db k row :
  empty_session db0 → session_reachable db0 db → dry_run_outbox db !! k = Some row →
  ∃ job a, valid_job job ∧ 300 <= age_seconds job ∧
    evaluation_inputs db !! or_job_id row = Some (expected_row job) ∧
    a ∈ audit_events db ∧ ar_job_id a = or_job_id row ∧
    ar_event_sha256 a = or_event_sha256 row ∧ ar_input_sha256 a = expected_sha job ∧
    job_id job = or_job_id row ∧ evaluation_utc job = or_evaluation_utc row ∧
    age_seconds job = or_age_seconds row ∧
    or_result_value row = (if 600 <=? age_seconds job then RESULT_STALE else RESULT_EXPIRED) ∧
    or_state row = DRY_RUN_STATE ∧ or_credential_free row = 1 ∧ or_delivery_evidence row = 0.
Proof.
  intros H0 Hr Hk.
  pose proof (session_reachable_wf _ _ Hr (empty_session_wf _ H0)) as (He & [_ Ha] & [Ho _]).
  destruct (Ho k row Hk) as (s & e & _ & (Hv & Hp & irow & Hi & Hij & Hia & Hix & _ & Hit) & -> & _).
  destruct (He _ _ Hi) as (job & Hvj & Hrec & Hj & ->).
  apply canonical_input_json_inj in Hit.
  unfold persisted_event, audit_row_at in Hp. apply find_some in Hp as [Hin _].
  apply list_elem_of_In in Hin. destruct (Ha _ Hin) as (r & Hvr & _ & Her).
  assert (evaluation_utc job = ae_evaluation_utc e) as Heu by (rewrite Hit; done).
  unfold recorded in Hrec. apply Z.leb_le in Hrec.
  exists job, (audit_row_of e). do 2 (split; [done|]). split; [exact Hi|].
  split; [exact Hin|]. do 2 (split; [done|]). split; [exact (eq_sym Hix)|].
  split; [exact Hij|]. split; [exact Heu|]. split; [exact Hia|].
  assert (or_result_value (row_of s e) = ar_result_value (audit_row_of e)) as -> by done.
  assert (age_seconds job = ar_age_seconds (audit_row_of e)) as -> by exact Hia.
  rewrite Her. done.
Qed.

(** ** A batch goes through *)

(** The schema that [schema.py] creates, with no writer. *)
Definition v1_session (db : session_db) : Prop :=
  user_version db = 1 ∧ write_locked db = false ∧
  tables db !! u "evaluation_inputs" = Some EVALUATION_INPUTS_COLUMNS ∧
  tables db !! u "audit_events" = Some AUDIT_EVENTS_COLUMNS ∧
  tables db !! u "dry_run_outbox" = Some DRY_RUN_OUTBOX_COLUMNS.

Lemma v1_session_extends db db' : extends db db' → v1_session db → v1_session db'.
Proof.
  intros (_ & _ & _ & Hv & Ht & Hl & _). unfold v1_session. by rewrite Hv, Ht, Hl.
Qed.

Lemma v1_writable db :
  v1_session db →
  has_columns "evaluation_inputs" EVALUATION_INPUTS_COLUMNS db = true ∧
  writable AuditTrail._verify_session_db db ∧ writable Outbox._verify_session_db db.
Proof.
  intros (Hv & Hl & He & Ha & Ho). unfold writable, AuditTrail._verify_session_db,
    Outbox._verify_session_db, has_columns. rewrite Hv, Hl, He, Ha, Ho. done.
Qed.

(** The job's timestamps are texts the program prints. *)
Definition well_timed (job : JobInput) : Prop :=
  ∃ tr te, instant tr ∧ instant te ∧
    (reference_utc job = format_utc_z tr ∨ reference_utc job = utc_now_iso tr) ∧
    (evaluation_utc job = format_utc_z te ∨ evaluation_utc job = utc_now_iso te).

Lemma stamp_length t : length (stamp t) = 19%nat.
Proof.
  unfold stamp, date_text, time_text. destruct (civil_from_days _) as [[y m] d].
  repeat progress (rewrite ?length_app, ?pad_length; simpl length). done.
Qed.

Lemma stamp_prefix t s :
  s = format_utc_z t ∨ s = utc_now_iso t → ∃ rest, s = stamp t ++ rest.
Proof. intros [-> | ->]; unfold format_utc_z, utc_now_iso; eauto. Qed.

(** Printed texts of different seconds are ordered as their seconds. *)
Lemma printed_order tr te a b :
  instant tr → instant te → tr / 1000000 < te / 1000000 →
  str_ltb (stamp te ++ b) (stamp tr ++ a) = false.
Proof.
  intros Hr He Hlt. apply str_ltb_asym. rewrite str_ltb_app by by rewrite !stamp_length.
  pose proof (format_utc_z_ltb tr te Hr He) as Hz. rewrite (proj2 (Z.ltb_lt _ _) Hlt) in Hz.
  unfold format_utc_z in Hz. rewrite str_ltb_app in Hz by by rewrite !stamp_length.
  rewrite str_ltb_irrefl, andb_false_r, orb_false_r in Hz. by rewrite Hz.
Qed.

Lemma printed_seconds t s :
  instant t → s = format_utc_z t ∨ s = utc_now_iso t →
  parse_canonical_utc_to_seconds s = Ok (t / 1000000).
Proof.
  intros Ht Hs. destruct Hs as [-> | ->]; unfold format_utc_z, utc_now_iso;
    eapply parse_stamp; eauto.
Qed.

Lemma observed_sha job :
  recorded job = true → r_input_sha256 (expected_result job) = expected_sha job.
Proof. intros Hrec. unfold expected_result. by rewrite Hrec. Qed.

Lemma observed_text job :
  canonical_input_json_for_result (expected_result job) = canonical_input_json job.
Proof. unfold canonical_input_json_for_result. by destruct job. Qed.

Section observed_job.
Context (job : JobInput).
Hypotheses (Hvalid : valid_job job) (Htimed : well_timed job) (Hrec : recorded job = true).

Lemma observed_auditable : auditable (expected_result job).
Proof.
  unfold auditable, expected_result, recorded in *. cbn [r_result].
  rewrite (proj2 (Z.ltb_ge _ _)) by lia. by destruct (_ <? 600).
Qed.

Lemma observed_valid : valid_result (expected_result job).
Proof.
  destruct Hvalid as (r & e & Hj & Hs & Hlr & Hle & Hpr & Hpe & Hage & Hb).
  destruct Htimed as (tr & te & Htr & Hte & Hr & He).
  rewrite (printed_seconds tr) in Hpr by done. rewrite (printed_seconds te) in Hpe by done.
  injection Hpr as <-. injection Hpe as <-.
  apply stamp_prefix in Hr as [a Ha], He as [b Hb'].
  assert (300 <= age_seconds job) as Hold by by apply Z.leb_le.
  unfold valid_result. rewrite observed_sha by exact Hrec.
  unfold expected_result. cbn [r_job_id r_source_state r_reference_utc r_evaluation_utc r_age_seconds].
  split; [done|]. split; [done|].
  split; [split; [rewrite Ha, length_app, stamp_length; lia|done]|].
  split; [split; [rewrite Hb', length_app, stamp_length; lia|done]|].
  split; [rewrite Ha, Hb'; apply printed_order; try done; lia|].
  split; [apply sha256_over_class|lia].
Qed.
End observed_job.

Lemma audited_expected inputs :
  audited (map expected_result inputs) =
    map expected_result (filter (λ job, recorded job = true) inputs).
Proof.
  unfold audited. induction inputs as [|job l IH]; [done|].
  cbn [map]. rewrite !filter_cons. destruct (decide (recorded job = true)) as [Hr|Hr].
  - rewrite decide_True by by apply observed_auditable. cbn [map]. by rewrite IH.
  - rewrite decide_False; [done|]. intros Ha. apply Ha.
    unfold expected_result, recorded in *. cbn [r_result].
    apply not_true_iff_false, Z.leb_gt in Hr. by rewrite (proj2 (Z.ltb_lt _ _)).
Qed.

Lemma valid_job_in_range job : valid_job job → age_seconds job <= INT64_MAX.
Proof. intros (r & e & _ & _ & _ & _ & _ & _ & _ & _ & Hb). exact Hb. Qed.

(** The event of an observed job is valid. *)
Lemma observed_event_valid r : valid_result r → valid_event (event_of r).
Proof.
  intros (Hj & _ & _ & He & _ & Hx & Hage). unfold valid_event.
  split; [exact Hj|]. split; [exact He|].
  change (ae_age_seconds (event_of r)) with (r_age_seconds r).
  split; [lia|]. split; [exact Hx|].
  change (ae_event_sha256 (event_of r)) with (sha256 (canonical_event_json (event_of r))).
  split; [apply sha256_over_class|].
  change (ae_event_kind (event_of r)) with
    (if 600 <=? r_age_seconds r then STALE_OBSERVED else EXPIRED_OBSERVED).
  change (ae_result_value (event_of r)) with
    (if 600 <=? r_age_seconds r then RESULT_STALE else RESULT_EXPIRED).
  destruct (600 <=? r_age_seconds r); [by right|by left].
Qed.

Lemma find_unique {A} (f : A → bool) l x :
  x ∈ l → f x = true → (∀ y, y ∈ l → f y = true → y = x) → List.find f l = Some x.
Proof.
  intros Hx Hf Hu. destruct (List.find f l) as [y|] eqn:Hy.
  - apply find_some in Hy as [Hin Hfy]. f_equal. apply Hu; [|done]. by apply list_elem_of_In.
  - eapply find_none in Hy; [|by apply list_elem_of_In]. congruence.
Qed.

(** Distinct jobs have distinct payload digests, or SHA-256 collides. *)
Lemma key_of_clash s a b :
  key_of s a = key_of s b →
  ae_job_id a = ae_job_id b ∨
  collision (canonical_payload_json a s) (canonical_payload_json b s).
Proof.
  intros [Ht|Hc]%sha256_eq; [left|by right].
  unfold canonical_payload_json in Ht. apply canonical_inj in Ht.
  - destruct a, b. vm_compute in Ht. by simplify_eq.
  - solve_plain.
  - solve_plain.
Qed.

Lemma job_of_expected job : r_job_id (expected_result job) = job_id job.
Proof. done. Qed.

(** What the first two calls leave for the third. *)
Section fresh_session.
Context (db : session_db) (inputs : list JobInput).
Hypotheses (Hempty : empty_session db) (Hnd : NoDup (map job_id inputs))
  (Hvalid : Forall valid_job inputs) (Htimed : Forall well_timed inputs).

Let db1 := set_evaluation_inputs (record_rows inputs (evaluation_inputs db)) db.
Let observed := filter (λ job, recorded job = true) inputs.
Let rs := map expected_result observed.
Let db2 := append_audit (added_rows db1 rs) db1.

Lemma observed_spec job :
  job ∈ observed → recorded job = true ∧ job ∈ inputs ∧ valid_job job ∧ well_timed job.
Proof.
  intros [Hr Hin]%list_elem_of_filter. rewrite Forall_forall in Hvalid, Htimed. auto.
Qed.

Lemma result_spec r : r ∈ rs → ∃ job, job ∈ observed ∧ r = expected_result job.
Proof. intros (job & -> & Hj)%list_elem_of_fmap. eauto. Qed.

Lemma observed_row job :
  job ∈ observed → evaluation_inputs db1 !! job_id job = Some (expected_row job).
Proof.
  intros [Hr Hin]%list_elem_of_filter. cbn [db1 set_evaluation_inputs evaluation_inputs].
  rewrite record_rows_lookup by done.
  rewrite (find_unique _ inputs job); [done|done| |].
  - by rewrite bool_decide_eq_true_2, Hr.
  - intros y Hy [Hj _]%andb_true_iff. apply bool_decide_eq_true in Hj.
    by apply (NoDup_map_inj job_id inputs).
Qed.

Lemma observed_matches r : r ∈ rs → matches_input db1 r.
Proof.
  intros (job & Hj & ->)%result_spec. exists (expected_row job).
  split; [by apply observed_row|]. destruct (observed_spec job Hj) as (Hr & _).
  rewrite observed_text, (observed_sha job) by exact Hr. done.
Qed.

Lemma observed_results_valid r : r ∈ rs → valid_result r.
Proof.
  intros (job & (Hr & _ & Hv & Ht)%observed_spec & ->)%result_spec.
  by apply observed_valid.
Qed.

Lemma observed_results_NoDup : NoDup (map r_job_id rs).
Proof. unfold rs. rewrite map_map. by apply (NoDup_map_filter job_id). Qed.

Lemma never_audited job : last_event db1 job = None.
Proof. apply last_event_None. destruct Hempty as (_ & Ha & _). cbn. rewrite Ha. set_solver. Qed.

Lemma added_all : added_rows db1 rs = map (λ r, audit_row_of (event_of r)) rs.
Proof.
  unfold added_rows. f_equal. generalize rs as l. induction l as [|r l IH]; [done|].
  rewrite filter_cons, decide_True by apply never_audited. by rewrite IH.
Qed.

Lemma outcome_new r : outcome db1 r = mark true false (event_of r).
Proof. unfold outcome. by rewrite never_audited. Qed.

Lemma audit_row_found r :
  r ∈ rs → persisted_event db2 (mark true false (event_of r)).
Proof.
  intros Hr. unfold persisted_event, audit_row_at. apply find_unique.
  - unfold db2, append_audit. cbn [set_audit_events audit_events].
    rewrite added_all. apply elem_of_app. right. apply list_elem_of_fmap. eauto.
  - by apply bool_decide_eq_true_2.
  - intros y Hy [_ Hj]%bool_decide_eq_true. revert Hy.
    unfold db2, append_audit. cbn [set_audit_events audit_events].
    destruct Hempty as (_ & Ha & _). cbn [db1 set_evaluation_inputs audit_events].
    rewrite Ha, added_all. intros (r' & -> & Hr')%list_elem_of_fmap.
    change (r_job_id r' = r_job_id r) in Hj.
    assert (r' = r) as -> by (by apply (NoDup_map_inj r_job_id rs); [apply observed_results_NoDup|..]).
    done.
Qed.

Lemma event_previewable r : r ∈ rs → previewable db2 (mark true false (event_of r)).
Proof.
  intros Hr. split; [by apply observed_event_valid, observed_results_valid|].
  split; [by apply audit_row_found|].
  apply result_spec in Hr as (job & Hj & ->).
  destruct (observed_spec job Hj) as (Hrec & _).
  exists (expected_row job). split; [by apply observed_row|].
  split; [done|]. split; [done|]. split; [symmetry; by apply observed_sha|].
  split; [done|]. by destruct job.
Qed.
End fresh_session.

(** An empty outbox, filled with the rows of events of distinct keys. *)
Lemma fresh_outbox s events db n :
  dry_run_outbox db = ∅ → NoDup (map (key_of s) events) → length events = n →
  let db' := fill_outbox s events db in
  (∀ k row, dry_run_outbox db' !! k = Some row ↔
     ∃ e, e ∈ events ∧ k = key_of s e ∧ row = row_of s e) ∧
  size (dry_run_outbox db') = n ∧
  evaluation_inputs db' = evaluation_inputs db ∧ audit_events db' = audit_events db.
Proof.
  intros Hout Hnd Hn db'. unfold db', fill_outbox.
  cbn [set_dry_run_outbox dry_run_outbox evaluation_inputs audit_events]. rewrite Hout.
  split; [|split; [|done]].
  - intros k row. by apply fill_empty_iff.
  - by rewrite fill_size, map_size_empty.
Qed.

(** C1: Well-formed observations, some at least 300 s old, go through a fresh
    session: they are evaluated, exactly the old ones are audited, in order,
    and each audited event is previewed as a new row, unless SHA-256 gives two
    payloads of the batch one digest.  The outbox then holds the row of each
    event under its own key and nothing else, one row per old observation, and
    the inputs and the audit trail are as the two earlier slices left them. *)
Theorem pipeline_delivers c1 c2 c3 s db inputs :
  empty_session db → v1_session db → valid_session s →
  (length inputs <= MAX_BATCH_SIZE)%nat → NoDup (map job_id inputs) →
  Forall valid_job inputs → Forall storable inputs → Forall well_timed inputs →
  (∃ job, job ∈ inputs ∧ recorded job = true) →
  Forall (λ c, is_ok (validate_external_context c) = true) [c1; c2; c3] →
  let observed := filter (λ job, recorded job = true) inputs in
  ∃ db1 db2 events,
    evaluate_batch c1 inputs db = (Ok (map expected_result inputs), db1) ∧
    audit_observations c2 (map expected_result inputs) db1 = (Ok events, db2) ∧
    map ae_job_id events = map job_id observed ∧
    ((∃ a b, a ∈ events ∧ b ∈ events ∧
        collision (canonical_payload_json a s) (canonical_payload_json b s)) ∨
     ∃ db3, queue_previews c3 s events db2 =
         (Ok (map (λ e, mark_preview true false (preview_of s e)) events), db3) ∧
       (∀ k row, dry_run_outbox db3 !! k = Some row ↔
          ∃ e, e ∈ events ∧ k = key_of s e ∧ row = row_of s e) ∧
       size (dry_run_outbox db3) = length observed ∧
       evaluation_inputs db3 = evaluation_inputs db1 ∧ audit_events db3 = audit_events db2).
Proof.
  intros Hempty Hv1 Hs Hlen Hnd Hv Hst Ht [job0 [Hin0 Hrec0]] [Hc1 [Hc2 [Hc3 _]%Forall_cons_1]%Forall_cons_1]%Forall_cons_1 observed.
  set (db1 := set_evaluation_inputs (record_rows inputs (evaluation_inputs db)) db).
  set (rs := map expected_result observed).
  set (db2 := append_audit (added_rows db1 rs) db1).
  assert (job0 ∈ observed) as Hobs0 by by apply list_elem_of_filter.
  assert (0 < length observed)%nat as Hposo by
    (apply list_elem_of_lookup_1 in Hobs0 as [i Hi]; apply lookup_lt_Some in Hi; lia).
  assert (length observed <= length inputs)%nat as Hlen'
    by apply sublist_length, sublist_filter.
  assert (∀ r, outcome db1 r = mark true false (event_of r)) as Hnew
    by (intros r; by apply (outcome_new db inputs)).
  exists db1, db2, (map (outcome db1) rs).
  assert (evaluate_batch c1 inputs db = (Ok (map expected_result inputs), db1)) as He.
  { destruct (v1_writable db Hv1) as (Hcols & _).
    destruct (evaluate_batch_runs c1 inputs db) as [db' Hrun]; try done; try apply Hv1; try lia.
    - intros job _. destruct Hempty as (-> & _). apply lookup_empty.
    - rewrite Hrun. by apply evaluate_batch_Ok in Hrun as (_ & _ & _ & _ & ->). }
  pose proof (evaluate_batch_extends _ _ _ _ _ He) as Hx1.
  pose proof (v1_session_extends _ _ Hx1 Hv1) as Hv1'.
  destruct (v1_writable db1 Hv1') as (_ & Hw1 & _).
  assert (auditable_batch db1 (map expected_result inputs)) as Hbatch.
  { unfold auditable_batch. rewrite audited_expected, length_map. fold observed rs.
    split; [lia|]. split; [by apply observed_results_NoDup|].
    rewrite !Forall_forall. split; [by apply observed_results_valid|].
    split; [by apply observed_matches|]. split; [intros r _; left; by apply never_audited|].
    intros r (job & -> & [Hr _]%list_elem_of_filter)%list_elem_of_fmap.
    rewrite observed_sha by done. apply sql_hex64_sha256. }
  assert (audit_observations c2 (map expected_result inputs) db1 =
    (Ok (map (outcome db1) rs), db2)) as Ha.
  { rewrite audit_observations_runs by done. by rewrite audited_expected. }
  split; [exact He|]. split; [exact Ha|].
  assert (map ae_job_id (map (outcome db1) rs) = map job_id observed) as Hjobs.
  { unfold rs. rewrite !map_map. apply map_ext. intros job.
    by rewrite Hnew. }
  split; [exact Hjobs|].
  assert (Forall (previewable db2) (map (outcome db1) rs)) as Hpv.
  { apply Forall_forall. intros e (r & -> & Hr)%list_elem_of_fmap.
    rewrite Hnew. by apply event_previewable. }
  assert (NoDup (map ae_job_id (map (outcome db1) rs))) as Hnde
    by (rewrite Hjobs; by apply NoDup_map_filter).
  destruct (NoDup_map_or (key_of s) (map (outcome db1) rs)) as [Hk|(a & b & Ha' & Hb' & Hne & Hkey)].
  { by eapply NoDup_fmap_1. }
  2: { left. exists a, b. split; [done|]. split; [done|].
       apply key_of_clash in Hkey as [Hj|Hc]; [|done]. exfalso. apply Hne.
       by apply (NoDup_map_inj ae_job_id (map (outcome db1) rs)). }
  right. exists (fill_outbox s (map (outcome db1) rs) db2).
  pose proof (audit_observations_extends _ _ _ _ _ Ha) as Hx2.
  destruct (v1_writable db2 (v1_session_extends _ _ Hx2 Hv1')) as (_ & _ & Hw2).
  assert (dry_run_outbox db2 = ∅) as Hout by apply Hempty.
  assert (length (map (outcome db1) rs) = length observed) as Hlen3
    by (unfold rs; by rewrite !length_map).
  split; [|exact (fresh_outbox s _ db2 _ Hout Hk Hlen3)].
  rewrite queue_previews_run; [|split|done|done].
  - f_equal. f_equal. apply map_ext. intros e. unfold preview_outcome.
    by rewrite Hout, lookup_empty.
  - unfold rs. rewrite !length_map. lia.
  - do 4 (split; [done|]). apply Forall_forall. intros e _. right.
    rewrite Hout. split; [apply lookup_empty|]. intros k r. by rewrite lookup_empty.
Qed.

(** ** Concrete runs *)

Lemma v1_empty_session : empty_session v1_empty.
Proof. done. Qed.

Lemma sample_reachable : session_reachable v1_empty sample_previewed.
Proof.
  eapply reach_step; [|by eapply step_outbox, sample_previewed_ok].
  eapply reach_step; [|by eapply step_audit, sample_audited_ok].
  eapply reach_step; [apply reach_refl|by eapply step_recovery, sample_evaluated_ok].
Qed.

Lemma preview_traceable_witness :
  ∃ job a, valid_job job ∧ 300 <= age_seconds job ∧
    evaluation_inputs sample_previewed !! u "job-1" = Some (expected_row job) ∧
    a ∈ audit_events sample_previewed ∧ ar_job_id a = u "job-1" ∧
    ar_event_sha256 a = or_event_sha256 (_preview_row_values (preview_of sample_session
      (event_of (expected_result sample_job)))) ∧
    ar_input_sha256 a = expected_sha job ∧
    job_id job = u "job-1" ∧ evaluation_utc job = u "2026-01-01T00:10:00Z" ∧
    age_seconds job = 600 ∧
    RESULT_STALE = (if 600 <=? age_seconds job then RESULT_STALE else RESULT_EXPIRED) ∧
    DRY_RUN_STATE = DRY_RUN_STATE ∧ 1 = 1 ∧ 0 = 0.
Proof.
  apply (preview_traceable v1_empty sample_previewed
    (key_of sample_session (event_of (expected_result sample_job)))
    (row_of sample_session (event_of (expected_result sample_job)))).
  - exact v1_empty_session.
  - exact sample_reachable.
  - vm_compute. reflexivity.
Defined.

Lemma sample_well_timed : Forall well_timed sample_inputs.
Proof.
  constructor; [|constructor; [|constructor]].
  - exists 1767225600000000, 1767226200000000.
    split; [vm_compute; split; congruence|]. split; [vm_compute; split; congruence|].
    split; left; vm_compute; reflexivity.
  - exists 1767226140000000, 1767226200000000.
    split; [vm_compute; split; congruence|]. split; [vm_compute; split; congruence|].
    split; left; vm_compute; reflexivity.
Qed.

Lemma pipeline_delivers_witness :
  ∃ db1 db2 events,
    evaluate_batch sample_context sample_inputs v1_empty =
      (Ok (map expected_result sample_inputs), db1) ∧
    audit_observations sample_context (map expected_result sample_inputs) db1 =
      (Ok events, db2) ∧
    map ae_job_id events = [u "job-1"] ∧
    ((∃ a b, a ∈ events ∧ b ∈ events ∧
        collision (canonical_payload_json a sample_session)
                  (canonical_payload_json b sample_session)) ∨
     ∃ db3, queue_previews sample_context sample_session events db2 =
         (Ok (map (λ e, mark_preview true false (preview_of sample_session e)) events), db3) ∧
       (∀ k row, dry_run_outbox db3 !! k = Some row ↔
          ∃ e, e ∈ events ∧ k = key_of sample_session e ∧ row = row_of sample_session e) ∧
       size (dry_run_outbox db3) = 1%nat ∧
       evaluation_inputs db3 = evaluation_inputs db1 ∧ audit_events db3 = audit_events db2).
Proof.
  apply (pipeline_delivers sample_context sample_context sample_context sample_session
    v1_empty sample_inputs).
  - exact v1_empty_session.
  - split_and!; vm_compute; reflexivity.
  - exact sample_session_valid.
  - vm_compute. lia.
  - apply (bool_decide_eq_true_1 _). vm_compute. reflexivity.
  - apply Forall_forall. apply sample_valid.
  - repeat constructor.
  - exact sample_well_timed.
  - exists sample_job. split; [apply elem_of_cons; by left|reflexivity].
  - repeat constructor.
Defined.
