(* ===== verification/Investigation.v ===== *)
(** * Investigation: one bounded investigation per candidate.

    [scripts/news_pipeline/investigation.py] and the helpers of
    [live_contracts.py] it uses: the queue payload contract, the deterministic
    identity, and [persist_investigation], which writes the [investigations]
    table under a monotone state policy.  The lease of the worker lives in
    another database; [fence_check] is given by the outcome of each of its
    calls.  Messages of exceptions are left out. *)
From S2P Require Import Prelude Text Sha256 Json Calendar Timestamps.
Local Open Scope Z_scope.

(** The exceptions of the control plane. *)
Inductive py_error : Type :=
  | ValueError
  | UnknownKindError
  | DeliveryForbiddenError
  | ClaimMismatchError
  | PayloadConflictError
  | ControlStoreError
  | IntegrityError.

#[export] Instance py_error_eq_dec : EqDecision py_error.
Proof. solve_decision. Defined.

(** ** Identity *)

Definition CATEGORY_VALUES : list str :=
  map u ["ai"; "world"; "audio_engineering"; "hardware"; "fantasy_novel";
         "audiovisual"; "av_corporate"; "our_setup"].

(** [stable_id(parts, length=n)] for [1 <= n <= 64]. *)
Definition stable_id (parts : list (option str)) (length : nat) : str :=
  take length (sha256 (dumps false
    (JList (map (λ p, match p with Some s => JStr s | None => JNull end) parts)))).

Definition investigation_id (candidate_id feed_lane_id query_plan_id : str) : str :=
  stable_id [Some (u "investigation"); Some candidate_id; Some feed_lane_id;
             Some query_plan_id] 64.

Definition MAX_INVESTIGATION_ROUNDS : Z := 2.
Definition PENDING : str := u "pending".
Definition RUNNING : str := u "running".
Definition COMPLETE : str := u "complete".
Definition FAILED : str := u "failed".
Definition BLOCKED : str := u "blocked".
Definition INVESTIGATION_STATES : list str := [PENDING; RUNNING; COMPLETE; FAILED; BLOCKED].
Definition TERMINAL_STATES : list str := [COMPLETE; FAILED; BLOCKED].

(** [not value.strip()] *)
Definition blank (s : str) : bool := bool_decide (strip s = []).

Record InvestigationJob := mk_ijob
  { ij_investigation_id : str; ij_candidate_id : str; ij_feed_lane_id : str;
    ij_query_plan_id : str; ij_category : str; ij_round_number : Z; ij_state : str;
    ij_terminal_state : option str; ij_targeted_query_ids : list str;
    ij_created_at : str; ij_updated_at : str }.

#[export] Instance InvestigationJob_eq_dec : EqDecision InvestigationJob.
Proof. solve_decision. Defined.

Definition round_in_range (n : Z) : bool := (0 <=? n) && (n <? MAX_INVESTIGATION_ROUNDS).

(** [InvestigationJob.__post_init__] *)
Definition post_init (job : InvestigationJob) : result py_error unit :=
  let texts := [ij_investigation_id job; ij_candidate_id job; ij_feed_lane_id job;
                ij_query_plan_id job; ij_category job; ij_created_at job; ij_updated_at job] in
  let terminal := bool_decide (ij_state job ∈ TERMINAL_STATES) in
  _ ← raise_if (existsb blank texts) ValueError;
  _ ← raise_if (negb (bool_decide (ij_category job ∈ CATEGORY_VALUES))) ValueError;
  _ ← raise_if (negb (round_in_range (ij_round_number job))) ValueError;
  _ ← raise_if (negb (bool_decide (ij_state job ∈ INVESTIGATION_STATES))) ValueError;
  _ ← raise_if (terminal && negb (bool_decide (ij_terminal_state job = Some (ij_state job))))
        ValueError;
  _ ← raise_if (negb terminal && negb (bool_decide (ij_terminal_state job = None)))
        ValueError;
  _ ← raise_if (existsb blank (ij_targeted_query_ids job)) ValueError;
  raise_if (negb (bool_decide (NoDup (ij_targeted_query_ids job)))) ValueError.

Definition make_investigation_job (candidate_id feed_lane_id query_plan_id category
    evaluated_at : str) (round_number : Z) (state : str) (terminal_state : option str)
    (targeted_query_ids : list str) : result py_error InvestigationJob :=
  let job := mk_ijob (investigation_id candidate_id feed_lane_id query_plan_id)
    candidate_id feed_lane_id query_plan_id category round_number state terminal_state
    targeted_query_ids evaluated_at evaluated_at in
  _ ← post_init job; Ok job.

(** ** The queue payload *)

(** A [dict] with string keys, in insertion order. *)
Definition dict : Type := list (str * json).

Definition REQUIRED_FIELDS : list str :=
  map u ["investigation_id"; "candidate_id"; "feed_lane_id"; "query_plan_id";
         "category"; "round_number"].

Definition investigation_payload (job : InvestigationJob) : dict :=
  [(u "investigation_id", JStr (ij_investigation_id job));
   (u "candidate_id", JStr (ij_candidate_id job));
   (u "feed_lane_id", JStr (ij_feed_lane_id job));
   (u "query_plan_id", JStr (ij_query_plan_id job));
   (u "category", JStr (ij_category job));
   (u "round_number", JInt (ij_round_number job))].

(** [payload[key]] when it is a non-blank [str]. *)
Definition text_field (payload : dict) (key : str) : result py_error str :=
  match lookup_key key payload with
  | Some (JStr s) => _ ← raise_if (blank s) ValueError; Ok s
  | _ => Err ValueError
  end.

Definition validate_investigation_payload (payload : dict) : result py_error dict :=
  _ ← raise_if (existsb (λ k, negb (bool_decide (k ∈ REQUIRED_FIELDS))) payload.*1) ValueError;
  _ ← raise_if (existsb (λ k, negb (bool_decide (k ∈ payload.*1))) REQUIRED_FIELDS) ValueError;
  id ← text_field payload (u "investigation_id");
  candidate ← text_field payload (u "candidate_id");
  lane ← text_field payload (u "feed_lane_id");
  plan ← text_field payload (u "query_plan_id");
  category ← text_field payload (u "category");
  _ ← raise_if (negb (bool_decide (category ∈ CATEGORY_VALUES))) ValueError;
  _ ← match lookup_key (u "round_number") payload with
      | Some (JInt n) => raise_if (negb (round_in_range n)) ValueError
      | _ => Err ValueError
      end;
  _ ← raise_if (negb (bool_decide (id = investigation_id candidate lane plan))) ValueError;
  Ok payload.

(** ** The state database *)

Record lane_row := mk_lane
  { lane_source_item_id : str; lane_feed_lane_id : str; lane_query_plan_id : str;
    lane_category : str }.

(** A row of [investigations]; [ir_targeted_json] is the stored text. *)
Record investigation_row := mk_irow
  { ir_investigation_id : str; ir_candidate_id : str; ir_feed_lane_id : str;
    ir_query_plan_id : str; ir_category : str; ir_round_number : Z; ir_state : str;
    ir_terminal_state : option str; ir_targeted_json : str; ir_created_at : str;
    ir_updated_at : str }.

#[export] Instance investigation_row_eq_dec : EqDecision investigation_row.
Proof. solve_decision. Defined.

(** A row of [source_items]: its title, and the host name of its URL. *)
Record source_item := mk_item { item_title : option str; item_host : option str }.

Record state_db := mk_state_db
  { source_items : gmap str source_item;
    candidate_feed_lanes : list lane_row;
    investigations : gmap str investigation_row }.

Definition targeted_json (ids : list str) : str := dumps false (JList (map JStr ids)).

(** [tuple(json.loads(text))] *)
Definition load_targeted (text : str) : result py_error (list json) :=
  match loads text with
  | Some (JList l) => Ok l
  | Some (JObj l) => Ok (map (λ kv, JStr kv.1) l)
  | Some (JStr s) => Ok (map (λ c, JStr [c]) s)
  | _ => Err ValueError
  end.

(** [existing_targeted == job.targeted_query_ids] *)
Fixpoint same_ids (l : list json) (ids : list str) : bool :=
  match l, ids with
  | [], [] => true
  | JStr s :: l', id :: ids' => bool_decide (s = id) && same_ids l' ids'
  | _, _ => false
  end.

(** ** [persist_investigation] *)

Definition is_terminal (state : str) : bool := bool_decide (state ∈ TERMINAL_STATES).

(** [job.state in allowed.get(existing_state, frozenset())] *)
Definition allowed_within_round (existing_state state : str) : bool :=
  if bool_decide (existing_state = PENDING)
  then bool_decide (state ∈ PENDING :: RUNNING :: TERMINAL_STATES)
  else if bool_decide (existing_state = RUNNING)
  then bool_decide (state ∈ RUNNING :: TERMINAL_STATES)
  else false.

(** The policy for a job whose candidate has a row: [true] to write it,
    [false] for the replay of a terminal row. *)
Definition check_existing (existing : investigation_row) (job : InvestigationJob)
    : result py_error bool :=
  _ ← raise_if (negb (bool_decide (
        ir_investigation_id existing = ij_investigation_id job ∧
        ir_feed_lane_id existing = ij_feed_lane_id job ∧
        ir_query_plan_id existing = ij_query_plan_id job ∧
        ir_category existing = ij_category job))) ValueError;
  let existing_round := ir_round_number existing in
  let existing_state := ir_state existing in
  _ ← raise_if (ij_round_number job <? existing_round) ValueError;
  existing_targeted ← load_targeted (ir_targeted_json existing);
  if ij_round_number job =? existing_round then
    _ ← raise_if (negb (same_ids existing_targeted (ij_targeted_query_ids job))) ValueError;
    if is_terminal existing_state then
      _ ← raise_if (negb (bool_decide (ij_state job = existing_state ∧
            ij_terminal_state job = ir_terminal_state existing))) ValueError;
      Ok false
    else
      _ ← raise_if (negb (allowed_within_round existing_state (ij_state job))) ValueError;
      Ok true
  else
    _ ← raise_if (negb (ij_round_number job =? existing_round + 1) ||
          negb (bool_decide (existing_state ∈ [FAILED; BLOCKED])) ||
          negb (bool_decide (ij_state job ∈ [PENDING; RUNNING]))) ValueError;
    Ok true.

Definition row_of_job (job : InvestigationJob) (created_at : str) : investigation_row :=
  mk_irow (ij_investigation_id job) (ij_candidate_id job) (ij_feed_lane_id job)
    (ij_query_plan_id job) (ij_category job) (ij_round_number job) (ij_state job)
    (ij_terminal_state job) (targeted_json (ij_targeted_query_ids job)) created_at
    (ij_updated_at job).

(** [ON CONFLICT(candidate_id) DO UPDATE SET round_number, state,
    terminal_state, targeted_query_ids_json, updated_at] *)
Definition updated_row (old : investigation_row) (job : InvestigationJob) : investigation_row :=
  mk_irow (ir_investigation_id old) (ir_candidate_id old) (ir_feed_lane_id old)
    (ir_query_plan_id old) (ir_category old) (ij_round_number job) (ij_state job)
    (ij_terminal_state job) (targeted_json (ij_targeted_query_ids job)) (ir_created_at old)
    (ij_updated_at job).

Definition set_investigations (t : gmap str investigation_row) (db : state_db) : state_db :=
  mk_state_db (source_items db) (candidate_feed_lanes db) t.

(** Another candidate holds the primary key. *)
Definition investigation_id_taken (db : state_db) (job : InvestigationJob) : bool :=
  existsb (λ kv, bool_decide (ir_investigation_id kv.2 = ij_investigation_id job))
    (map_to_list (investigations db)).

Definition upsert_investigation (job : InvestigationJob) : M state_db py_error unit := λ db,
  match investigations db !! ij_candidate_id job with
  | Some old =>
      (Ok tt, set_investigations
                (<[ij_candidate_id job := updated_row old job]> (investigations db)) db)
  | None =>
      if investigation_id_taken db job then (Err IntegrityError, db)
      else (Ok tt, set_investigations
              (<[ij_candidate_id job := row_of_job job (ij_created_at job)]>
                 (investigations db)) db)
  end.

(** The lane of the job, [fetchone] of the primary key. *)
Definition lane_category_of (db : state_db) (job : InvestigationJob) : option str :=
  lane_category <$> List.find (λ l, bool_decide (
    lane_source_item_id l = ij_candidate_id job ∧
    lane_feed_lane_id l = ij_feed_lane_id job ∧
    lane_query_plan_id l = ij_query_plan_id job)) (candidate_feed_lanes db).

(** [fence_check i] is the outcome of the [i]-th of its three calls. *)
Definition persist_body (job : InvestigationJob) (fence_check : nat → result py_error unit)
    : M state_db py_error bool :=
  db ← get;
  write ← match investigations db !! ij_candidate_id job with
          | Some existing => lift (check_existing existing job)
          | None => mret true
          end;
  if (write : bool) then
    _ ← lift (fence_check 1%nat);
    _ ← upsert_investigation job;
    _ ← lift (fence_check 2%nat);
    mret true
  else mret false.

Definition persist_investigation (job : InvestigationJob)
    (fence_check : nat → result py_error unit) : M state_db py_error bool :=
  _ ← lift (post_init job);
  _ ← lift (fence_check 0%nat);
  db ← get;
  category ← lift (of_option ValueError (lane_category_of db job));
  _ ← lift (raise_if (negb (bool_decide (category = ij_category job))) ValueError);
  transaction (persist_body job fence_check).

(** ** [run_investigation] *)

Definition job_of_row (row : investigation_row) : result py_error InvestigationJob :=
  targeted ← load_targeted (ir_targeted_json row);
  ids ← mapR (λ j, match j with JStr s => Ok s | _ => Err ValueError end) targeted;
  let job := mk_ijob (ir_investigation_id row) (ir_candidate_id row) (ir_feed_lane_id row)
    (ir_query_plan_id row) (ir_category row) (ir_round_number row) (ir_state row)
    (ir_terminal_state row) ids (ir_created_at row) (ir_updated_at row) in
  _ ← post_init job; Ok job.

(** What happens to an existing row before any work: [Some job] when the round
    is already terminal and the stored job is returned. *)
Definition check_resume (existing : investigation_row)
    (candidate_id feed_lane_id query_plan_id category : str) (round_number : Z)
    (targeted_ids : list str) : result py_error (option InvestigationJob) :=
  job ← job_of_row existing;
  _ ← raise_if (negb (bool_decide (
        ij_investigation_id job = investigation_id candidate_id feed_lane_id query_plan_id ∧
        ij_feed_lane_id job = feed_lane_id ∧ ij_query_plan_id job = query_plan_id ∧
        ij_category job = category))) ValueError;
  _ ← raise_if (round_number <? ij_round_number job) ValueError;
  if is_terminal (ij_state job) && (round_number =? ij_round_number job) then
    _ ← raise_if (negb (bool_decide (ij_targeted_query_ids job = targeted_ids))) ValueError;
    Ok (Some job)
  else
    _ ← raise_if (negb (round_number =? ij_round_number job) &&
          (negb (round_number =? ij_round_number job + 1) ||
           negb (bool_decide (ij_state job ∈ [FAILED; BLOCKED])))) ValueError;
    Ok None.

Definition MAX_EXPANSION_ROUNDS : nat := 2.

(** [s.replace(old, new)] for one-character [old] and [new]. *)
Definition replace_char (old new : N) (s : str) : str :=
  map (λ c, if (c =? old)%N then new else c) s.

(** [tuple(dict.fromkeys(l))] *)
Fixpoint dict_keys_from (seen l : list str) : list str :=
  match l with
  | [] => []
  | x :: l' => if bool_decide (x ∈ seen) then dict_keys_from seen l'
               else x :: dict_keys_from (x :: seen) l'
  end.
Definition dict_keys (l : list str) : list str := dict_keys_from [] l.

Section run.
Context `{IsoParser}.
(** The query text of one seed, as [_query_text] and [validate_query_plan] of
    [query_planner.py] give it from the Unicode word tables; and what the
    broker answers for the plans: the success of each query, or the exception
    of the whole attempt. *)
Context (query_text : str → result py_error str).
Context (fetch : list str → result unit (list bool)).

(** The identities of the plans of [build_investigation_queries]. *)
Definition build_investigation_queries (candidate_id feed_lane_id category title : str)
    (publisher_host : option str) (evaluated_at : str) (round_number : Z)
    : result py_error (list str) :=
  _ ← raise_if (blank candidate_id || blank feed_lane_id) ValueError;
  _ ← raise_if (negb (round_in_range round_number)) ValueError;
  let seeds := title :: match publisher_host with
    | Some (c :: h) => [title ++ u " " ++ replace_char 45 32 (replace_char 46 32 (c :: h))]
    | _ => []
    end in
  texts ← mapR query_text seeds;
  _ ← of_option ValueError (parse_utc_iso evaluated_at);
  _ ← raise_if (blank evaluated_at) ValueError;
  _ ← raise_if (negb (bool_decide (category ∈ CATEGORY_VALUES))) ValueError;
  Ok (map (λ t, stable_id [Some (u "investigation-query"); Some candidate_id;
              Some feed_lane_id; Some (dec_of_Z round_number); Some t] 32)
        (take MAX_EXPANSION_ROUNDS (dict_keys texts))).

(** [complete] only if there are results and all succeeded. *)
Definition final_state (targeted_ids : list str) : str :=
  match fetch targeted_ids with
  | Ok results =>
      if negb (bool_decide (results = [])) && forallb id results then COMPLETE else FAILED
  | Err _ => FAILED
  end.

(** [SELECT si.title, ... WHERE si.source_item_id=? AND ... cfl.category=?] *)
Definition candidate_in_lane (db : state_db) (candidate_id feed_lane_id query_plan_id
    category : str) : option source_item :=
  if existsb (λ l, bool_decide (
       lane_source_item_id l = candidate_id ∧ lane_feed_lane_id l = feed_lane_id ∧
       lane_query_plan_id l = query_plan_id ∧ lane_category l = category))
     (candidate_feed_lanes db)
  then source_items db !! candidate_id else None.

(** [row[0] or category.replace("_", " ")] *)
Definition title_or_category (item : source_item) (category : str) : str :=
  match item_title item with
  | Some (c :: t) => c :: t
  | _ => replace_char 95 32 category
  end.

(** [lease_check i] is the outcome of the [i]-th call; the two writes make up
    to three calls each. *)
Definition run_investigation (candidate_id feed_lane_id query_plan_id category
    evaluated_at : str) (round_number : Z) (lease_check : nat → result py_error unit)
    : M state_db py_error InvestigationJob :=
  _ ← lift (validate_investigation_payload
        [(u "investigation_id", JStr (investigation_id candidate_id feed_lane_id query_plan_id));
         (u "candidate_id", JStr candidate_id); (u "feed_lane_id", JStr feed_lane_id);
         (u "query_plan_id", JStr query_plan_id); (u "category", JStr category);
         (u "round_number", JInt round_number)]);
  db ← get;
  item ← lift (of_option ValueError
           (candidate_in_lane db candidate_id feed_lane_id query_plan_id category));
  targeted_ids ← lift (build_investigation_queries candidate_id feed_lane_id category
    (title_or_category item category) (item_host item) evaluated_at round_number);
  stored ← match investigations db !! candidate_id with
           | Some existing => lift (check_resume existing candidate_id feed_lane_id
               query_plan_id category round_number targeted_ids)
           | None => mret None
           end;
  match stored with
  | Some job => mret job
  | None =>
      running ← lift (make_investigation_job candidate_id feed_lane_id query_plan_id
        category evaluated_at round_number RUNNING None targeted_ids);
      _ ← persist_investigation running lease_check;
      let state := final_state targeted_ids in
      completed ← lift (make_investigation_job candidate_id feed_lane_id query_plan_id
        category evaluated_at round_number state (Some state) targeted_ids);
      _ ← persist_investigation completed (λ i, lease_check (3 + i)%nat);
      mret completed
  end.
End run.

(** ** The monotone state policy *)

Definition stage (state : str) : Z :=
  if bool_decide (state = PENDING) then 0 else if bool_decide (state = RUNNING) then 1 else 2.

(** How a stored row may change: its identity and creation time stay, its round
    never decreases, and within a round the stage never decreases and a
    terminal row is frozen. *)
Definition row_evolves (r r' : investigation_row) : Prop :=
  ir_investigation_id r' = ir_investigation_id r ∧ ir_candidate_id r' = ir_candidate_id r ∧
  ir_feed_lane_id r' = ir_feed_lane_id r ∧ ir_query_plan_id r' = ir_query_plan_id r ∧
  ir_category r' = ir_category r ∧ ir_created_at r' = ir_created_at r ∧
  ir_round_number r <= ir_round_number r' ∧
  (ir_round_number r' = ir_round_number r → stage (ir_state r) <= stage (ir_state r') ∧
     (is_terminal (ir_state r) = true → r' = r)).

#[export] Instance row_evolves_preorder : PreOrder row_evolves.
Proof.
  split.
  - intros r. unfold row_evolves. split_and!; done || lia.
  - intros a b c (?&?&?&?&?&?&Hab&Hab') (?&?&?&?&?&?&Hbc&Hbc').
    unfold row_evolves. split_and!; try congruence; [lia|]. intros Hac.
    destruct (Hab' ltac:(lia)) as [Hs1 Ht1], (Hbc' ltac:(lia)) as [Hs2 Ht2].
    split; [lia|]. intros Hta. rewrite (Ht1 Hta) in Ht2. rewrite <-(Ht1 Hta) at 1.
    rewrite (Ht1 Hta). auto.
Qed.

Definition investigations_evolve (db db' : state_db) : Prop :=
  source_items db' = source_items db ∧
  candidate_feed_lanes db' = candidate_feed_lanes db ∧
  ∀ c r, investigations db !! c = Some r →
    ∃ r', investigations db' !! c = Some r' ∧ row_evolves r r'.

#[export] Instance investigations_evolve_preorder : PreOrder investigations_evolve.
Proof.
  split.
  - intros db. split; [done|]. split; [done|]. intros c r Hr. exists r. split; [done|]. reflexivity.
  - intros a b c (Hs1 & Hl1 & H1) (Hs2 & Hl2 & H2).
    split; [congruence|]. split; [congruence|]. intros k r Hr.
    destruct (H1 k r Hr) as (r1 & Hr1 & He1), (H2 k r1 Hr1) as (r2 & Hr2 & He2).
    exists r2. split; [done|]. by etrans.
Qed.

Lemma stage_of_state state :
  stage state = 0 ∧ state = PENDING ∨ stage state = 1 ∧ state = RUNNING ∨
  stage state = 2 ∧ state ≠ PENDING ∧ state ≠ RUNNING.
Proof. unfold stage. repeat case_bool_decide; auto. Qed.

Lemma allowed_within_round_stage old new :
  allowed_within_round old new = true → stage old <= stage new.
Proof.
  unfold allowed_within_round. intros Ha.
  destruct (stage_of_state old) as [[-> Ho]|[[-> Ho]|[-> [Hp Hr]]]].
  - destruct (stage_of_state new) as [[-> _]|[[-> _]|[-> _]]]; lia.
  - rewrite Ho in Ha. rewrite bool_decide_eq_false_2, bool_decide_eq_true_2 in Ha by done.
    apply bool_decide_eq_true in Ha.
    assert (new ≠ PENDING).
    { intros ->. assert (bool_decide (PENDING ∈ RUNNING :: TERMINAL_STATES) = false) as Hb
        by reflexivity. by apply bool_decide_eq_false in Hb. }
    destruct (stage_of_state new) as [[-> ?]|[[-> _]|[-> _]]]; done || lia.
  - by rewrite !bool_decide_eq_false_2 in Ha.
Qed.

(** What the policy checked before a write over an existing row. *)
Lemma check_existing_Ok existing job w :
  check_existing existing job = Ok w →
  ir_investigation_id existing = ij_investigation_id job ∧
  ir_feed_lane_id existing = ij_feed_lane_id job ∧
  ir_query_plan_id existing = ij_query_plan_id job ∧
  ir_category existing = ij_category job ∧
  (w = false ∧ ij_round_number job = ir_round_number existing ∧
     is_terminal (ir_state existing) = true ∧ ij_state job = ir_state existing ∧
     ij_terminal_state job = ir_terminal_state existing ∨
   w = true ∧ row_evolves existing (updated_row existing job)).
Proof.
  unfold check_existing. intros Hc.
  apply bind_Ok in Hc as (? & Hid & Hc). apply raise_if_Ok, negb_false_iff in Hid.
  apply bool_decide_eq_true in Hid as (H1 & H2 & H3 & H4). do 4 (split; [done|]).
  apply bind_Ok in Hc as (? & Hr & Hc). apply raise_if_Ok, Z.ltb_ge in Hr.
  apply bind_Ok in Hc as (tg & _ & Hc).
  destruct (Z.eqb_spec (ij_round_number job) (ir_round_number existing)) as [Heq|Hne].
  - apply bind_Ok in Hc as (? & _ & Hc).
    destruct (is_terminal (ir_state existing)) eqn:Hterm.
    + apply bind_Ok in Hc as (? & Hs & [= <-]).
      apply raise_if_Ok, negb_false_iff, bool_decide_eq_true in Hs as [Hs Ht]. by left.
    + apply bind_Ok in Hc as (? & Ha & [= <-]). apply raise_if_Ok, negb_false_iff in Ha.
      right. split; [done|]. unfold row_evolves. cbn. do 6 (split; [done|]).
      split; [lia|]. intros _. split; [by apply allowed_within_round_stage|].
      by rewrite Hterm.
  - apply bind_Ok in Hc as (? & Ha & [= <-]). right. split; [done|].
    unfold row_evolves. cbn. do 6 (split; [done|]). split; [lia|]. lia.
Qed.

(** ** What a write does *)

Lemma upsert_Ok job db u0 db' :
  upsert_investigation job db = (Ok u0, db') ↔
  u0 = tt ∧
  match investigations db !! ij_candidate_id job with
  | Some old => db' = set_investigations
      (<[ij_candidate_id job := updated_row old job]> (investigations db)) db
  | None => investigation_id_taken db job = false ∧ db' = set_investigations
      (<[ij_candidate_id job := row_of_job job (ij_created_at job)]> (investigations db)) db
  end.
Proof.
  destruct u0. unfold upsert_investigation. destruct (investigations db !! _); [naive_solver|].
  destruct (investigation_id_taken db job); naive_solver.
Qed.

(** The row that a job leaves. *)
Definition written_row (db : state_db) (job : InvestigationJob) : investigation_row :=
  match investigations db !! ij_candidate_id job with
  | Some old => updated_row old job
  | None => row_of_job job (ij_created_at job)
  end.

Definition write_job (db : state_db) (job : InvestigationJob) : state_db :=
  set_investigations (<[ij_candidate_id job := written_row db job]> (investigations db)) db.

Lemma persist_Ok job fence db w db' :
  persist_investigation job fence db = (Ok w, db') →
  post_init job = Ok tt ∧ fence 0%nat = Ok tt ∧ lane_category_of db job = Some (ij_category job) ∧
  (w = false ∧ db' = db ∧ (∃ old, investigations db !! ij_candidate_id job = Some old ∧
     ij_round_number job = ir_round_number old ∧ is_terminal (ir_state old) = true ∧
     ij_state job = ir_state old ∧ ij_terminal_state job = ir_terminal_state old) ∨
   w = true ∧ fence 1%nat = Ok tt ∧ fence 2%nat = Ok tt ∧ db' = write_job db job ∧
   ∀ old, investigations db !! ij_candidate_id job = Some old →
     row_evolves old (updated_row old job)).
Proof.
  unfold persist_investigation. intros Hp.
  apply M_bind_Ok in Hp as ([] & ? & [= H0 <-] & Hp).
  apply M_bind_Ok in Hp as ([] & ? & [= H1 <-] & Hp).
  apply M_bind_Ok in Hp as (? & ? & [= <- <-] & Hp).
  apply M_bind_Ok in Hp as (cat & ? & [= Hl <-] & Hp). apply of_option_Ok in Hl.
  apply M_bind_Ok in Hp as (? & ? & [= Hcat <-] & Hp).
  apply raise_if_Ok, negb_false_iff, bool_decide_eq_true in Hcat as ->.
  do 3 (split; [done|]).
  rewrite transaction_Ok in Hp. unfold persist_body in Hp.
  apply M_bind_Ok in Hp as (? & ? & [= <- <-] & Hp).
  apply M_bind_Ok in Hp as (b & db1 & Hb & Hp). unfold write_job, written_row.
  destruct (investigations db !! ij_candidate_id job) as [old|] eqn:Hold.
  - injection Hb as Hb <-. apply check_existing_Ok in Hb as (_ & _ & _ & _ & [Hf|[-> Hev]]).
    + destruct Hf as (-> & Hrest). injection Hp as <- <-. left. eauto.
    + right. apply M_bind_Ok in Hp as ([] & ? & [= H2 <-] & Hp).
      apply M_bind_Ok in Hp as (? & db2 & [_ Hu]%upsert_Ok & Hp). rewrite Hold in Hu.
      apply M_bind_Ok in Hp as ([] & ? & [= H3 <-] & [= <- <-]).
      do 4 (split; [done|]). intros ? [= <-]. done.
  - injection Hb as <- <-. right. apply M_bind_Ok in Hp as ([] & ? & [= H2 <-] & Hp).
    apply M_bind_Ok in Hp as (? & db2 & [_ Hu]%upsert_Ok & Hp). rewrite Hold in Hu.
    destruct Hu as [_ ->]. apply M_bind_Ok in Hp as ([] & ? & [= H3 <-] & [= <- <-]).
    do 4 (split; [done|]). done.
Qed.

Lemma persist_Err job fence db e db' :
  persist_investigation job fence db = (Err e, db') → db' = db.
Proof.
  unfold persist_investigation.
  intros [[= _ <-]|(? & ? & [= _ <-] & Hp)]%M_bind_Err; [done|].
  apply M_bind_Err in Hp as [[= _ <-]|(? & ? & [= _ <-] & Hp)]; [done|].
  apply M_bind_Err in Hp as [[=]|(? & ? & [= <- <-] & Hp)].
  apply M_bind_Err in Hp as [[= _ <-]|(? & ? & [= _ <-] & Hp)]; [done|].
  apply M_bind_Err in Hp as [[= _ <-]|(? & ? & [= _ <-] & Hp)]; [done|].
  rewrite transaction_Err in Hp. tauto.
Qed.

Lemma write_job_evolves db job :
  (∀ old, investigations db !! ij_candidate_id job = Some old →
     row_evolves old (updated_row old job)) →
  investigations_evolve db (write_job db job).
Proof.
  intros Hev. split; [done|]. split; [done|]. intros c r Hr. cbn.
  destruct (decide (c = ij_candidate_id job)) as [->|Hne].
  - rewrite lookup_insert_eq. unfold written_row. rewrite Hr. eauto.
  - rewrite lookup_insert_ne by done. exists r. split; [done|]. reflexivity.
Qed.

Lemma persist_evolves job fence db res db' :
  persist_investigation job fence db = (res, db') → investigations_evolve db db'.
Proof.
  destruct res as [w|e]; [|intros ->%persist_Err; reflexivity].
  intros (_ & _ & _ & [(_ & -> & _)|(_ & _ & _ & -> & Hev)])%persist_Ok; [reflexivity|].
  by apply write_job_evolves.
Qed.

(** C18: Whatever [persist_investigation] returns, no stored investigation moves
    backwards: identities and creation times stay, rounds and stages never
    decrease, and a terminal row changes only by opening the next round. *)
Theorem persist_investigation_monotone job fence_check db res db' :
  persist_investigation job fence_check db = (res, db') → investigations_evolve db db'.
Proof. apply persist_evolves. Qed.

(** C19: A write is all or nothing, and is committed only if the lease was checked
    successfully before the transaction, before the write and before the
    commit: a worker that lost its lease at any of them publishes nothing. *)
Theorem persist_investigation_fenced job fence_check db res db' :
  persist_investigation job fence_check db = (res, db') →
  db' = db ∨
  (res = Ok true ∧ (∀ i, (i <= 2)%nat → fence_check i = Ok tt) ∧ db' = write_job db job).
Proof.
  destruct res as [w|e]; [|intros ->%persist_Err; by left].
  intros (_ & H0 & _ & [(_ & -> & _)|(-> & H1 & H2 & -> & _)])%persist_Ok; [by left|right].
  split; [done|]. split; [|done]. intros [|[|[|i]]]; (done || lia).
Qed.

(** A committed write leaves the job's round, state and queries in the row of
    its candidate, and every other candidate as it was. *)
Lemma write_job_lookup db job c :
  investigations (write_job db job) !! c =
    if decide (c = ij_candidate_id job) then Some (written_row db job)
    else investigations db !! c.
Proof.
  cbn. destruct (decide (c = ij_candidate_id job)) as [->|Hne]; [apply lookup_insert_eq|].
  by rewrite lookup_insert_ne.
Qed.

Lemma written_row_state db job :
  ir_state (written_row db job) = ij_state job ∧
  ir_terminal_state (written_row db job) = ij_terminal_state job ∧
  ir_round_number (written_row db job) = ij_round_number job ∧
  ir_targeted_json (written_row db job) = targeted_json (ij_targeted_query_ids job).
Proof. unfold written_row. by destruct (investigations db !! ij_candidate_id job). Qed.

Lemma running_not_terminal : is_terminal RUNNING = false.
Proof. reflexivity. Qed.

(** A running job is always written: it is never the replay of a terminal row. *)
Lemma persist_running job fence db w db' :
  ij_state job = RUNNING → persist_investigation job fence db = (Ok w, db') →
  (∀ i, (i <= 2)%nat → fence i = Ok tt) ∧ db' = write_job db job.
Proof.
  intros Hr (_ & H0 & _ & [(_ & _ & old & _ & _ & Ht & Hs & _)|(_ & H1 & H2 & -> & _)])%persist_Ok.
  - rewrite Hr in Hs. by rewrite <-Hs, running_not_terminal in Ht.
  - split; [|done]. intros [|[|[|i]]]; (done || lia).
Qed.

(** So is a job over a running row. *)
Lemma persist_over_running job fence db w db' old :
  investigations db !! ij_candidate_id job = Some old → ir_state old = RUNNING →
  persist_investigation job fence db = (Ok w, db') →
  (∀ i, (i <= 2)%nat → fence i = Ok tt) ∧ db' = write_job db job.
Proof.
  intros Hold Hr (_ & H0 & _ & [(_ & _ & old' & Hold' & _ & Ht & _)|(_ & H1 & H2 & -> & _)])%persist_Ok.
  - simplify_eq. by rewrite Hr, running_not_terminal in Ht.
  - split; [|done]. intros [|[|[|i]]]; (done || lia).
Qed.

Lemma make_investigation_job_Ok candidate lane plan category evaluated round state terminal ids job :
  make_investigation_job candidate lane plan category evaluated round state terminal ids = Ok job →
  ij_candidate_id job = candidate ∧ ij_round_number job = round ∧ ij_state job = state ∧
  ij_terminal_state job = terminal ∧ ij_targeted_query_ids job = ids.
Proof. unfold make_investigation_job. intros Hm. inv_ok. done. Qed.

Section run_spec.
Context `{IsoParser} (query_text : str → result py_error str)
  (fetch : list str → result unit (list bool)).

Lemma check_resume_Some existing candidate lane plan category round ids job :
  check_resume existing candidate lane plan category round ids = Ok (Some job) →
  is_terminal (ir_state existing) = true ∧ ij_state job = ir_state existing ∧
  ij_terminal_state job = ir_terminal_state existing ∧
  ij_round_number job = round ∧ ir_round_number existing = round.
Proof.
  unfold check_resume. intros Hc.
  apply bind_Ok in Hc as (j & Hj & Hc). apply bind_Ok in Hc as (? & _ & Hc).
  apply bind_Ok in Hc as (? & _ & Hc).
  unfold job_of_row in Hj. apply bind_Ok in Hj as (tg & _ & Hj).
  apply bind_Ok in Hj as (l & _ & Hj). apply bind_Ok in Hj as (? & _ & [= <-]). cbn in Hc.
  destruct (is_terminal (ir_state existing)) eqn:Ht; cbn in Hc.
  - destruct (Z.eqb_spec round (ir_round_number existing)) as [->|Hne]; cbn in Hc.
    + apply bind_Ok in Hc as (? & _ & [= <-]). done.
    + by apply bind_Ok in Hc as (? & _ & [=]).
  - by apply bind_Ok in Hc as (? & _ & [=]).
Qed.

(** The queries answered, there was at least one, and every one succeeded. *)
Definition all_succeeded (ids : list str) : Prop :=
  ∃ results, fetch ids = Ok results ∧ results ≠ [] ∧ Forall (λ ok, ok = true) results.

Lemma final_state_spec ids :
  all_succeeded ids ∧ final_state fetch ids = COMPLETE ∨
  ¬ all_succeeded ids ∧ final_state fetch ids = FAILED.
Proof.
  unfold final_state, all_succeeded. destruct (fetch ids) as [results|]; [|right; naive_solver].
  case_bool_decide as Hn; [right; naive_solver|]. cbn [negb andb].
  destruct (forallb id results) eqn:Hall.
  - left. split; [|done]. exists results. do 2 (split; [done|]). rewrite forallb_forall in Hall.
    apply Forall_forall. intros b Hb%list_elem_of_In. by apply Hall.
  - right. split; [|done]. intros (l & [= <-] & _ & Hl). apply not_true_iff_false in Hall.
    apply Hall, forallb_forall. intros b Hb%list_elem_of_In. rewrite Forall_forall in Hl.
    by apply Hl.
Qed.

(** C20: A finished call either returns the stored outcome of a round that was
    already terminal, changing nothing, or runs the queries of the candidate,
    holds its lease at every check, and leaves the candidate's row terminal:
    [complete] if the queries were answered, there was at least one and every
    one succeeded, [failed] if they raised, there was none or one of them
    failed. *)
Theorem run_investigation_spec candidate lane plan category evaluated round lease_check
    db job db' :
  run_investigation query_text fetch candidate lane plan category evaluated round
    lease_check db = (Ok job, db') →
  (∃ row, db' = db ∧ investigations db !! candidate = Some row ∧
     is_terminal (ir_state row) = true ∧ ij_state job = ir_state row ∧
     ij_round_number job = round ∧ ir_round_number row = round) ∨
  (∃ item ids row, candidate_in_lane db candidate lane plan category = Some item ∧
     build_investigation_queries query_text candidate lane category
       (title_or_category item category) (item_host item) evaluated round = Ok ids ∧
     investigations db' !! candidate = Some row ∧ ij_state job = ir_state row ∧
     (all_succeeded ids ∧ ir_state row = u "complete" ∨
      ¬ all_succeeded ids ∧ ir_state row = u "failed") ∧
     ir_terminal_state row = Some (ir_state row) ∧ ir_round_number row = round ∧
     ir_targeted_json row = targeted_json ids ∧
     ∀ i, (i < 6)%nat → lease_check i = Ok tt).
Proof.
  unfold run_investigation. intros Hr.
  apply M_bind_Ok in Hr as (? & ? & [= _ <-] & Hr).
  apply M_bind_Ok in Hr as (? & ? & [= <- <-] & Hr).
  apply M_bind_Ok in Hr as (item & ? & [= Hitem <-] & Hr). apply of_option_Ok in Hitem.
  apply M_bind_Ok in Hr as (ids & ? & [= Hids <-] & Hr).
  apply M_bind_Ok in Hr as (stored & db1 & Hs & Hr).
  destruct stored as [j|].
  - injection Hr as <- <-. left. destruct (investigations db !! candidate) as [row|]; [|done].
    injection Hs as Hs <-. apply check_resume_Some in Hs as (? & ? & _ & ? & ?). eauto 10.
  - right. assert (db1 = db) as ->
      by (destruct (investigations db !! candidate); by injection Hs). clear Hs.
    apply M_bind_Ok in Hr as (running & ? & [= Hrun <-] & Hr).
    apply make_investigation_job_Ok in Hrun as (Hc1 & _ & Hs1 & _).
    apply M_bind_Ok in Hr as (w1 & db2 & Hp1 & Hr).
    apply persist_running in Hp1 as [Hf1 ->]; [|done].
    apply M_bind_Ok in Hr as (completed & ? & [= Hcomp <-] & Hr).
    apply make_investigation_job_Ok in Hcomp as (Hc2 & Hr2 & Hs2 & Ht2 & Hi2).
    apply M_bind_Ok in Hr as (w2 & db3 & Hp2 & [= <- <-]).
    apply (persist_over_running _ _ _ _ _ (written_row db running)) in Hp2 as [Hf2 ->].
    2: { rewrite write_job_lookup, decide_True; [done|congruence]. }
    2: { destruct (written_row_state db running) as (-> & _). done. }
    eexists item, ids, _. do 2 (split; [done|]).
    rewrite write_job_lookup, decide_True by done. split; [done|].
    destruct (written_row_state (write_job db running) completed) as (-> & -> & -> & ->).
    rewrite Hs2, Ht2, Hr2, Hi2. split; [done|]. split; [apply final_state_spec|].
    do 3 (split; [done|]).
    intros i Hi. destruct (decide (i <= 2)%nat); [by apply Hf1|].
    replace i with (3 + (i - 3))%nat by lia. apply Hf2. lia.
Qed.

(** C21: Whatever the call returns, and however its lease ends, no stored
    investigation moves backwards. *)
Theorem run_investigation_monotone candidate lane plan category evaluated round lease_check
    db res db' :
  run_investigation query_text fetch candidate lane plan category evaluated round
    lease_check db = (res, db') → investigations_evolve db db'.
Proof.
  enough (steps investigations_evolve (run_investigation query_text fetch candidate lane plan
    category evaluated round lease_check)) as Hs by apply Hs.
  assert (∀ job fence, steps investigations_evolve (persist_investigation job fence)) as Hp
    by (intros job fence db0 r db0'; apply persist_evolves).
  unfold run_investigation.
  do 4 (apply steps_bind; [typeclasses eauto|eauto with steps|intros ?]).
  apply steps_bind; [typeclasses eauto|case_match; eauto with steps|intros [j|]];
    eauto 12 with steps.
Qed.
End run_spec.

(** ** Concrete runs *)

Section samples.
#[local] Existing Instance fixed_parser.

Definition sample_state_db : state_db :=
  mk_state_db {[u "item" := mk_item (Some (u "title")) None]}
    [mk_lane (u "item") (u "lane") (u "plan") (u "ai")] ∅.
Definition lease_held (_ : nat) : result py_error unit := Ok tt.
Definition lease_lost_before_commit (i : nat) : result py_error unit :=
  if (i <? 2)%nat then Ok tt else Err ClaimMismatchError.
Definition sample_query_text (_ : str) : result py_error str := Ok (u "official update").
Definition all_succeed (ids : list str) : result unit (list bool) := Ok (map (λ _, true) ids).

Definition sample_running : InvestigationJob :=
  mk_ijob (investigation_id (u "item") (u "lane") (u "plan")) (u "item") (u "lane")
    (u "plan") (u "ai") 0 RUNNING None [u "q1"] (u "2026-01-01T00:00:00Z")
    (u "2026-01-01T00:00:00Z").

Lemma sample_persisted :
  persist_investigation sample_running lease_held sample_state_db =
    (Ok true, write_job sample_state_db sample_running).
Proof. vm_compute. reflexivity. Qed.

Lemma persist_investigation_monotone_witness :
  investigations_evolve sample_state_db (write_job sample_state_db sample_running).
Proof. exact (persist_investigation_monotone _ _ _ _ _ sample_persisted). Defined.

Lemma sample_fenced :
  persist_investigation sample_running lease_lost_before_commit sample_state_db =
    (Err ClaimMismatchError, sample_state_db).
Proof. vm_compute. reflexivity. Qed.

Lemma persist_investigation_fenced_witness :
  sample_state_db = sample_state_db ∨
  (Err ClaimMismatchError = Ok true ∧
   (∀ i, (i <= 2)%nat → lease_lost_before_commit i = Ok tt) ∧
   sample_state_db = write_job sample_state_db sample_running).
Proof. exact (persist_investigation_fenced _ _ _ _ _ sample_fenced). Defined.

Definition sample_run :=
  run_investigation sample_query_text all_succeed (u "item") (u "lane") (u "plan") (u "ai")
    (u "2026-01-01T00:00:00Z") 0 lease_held sample_state_db.
Definition sample_completed : InvestigationJob :=
  match sample_run.1 with Ok job => job | Err _ => sample_running end.

Lemma sample_run_ok : sample_run = (Ok sample_completed, sample_run.2).
Proof. vm_compute. reflexivity. Qed.

Lemma run_investigation_spec_witness :
  ij_state sample_completed = u "complete" ∧
  ((∃ row, sample_run.2 = sample_state_db ∧
     investigations sample_state_db !! u "item" = Some row ∧
     is_terminal (ir_state row) = true ∧ ij_state sample_completed = ir_state row ∧
     ij_round_number sample_completed = 0 ∧ ir_round_number row = 0) ∨
   (∃ item ids row,
     candidate_in_lane sample_state_db (u "item") (u "lane") (u "plan") (u "ai") = Some item ∧
     build_investigation_queries sample_query_text (u "item") (u "lane") (u "ai")
       (title_or_category item (u "ai")) (item_host item) (u "2026-01-01T00:00:00Z") 0 = Ok ids ∧
     investigations sample_run.2 !! u "item" = Some row ∧
     ij_state sample_completed = ir_state row ∧
     (all_succeeded all_succeed ids ∧ ir_state row = u "complete" ∨
      ¬ all_succeeded all_succeed ids ∧ ir_state row = u "failed") ∧
     ir_terminal_state row = Some (ir_state row) ∧ ir_round_number row = 0 ∧
     ir_targeted_json row = targeted_json ids ∧
     ∀ i, (i < 6)%nat → lease_held i = Ok tt)).
Proof.
  split; [vm_compute; reflexivity|].
  apply (run_investigation_spec sample_query_text all_succeed (u "item") (u "lane") (u "plan")
    (u "ai") (u "2026-01-01T00:00:00Z") 0 lease_held). exact sample_run_ok.
Defined.

Lemma run_investigation_monotone_witness :
  investigations_evolve sample_state_db sample_run.2.
Proof.
  apply (run_investigation_monotone sample_query_text all_succeed (u "item") (u "lane") (u "plan")
    (u "ai") (u "2026-01-01T00:00:00Z") 0 lease_held sample_state_db (Ok sample_completed)).
  exact sample_run_ok.
Defined.
End samples.
