(* ===== verification/ControlStore.v ===== *)
(** * ControlStore: tasks, leases and runs of the control plane.

    [scripts/news_container/control_store.py]: a queue of tasks with
    deterministic identifiers, owner and generation fencing of claims, and a run
    history.  Times are microseconds since the epoch; [IsoParser] stands for
    [datetime.fromisoformat].  The lock wait of [BEGIN IMMEDIATE] is not
    modelled: transactions are serialised.  [now] is the argument of that name,
    one instant for the whole call; a call without it reads the clock where it
    needs it, [claim] and [renew_claim] up to three times, and is modelled as if
    these readings agreed. *)
From S2P Require Import Prelude Text Sha256 Json Calendar Timestamps Investigation.
Local Open Scope Z_scope.

(** ** Data *)

Inductive task_state : Type := Pending | Claimed | Completed | Failed.
#[export] Instance task_state_eq_dec : EqDecision task_state.
Proof. solve_decision. Defined.

Record task := mk_task
  { t_kind : str; t_due_slot_utc : str; t_job_key : str; t_payload_json : str;
    t_state : task_state; t_generation : Z; t_created_at : str }.

Record claim_row := mk_claim
  { c_owner : str; c_generation : Z; c_attempt : Z; c_expires_at_utc : str;
    c_claimed_at_utc : str }.

Record run := mk_run
  { run_task_id : str; run_owner : str; run_generation : Z; run_started_at_utc : str;
    run_finished_at_utc : str; run_status : task_state; run_exit_code : option Z;
    run_stdout_hash : option str; run_error_class : option str;
    run_error_message : option str; run_canary_root : option str }.

#[export] Instance task_eq_dec : EqDecision task.
Proof. solve_decision. Defined.
#[export] Instance claim_row_eq_dec : EqDecision claim_row.
Proof. solve_decision. Defined.
#[export] Instance run_eq_dec : EqDecision run.
Proof. solve_decision. Defined.

(** Runs are in the order of [run_id]. *)
Record control_db := mk_control
  { tasks : gmap str task; claims : gmap str claim_row; runs : list run }.

Definition set_tasks (t : gmap str task) (db : control_db) : control_db :=
  mk_control t (claims db) (runs db).
Definition set_claims (c : gmap str claim_row) (db : control_db) : control_db :=
  mk_control (tasks db) c (runs db).
Definition set_runs (r : list run) (db : control_db) : control_db :=
  mk_control (tasks db) (claims db) r.

(** ** Validation *)

Definition ALLOWED_KINDS : list str :=
  map u ["ingest"; "investigate"; "process"; "validate"; "report"].
Definition DELIVERY_KIND_FORBIDDEN : str := u "delivery".
Definition INVESTIGATE : str := u "investigate".

Definition validate_kind (kind : str) : result py_error str :=
  _ ← raise_if (bool_decide (kind = DELIVERY_KIND_FORBIDDEN)) DeliveryForbiddenError;
  _ ← raise_if (negb (bool_decide (kind ∈ ALLOWED_KINDS))) UnknownKindError;
  Ok kind.

(** [bool(value)] *)
Definition truthy (j : json) : bool :=
  match j with
  | JNull => false
  | JBool b => b
  | JInt z => negb (z =? 0)
  | JFloat r => negb (bool_decide (r ∈ [u "0.0"; u "-0.0"]))
  | JStr s => negb (length s =? 0)%nat
  | JList l => negb (length l =? 0)%nat
  | JObj l => negb (length l =? 0)%nat
  end.

Definition forbidden_text (s : str) : bool :=
  let lowered := lower s in
  contains (u "delivery") lowered &&
  (contains (u "enable_live_delivery") lowered || bool_decide (strip lowered = u "delivery")).

Definition forbidden_key (key : str) (sub : json) : bool :=
  bool_decide (lower key = u "delivery") ||
  (bool_decide (lower key = u "enable_live_delivery") && truthy sub).

(** [_scrub_delivery]: a copy of the value, or an exception. *)
Fixpoint _scrub_delivery (value : json) : result py_error json :=
  match value with
  | JStr s => _ ← raise_if (forbidden_text s) DeliveryForbiddenError; Ok (JStr s)
  | JObj l =>
      cleaned ← (fix items (l : list (str * json)) : result py_error (list (str * json)) :=
        match l with
        | [] => Ok []
        | (key, sub) :: l' =>
            _ ← raise_if (forbidden_key key sub) DeliveryForbiddenError;
            sub' ← _scrub_delivery sub;
            rest ← items l';
            Ok ((key, sub') :: rest)
        end) l;
      Ok (JObj cleaned)
  | JList l =>
      cleaned ← (fix elements (l : list json) : result py_error (list json) :=
        match l with
        | [] => Ok []
        | x :: l' => x' ← _scrub_delivery x; rest ← elements l'; Ok (x' :: rest)
        end) l;
      Ok (JList cleaned)
  | _ => Ok value
  end.

Definition validate_payload (payload : dict) : result py_error dict :=
  cleaned ← _scrub_delivery (JObj payload);
  match cleaned with JObj l => Ok l | _ => Ok payload end.

Definition payload_text (payload : dict) : str := canonical (JObj payload).

Section store.
Context `{IsoParser}.

(** [_parse_utc_iso] *)
Definition parse_utc (value : str) : result py_error Z :=
  of_option ValueError (parse_utc_iso value).

(** [_shift] *)
Definition shift (now seconds : Z) : Z := now + seconds * 1000000.

Definition _validate_due_slot (due_slot_utc : str) : result py_error str :=
  _ ← raise_if (negb (ends_with (u "Z") due_slot_utc)) ValueError;
  _ ← parse_utc due_slot_utc;
  Ok due_slot_utc.

Definition task_material (kind due_slot_utc job_key : str) : str :=
  if (length job_key =? 0)%nat then kind ++ u "|" ++ due_slot_utc
  else kind ++ u "|" ++ due_slot_utc ++ u "|" ++ job_key.

Definition task_id_of (kind due_slot_utc job_key : str) : str :=
  take 16 (sha256 (task_material kind due_slot_utc job_key)).

Definition deterministic_task_id (kind due_slot_utc : str) (job_key : option str)
    : result py_error str :=
  _ ← validate_kind kind;
  _ ← _validate_due_slot due_slot_utc;
  _ ← raise_if (match job_key with Some k => blank k | None => false end) ValueError;
  Ok (task_id_of kind due_slot_utc (default [] job_key)).

(** ** Enqueue *)

(** [job_key] of the payload, and the validated payload. *)
Definition enqueue_arguments (kind due_slot_utc : str) (payload : dict)
    : result py_error (str * str * str) :=
  _ ← validate_kind kind;
  _ ← _validate_due_slot due_slot_utc;
  payload ← validate_payload payload;
  job_key ←
    (if bool_decide (kind = INVESTIGATE) then
       _ ← validate_investigation_payload payload;
       text_field payload (u "investigation_id")
     else Ok []);
  task_id ← deterministic_task_id kind due_slot_utc
    (if (length job_key =? 0)%nat then None else Some job_key);
  Ok (task_id, job_key, payload_text payload).

(** [UNIQUE (kind, due_slot_utc, job_key)] *)
Definition slot_taken (db : control_db) (kind due_slot_utc job_key : str) : bool :=
  existsb (λ kv, bool_decide (t_kind kv.2 = kind ∧ t_due_slot_utc kv.2 = due_slot_utc ∧
                              t_job_key kv.2 = job_key)) (map_to_list (tasks db)).

Definition enqueue_tx (task_id : str) (new_task : task) : M control_db py_error bool :=
  db ← get;
  match tasks db !! task_id with
  | Some existing =>
      if bool_decide (t_payload_json existing = t_payload_json new_task)
      then mret false else throw PayloadConflictError
  | None =>
      if slot_taken db (t_kind new_task) (t_due_slot_utc new_task) (t_job_key new_task)
      then throw IntegrityError
      else _ ← put (set_tasks (<[task_id := new_task]> (tasks db)) db); mret true
  end.

Definition enqueue (kind due_slot_utc : str) (payload : dict) (now : Z)
    : M control_db py_error (str * bool) :=
  '(task_id, job_key, payload_json) ← lift (enqueue_arguments kind due_slot_utc payload);
  created ← transaction (enqueue_tx task_id
    (mk_task kind due_slot_utc job_key payload_json Pending 0 (utc_now_iso now)));
  mret (task_id, created).

(** ** Selection *)

Definition task_le (a b : str * task) : Prop :=
  str_leb (t_due_slot_utc a.2) (t_due_slot_utc b.2) = true ∧
  (t_due_slot_utc a.2 = t_due_slot_utc b.2 → str_leb a.1 b.1 = true).
#[export] Instance task_le_dec : RelDecision task_le.
Proof. intros a b. unfold task_le. apply _. Defined.

(** [ORDER BY due_slot_utc, task_id] *)
Definition ordered_tasks (db : control_db) : list (str * task) :=
  merge_sort task_le (map_to_list (tasks db)).

Definition limited {A} (limit : option nat) (l : list A) : list A :=
  match limit with Some n => take n l | None => l end.

Definition pending_tasks (db : control_db) (limit : option nat) : list (str * task) :=
  limited limit (filter (λ kv, t_state kv.2 = Pending) (ordered_tasks db)).

Definition eligible (db : control_db) (cutoff : str) (kv : str * task) : bool :=
  match t_state kv.2 with
  | Pending => true
  | Claimed =>
      match claims db !! kv.1 with
      | Some c => str_leb (c_expires_at_utc c) cutoff
      | None => false
      end
  | _ => false
  end.

Definition selectable_tasks (db : control_db) (kind : str) (now : Z) (limit : option nat)
    : result py_error (list (str * task)) :=
  _ ← validate_kind kind;
  Ok (limited limit (filter (λ kv, t_kind kv.2 = kind ∧ eligible db (utc_now_iso now) kv = true)
        (ordered_tasks db))).

(** ** Claims *)

Definition set_task_state (task_id : str) (state : task_state) (generation : option Z)
    (db : control_db) : control_db :=
  set_tasks (alter (λ t, mk_task (t_kind t) (t_due_slot_utc t) (t_job_key t)
    (t_payload_json t) state (default (t_generation t) generation) (t_created_at t))
    task_id (tasks db)) db.

Definition put_claim (task_id : str) (c : claim_row) (db : control_db) : control_db :=
  set_claims (<[task_id := c]> (claims db)) db.

Definition claim_tx (task_id owner expires_at ts : str) (now : Z)
    : M control_db py_error (Z * Z * str) :=
  db ← get;
  task ← lift (of_option ControlStoreError (tasks db !! task_id));
  _ ← lift (raise_if (negb (bool_decide (t_state task ∈ [Pending; Claimed]))) ControlStoreError);
  match claims db !! task_id with
  | None =>
      let new_generation := t_generation task + 1 in
      _ ← modify (put_claim task_id (mk_claim owner new_generation 1 expires_at ts));
      _ ← modify (set_task_state task_id Claimed (Some new_generation));
      mret (new_generation, 1, expires_at)
  | Some c =>
      expiry ← lift (parse_utc (c_expires_at_utc c));
      if expiry <=? now then
        let new_generation := c_generation c + 1 in
        let attempt := c_attempt c + 1 in
        _ ← modify (put_claim task_id (mk_claim owner new_generation attempt expires_at ts));
        _ ← modify (set_task_state task_id Claimed (Some new_generation));
        mret (new_generation, attempt, expires_at)
      else
        _ ← lift (raise_if (negb (bool_decide (c_owner c = owner))) ControlStoreError);
        mret (c_generation c, c_attempt c, c_expires_at_utc c)
  end.

Definition claim (task_id owner : str) (ttl_seconds now : Z)
    : M control_db py_error (Z * Z * str) :=
  _ ← lift (raise_if (ttl_seconds <=? 0) ValueError);
  let ts := utc_now_iso now in
  let expires_at := utc_now_iso (shift now ttl_seconds) in
  transaction (claim_tx task_id owner expires_at ts now).

(** The fence: the claim exists, has this owner and generation, and has not
    expired. *)
Definition fenced_claim (db : control_db) (task_id owner : str) (generation now : Z)
    : result py_error claim_row :=
  c ← of_option ClaimMismatchError (claims db !! task_id);
  _ ← raise_if (negb (bool_decide (c_owner c = owner))) ClaimMismatchError;
  _ ← raise_if (negb (c_generation c =? generation)) ClaimMismatchError;
  expiry ← parse_utc (c_expires_at_utc c);
  _ ← raise_if (expiry <=? now) ClaimMismatchError;
  Ok c.

Definition assert_claim (db : control_db) (task_id owner : str) (generation now : Z)
    : result py_error unit :=
  _ ← fenced_claim db task_id owner generation now; Ok tt.

Definition renew_tx (task_id owner new_expiry ts : str) (generation now : Z)
    : M control_db py_error unit :=
  db ← get;
  c ← lift (fenced_claim db task_id owner generation now);
  modify (put_claim task_id (mk_claim (c_owner c) (c_generation c) (c_attempt c) new_expiry ts)).

Definition renew_claim (task_id owner : str) (generation ttl_seconds now : Z)
    : M control_db py_error str :=
  _ ← lift (raise_if (ttl_seconds <=? 0) ValueError);
  let new_expiry := utc_now_iso (shift now ttl_seconds) in
  _ ← transaction (renew_tx task_id owner new_expiry (utc_now_iso now) generation now);
  mret new_expiry.

(** The INSERT INTO runs, whose [task_id] references [tasks]. *)
Definition insert_run (r : run) : M control_db py_error unit := λ db,
  match tasks db !! run_task_id r with
  | Some _ => (Ok tt, set_runs (runs db ++ [r]) db)
  | None => (Err IntegrityError, db)
  end.

Definition complete_tx (r : run) (now : Z) : M control_db py_error unit :=
  db ← get;
  _ ← lift (fenced_claim db (run_task_id r) (run_owner r) (run_generation r) now);
  _ ← insert_run r;
  _ ← modify (set_task_state (run_task_id r) (run_status r) None);
  modify (λ db, set_claims (delete (run_task_id r) (claims db)) db).

(** What the caller reports besides the status. *)
Record report := mk_report
  { rep_exit_code : option Z; rep_stdout_hash : option str; rep_error_class : option str;
    rep_error_message : option str; rep_canary_root : option str }.

Definition run_of (task_id owner : str) (generation : Z) (status : task_state)
    (rep : report) (now : Z) : run :=
  mk_run task_id owner generation (utc_now_iso now) (utc_now_iso now) status
    (rep_exit_code rep) (rep_stdout_hash rep) (rep_error_class rep)
    (rep_error_message rep) (rep_canary_root rep).

Definition complete (task_id owner : str) (generation : Z) (status : task_state)
    (rep : report) (now : Z) : M control_db py_error unit :=
  _ ← lift (raise_if (negb (bool_decide (status ∈ [Completed; Failed]))) ValueError);
  transaction (complete_tx (run_of task_id owner generation status rep now) now).

(** ** Retry *)

Definition round_number_of (payload : dict) : Z :=
  match lookup_key (u "round_number") payload with Some (JInt n) => n | _ => 0 end.

Definition IDENTITY_FIELDS : list str :=
  map u ["investigation_id"; "candidate_id"; "feed_lane_id"; "query_plan_id"; "category"].

(** [previous[key] != payload[key]], for two validated payloads. *)
Definition field_differs (previous payload : dict) (key : str) : bool :=
  negb (bool_decide (text_field previous key = text_field payload key)).

(** The stored payload of a failed investigation and the one that may replace
    it. *)
Definition check_retry (stored : str) (payload : dict) : result py_error unit :=
  previous ← match loads stored with
             | None => Err ControlStoreError
             | Some (JObj l) => validate_investigation_payload l
             | Some _ => Err ValueError
             end;
  _ ← raise_if (existsb (field_differs previous payload) IDENTITY_FIELDS) PayloadConflictError;
  raise_if (negb (round_number_of payload =? round_number_of previous + 1)) ControlStoreError.

Definition set_task_payload (task_id payload_json : str) (db : control_db) : control_db :=
  set_tasks (alter (λ t, mk_task (t_kind t) (t_due_slot_utc t) (t_job_key t)
    payload_json Pending (t_generation t) (t_created_at t)) task_id (tasks db)) db.

Definition retry_tx (task_id job_key : str) (payload : dict) : M control_db py_error unit :=
  db ← get;
  row ← lift (of_option ControlStoreError (tasks db !! task_id));
  _ ← lift (raise_if (negb (bool_decide (t_kind row = INVESTIGATE))) ControlStoreError);
  expected ← lift (deterministic_task_id INVESTIGATE (t_due_slot_utc row) (Some job_key));
  _ ← lift (raise_if (negb (bool_decide (expected = task_id))) PayloadConflictError);
  _ ← lift (raise_if (negb (bool_decide (t_state row = Failed))) ControlStoreError);
  _ ← lift (check_retry (t_payload_json row) payload);
  modify (set_task_payload task_id (payload_text payload)).

Definition retry_investigation (task_id : str) (payload : dict) : M control_db py_error unit :=
  payload ← lift (validate_payload payload);
  _ ← lift (validate_investigation_payload payload);
  job_key ← lift (text_field payload (u "investigation_id"));
  transaction (retry_tx task_id job_key payload).
End store.

(** ** Diagnostics and sanitisers *)

Definition zero_delivery_check (db : control_db) : nat * list str :=
  let kinds := map t_kind (filter (λ t, t_kind t = DELIVERY_KIND_FORBIDDEN)
                             (map snd (map_to_list (tasks db)))) in
  (length kinds, kinds).

Definition hash_stdout (stdout : str) : str := sha256 stdout.

Definition printable (c : N) : bool :=
  (c =? 10)%N || (c =? 9)%N || in_range 32 126 c || (128 <=? c)%N.

Definition sanitize_error_message (message : option str) (max_length : nat) : option str :=
  match message with
  | None => None
  | Some m =>
      let cleaned := filter (λ c, printable c = true) m in
      Some (if (max_length <? length cleaned)%nat
            then take (max_length - 3) cleaned ++ u "..." else cleaned)
  end.

Definition SANITIZED_ERROR_CLASSES : list str :=
  map u ["RuntimeError"; "ValueError"; "TimeoutError"; "FileNotFoundError";
         "PermissionError"; "ProcessLookupError"; "OSError"; "sqlite3.OperationalError";
         "sqlite3.DatabaseError"; "sqlite3.IntegrityError"; "DeliveryForbiddenError";
         "UnknownKindError"; "ClaimMismatchError"; "ControlStoreError"; "ConfigurationError";
         "ScheduleError"; "PathEscapeError"; "SymlinkForbiddenError"].

Definition sanitize_error_class (error_class : option str) : option str :=
  match error_class with
  | None => None
  | Some c => if bool_decide (c ∈ SANITIZED_ERROR_CLASSES) then Some c
              else Some (u "ControlStoreError")
  end.
