(* ===== verification/Leases.v ===== *)
(** * Leases: what the control store guarantees.

    The invariant of the three tables, its preservation by every operation, and
    its consequences for workers: one owner and generation per claim, strictly
    increasing generations, at most one run per generation, and no way back for
    a worker that lost its lease. *)
From S2P Require Import Prelude Text Sha256 Json Calendar Timestamps Investigation ControlStore.
Local Open Scope Z_scope.

(** ** Each operation on every branch *)

Section operations.
Context `{IsoParser}.
Implicit Types (db : control_db) (c : claim_row) (t : task) (r : run).

Lemma fenced_claim_Ok db id owner g now c :
  fenced_claim db id owner g now = Ok c ↔
  claims db !! id = Some c ∧ c_owner c = owner ∧ c_generation c = g ∧
  ∃ expiry, parse_utc (c_expires_at_utc c) = Ok expiry ∧ now < expiry.
Proof.
  unfold fenced_claim. split.
  - intros Hf. inv_ok.
    repeat match goal with
    | H : (_ =? _) = true |- _ => apply Z.eqb_eq in H
    | H : (_ <=? _) = false |- _ => apply Z.leb_gt in H
    end. eauto 10.
  - intros (-> & <- & <- & e & Hp & He). cbn [of_option mbind result_bind].
    rewrite bool_decide_eq_true_2, Z.eqb_refl by done. cbn [negb raise_if mbind result_bind].
    rewrite Hp. cbn [mbind result_bind]. by rewrite (proj2 (Z.leb_gt _ _)).
Qed.

(** What a successful [complete] leaves. *)
Definition completed_db (id : str) (r : run) (status : task_state) db : control_db :=
  set_claims (delete id (claims db))
    (set_task_state id status None (set_runs (runs db ++ [r]) db)).

Lemma complete_Ok id owner g status rep now db u0 db' :
  complete id owner g status rep now db = (Ok u0, db') ↔
  (status = Completed ∨ status = Failed) ∧ is_Some (tasks db !! id) ∧
  is_ok (fenced_claim db id owner g now) = true ∧
  db' = completed_db id (run_of id owner g status rep now) status db ∧ u0 = tt.
Proof.
  unfold complete. rewrite M_bind_Ok. unfold lift. split.
  - intros (? & ? & [= Hs <-] & Htx). apply raise_if_Ok in Hs.
    apply negb_false_iff, bool_decide_eq_true in Hs.
    rewrite !elem_of_cons, elem_of_nil in Hs.
    rewrite transaction_Ok in Htx. unfold complete_tx in Htx. inv_run.
    cbn [run_of run_task_id run_owner run_generation run_status] in *.
    match goal with H : insert_run _ _ = _ |- _ => unfold insert_run in H; rename H into Hi end.
    cbn [run_of run_task_id] in Hi.
    match goal with H : fenced_claim _ _ _ _ _ = Ok _ |- _ => rename H into Hf end.
    destruct (tasks _ !! id) as [t|] eqn:Ht; [|done]. injection Hi as <- <-.
    split; [tauto|]. split; [by eexists|]. split; [by rewrite Hf|].
    done.
  - intros (Hs & [t Ht] & [c Hf]%is_ok_true & -> & ->).
    exists tt, db. rewrite bool_decide_eq_true_2
      by (rewrite !elem_of_cons; naive_solver). split; [done|].
    unfold transaction, complete_tx, mbind, M_bind, get, lift, modify.
    cbn [run_of run_task_id run_owner run_generation run_status].
    rewrite Hf. unfold insert_run. cbn [run_of run_task_id]. by rewrite Ht.
Qed.

Lemma transaction_bind_Err {A B} (m : result py_error A) (f : A → M control_db py_error B) db e db' :
  (∀ a, f a db = (Err e, db') → db' = db) → (lift m ≫= f) db = (Err e, db') → db' = db.
Proof. intros Hf [[= _ <-]|(a & ? & [= _ <-] & Hr)]%M_bind_Err; eauto. Qed.

Lemma transaction_same {A} (m : M control_db py_error A) db e db' :
  transaction m db = (Err e, db') → db' = db.
Proof. rewrite transaction_Err. tauto. Qed.

Lemma complete_Err id owner g status rep now db e db' :
  complete id owner g status rep now db = (Err e, db') → db' = db.
Proof. apply transaction_bind_Err. intros _. apply transaction_same. Qed.
Lemma claim_Err id owner ttl now db e db' :
  claim id owner ttl now db = (Err e, db') → db' = db.
Proof. apply transaction_bind_Err. intros _. apply transaction_same. Qed.
Lemma retry_Err id payload db e db' :
  retry_investigation id payload db = (Err e, db') → db' = db.
Proof. do 3 (apply transaction_bind_Err; intros ?). apply transaction_same. Qed.
Lemma renew_Err id owner g ttl now db e db' :
  renew_claim id owner g ttl now db = (Err e, db') → db' = db.
Proof.
  apply transaction_bind_Err. intros _ [Hr|(? & ? & _ & [=])]%M_bind_Err.
  by apply transaction_same in Hr.
Qed.
Lemma enqueue_Err kind slot payload now db e db' :
  enqueue kind slot payload now db = (Err e, db') → db' = db.
Proof.
  apply transaction_bind_Err. intros [[id key] text] [Hr|(? & ? & _ & [=])]%M_bind_Err.
  by apply transaction_same in Hr.
Qed.

(** The claim that a successful [claim] leaves. *)
Definition claimed_db (id : str) c (ts : str) db : control_db :=
  set_task_state id Claimed (Some (c_generation c)) (put_claim id c db).

(** [claim] takes a free task, takes over an expired claim, or repeats a live
    claim of the same owner. *)
Lemma claim_Ok id owner ttl now db g a expires db' :
  claim id owner ttl now db = (Ok (g, a, expires), db') →
  0 < ttl ∧ ∃ t, tasks db !! id = Some t ∧ (t_state t = Pending ∨ t_state t = Claimed) ∧
  let ts := utc_now_iso now in
  let new_expiry := utc_now_iso (shift now ttl) in
  match claims db !! id with
  | None => g = t_generation t + 1 ∧ a = 1 ∧ expires = new_expiry ∧
      db' = claimed_db id (mk_claim owner g a expires ts) ts db
  | Some c => ∃ expiry, parse_utc (c_expires_at_utc c) = Ok expiry ∧
      if expiry <=? now
      then g = c_generation c + 1 ∧ a = c_attempt c + 1 ∧ expires = new_expiry ∧
           db' = claimed_db id (mk_claim owner g a expires ts) ts db
      else c_owner c = owner ∧ g = c_generation c ∧ a = c_attempt c ∧
           expires = c_expires_at_utc c ∧ db' = db
  end.
Proof.
  intros (? & ? & [= Httl <-] & Htx)%M_bind_Ok.
  apply raise_if_Ok, Z.leb_gt in Httl. split; [done|].
  rewrite transaction_Ok in Htx. unfold claim_tx in Htx.
  apply M_bind_Ok in Htx as (? & ? & [= <- <-] & Htx).
  apply M_bind_Ok in Htx as (t & ? & [= Ht <-] & Htx). apply of_option_Ok in Ht.
  apply M_bind_Ok in Htx as (? & ? & [= Hs <-] & Htx).
  apply raise_if_Ok, negb_false_iff, bool_decide_eq_true in Hs.
  rewrite !elem_of_cons, elem_of_nil in Hs.
  exists t. split; [done|]. split; [tauto|].
  destruct (claims db !! id) as [c|]; cbn zeta in *.
  - apply M_bind_Ok in Htx as (expiry & ? & [= He <-] & Htx). exists expiry. split; [done|].
    destruct (expiry <=? now).
    + inv_run. by simplify_eq.
    + apply M_bind_Ok in Htx as (? & ? & [= Ho <-] & [= <- <- <- <-]).
      by apply raise_if_Ok, negb_false_iff, bool_decide_eq_true in Ho.
  - inv_run. by simplify_eq.
Qed.

Lemma renew_claim_Ok id owner g ttl now db expires db' :
  renew_claim id owner g ttl now db = (Ok expires, db') ↔
  0 < ttl ∧ expires = utc_now_iso (shift now ttl) ∧
  ∃ c, fenced_claim db id owner g now = Ok c ∧
    db' = put_claim id (mk_claim owner g (c_attempt c) expires (utc_now_iso now)) db.
Proof.
  split.
  - intros (? & ? & [= Httl <-] & (u0 & db1 & Htx & [= <- <-])%M_bind_Ok)%M_bind_Ok.
    apply raise_if_Ok, Z.leb_gt in Httl. split; [done|]. split; [done|].
    rewrite transaction_Ok in Htx. unfold renew_tx in Htx. inv_run.
    match goal with H : fenced_claim _ _ _ _ _ = Ok ?c |- _ =>
      exists c; split; [exact H|]; apply fenced_claim_Ok in H as (_ & <- & <- & _) end.
    done.
  - intros (Httl & -> & c & Hf & ->).
    unfold renew_claim, transaction, renew_tx, mbind, M_bind, get, lift, modify, mret, M_ret.
    rewrite (proj2 (Z.leb_gt ttl 0)) by done. cbn [raise_if]. rewrite Hf.
    by apply fenced_claim_Ok in Hf as (_ & <- & <- & _).
Qed.

Lemma delivery_not_allowed : DELIVERY_KIND_FORBIDDEN ∉ ALLOWED_KINDS.
Proof.
  assert (bool_decide (DELIVERY_KIND_FORBIDDEN ∈ ALLOWED_KINDS) = false) as Hb by reflexivity.
  by apply bool_decide_eq_false in Hb.
Qed.

Lemma validate_kind_Ok kind k :
  validate_kind kind = Ok k ↔ k = kind ∧ kind ∈ ALLOWED_KINDS.
Proof.
  unfold validate_kind.
  destruct (bool_decide_reflect (kind = DELIVERY_KIND_FORBIDDEN)) as [Hd|Hd];
    cbn [raise_if mbind result_bind].
  - split; [done|]. intros [_ Ha]. rewrite Hd in Ha. by apply delivery_not_allowed in Ha.
  - case_bool_decide; cbn; naive_solver.
Qed.

Lemma deterministic_task_id_Ok kind slot key id :
  deterministic_task_id kind slot key = Ok id →
  kind ∈ ALLOWED_KINDS ∧ id = task_id_of kind slot (default [] key).
Proof.
  unfold deterministic_task_id. intros Hd. inv_ok.
  match goal with H : validate_kind _ = Ok _ |- _ => apply validate_kind_Ok in H as [_ ?] end.
  done.
Qed.

Lemma enqueue_arguments_Ok kind slot payload id key text :
  enqueue_arguments kind slot payload = Ok (id, key, text) →
  kind ∈ ALLOWED_KINDS ∧ id = task_id_of kind slot key.
Proof.
  unfold enqueue_arguments. intros He.
  apply bind_Ok in He as (? & _ & He). apply bind_Ok in He as (? & _ & He).
  apply bind_Ok in He as (p & _ & He). apply bind_Ok in He as (key' & _ & He).
  apply bind_Ok in He as (id' & Hid & [= -> -> _]).
  apply deterministic_task_id_Ok in Hid as [Hk ->]. split; [done|].
  by destruct key.
Qed.

Lemma enqueue_Ok kind slot payload now db id created db' :
  enqueue kind slot payload now db = (Ok (id, created), db') ↔
  ∃ key text, enqueue_arguments kind slot payload = Ok (id, key, text) ∧
    match tasks db !! id with
    | Some t => t_payload_json t = text ∧ created = false ∧ db' = db
    | None => slot_taken db kind slot key = false ∧ created = true ∧
        db' = set_tasks (<[id := mk_task kind slot key text Pending 0 (utc_now_iso now)]>
                           (tasks db)) db
    end.
Proof.
  unfold enqueue. rewrite M_bind_Ok. unfold lift. split.
  - intros ([[id' key] text] & ? & [= Ha <-] & (cr & ? & Htx & [= <- <- <-])%M_bind_Ok).
    exists key, text. split; [done|]. rewrite transaction_Ok in Htx. unfold enqueue_tx in Htx.
    cbn [t_payload_json t_kind t_due_slot_utc t_job_key] in Htx.
    apply M_bind_Ok in Htx as (? & ? & [= <- <-] & Htx).
    destruct (tasks db !! id') as [t|].
    + case_bool_decide; [|done]. by injection Htx as <- <-.
    + destruct (slot_taken db kind slot key); [done|]. inv_run. done.
  - intros (key & text & Ha & Hm). eexists _, db. split; [by rewrite Ha|].
    unfold transaction, enqueue_tx, mbind, M_bind, get, put, mret, M_ret, throw.
    cbn [t_payload_json t_kind t_due_slot_utc t_job_key].
    destruct (tasks db !! id) as [t|].
    + destruct Hm as (Ht & -> & ->). by rewrite bool_decide_eq_true_2.
    + by destruct Hm as (-> & -> & ->).
Qed.

Lemma retry_Ok id payload db u0 db' :
  retry_investigation id payload db = (Ok u0, db') →
  ∃ t cleaned, tasks db !! id = Some t ∧ t_state t = Failed ∧ t_kind t = INVESTIGATE ∧
    validate_payload payload = Ok cleaned ∧
    check_retry (t_payload_json t) cleaned = Ok tt ∧
    db' = set_task_payload id (payload_text cleaned) db.
Proof.
  unfold retry_investigation. intros Hr.
  apply M_bind_Ok in Hr as (cleaned & ? & [= Hc <-] & Hr).
  apply M_bind_Ok in Hr as (? & ? & [= _ <-] & Hr).
  apply M_bind_Ok in Hr as (key & ? & [= _ <-] & Htx).
  rewrite transaction_Ok in Htx. unfold retry_tx in Htx.
  apply M_bind_Ok in Htx as (? & ? & [= <- <-] & Htx).
  apply M_bind_Ok in Htx as (t & ? & [= Ht <-] & Htx). apply of_option_Ok in Ht.
  apply M_bind_Ok in Htx as (? & ? & [= Hk <-] & Htx).
  apply M_bind_Ok in Htx as (? & ? & [= _ <-] & Htx).
  apply M_bind_Ok in Htx as (? & ? & [= _ <-] & Htx).
  apply M_bind_Ok in Htx as (? & ? & [= Hs <-] & Htx).
  apply M_bind_Ok in Htx as ([] & ? & [= Hch <-] & Htx).
  apply raise_if_Ok, negb_false_iff, bool_decide_eq_true in Hk, Hs.
  injection Htx as _ <-. exists t, cleaned. done.
Qed.
End operations.

(** ** The invariant of the tables *)

Section invariant.
Context `{IsoParser}.
Implicit Types (db : control_db) (c : claim_row) (t : task) (r : run).

(** A claim belongs to a claimed task of the same generation, and its expiry
    is a printed instant. *)
Definition claim_ok db (id : str) c : Prop :=
  ∃ t, tasks db !! id = Some t ∧ t_state t = Claimed ∧ t_generation t = c_generation c ∧
    1 <= c_generation c ∧ 1 <= c_attempt c ∧
    ∃ e, instant e ∧ c_expires_at_utc c = utc_now_iso e.

Definition task_ok db (id : str) t : Prop :=
  0 <= t_generation t ∧ (t_state t = Claimed → is_Some (claims db !! id)) ∧
  t_kind t ∈ ALLOWED_KINDS ∧ id = task_id_of (t_kind t) (t_due_slot_utc t) (t_job_key t).

(** A run's generation was handed out, and is no longer held. *)
Definition run_ok db r : Prop :=
  ∃ t, tasks db !! run_task_id r = Some t ∧ 1 <= run_generation r <= t_generation t ∧
    (is_Some (claims db !! run_task_id r) → run_generation r < t_generation t).

Definition run_key r : str * Z := (run_task_id r, run_generation r).

Definition control_wf db : Prop :=
  (∀ id c, claims db !! id = Some c → claim_ok db id c) ∧
  (∀ id t, tasks db !! id = Some t → task_ok db id t) ∧
  (∀ r, r ∈ runs db → run_ok db r) ∧ NoDup (map run_key (runs db)).

Definition empty_control : control_db := mk_control ∅ ∅ [].

Lemma empty_control_wf : control_wf empty_control.
Proof.
  unfold control_wf, empty_control. cbn [claims tasks runs].
  split; [intros id c; by rewrite lookup_empty|].
  split; [intros id t; by rewrite lookup_empty|].
  split; [by intros r ?%elem_of_nil|constructor].
Qed.

(** Reading a task after a state update. *)
Lemma set_task_state_lookup id st g db k :
  tasks (set_task_state id st g db) !! k =
    if decide (k = id) then
      (λ t, mk_task (t_kind t) (t_due_slot_utc t) (t_job_key t) (t_payload_json t) st
              (default (t_generation t) g) (t_created_at t)) <$> tasks db !! k
    else tasks db !! k.
Proof.
  cbn. destruct (decide (k = id)) as [->|Hne]; [apply lookup_alter_eq|].
  by rewrite lookup_alter_ne.
Qed.

Lemma claimed_db_tasks id c ts db k :
  tasks (claimed_db id c ts db) !! k =
    if decide (k = id) then
      (λ t, mk_task (t_kind t) (t_due_slot_utc t) (t_job_key t) (t_payload_json t) Claimed
              (c_generation c) (t_created_at t)) <$> tasks db !! k
    else tasks db !! k.
Proof. unfold claimed_db. by rewrite set_task_state_lookup. Qed.

Lemma claimed_db_claims id c ts db k :
  claims (claimed_db id c ts db) !! k = if decide (k = id) then Some c else claims db !! k.
Proof.
  cbn. destruct (decide (k = id)) as [->|Hne]; [apply lookup_insert_eq|].
  by rewrite lookup_insert_ne.
Qed.

(** Handing out the next generation keeps the invariant. *)
Lemma claimed_db_wf id owner g a e ts db t :
  control_wf db → tasks db !! id = Some t → g = t_generation t + 1 → 1 <= a → instant e →
  control_wf (claimed_db id (mk_claim owner g a (utc_now_iso e) ts) ts db).
Proof.
  intros (Hc & Ht & Hr & Hnd) Hid -> Ha He.
  destruct (Ht id t Hid) as (Hg & _ & Hk & Heq).
  split; [|split; [|split; [|exact Hnd]]].
  - intros k c. rewrite claimed_db_claims. destruct (decide (k = id)) as [->|Hne].
    + intros [= <-]. unfold claim_ok. rewrite claimed_db_tasks, decide_True, Hid by done.
      eexists. split; [done|]. cbn. split_and!; try done; try lia. eauto.
    + intros Hk'. destruct (Hc k c Hk') as (t' & Ht' & Hrest).
      exists t'. by rewrite claimed_db_tasks, decide_False.
  - intros k t'. rewrite claimed_db_tasks. unfold task_ok. rewrite claimed_db_claims.
    destruct (decide (k = id)) as [->|Hne]; [|apply Ht].
    rewrite Hid. intros [= <-]. cbn. split_and!; try done; try lia.
  - intros r Hin. destruct (Hr r Hin) as (t' & Ht' & Hb & Hlt). unfold run_ok.
    rewrite claimed_db_tasks, claimed_db_claims.
    destruct (decide (run_task_id r = id)) as [Heqr|Hne]; [|by eauto].
    rewrite Heqr in *. simplify_eq. rewrite Hid. eexists. split; [done|]. cbn. split; [lia|].
    intros _. lia.
Qed.

Lemma claim_wf id owner ttl now db res db' :
  claim id owner ttl now db = (res, db') → instant (shift now ttl) →
  control_wf db → control_wf db'.
Proof.
  intros Hrun Hi Hwf. destruct res as [[[g a] expires]|e]; [|by apply claim_Err in Hrun as ->].
  apply claim_Ok in Hrun as (Httl & t & Ht & _ & Hcase).
  pose proof Hwf as (Hc & Hts & _).
  destruct (claims db !! id) as [c|] eqn:Hcl.
  - destruct Hcase as (expiry & _ & Hcase).
    destruct (expiry <=? now); [|by destruct Hcase as (_ & _ & _ & _ & ->)].
    destruct Hcase as (-> & -> & -> & ->).
    destruct (Hc id c Hcl) as (t' & Ht' & _ & Hg & _ & Ha & _). simplify_eq.
    eapply claimed_db_wf; [done|exact Ht|lia|lia|done].
  - destruct Hcase as (-> & -> & -> & ->).
    by eapply claimed_db_wf; [done|exact Ht|..].
Qed.

Lemma renew_wf id owner g ttl now db res db' :
  renew_claim id owner g ttl now db = (res, db') → instant (shift now ttl) →
  control_wf db → control_wf db'.
Proof.
  intros Hrun Hi Hwf. destruct res as [expires|e]; [|by apply renew_Err in Hrun as ->].
  apply renew_claim_Ok in Hrun as (_ & -> & c & Hf & ->).
  apply fenced_claim_Ok in Hf as (Hcl & <- & <- & _).
  destruct Hwf as (Hc & Ht & Hr & Hnd).
  assert (∀ k, is_Some (claims (put_claim id (mk_claim (c_owner c) (c_generation c) (c_attempt c)
    (utc_now_iso (shift now ttl)) (utc_now_iso now)) db) !! k) ↔ is_Some (claims db !! k)) as Hdom.
  { intros k. cbn. destruct (decide (k = id)) as [->|Hne].
    - rewrite lookup_insert_eq, Hcl. split; by eexists.
    - by rewrite lookup_insert_ne. }
  split; [|split; [|split; [|exact Hnd]]].
  - intros k c'. cbn. rewrite lookup_insert_Some. intros [[<- <-]|[_ Hk]]; [|by apply Hc].
    destruct (Hc id c Hcl) as (t & Hid & Hs & Hg & H1 & Ha & _).
    exists t. split; [done|]. cbn. split_and!; try done. eauto.
  - intros k t Hk. destruct (Ht k t Hk) as (Hg & Hs & Hrest). split; [done|].
    split; [|done]. intros Hcl'. by apply Hdom, Hs.
  - intros r Hin. destruct (Hr r Hin) as (t & Hid & Hb & Hlt). exists t.
    split; [done|]. split; [done|]. by intros Hs%Hdom%Hlt.
Qed.

Lemma enqueue_wf kind slot payload now db res db' :
  enqueue kind slot payload now db = (res, db') → control_wf db → control_wf db'.
Proof.
  intros Hrun Hwf. destruct res as [[id created]|e]; [|by apply enqueue_Err in Hrun as ->].
  apply enqueue_Ok in Hrun as (key & text & Ha & Hm).
  destruct (tasks db !! id) as [t|] eqn:Hid; [by destruct Hm as (_ & _ & ->)|].
  destruct Hm as (_ & _ & ->). apply enqueue_arguments_Ok in Ha as [Hk Hideq].
  destruct Hwf as (Hc & Ht & Hr & Hnd).
  assert (∀ k t, tasks db !! k = Some t →
    <[id := mk_task kind slot key text Pending 0 (utc_now_iso now)]> (tasks db) !! k = Some t)
    as Hkeep by (intros k t Hkt; rewrite lookup_insert_ne; [done|by intros ->; simplify_eq]).
  split; [|split; [|split; [|exact Hnd]]].
  - intros k c Hcl. destruct (Hc k c Hcl) as (t & Hkt & Hrest). exists t.
    split; [by apply Hkeep|done].
  - intros k t. cbn. rewrite lookup_insert_Some. intros [[<- <-]|[_ Hkt]]; [|by apply Ht].
    split; [done|]. by split.
  - intros r Hin. destruct (Hr r Hin) as (t & Hkt & Hrest). exists t.
    split; [by apply Hkeep|done].
Qed.

Lemma retry_wf id payload db res db' :
  retry_investigation id payload db = (res, db') → control_wf db → control_wf db'.
Proof.
  intros Hrun Hwf. destruct res as [u0|e]; [|by apply retry_Err in Hrun as ->].
  apply retry_Ok in Hrun as (t & cleaned & Hid & Hs & _ & _ & _ & ->).
  destruct Hwf as (Hc & Ht & Hr & Hnd).
  assert (∀ k t', tasks db !! k = Some t' → ∃ t'',
    tasks (set_task_payload id (payload_text cleaned) db) !! k = Some t'' ∧
    t_generation t'' = t_generation t' ∧ (t_state t' = Claimed → t'' = t')) as Hkeep.
  { intros k t' Hk. cbn. destruct (decide (k = id)) as [->|Hne].
    - rewrite lookup_alter_eq, Hk. eexists. split; [done|]. split; [done|].
      intros Hcl. simplify_eq. by rewrite Hs in Hcl.
    - rewrite lookup_alter_ne by done. eauto. }
  split; [|split; [|split; [|exact Hnd]]].
  - intros k c Hcl. destruct (Hc k c Hcl) as (t' & Hk & Hcl' & Hrest).
    destruct (Hkeep k t' Hk) as (t'' & Hk'' & _ & Heq). rewrite Heq in Hk'' by done.
    exists t'. done.
  - intros k t'. cbn. destruct (decide (k = id)) as [->|Hne].
    + rewrite lookup_alter_eq, Hid. intros [= <-]. destruct (Ht id t Hid) as (Hg & _ & Hrest).
      by split.
    + rewrite lookup_alter_ne by done. apply Ht.
  - intros r Hin. destruct (Hr r Hin) as (t' & Hk & Hb & Hlt).
    destruct (Hkeep _ t' Hk) as (t'' & Hk'' & Hg & _). exists t''. rewrite Hg. done.
Qed.

Lemma complete_wf id owner g status rep now db res db' :
  complete id owner g status rep now db = (res, db') → control_wf db → control_wf db'.
Proof.
  intros Hrun Hwf. destruct res as [u0|e]; [|by apply complete_Err in Hrun as ->].
  apply complete_Ok in Hrun as (Hst & [t Hid] & [c Hf]%is_ok_true & -> & _).
  apply fenced_claim_Ok in Hf as (Hcl & _ & Hcg & _).
  destruct Hwf as (Hc & Ht & Hr & Hnd).
  destruct (Hc id c Hcl) as (t0 & Ht0 & _ & Hg & Hg1 & _). simplify_eq.
  assert (∀ k, tasks (completed_db id (run_of id owner (c_generation c) status rep now) status db) !! k =
    if decide (k = id) then
      (λ t, mk_task (t_kind t) (t_due_slot_utc t) (t_job_key t) (t_payload_json t) status
              (t_generation t) (t_created_at t)) <$> tasks db !! k
    else tasks db !! k) as Htasks
    by (intros k; unfold completed_db; cbn [set_claims tasks]; by rewrite set_task_state_lookup).
  assert (∀ k, claims (completed_db id (run_of id owner (c_generation c) status rep now) status db) !! k =
    if decide (k = id) then None else claims db !! k) as Hclaims.
  { intros k. cbn. destruct (decide (k = id)) as [->|Hne]; [apply lookup_delete_eq|].
    by rewrite lookup_delete_ne. }
  split; [|split; [|split]].
  - intros k c'. rewrite Hclaims. destruct (decide (k = id)) as [->|Hne]; [done|].
    intros Hk. destruct (Hc k c' Hk) as (t' & Hk' & Hrest). exists t'.
    by rewrite Htasks, decide_False.
  - intros k t'. rewrite Htasks. unfold task_ok. rewrite Hclaims.
    destruct (decide (k = id)) as [->|Hne]; [|apply Ht].
    rewrite Hid. intros [= <-]. destruct (Ht id t Hid) as (Hg0 & _ & Hrest).
    cbn. split; [done|]. split; [|done]. intros ->. by destruct Hst.
  - intros r [Hin|Hin]%elem_of_app.
    + destruct (Hr r Hin) as (t' & Hk & Hb & Hlt). unfold run_ok. rewrite Htasks, Hclaims.
      destruct (decide (run_task_id r = id)) as [Heqr|Hne]; [|by eauto].
      rewrite Hk. eexists. split; [done|]. cbn. split; [done|by intros []].
    + apply list_elem_of_singleton in Hin as ->. unfold run_ok.
      rewrite Htasks, Hclaims. cbn [run_of run_task_id run_generation].
      rewrite !decide_True, Hid by done. eexists. split; [done|]. cbn.
      split; [lia|by intros []].
  - cbn [completed_db set_claims runs set_task_state set_tasks set_runs]. rewrite map_app. apply NoDup_app. split_and!; [done| |apply NoDup_singleton].
    intros k Hin ->%list_elem_of_singleton. cbn in Hin.
    apply list_elem_of_fmap in Hin as (r & Hk & Hin). injection Hk as Hkid Hkg.
    destruct (Hr r Hin) as (t' & Hk & Hb & Hlt). rewrite <-Hkid in *. simplify_eq.
    specialize (Hlt ltac:(by eexists)). cbn in *. lia.
Qed.
End invariant.

(** ** Runs of the control plane *)

Section steps.
Context `{IsoParser}.

(** One operation by any worker at any time, whatever it returned.  The side
    conditions keep the printed times within the years 1000 to 9999. *)
Inductive control_step : control_db → control_db → Prop :=
  | step_enqueue kind slot payload now res db db' :
      enqueue kind slot payload now db = (res, db') → control_step db db'
  | step_claim id owner ttl now res db db' :
      claim id owner ttl now db = (res, db') → instant (shift now ttl) → control_step db db'
  | step_renew id owner g ttl now res db db' :
      renew_claim id owner g ttl now db = (res, db') → instant (shift now ttl) →
      control_step db db'
  | step_complete id owner g status rep now res db db' :
      complete id owner g status rep now db = (res, db') → control_step db db'
  | step_retry id payload res db db' :
      retry_investigation id payload db = (res, db') → control_step db db'.

Inductive control_steps (db0 : control_db) : control_db → Prop :=
  | control_refl : control_steps db0 db0
  | control_trans db db' :
      control_steps db0 db → control_step db db' → control_steps db0 db'.

Lemma control_step_wf db db' : control_step db db' → control_wf db → control_wf db'.
Proof.
  intros []; eauto using enqueue_wf, claim_wf, renew_wf, complete_wf, retry_wf.
Qed.

Lemma control_steps_wf db db' : control_steps db db' → control_wf db → control_wf db'.
Proof. induction 1; eauto using control_step_wf. Qed.

(** What an operation may do to a task it finds. *)
Definition task_evolves (db db' : control_db) : Prop :=
  ∀ id t, tasks db !! id = Some t →
    ∃ t', tasks db' !! id = Some t' ∧ t_generation t <= t_generation t' ∧
      t_kind t' = t_kind t ∧ t_due_slot_utc t' = t_due_slot_utc t ∧
      t_job_key t' = t_job_key t ∧ t_created_at t' = t_created_at t ∧
      (t_state t = Completed → t' = t).

#[export] Instance task_evolves_preorder : PreOrder task_evolves.
Proof.
  split.
  - intros db id t Ht. exists t. split_and!; done || lia.
  - intros a b c Hab Hbc id t Ht.
    destruct (Hab id t Ht) as (t1 & Ht1 & Hg1 & ? & ? & ? & ? & Hf1).
    destruct (Hbc id t1 Ht1) as (t2 & Ht2 & Hg2 & ? & ? & ? & ? & Hf2).
    exists t2. split; [done|]. split; [lia|]. split_and!; try congruence.
    intros Hs. rewrite Hf1 in Hf2 by done. auto.
Qed.

Lemma runs_grow_and_tasks_evolve db db' :
  control_step db db' → control_wf db →
  runs db `prefix_of` runs db' ∧ task_evolves db db'.
Proof.
  intros Hstep (Hc & Ht & _). destruct Hstep
    as [kind slot payload now [[id created]|e] db db' Hr|id owner ttl now [[[g a] x]|e] db db' Hr _
       |id owner g ttl now [x|e] db db' Hr _|id owner g status rep now [x|e] db db' Hr
       |id payload [x|e] db db' Hr].
  - apply enqueue_Ok in Hr as (key & text & _ & Hm). destruct (tasks db !! id) eqn:Hid.
    { destruct Hm as (_ & _ & ->). split; reflexivity. }
    destruct Hm as (_ & _ & ->). split; [reflexivity|]. intros k t Hk. exists t.
    split; [|split_and!; done || lia]. cbn. rewrite lookup_insert_ne; [done|].
    intros ->. simplify_eq.
  - apply enqueue_Err in Hr as ->. split; reflexivity.
  - apply claim_Ok in Hr as (_ & t & Hid & Hs & Hm).
    assert (db' = db ∨ ∃ c ts, db' = claimed_db id c ts db ∧ t_generation t < c_generation c)
      as [->|(c & ts & -> & Hg)].
    { destruct (claims db !! id) as [c|] eqn:Hcl.
      - destruct Hm as (expiry & _ & Hm). destruct (expiry <=? now); [right|left; tauto].
        destruct Hm as (-> & -> & -> & ->). destruct (Hc id c Hcl) as (t' & ? & _ & ? & _).
        simplify_eq. eexists _, _. split; [done|]. cbn. lia.
      - destruct Hm as (-> & -> & -> & ->). right. eexists _, _. split; [done|]. cbn. lia. }
    { split; reflexivity. }
    split; [reflexivity|]. intros k t' Hk. rewrite claimed_db_tasks.
    destruct (decide (k = id)) as [->|Hne]; [|exists t'; split_and!; done || lia].
    rewrite Hk. simplify_eq. eexists. split; [done|]. cbn. split_and!; try done; try lia.
    intros Hs'. by destruct Hs as [Hs|Hs]; rewrite Hs in Hs'.
  - apply claim_Err in Hr as ->. split; reflexivity.
  - apply renew_claim_Ok in Hr as (_ & _ & c & _ & ->). split; [reflexivity|].
    intros k t Hk. exists t. split_and!; done || lia.
  - apply renew_Err in Hr as ->. split; reflexivity.
  - apply complete_Ok in Hr as (_ & _ & [c Hf]%is_ok_true & -> & _). split; [by eexists|].
    apply fenced_claim_Ok in Hf as (Hcl & _). destruct (Hc id c Hcl) as (t0 & Ht0 & Hs0 & _).
    intros k t Hk. unfold completed_db. cbn [set_claims tasks].
    rewrite set_task_state_lookup. cbn [set_runs tasks].
    destruct (decide (k = id)) as [->|Hne]; [|exists t; split_and!; done || lia].
    rewrite Hk. simplify_eq. eexists. split; [done|]. cbn. split_and!; try done; try lia.
    intros Hs. by rewrite Hs0 in Hs.
  - apply complete_Err in Hr as ->. split; reflexivity.
  - apply retry_Ok in Hr as (t0 & cleaned & Hid & Hs0 & _ & _ & _ & ->). split; [reflexivity|].
    intros k t Hk. cbn. destruct (decide (k = id)) as [->|Hne].
    + rewrite lookup_alter_eq, Hk. simplify_eq. eexists. split; [done|]. cbn.
      split_and!; try done; try lia. intros Hs. by rewrite Hs0 in Hs.
    + rewrite lookup_alter_ne by done. exists t. split_and!; done || lia.
  - apply retry_Err in Hr as ->. split; reflexivity.
Qed.

Lemma control_steps_history db db' :
  control_steps db db' → control_wf db →
  runs db `prefix_of` runs db' ∧ task_evolves db db'.
Proof.
  induction 1 as [|db1 db2 Hs IH Hstep]; intros Hwf; [split; reflexivity|].
  destruct (IH Hwf) as [Hr1 Ht1].
  destruct (runs_grow_and_tasks_evolve db1 db2 Hstep) as [Hr2 Ht2];
    [by eapply control_steps_wf|].
  split; etrans; eassumption.
Qed.

(** A claim of the new tables continues one of the same generation or starts a
    generation above all that the task had. *)
Lemma claim_origin db db' id c' :
  control_step db db' → control_wf db → claims db' !! id = Some c' →
  (∃ c, claims db !! id = Some c ∧ c_generation c = c_generation c') ∨
  (∃ t, tasks db !! id = Some t ∧ t_generation t < c_generation c').
Proof.
  intros Hstep (Hc & _) Hcl'. destruct Hstep
    as [kind slot payload now [[k created]|e] db db' Hr|k owner ttl now [[[g a] x]|e] db db' Hr _
       |k owner g ttl now [x|e] db db' Hr _|k owner g status rep now [x|e] db db' Hr
       |k payload [x|e] db db' Hr].
  - apply enqueue_Ok in Hr as (key & text & _ & Hm). left.
    destruct (tasks db !! k); [destruct Hm as (_ & _ & ->)|destruct Hm as (_ & _ & ->)]; eauto.
  - apply enqueue_Err in Hr as ->. eauto.
  - apply claim_Ok in Hr as (_ & t & Hid & _ & Hm).
    destruct (claims db !! k) as [c|] eqn:Hcl.
    + destruct Hm as (expiry & _ & Hm).
      destruct (expiry <=? now); [|destruct Hm as (_ & _ & _ & _ & ->); eauto].
      destruct Hm as (-> & -> & -> & ->). rewrite claimed_db_claims in Hcl'.
      destruct (decide (id = k)) as [->|Hne]; [right|by eauto]. injection Hcl' as <-. cbn.
      destruct (Hc k c Hcl) as (t' & ? & _ & ? & _). exists t'. split; [done|lia].
    + destruct Hm as (-> & -> & -> & ->). rewrite claimed_db_claims in Hcl'.
      destruct (decide (id = k)) as [->|Hne]; [right|by eauto]. injection Hcl' as <-. cbn.
      exists t. split; [done|lia].
  - apply claim_Err in Hr as ->. eauto.
  - apply renew_claim_Ok in Hr as (_ & _ & c & Hf & ->).
    apply fenced_claim_Ok in Hf as (Hcl & _ & Hg & _). left. revert Hcl'. cbn.
    rewrite lookup_insert_Some. intros [[<- <-]|[_ Hk]]; eauto.
  - apply renew_Err in Hr as ->. eauto.
  - apply complete_Ok in Hr as (_ & _ & _ & -> & _). left. revert Hcl'. cbn.
    rewrite lookup_delete_Some. intros [_ Hk]. eauto.
  - apply complete_Err in Hr as ->. eauto.
  - apply retry_Ok in Hr as (t0 & cleaned & _ & _ & _ & _ & _ & ->). left. eauto.
  - apply retry_Err in Hr as ->. eauto.
Qed.

(** Generation [g] of a task was handed out and is no longer claimed. *)
Definition lease_lost (db : control_db) (id : str) (g : Z) : Prop :=
  ∃ t, tasks db !! id = Some t ∧ g <= t_generation t ∧
    ∀ c, claims db !! id = Some c → c_generation c ≠ g.

Lemma lease_lost_step db db' id g :
  control_step db db' → control_wf db → lease_lost db id g → lease_lost db' id g.
Proof.
  intros Hstep Hwf (t & Ht & Hg & Hno).
  destruct (runs_grow_and_tasks_evolve db db' Hstep Hwf) as [_ Hev].
  destruct (Hev id t Ht) as (t' & Ht' & Hle & _). exists t'. split; [done|]. split; [lia|].
  intros c' Hc'. destruct (claim_origin db db' id c' Hstep Hwf Hc')
    as [(c & Hc & <-)|(t0 & Ht0 & Hlt)]; [by apply Hno|]. simplify_eq. lia.
Qed.

Lemma lease_lost_steps db db' id g :
  control_steps db db' → control_wf db → lease_lost db id g → lease_lost db' id g.
Proof.
  intros Hs Hwf. induction Hs as [|db1 db2 Hs IH Hstep]; [done|]. intros Hl.
  eapply lease_lost_step; [exact Hstep|by eapply control_steps_wf|by apply IH].
Qed.

Lemma lease_lost_fenced db id owner g now :
  lease_lost db id g → is_ok (fenced_claim db id owner g now) = false.
Proof.
  intros (t & _ & _ & Hno). destruct (fenced_claim db id owner g now) as [c|e] eqn:Hf; [|done].
  apply fenced_claim_Ok in Hf as (Hc & _ & Hg & _). by destruct (Hno c Hc).
Qed.

(** ** Workers *)

(** C11: Every database reached from an empty one is well formed: claims and tasks
    agree on the generation, every claimed task has its claim, every task has
    the identifier of its slot and an allowed kind, and no generation of a
    task has two runs. *)
Theorem control_invariant db : control_steps empty_control db → control_wf db.
Proof. intros Hs. eapply control_steps_wf; [exact Hs|apply empty_control_wf]. Qed.

(** C12: The history only grows: from any well-formed database, whatever workers
    do, recorded runs stay, tasks stay with their identity and a generation
    that never decreases, and a completed task never changes. *)
Theorem control_history db db' :
  control_wf db → control_steps db db' →
  runs db `prefix_of` runs db' ∧ task_evolves db db'.
Proof. intros Hwf Hs. by apply control_steps_history. Qed.

(** C3: A worker whose lease was lost stays fenced out: once its generation is not
    the claimed one, no later completion, renewal or fence check with that
    generation succeeds, by any owner at any time, and none changes anything. *)
Theorem lost_lease_fenced db db' id g owner status rep ttl now :
  control_wf db → lease_lost db id g → control_steps db db' →
  (complete id owner g status rep now db').2 = db' ∧
  (renew_claim id owner g ttl now db').2 = db' ∧
  is_ok (complete id owner g status rep now db').1 = false ∧
  is_ok (renew_claim id owner g ttl now db').1 = false ∧
  is_ok (assert_claim db' id owner g now) = false.
Proof.
  intros Hwf Hl Hs. apply (lease_lost_steps db db') in Hl; [|done..].
  pose proof (lease_lost_fenced db' id owner g now Hl) as Hf.
  assert (is_ok (complete id owner g status rep now db').1 = false) as Hc.
  { destruct (complete id owner g status rep now db') as [[u0|e] db2] eqn:Hr; [|done].
    apply complete_Ok in Hr as (_ & _ & Hok & _). congruence. }
  assert (is_ok (renew_claim id owner g ttl now db').1 = false) as Hn.
  { destruct (renew_claim id owner g ttl now db') as [[x|e] db2] eqn:Hr; [|done].
    apply renew_claim_Ok in Hr as (_ & _ & c & Hok & _). by rewrite Hok in Hf. }
  split; [|split; [|split; [exact Hc|split; [exact Hn|]]]].
  - destruct (complete id owner g status rep now db') as [[u0|e] db2] eqn:Hr; [done|].
    by apply complete_Err in Hr.
  - destruct (renew_claim id owner g ttl now db') as [[x|e] db2] eqn:Hr; [done|].
    by apply renew_Err in Hr.
  - unfold assert_claim. by destruct (fenced_claim db' id owner g now).
Qed.

(** ** Granting a lease *)

Lemma claim_free id owner ttl now db t :
  control_wf db → tasks db !! id = Some t → 0 < ttl →
  t_state t = Pending ∨ (t_state t = Claimed ∧ ∃ c e, claims db !! id = Some c ∧
    instant e ∧ c_expires_at_utc c = utc_now_iso e ∧ e <= now) →
  ∃ a db', claim id owner ttl now db =
    (Ok (t_generation t + 1, a, utc_now_iso (shift now ttl)), db').
Proof.
  intros (Hc & _) Ht Httl Hfree.
  unfold claim, mbind, M_bind, lift. rewrite (proj2 (Z.leb_gt ttl 0)) by done.
  cbn [raise_if]. unfold transaction, claim_tx, mbind, M_bind, get, lift.
  rewrite Ht. cbn [of_option].
  rewrite bool_decide_eq_true_2
    by (rewrite !elem_of_cons; destruct Hfree as [->|[-> _]]; tauto).
  cbn [negb raise_if]. destruct (claims db !! id) as [c|] eqn:Hcl.
  - destruct (Hc id c Hcl) as (t' & Ht' & Hs & Hg & _). simplify_eq.
    destruct Hfree as [Hp|(_ & c' & e & [= <-] & He & Hx & Hle)]; [by rewrite Hs in Hp|].
    rewrite Hx. unfold parse_utc. rewrite parse_utc_now_iso by done. cbn [of_option].
    rewrite (proj2 (Z.leb_le e now)) by done. rewrite Hg. by eexists _, _.
  - by eexists _, _.
Qed.

(** C13: A pending task, or one whose claim has expired, can be claimed by anyone,
    with the next generation; nobody else can then use the lease, and every
    earlier generation of the task is lost. *)
Theorem claim_succeeds id owner ttl now db t :
  control_wf db → tasks db !! id = Some t → 0 < ttl → instant (shift now ttl) →
  t_state t = Pending ∨ (t_state t = Claimed ∧ ∃ c e, claims db !! id = Some c ∧
    instant e ∧ c_expires_at_utc c = utc_now_iso e ∧ e <= now) →
  ∃ a db', claim id owner ttl now db =
      (Ok (t_generation t + 1, a, utc_now_iso (shift now ttl)), db') ∧
    is_ok (fenced_claim db' id owner (t_generation t + 1) now) = true ∧
    ∀ g0, g0 <= t_generation t → lease_lost db' id g0.
Proof.
  intros Hwf Ht Httl Hi Hfree.
  destruct (claim_free id owner ttl now db t Hwf Ht Httl Hfree) as (a & db' & Hrun).
  exists a, db'. split; [exact Hrun|].
  apply claim_Ok in Hrun as (_ & t' & Ht' & _ & Hm). simplify_eq.
  assert (∃ c ts, db' = claimed_db id c ts db ∧ c_owner c = owner ∧
    c_generation c = t_generation t + 1 ∧ c_expires_at_utc c = utc_now_iso (shift now ttl))
    as (c & ts & -> & Ho & Hg & Hx).
  { destruct (claims db !! id) as [c|] eqn:Hcl.
    - destruct Hm as (expiry & _ & Hm). destruct (expiry <=? now).
      + destruct Hm as (Hg & -> & _ & ->). by eexists _, _.
      + destruct Hm as (_ & Hg & _). destruct Hwf as (Hc & _).
        destruct (Hc id c Hcl) as (t' & ? & _ & Hg' & _). simplify_eq. lia.
    - destruct Hm as (Hg & -> & _ & ->). by eexists _, _. }
  split.
  - rewrite is_ok_true. exists c. apply fenced_claim_Ok.
    rewrite claimed_db_claims, decide_True by done. split; [done|]. split; [done|].
    split; [done|]. exists (shift now ttl). rewrite Hx. unfold parse_utc.
    rewrite parse_utc_now_iso by done. split; [done|]. unfold shift. lia.
  - intros g0 Hg0. unfold lease_lost.
    rewrite claimed_db_tasks, claimed_db_claims, !decide_True, Ht by done.
    eexists. split; [done|]. cbn. split; [lia|]. intros c' [= <-]. lia.
Qed.

(** C4: While a lease is live, every other owner is refused and the owner gets the
    same lease back, without any change. *)
Theorem live_claim_exclusive id owner g now db c :
  control_wf db → fenced_claim db id owner g now = Ok c →
  (∀ other ttl, 0 < ttl → other ≠ owner →
     claim id other ttl now db = (Err ControlStoreError, db)) ∧
  (∀ ttl, 0 < ttl →
     claim id owner ttl now db = (Ok (g, c_attempt c, c_expires_at_utc c), db)).
Proof.
  intros (Hc & _) Hf. apply fenced_claim_Ok in Hf as (Hcl & <- & <- & e & He & Hlt).
  destruct (Hc id c Hcl) as (t & Ht & Hs & _).
  assert (∀ o ttl, 0 < ttl → claim id o ttl now db =
    if bool_decide (c_owner c = o) then (Ok (c_generation c, c_attempt c, c_expires_at_utc c), db)
    else (Err ControlStoreError, db)) as Hrun.
  { intros o ttl Httl. unfold claim, mbind, M_bind, lift.
    rewrite (proj2 (Z.leb_gt ttl 0)) by done. cbn [raise_if].
    unfold transaction, claim_tx, mbind, M_bind, get, lift. rewrite Ht. cbn [of_option].
    rewrite Hs, Hcl, He, (proj2 (Z.leb_gt e now)) by done.
    by destruct (bool_decide (c_owner c = o)). }
  split.
  - intros other ttl Httl Hne. rewrite Hrun, bool_decide_eq_false_2 by done. done.
  - intros ttl Httl. rewrite Hrun, bool_decide_eq_true_2 by done. done.
Qed.

(** C14: [complete] succeeds exactly for the live lease of its owner and
    generation; it then records one run, closes the task and releases the
    claim, and changes nothing else. *)
Theorem complete_spec id owner g status rep now db db' :
  control_wf db →
  complete id owner g status rep now db = (Ok tt, db') ↔
  (status = Completed ∨ status = Failed) ∧
  is_ok (fenced_claim db id owner g now) = true ∧
  db' = completed_db id (run_of id owner g status rep now) status db.
Proof.
  intros (Hc & _). rewrite complete_Ok. split; [tauto|].
  intros (Hs & Hf & ->). split_and!; try done.
  apply is_ok_true in Hf as [c Hf]. apply fenced_claim_Ok in Hf as (Hcl & _).
  destruct (Hc id c Hcl) as (t & -> & _). by eexists.
Qed.
End steps.

(** ** Selection *)

Section selection.
Context `{IsoParser}.
Implicit Types (db : control_db) (t : task).

#[export] Instance task_le_trans : Transitive task_le.
Proof.
  intros a b c [Hab Hab'] [Hbc Hbc']. split; [by eapply str_leb_trans|].
  intros Hac. assert (t_due_slot_utc a.2 = t_due_slot_utc b.2) as Heq.
  { unfold str_leb in *. rewrite !negb_true_iff in *. apply str_ltb_antisym; congruence. }
  eapply str_leb_trans; [by apply Hab'|apply Hbc'; congruence].
Qed.

#[export] Instance task_le_total : Total task_le.
Proof.
  intros a b. unfold task_le.
  destruct (decide (t_due_slot_utc a.2 = t_due_slot_utc b.2)) as [Heq|Hne].
  - rewrite Heq. unfold str_leb at 1 3. rewrite str_ltb_irrefl.
    destruct (str_leb_total a.1 b.1); auto.
  - destruct (str_leb_total (t_due_slot_utc a.2) (t_due_slot_utc b.2)); [left|right];
      split; done || congruence.
Qed.

Lemma ordered_tasks_elem db id t :
  (id, t) ∈ ordered_tasks db ↔ tasks db !! id = Some t.
Proof. unfold ordered_tasks. rewrite merge_sort_Permutation. apply elem_of_map_to_list. Qed.

Lemma StronglySorted_filter {A} (R : A → A → Prop) (P : A → Prop) `{∀ x, Decision (P x)} l :
  StronglySorted R l → StronglySorted R (filter P l).
Proof.
  induction 1 as [|x l Hl IH Hx]; [constructor|]. rewrite filter_cons.
  case_decide; [|done]. constructor; [done|].
  rewrite Forall_forall in Hx |- *. intros y [_ Hy]%list_elem_of_filter. auto.
Qed.

(** The selector compares texts and [claim] compares instants; they agree. *)
Lemma eligible_free db now id t :
  control_wf db → instant now → tasks db !! id = Some t →
  eligible db (utc_now_iso now) (id, t) = true ↔
  t_state t = Pending ∨ (t_state t = Claimed ∧ ∃ c e, claims db !! id = Some c ∧
    instant e ∧ c_expires_at_utc c = utc_now_iso e ∧ e <= now).
Proof.
  intros (Hc & _) Hnow Ht. unfold eligible. cbn [fst snd].
  destruct (t_state t) eqn:Hs; [naive_solver| |naive_solver..].
  destruct (claims db !! id) as [c|] eqn:Hcl; [|naive_solver].
  destruct (Hc id c Hcl) as (t' & _ & _ & _ & _ & _ & e & He & Hx).
  rewrite Hx, utc_now_iso_leb by done. rewrite Z.leb_le. split; [eauto 10|].
  intros [?|(_ & c' & e' & [= <-] & He' & Hx' & Hle)]; [done|].
  rewrite Hx in Hx'. by apply utc_now_iso_inj in Hx' as ->.
Qed.

(** C17: The tasks a worker is offered are exactly those of the kind that any
    worker could claim with a new generation, the oldest slot first. *)
Theorem selectable_tasks_claimable db kind now l :
  control_wf db → instant now → selectable_tasks db kind now None = Ok l →
  StronglySorted task_le l ∧
  ∀ id t, (id, t) ∈ l ↔
    tasks db !! id = Some t ∧ t_kind t = kind ∧
    ∀ owner ttl, 0 < ttl → ∃ a x db',
      claim id owner ttl now db = (Ok (t_generation t + 1, a, x), db').
Proof.
  intros Hwf Hnow Hl. unfold selectable_tasks in Hl. inv_ok. cbn [limited]. split.
  { apply StronglySorted_filter. unfold ordered_tasks.
    apply (StronglySorted_merge_sort task_le). }
  intros id t. rewrite list_elem_of_filter, ordered_tasks_elem. cbn [fst snd]. split.
  - intros [[Hk He] Ht]. split; [done|]. split; [done|]. intros owner ttl Httl.
    apply eligible_free in He; [|done..].
    destruct (claim_free id owner ttl now db t Hwf Ht Httl He) as (a & db' & Hrun). eauto.
  - intros (Ht & Hk & Hclaim). split; [split; [done|]|done].
    apply eligible_free; [done..|].
    destruct (Hclaim [] 1 ltac:(lia)) as (a & y & db' & Hrun).
    apply claim_Ok in Hrun as (_ & t' & Ht' & Hs & Hm). simplify_eq.
    destruct Hs as [Hs|Hs]; [by left|right]. split; [done|].
    destruct Hwf as (Hc & Hts & _). destruct (Hts id t Ht) as (_ & Hcl & _).
    destruct (Hcl Hs) as [c Hcc]. rewrite Hcc in Hm.
    destruct (Hc id c Hcc) as (t' & ? & _ & Hg & _ & _ & e & He & Hx). simplify_eq.
    destruct Hm as (expiry & Hp & Hm). unfold parse_utc in Hp.
    rewrite Hx, parse_utc_now_iso in Hp by done. injection Hp as <-.
    destruct (Z.leb_spec e now); [eauto 10|]. destruct Hm as (_ & Hgg & _). lia.
Qed.
End selection.

(** ** Queue payloads *)

(** No text, key or flag of the value asks for delivery. *)
Fixpoint delivery_free (j : json) : Prop :=
  match j with
  | JStr s => forbidden_text s = false
  | JList l => foldr (λ x P, delivery_free x ∧ P) True l
  | JObj l => foldr (λ kv P, (forbidden_key kv.1 kv.2 = false ∧ delivery_free kv.2) ∧ P) True l
  | _ => True
  end.

Lemma scrub_delivery_iff j : ∀ j', _scrub_delivery j = Ok j' ↔ j' = j ∧ delivery_free j.
Proof.
  induction j as [| | | |s|l IH|l IH] using json_rect'; intros j'; try (cbn; naive_solver).
  - cbn. destruct (forbidden_text s); cbn; naive_solver.
  - cbn [_scrub_delivery delivery_free].
    match goal with |- context [?f l ≫= _] => set (go := f) end.
    assert (∀ k, go l = Ok k ↔ k = l ∧ foldr (λ x P, delivery_free x ∧ P) True l) as Hgo.
    { induction IH as [|x l Hx _ IHl]; intros k; cbn [go foldr]; [naive_solver|].
      fold go. split.
      - intros (x' & [-> ?]%Hx & (r & [-> ?]%IHl & [= <-])%bind_Ok)%bind_Ok. done.
      - intros (-> & Hd & Hr). rewrite (proj2 (Hx x)) by done. cbn [mbind result_bind].
        by rewrite (proj2 (IHl l)). }
    split.
    + intros (k & [-> ?]%Hgo & [= <-])%bind_Ok. done.
    + intros [-> Hd]. by rewrite (proj2 (Hgo l)).
  - cbn [_scrub_delivery delivery_free].
    match goal with |- context [?f l ≫= _] => set (go := f) end.
    assert (∀ k, go l = Ok k ↔ k = l ∧ foldr (λ kv P,
      (forbidden_key kv.1 kv.2 = false ∧ delivery_free kv.2) ∧ P) True l) as Hgo.
    { induction IH as [|[key x] l Hx _ IHl]; intros k; cbn [go foldr fst snd]; [naive_solver|].
      fold go. split.
      - intros (? & Hk%raise_if_Ok & (x' & [-> ?]%Hx & (r & [-> ?]%IHl & [= <-])%bind_Ok)%bind_Ok)%bind_Ok.
        done.
      - intros (-> & (Hk & Hd) & Hr). rewrite Hk. cbn [raise_if mbind result_bind].
        cbn [snd] in Hx. rewrite (proj2 (Hx x)) by done. cbn [mbind result_bind].
        by rewrite (proj2 (IHl l)). }
    split.
    + intros (k & [-> ?]%Hgo & [= <-])%bind_Ok. done.
    + intros [-> Hd]. by rewrite (proj2 (Hgo l)).
Qed.

(** [validate_payload] returns the payload itself, exactly when nothing in it, at
    any depth, asks for delivery.  A text that only contains the word passes. *)
Theorem validate_payload_spec payload p :
  validate_payload payload = Ok p ↔ p = payload ∧ delivery_free (JObj payload).
Proof.
  unfold validate_payload. split.
  - intros (j & [-> Hd]%scrub_delivery_iff & [= <-])%bind_Ok. done.
  - intros [-> Hd]. by rewrite (proj2 (scrub_delivery_iff (JObj payload) (JObj payload))).
Qed.

Example delivery_sentence_accepted :
  let payload := [(u "note", JStr (u "delivery tomorrow"))] in
  validate_payload payload = Ok payload.
Proof. reflexivity. Qed.

(** ** Enqueue and retry *)

Section queue.
Context `{IsoParser}.
Implicit Types (db : control_db) (t : task).

Lemma slot_free db kind slot key :
  control_wf db → tasks db !! task_id_of kind slot key = None →
  slot_taken db kind slot key = false.
Proof.
  intros (_ & Ht & _) Hid. apply not_true_iff_false. unfold slot_taken.
  intros ([id t] & Hin%list_elem_of_In%elem_of_map_to_list & Heq)%existsb_exists.
  apply bool_decide_eq_true in Heq as (<- & <- & <-). cbn [snd] in *.
  destruct (Ht id t Hin) as (_ & _ & _ & ->). congruence.
Qed.

(** C16: Valid arguments make one pending task of generation 0 per identifier; the
    same payload again changes nothing, whatever the state of the task, and
    another payload is refused. *)
Theorem enqueue_spec kind slot payload now db id key text :
  control_wf db → enqueue_arguments kind slot payload = Ok (id, key, text) →
  enqueue kind slot payload now db =
    match tasks db !! id with
    | None => (Ok (id, true), set_tasks
        (<[id := mk_task kind slot key text Pending 0 (utc_now_iso now)]> (tasks db)) db)
    | Some t => if bool_decide (t_payload_json t = text) then (Ok (id, false), db)
                else (Err PayloadConflictError, db)
    end.
Proof.
  intros Hwf Ha. pose proof (enqueue_arguments_Ok _ _ _ _ _ _ Ha) as [_ Hid].
  unfold enqueue, mbind, M_bind, lift. rewrite Ha.
  unfold transaction, enqueue_tx, mbind, M_bind, get, put, mret, M_ret, throw.
  cbn [t_payload_json t_kind t_due_slot_utc t_job_key].
  destruct (tasks db !! id) as [t|] eqn:Hl.
  - by destruct (bool_decide _).
  - rewrite Hid in Hl. by rewrite (slot_free db) by done.
Qed.

(** *** A loop of calls

    What a loop that enqueues one task for each [x] of a list leaves: a stored
    task stays, a missing identifier gets the fresh task of the first [x] that
    asks for it, nothing else changes; and which calls report a new task. *)
Section loop.
Context {A : Type} (id : A → str) (fresh : A → task).
Implicit Types (x : A) (l : list A).

Definition enqueued_exactly l db db' (created : list bool) : Prop :=
  claims db' = claims db ∧ runs db' = runs db ∧
  (∀ k, tasks db' !! k =
     match tasks db !! k with
     | Some t => Some t
     | None => fresh <$> List.find (λ x, bool_decide (id x = k)) l
     end) ∧
  length created = length l ∧
  ∀ i x, l !! i = Some x → created !! i =
    Some (bool_decide (tasks db !! id x = None ∧ id x ∉ map id (take i l))).

Lemma enqueued_exactly_nil db : enqueued_exactly [] db db [].
Proof. split_and!; try done. intros k. by destruct (tasks db !! k). Qed.

(** One call, then the others. *)
Lemma enqueued_exactly_cons x l db db1 db' c created :
  match tasks db !! id x with
  | Some _ => c = false ∧ db1 = db
  | None => c = true ∧ db1 = set_tasks (<[id x := fresh x]> (tasks db)) db
  end →
  enqueued_exactly l db1 db' created → enqueued_exactly (x :: l) db db' (c :: created).
Proof.
  intros Hx (Hc & Hr & Ht & Hlen & Hcr).
  assert (claims db1 = claims db ∧ runs db1 = runs db ∧
    (∀ k, tasks db1 !! k = if decide (id x = k) then Some (default (fresh x) (tasks db !! k))
                           else tasks db !! k) ∧
    c = bool_decide (tasks db !! id x = None)) as (Hc1 & Hr1 & Ht1 & ->).
  { destruct (tasks db !! id x) eqn:Hl; destruct Hx as [-> ->].
    all: do 2 (split; [done|]); split; [|symmetry; first [by apply bool_decide_eq_true_2|by apply bool_decide_eq_false_2]].
    all: intros k; cbn [set_tasks tasks]; case_decide as Hk; subst;
      rewrite ?Hl, ?lookup_insert_eq, ?lookup_insert_ne; done. }
  split_and!; [congruence|congruence| |by cbn; rewrite Hlen|].
  - intros k. rewrite Ht, Ht1. cbn [List.find].
    case_decide as Hk; [rewrite bool_decide_eq_true_2|rewrite bool_decide_eq_false_2]; try done.
    by destruct (tasks db !! k).
  - intros [|i] y; cbn [lookup list_lookup take map].
    + intros [= <-]. f_equal. apply bool_decide_ext. set_solver.
    + intros Hy. transitivity (created !! i); [done|]. rewrite (Hcr i y Hy). f_equal. apply bool_decide_ext.
      rewrite Ht1, not_elem_of_cons. case_decide as Hk; naive_solver.
Qed.

Lemma enqueued_exactly_subseteq l db db' created :
  enqueued_exactly l db db' created → tasks db ⊆ tasks db'.
Proof.
  intros (_ & _ & Ht & _). apply map_subseteq_spec. intros k t Hk. by rewrite Ht, Hk.
Qed.
End loop.

Lemma text_field_Ok payload key s :
  text_field payload key = Ok s → lookup_key key payload = Some (JStr s).
Proof.
  unfold text_field. destruct (lookup_key key payload) as [[]|]; try done.
  intros Hs. inv_ok. done.
Qed.

Lemma validate_payload_same p p' : validate_payload p = Ok p' → p' = p.
Proof.
  unfold validate_payload. by intros (j & [-> _]%scrub_delivery_iff & [= <-])%bind_Ok.
Qed.

(** The key of a task beside its kind and slot: investigations have one each. *)
Definition job_key_of (kind : str) (payload : dict) : str :=
  if decide (kind = INVESTIGATE) then
    match lookup_key (u "investigation_id") payload with Some (JStr s) => s | _ => [] end
  else [].

Lemma enqueue_arguments_spec kind slot payload id key text :
  enqueue_arguments kind slot payload = Ok (id, key, text) →
  key = job_key_of kind payload ∧ id = task_id_of kind slot key ∧ text = payload_text payload.
Proof.
  intros Ha. pose proof (enqueue_arguments_Ok _ _ _ _ _ _ Ha) as [_ ->].
  unfold enqueue_arguments in Ha.
  apply bind_Ok in Ha as (? & _ & Ha). apply bind_Ok in Ha as (? & _ & Ha).
  apply bind_Ok in Ha as (p & ->%validate_payload_same & Ha).
  apply bind_Ok in Ha as (key' & Hkey & Ha). apply bind_Ok in Ha as (? & _ & [= _ <- <-]).
  split; [|done]. unfold job_key_of.
  case_bool_decide as Hk; [rewrite decide_True by done|rewrite decide_False by done; by injection Hkey].
  apply bind_Ok in Hkey as (? & _ & ->%text_field_Ok). done.
Qed.

(** A validated payload maps five fields to texts and [round_number] to 0 or
    1, and has no other field. *)
Lemma validated_payload payload p :
  validate_investigation_payload payload = Ok p →
  p = payload ∧ 0 <= round_number_of payload < 2 ∧
  ∀ k v, lookup_key k payload = Some v → (∃ s, v = JStr s) ∨ (∃ n, v = JInt n).
Proof.
  unfold validate_investigation_payload. intros Hv.
  apply bind_Ok in Hv as (? & Hu & Hv). apply bind_Ok in Hv as (? & _ & Hv).
  do 5 (apply bind_Ok in Hv as (? & ?%text_field_Ok & Hv)).
  apply bind_Ok in Hv as (? & _ & Hv). apply bind_Ok in Hv as (? & Hround & Hv).
  apply bind_Ok in Hv as (? & _ & [= <-]). split; [done|].
  apply raise_if_Ok in Hu. unfold round_number_of.
  destruct (lookup_key (u "round_number") payload) as [[]|] eqn:Hr; try done.
  apply raise_if_Ok, negb_false_iff in Hround. unfold round_in_range, MAX_INVESTIGATION_ROUNDS in Hround.
  split; [lia|]. intros k v Hk.
  assert (k ∈ REQUIRED_FIELDS) as Hin.
  { apply not_true_iff_false in Hu. apply dec_stable. intros Hn. apply Hu, existsb_exists.
    exists k. split; [|by rewrite bool_decide_eq_false_2].
    apply list_elem_of_In, list_elem_of_fmap. exists (k, v). split; [done|].
    by apply lookup_key_In. }
  unfold REQUIRED_FIELDS in Hin. cbn [map] in Hin.
  repeat (apply elem_of_cons in Hin as [->|Hin]); try by (simplify_eq; eauto).
  by apply elem_of_nil in Hin.
Qed.

(** The round of a stored payload is the round that was stored. *)
Lemma stored_round payload p :
  NoDup payload.*1 → validate_investigation_payload payload = Ok p →
  ∃ l, loads (payload_text payload) = Some (JObj l) ∧
    round_number_of l = round_number_of payload.
Proof.
  intros Hnd (_ & _ & Hvals)%validated_payload. unfold payload_text.
  assert (Forall (λ kv, (∃ s, kv.2 = JStr s) ∨ (∃ n, kv.2 = JInt n)) payload) as Hall.
  { apply Forall_forall. intros [k v] Hin. apply (Hvals k). by apply lookup_key_NoDup. }
  rewrite loads_canonical.
  - assert (sorted_keys (JObj payload) = JObj (sort_items payload)) as ->.
    { cbn [sorted_keys]. f_equal. f_equal.
      rewrite <-(map_id payload) at 2. apply map_ext_Forall.
      eapply Forall_impl; [exact Hall|]. intros [k v]. cbn. by intros [[s ->]|[n ->]]. }
    exists (sort_items payload). split; [done|]. unfold round_number_of.
    rewrite (lookup_key_perm _ payload (sort_items payload)); [done..|].
    by rewrite sort_items_perm.
  - cbn. split; [done|]. clear Hvals Hnd. induction Hall as [|[k v] l Hv _ IH]; cbn; [done|].
    split; [|done]. cbn in Hv. by destruct Hv as [[s ->]|[n ->]].
Qed.

(** C15: A retry moves a failed round-0 investigation back to pending as round 1,
    keeping its generation, so that the next claim fences every earlier
    worker; it can happen at most once, since no payload follows round 1. *)
Theorem retry_spec id payload db db' :
  NoDup payload.*1 → retry_investigation id payload db = (Ok tt, db') →
  ∃ t t', tasks db !! id = Some t ∧ t_state t = Failed ∧
    tasks db' !! id = Some t' ∧ t_state t' = Pending ∧ t_generation t' = t_generation t ∧
    round_number_of payload = 1 ∧ claims db' = claims db ∧ runs db' = runs db ∧
    ∀ payload' p', validate_investigation_payload payload' = Ok p' →
      is_ok (check_retry (t_payload_json t') payload') = false.
Proof.
  intros Hnd Hrun. pose proof Hrun as Hrun'.
  apply M_bind_Ok in Hrun' as (c0 & ? & [= Hc0 <-] & Hrun').
  apply M_bind_Ok in Hrun' as (p0 & ? & [= Hp0 <-] & _).
  apply retry_Ok in Hrun as (t & cleaned & Ht & Hs & _ & Hcl & Hch & ->).
  rewrite Hc0 in Hcl. injection Hcl as ->.
  assert (cleaned = payload) as ->.
  { unfold validate_payload in Hc0.
    apply bind_Ok in Hc0 as (j & [-> _]%scrub_delivery_iff & [= <-]). done. }
  pose proof (validated_payload _ _ Hp0) as (_ & Hround & _).
  assert (round_number_of payload = 1) as Hr1.
  { unfold check_retry in Hch.
    apply bind_Ok in Hch as (prev & Hprev & Hch). apply bind_Ok in Hch as (? & _ & Hch).
    apply raise_if_Ok, negb_false_iff, Z.eqb_eq in Hch.
    destruct (loads (t_payload_json t)) as [[]|]; try done.
    pose proof (validated_payload _ _ Hprev) as (-> & Hround' & _). lia. }
  exists t. eexists. split; [done|]. split; [done|]. split.
  { unfold set_task_payload. cbn [set_tasks tasks]. rewrite lookup_alter_eq, Ht. reflexivity. }
  cbn [t_state t_generation t_payload_json]. do 5 (split; [done|]).
  intros payload' p' Hv'. pose proof (validated_payload _ _ Hv') as (_ & Hr' & _).
  unfold check_retry. cbn [t_payload_json].
  destruct (stored_round payload p0 Hnd Hp0) as (l & -> & Hrl).
  destruct (validate_investigation_payload l) as [prev|] eqn:Hvl; [|done].
  pose proof (validated_payload _ _ Hvl) as (-> & _ & _). cbn [mbind result_bind].
  destruct (existsb _ _); [done|]. cbn [raise_if mbind result_bind].
  rewrite Hrl, Hr1. rewrite (proj2 (Z.eqb_neq _ _)) by lia. done.
Qed.
End queue.

(** ** Concrete runs *)

Section samples.
#[local] Existing Instance fixed_parser.

(** 2026-01-01T00:00:00Z, then [s] seconds later. *)
Definition at_second (s : Z) : Z := shift 1767225600000000 s.
Definition sample_slot : str := u "2026-01-01T00:00:00Z".
Definition ingest_id : str := task_id_of (u "ingest") sample_slot [].

(** A task is enqueued, claimed by [w1], taken over by [w2] after the lease of
    60 s, and completed by [w2]. *)
Definition enqueued : control_db :=
  (enqueue (u "ingest") sample_slot [] (at_second 0) empty_control).2.
Definition first_claimed : control_db := (claim ingest_id (u "w1") 60 (at_second 0) enqueued).2.
Definition taken_over : control_db :=
  (claim ingest_id (u "w2") 60 (at_second 120) first_claimed).2.
Definition no_report : report := mk_report (Some 0) None None None None.
Definition finished : control_db :=
  (complete ingest_id (u "w2") 2 Completed no_report (at_second 130) taken_over).2.

Lemma enqueued_step : control_step empty_control enqueued.
Proof.
  eapply (step_enqueue (u "ingest") sample_slot [] (at_second 0)).
  vm_compute. reflexivity.
Qed.
Lemma first_claimed_step : control_step enqueued first_claimed.
Proof.
  eapply (step_claim ingest_id (u "w1") 60 (at_second 0)).
  - vm_compute. reflexivity.
  - vm_compute. split; congruence.
Qed.
Lemma taken_over_step : control_step first_claimed taken_over.
Proof.
  eapply (step_claim ingest_id (u "w2") 60 (at_second 120)).
  - vm_compute. reflexivity.
  - vm_compute. split; congruence.
Qed.
Lemma finished_step : control_step taken_over finished.
Proof.
  eapply (step_complete ingest_id (u "w2") 2 Completed no_report (at_second 130)).
  vm_compute. reflexivity.
Qed.

Lemma taken_over_steps : control_steps empty_control taken_over.
Proof.
  eapply control_trans; [|apply taken_over_step].
  eapply control_trans; [|apply first_claimed_step].
  eapply control_trans; [apply control_refl|apply enqueued_step].
Qed.
Lemma finished_after : control_steps taken_over finished.
Proof. eapply control_trans; [apply control_refl|apply finished_step]. Qed.
Lemma taken_over_wf : control_wf taken_over.
Proof. eapply control_steps_wf; [apply taken_over_steps|apply empty_control_wf]. Qed.
Lemma enqueued_wf : control_wf enqueued.
Proof. eapply control_step_wf; [apply enqueued_step|apply empty_control_wf]. Qed.

Lemma control_invariant_witness : control_wf taken_over.
Proof. apply control_invariant. apply taken_over_steps. Defined.

Lemma control_history_witness :
  runs taken_over `prefix_of` runs finished ∧ task_evolves taken_over finished.
Proof. apply (control_history _ _ taken_over_wf finished_after). Defined.

Lemma first_lease_lost : lease_lost taken_over ingest_id 1.
Proof.
  exists (mk_task (u "ingest") sample_slot [] (u "{}") Claimed 2
    (utc_now_iso (at_second 0))).
  split; [vm_compute; reflexivity|]. split; [done|].
  intros c. vm_compute. intros [= <-]. discriminate.
Qed.

(** The first worker comes back after the second has finished. *)
Lemma lost_lease_fenced_witness :
  (complete ingest_id (u "w1") 1 Completed no_report (at_second 140) finished).2 = finished ∧
  (renew_claim ingest_id (u "w1") 1 60 (at_second 140) finished).2 = finished ∧
  is_ok (complete ingest_id (u "w1") 1 Completed no_report (at_second 140) finished).1 = false ∧
  is_ok (renew_claim ingest_id (u "w1") 1 60 (at_second 140) finished).1 = false ∧
  is_ok (assert_claim finished ingest_id (u "w1") 1 (at_second 140)) = false.
Proof.
  apply (lost_lease_fenced taken_over finished).
  - apply taken_over_wf.
  - apply first_lease_lost.
  - apply finished_after.
Defined.

Definition ingest_task : task :=
  mk_task (u "ingest") sample_slot [] (u "{}") Pending 0 (utc_now_iso (at_second 0)).

Lemma claim_succeeds_witness :
  ∃ a db', claim ingest_id (u "w1") 60 (at_second 0) enqueued =
      (Ok (1, a, utc_now_iso (at_second 60)), db') ∧
    is_ok (fenced_claim db' ingest_id (u "w1") 1 (at_second 0)) = true ∧
    ∀ g0, g0 <= 0 → lease_lost db' ingest_id g0.
Proof.
  apply (claim_succeeds ingest_id (u "w1") 60 (at_second 0) enqueued ingest_task).
  - apply enqueued_wf.
  - vm_compute. reflexivity.
  - lia.
  - vm_compute. split; congruence.
  - left. reflexivity.
Defined.

Definition w2_claim : claim_row :=
  mk_claim (u "w2") 2 2 (utc_now_iso (at_second 180)) (utc_now_iso (at_second 120)).

Lemma live_claim_exclusive_witness :
  (∀ other ttl, 0 < ttl → other ≠ u "w2" →
     claim ingest_id other ttl (at_second 130) taken_over = (Err ControlStoreError, taken_over)) ∧
  (∀ ttl, 0 < ttl →
     claim ingest_id (u "w2") ttl (at_second 130) taken_over =
       (Ok (2, 2, utc_now_iso (at_second 180)), taken_over)).
Proof.
  apply (live_claim_exclusive ingest_id (u "w2") 2 (at_second 130) taken_over w2_claim).
  - apply taken_over_wf.
  - vm_compute. reflexivity.
Defined.

Lemma complete_spec_witness :
  complete ingest_id (u "w2") 2 Completed no_report (at_second 130) taken_over =
    (Ok tt, finished) ↔
  (Completed = Completed ∨ Completed = Failed) ∧
  is_ok (fenced_claim taken_over ingest_id (u "w2") 2 (at_second 130)) = true ∧
  finished = completed_db ingest_id
    (run_of ingest_id (u "w2") 2 Completed no_report (at_second 130)) Completed taken_over.
Proof. apply complete_spec. apply taken_over_wf. Defined.

Lemma selectable_tasks_claimable_witness :
  StronglySorted task_le [(ingest_id, ingest_task)] ∧
  ∀ id t, (id, t) ∈ [(ingest_id, ingest_task)] ↔
    tasks enqueued !! id = Some t ∧ t_kind t = u "ingest" ∧
    ∀ owner ttl, 0 < ttl → ∃ a x db',
      claim id owner ttl (at_second 5) enqueued = (Ok (t_generation t + 1, a, x), db').
Proof.
  apply (selectable_tasks_claimable enqueued (u "ingest") (at_second 5)).
  - apply enqueued_wf.
  - vm_compute. split; congruence.
  - vm_compute. reflexivity.
Defined.

Lemma enqueue_spec_witness :
  enqueue (u "ingest") sample_slot [] (at_second 0) empty_control =
    (Ok (ingest_id, true), set_tasks (<[ingest_id := ingest_task]> ∅) empty_control).
Proof.
  apply (enqueue_spec (u "ingest") sample_slot [] (at_second 0) empty_control ingest_id [] (u "{}")).
  - apply empty_control_wf.
  - vm_compute. reflexivity.
Defined.

(** An investigation that fails in round 0, is retried and claimed again. *)
Definition sample_payload (round : Z) : dict :=
  [(u "investigation_id", JStr (investigation_id (u "item") (u "lane") (u "plan")));
   (u "candidate_id", JStr (u "item")); (u "feed_lane_id", JStr (u "lane"));
   (u "query_plan_id", JStr (u "plan")); (u "category", JStr (u "ai"));
   (u "round_number", JInt round)].
Definition investigate_id : str :=
  task_id_of INVESTIGATE sample_slot (investigation_id (u "item") (u "lane") (u "plan")).
Definition failed_investigation : control_db :=
  ((_ ← enqueue INVESTIGATE sample_slot (sample_payload 0) (at_second 0);
    _ ← claim investigate_id (u "w1") 60 (at_second 0);
    complete investigate_id (u "w1") 1 Failed no_report (at_second 10)) empty_control).2.
Definition retried_investigation : control_db :=
  (retry_investigation investigate_id (sample_payload 1) failed_investigation).2.

Lemma retry_spec_witness :
  ∃ t t', tasks failed_investigation !! investigate_id = Some t ∧ t_state t = Failed ∧
    tasks retried_investigation !! investigate_id = Some t' ∧ t_state t' = Pending ∧
    t_generation t' = t_generation t ∧ round_number_of (sample_payload 1) = 1 ∧
    claims retried_investigation = claims failed_investigation ∧
    runs retried_investigation = runs failed_investigation ∧
    ∀ payload' p', validate_investigation_payload payload' = Ok p' →
      is_ok (check_retry (t_payload_json t') payload') = false.
Proof.
  apply (retry_spec investigate_id (sample_payload 1)).
  - apply (bool_decide_eq_true_1 _). vm_compute. reflexivity.
  - vm_compute. reflexivity.
Defined.

(** The retried task is pending, and claiming it gives generation 2. *)
Lemma pending_claim_generation_two :
  t_state <$> tasks retried_investigation !! investigate_id = Some Pending ∧
  (claim investigate_id (u "w2") 60 (at_second 20) retried_investigation).1 =
    Ok (2, 1, utc_now_iso (at_second 80)).
Proof. split; vm_compute; reflexivity. Qed.
End samples.
