(* ===== verification/Dispatch.v ===== *)
(** * Dispatch: one investigation task per new candidate.

    [enqueue_candidate_investigations] of
    [scripts/news_pipeline/investigation.py], which reads the state database and
    enqueues on the control store.  The state database is read once, before the
    first task is enqueued. *)
From S2P Require Import Prelude Text Sha256 Json Calendar Timestamps Investigation ControlStore Leases.
Local Open Scope Z_scope.

(** [prior.feed_lane_id < c.feed_lane_id OR (equal AND prior.query_plan_id <
    c.query_plan_id)]; texts compare by code point. *)
Definition prior_lane (prior c : lane_row) : bool :=
  str_ltb (lane_feed_lane_id prior) (lane_feed_lane_id c) ||
  (bool_decide (lane_feed_lane_id prior = lane_feed_lane_id c) &&
   str_ltb (lane_query_plan_id prior) (lane_query_plan_id c)).

(** The two NOT EXISTS of the query. *)
Definition is_new_candidate (db : state_db) (c : lane_row) : bool :=
  bool_decide (investigations db !! lane_source_item_id c = None) &&
  negb (existsb (λ prior, bool_decide (lane_source_item_id prior = lane_source_item_id c) &&
                          prior_lane prior c) (candidate_feed_lanes db)).

(** [ORDER BY source_item_id, feed_lane_id, query_plan_id] *)
Definition lane_le (a b : lane_row) : Prop :=
  str_leb (lane_source_item_id a) (lane_source_item_id b) = true ∧
  (lane_source_item_id a = lane_source_item_id b → prior_lane b a = false).
#[export] Instance lane_le_dec : RelDecision lane_le.
Proof. intros a b. unfold lane_le. apply _. Defined.

Definition candidate_rows (db : state_db) : list lane_row :=
  merge_sort lane_le (filter (λ c, is_new_candidate db c = true) (candidate_feed_lanes db)).

Definition candidate_job (due_slot_utc : str) (c : lane_row) : result py_error InvestigationJob :=
  make_investigation_job (lane_source_item_id c) (lane_feed_lane_id c) (lane_query_plan_id c)
    (lane_category c) due_slot_utc 0 PENDING None [].

Section dispatch.
Context `{IsoParser}.

Definition enqueue_candidate (due_slot_utc : str) (clock : Z) (results : list (str * bool))
    (c : lane_row) : M control_db py_error (list (str * bool)) :=
  job ← lift (candidate_job due_slot_utc c);
  r ← enqueue INVESTIGATE due_slot_utc (investigation_payload job) clock;
  mret (results ++ [r]).

(** [clock] is the time the control store reads for [created_at]. *)
Definition enqueue_candidate_investigations (db : state_db) (due_slot_utc : str) (clock : Z)
    : M control_db py_error (list (str * bool)) :=
  foldM (enqueue_candidate due_slot_utc clock) [] (candidate_rows db).
End dispatch.

(** ** The rows *)

Lemma prior_lane_irrefl c : prior_lane c c = false.
Proof. unfold prior_lane. by rewrite !str_ltb_irrefl, andb_false_r. Qed.

Lemma prior_lane_trans a b c :
  prior_lane a b = true → prior_lane b c = true → prior_lane a c = true.
Proof.
  unfold prior_lane. rewrite !orb_true_iff, !andb_true_iff, !bool_decide_eq_true.
  intros [Hab|[Eab Hab]] [Hbc|[Ebc Hbc]].
  - left. by eapply str_ltb_trans.
  - left. by rewrite <-Ebc.
  - left. by rewrite Eab.
  - right. split; [congruence|]. by eapply str_ltb_trans.
Qed.

(** The primary key of [candidate_feed_lanes]. *)
Definition lane_key (c : lane_row) : str * str * str :=
  (lane_source_item_id c, lane_feed_lane_id c, lane_query_plan_id c).
Definition lanes_keyed (db : state_db) : Prop := NoDup (map lane_key (candidate_feed_lanes db)).

Lemma prior_lane_antisym a b :
  lane_source_item_id a = lane_source_item_id b →
  prior_lane a b = false → prior_lane b a = false → lane_key a = lane_key b.
Proof.
  intros Hs. unfold prior_lane, lane_key.
  rewrite !orb_false_iff. intros [Hab Hab'] [Hba Hba'].
  assert (lane_feed_lane_id a = lane_feed_lane_id b) as Hl by (by apply str_ltb_antisym).
  rewrite Hl, bool_decide_eq_true_2 in Hab', Hba' by done.
  f_equal; [congruence|]. by apply str_ltb_antisym.
Qed.

(** Some lane of a non-empty list comes before every other one. *)
Lemma first_lane (l : list lane_row) c :
  c ∈ l → ∃ m, m ∈ l ∧ ∀ x, x ∈ l → prior_lane x m = false.
Proof.
  revert c. induction l as [|a l IH]; intros c Hc; [by apply elem_of_nil in Hc|].
  destruct l as [|b l'].
  - exists a. split; [apply elem_of_cons; by left|].
    intros x ->%list_elem_of_singleton. apply prior_lane_irrefl.
  - destruct (IH b) as (m & Hm & Hmin); [apply elem_of_cons; by left|].
    destruct (prior_lane a m) eqn:Ham.
    + exists a. split; [apply elem_of_cons; by left|].
      intros x [->|Hx]%elem_of_cons; [apply prior_lane_irrefl|].
      destruct (prior_lane x a) eqn:Hxa; [|done].
      rewrite <-(Hmin x Hx). symmetry. by eapply prior_lane_trans.
    + exists m. split; [apply elem_of_cons; by right|].
      intros x [->|Hx]%elem_of_cons; [done|by apply Hmin].
Qed.

Lemma new_candidate_iff db c :
  is_new_candidate db c = true ↔
  investigations db !! lane_source_item_id c = None ∧
  ∀ x, x ∈ candidate_feed_lanes db → lane_source_item_id x = lane_source_item_id c →
    prior_lane x c = false.
Proof.
  unfold is_new_candidate. rewrite andb_true_iff, bool_decide_eq_true, negb_true_iff.
  rewrite <-not_true_iff_false, existsb_exists. apply and_iff_compat_l. split.
  - intros Hn x Hx Hs. apply not_true_iff_false. intros Hp. apply Hn. exists x.
    split; [by apply list_elem_of_In|]. by rewrite bool_decide_eq_true_2.
  - intros Hall (x & Hx%list_elem_of_In & [Hs%bool_decide_eq_true Hp]%andb_true_iff).
    rewrite Hall in Hp; done.
Qed.

Lemma candidate_rows_elem db c :
  c ∈ candidate_rows db ↔ c ∈ candidate_feed_lanes db ∧ is_new_candidate db c = true.
Proof.
  unfold candidate_rows. rewrite merge_sort_Permutation, list_elem_of_filter. naive_solver.
Qed.

Lemma candidate_rows_NoDup db : lanes_keyed db → NoDup (map lane_source_item_id (candidate_rows db)).
Proof.
  intros Hk. unfold candidate_rows.
  assert (NoDup (candidate_feed_lanes db)) as Hnd by (by eapply NoDup_fmap_1).
  apply NoDup_fmap_2_strong; [|rewrite merge_sort_Permutation; by apply NoDup_filter].
  intros a b Ha Hb Heq. apply candidate_rows_elem in Ha as [Ha Hna], Hb as [Hb Hnb].
  apply new_candidate_iff in Hna as [_ Hna], Hnb as [_ Hnb].
  eapply (NoDup_map_inj lane_key (candidate_feed_lanes db)); try done.
  apply prior_lane_antisym; [done|by apply Hnb|by apply Hna].
Qed.

(** C26: The query schedules every candidate that has a lane and no investigation,
    and no other, exactly once, under its first lane. *)
Theorem candidate_rows_spec db :
  lanes_keyed db →
  NoDup (map lane_source_item_id (candidate_rows db)) ∧
  (∀ c x, c ∈ candidate_rows db → x ∈ candidate_feed_lanes db →
     lane_source_item_id x = lane_source_item_id c → prior_lane x c = false) ∧
  ∀ id, id ∈ map lane_source_item_id (candidate_rows db) ↔
    investigations db !! id = None ∧ id ∈ map lane_source_item_id (candidate_feed_lanes db).
Proof.
  intros Hk. split; [by apply candidate_rows_NoDup|]. split.
  { intros c x [_ Hn]%candidate_rows_elem. by apply new_candidate_iff. }
  intros id. rewrite !list_elem_of_fmap. setoid_rewrite candidate_rows_elem.
  setoid_rewrite new_candidate_iff. split; [naive_solver|].
  intros [Hn (c & -> & Hc)].
  destruct (first_lane (filter (λ x, lane_source_item_id x = lane_source_item_id c)
    (candidate_feed_lanes db)) c) as (m & [Hm Hin]%list_elem_of_filter & Hmin).
  { by apply list_elem_of_filter. }
  exists m. rewrite Hm. split_and!; try done. intros x Hx Hs.
  apply Hmin, list_elem_of_filter. done.
Qed.

(** ** The tasks *)

Section tasks.
Context `{IsoParser}.
Implicit Types (db : state_db) (cdb : control_db) (c : lane_row).

Definition candidate_investigation_id c : str :=
  investigation_id (lane_source_item_id c) (lane_feed_lane_id c) (lane_query_plan_id c).

(** The payload of a candidate's first round. *)
Definition candidate_payload c : dict :=
  [(u "investigation_id", JStr (candidate_investigation_id c));
   (u "candidate_id", JStr (lane_source_item_id c));
   (u "feed_lane_id", JStr (lane_feed_lane_id c));
   (u "query_plan_id", JStr (lane_query_plan_id c));
   (u "category", JStr (lane_category c));
   (u "round_number", JInt 0)].

Definition candidate_task_id (slot : str) c : str :=
  task_id_of INVESTIGATE slot (candidate_investigation_id c).

(** The store holds the task of the candidate. *)
Definition dispatched cdb (slot : str) c : Prop :=
  is_ok (candidate_job slot c) = true ∧
  is_ok (enqueue_arguments INVESTIGATE slot (candidate_payload c)) = true ∧
  ∃ t, tasks cdb !! candidate_task_id slot c = Some t ∧
    t_payload_json t = payload_text (candidate_payload c).

Definition fresh_task (slot : str) (clock : Z) c : task :=
  mk_task INVESTIGATE slot (candidate_investigation_id c) (payload_text (candidate_payload c))
    Pending 0 (utc_now_iso clock).

Lemma candidate_job_Ok slot c job :
  candidate_job slot c = Ok job → investigation_payload job = candidate_payload c.
Proof. unfold candidate_job, make_investigation_job. by intros (? & _ & [= <-])%bind_Ok. Qed.

Lemma candidate_arguments slot c id key text :
  enqueue_arguments INVESTIGATE slot (candidate_payload c) = Ok (id, key, text) →
  id = candidate_task_id slot c ∧ key = candidate_investigation_id c ∧
  text = payload_text (candidate_payload c).
Proof. by intros (-> & -> & ->)%enqueue_arguments_spec. Qed.

Lemma enqueue_candidate_Ok slot clock rs c cdb rs' cdb' :
  enqueue_candidate slot clock rs c cdb = (Ok rs', cdb') →
  dispatched cdb' slot c ∧
  ∃ created, rs' = rs ++ [(candidate_task_id slot c, created)] ∧
    match tasks cdb !! candidate_task_id slot c with
    | Some _ => created = false ∧ cdb' = cdb
    | None => created = true ∧ cdb' =
        set_tasks (<[candidate_task_id slot c := fresh_task slot clock c]> (tasks cdb)) cdb
    end.
Proof.
  unfold enqueue_candidate. intros Hrun.
  apply M_bind_Ok in Hrun as (job & ? & [= Hjob <-] & Hrun).
  apply M_bind_Ok in Hrun as ([id created] & cdb1 & He & [= <- <-]).
  rewrite (candidate_job_Ok _ _ _ Hjob) in He.
  apply enqueue_Ok in He as (key & text & Ha & Hm).
  destruct (candidate_arguments _ _ _ _ _ Ha) as (-> & -> & ->).
  unfold dispatched. rewrite Hjob, Ha. cbn [is_ok].
  destruct (tasks cdb !! candidate_task_id slot c) as [t|] eqn:Ht.
  - destruct Hm as (Htext & -> & ->). split; [by eauto|]. by exists false.
  - destruct Hm as (_ & -> & ->). split; [|by exists true]. do 2 (split; [done|]). eexists.
    cbn [set_tasks tasks]. by rewrite lookup_insert_eq.
Qed.

Lemma enqueue_candidate_again slot clock rs c cdb :
  dispatched cdb slot c →
  enqueue_candidate slot clock rs c cdb = (Ok (rs ++ [(candidate_task_id slot c, false)]), cdb).
Proof.
  intros ([job Hjob]%is_ok_true & [[[id key] text] Ha]%is_ok_true & t & Ht & Htext).
  unfold enqueue_candidate, mbind, M_bind, lift. rewrite Hjob, (candidate_job_Ok _ _ _ Hjob).
  destruct (candidate_arguments _ _ _ _ _ Ha) as (-> & -> & ->).
  rewrite (proj2 (enqueue_Ok INVESTIGATE slot (candidate_payload c) clock cdb
    (candidate_task_id slot c) false cdb)); [done|].
  eexists _, _. split; [exact Ha|]. by rewrite Ht.
Qed.

Lemma dispatched_mono slot cdb cdb' c :
  tasks cdb ⊆ tasks cdb' → dispatched cdb slot c → dispatched cdb' slot c.
Proof.
  intros Hsub (? & ? & t & Ht & ?). split_and!; try done. exists t. split; [|done].
  by eapply lookup_weaken.
Qed.

Lemma enqueue_candidates_Ok slot clock l rs cdb rs' cdb' :
  foldM (enqueue_candidate slot clock) rs l cdb = (Ok rs', cdb') →
  ∃ created, rs' = rs ++ zip (map (candidate_task_id slot) l) created ∧
    Forall (dispatched cdb' slot) l ∧
    enqueued_exactly (candidate_task_id slot) (fresh_task slot clock) l cdb cdb' created.
Proof.
  revert rs cdb. induction l as [|c l IH]; intros rs cdb Hrun; cbn [foldM] in Hrun.
  - injection Hrun as <- <-. exists []. rewrite app_nil_r.
    split_and!; [done|constructor|apply enqueued_exactly_nil].
  - apply M_bind_Ok in Hrun as (rs1 & cdb1 & H1 & Hrun).
    apply enqueue_candidate_Ok in H1 as (Hd & created1 & -> & Hc).
    apply IH in Hrun as (created & -> & Hall & Hx). exists (created1 :: created). split_and!.
    + by rewrite <-app_assoc.
    + constructor; [|done]. by eapply dispatched_mono, Hd; eapply enqueued_exactly_subseteq.
    + by eapply enqueued_exactly_cons.
Qed.

Lemma enqueue_candidates_again slot clock l rs cdb :
  Forall (dispatched cdb slot) l →
  foldM (enqueue_candidate slot clock) rs l cdb =
    (Ok (rs ++ map (λ c, (candidate_task_id slot c, false)) l), cdb).
Proof.
  intros Hall. revert rs. induction Hall as [|c l Hc _ IH]; intros rs; cbn [foldM map].
  - by rewrite app_nil_r.
  - unfold mbind, M_bind. rewrite enqueue_candidate_again by done.
    rewrite IH, <-app_assoc. done.
Qed.

(** C27: After a successful dispatch the control store holds what it held and, for
    each candidate without an investigation whose identifier was missing, its
    fresh round-0 task, and nothing else; each of these candidates has its task
    with its payload; the rows say in order which tasks are new; and dispatching
    again creates nothing. *)
Theorem dispatch_spec db slot clock cdb rs cdb' :
  enqueue_candidate_investigations db slot clock cdb = (Ok rs, cdb') →
  ∃ created, rs = zip (map (candidate_task_id slot) (candidate_rows db)) created ∧
    enqueued_exactly (candidate_task_id slot) (fresh_task slot clock) (candidate_rows db)
      cdb cdb' created ∧
    (∀ c, c ∈ candidate_rows db → ∃ t, tasks cdb' !! candidate_task_id slot c = Some t ∧
       t_payload_json t = payload_text (candidate_payload c)) ∧
    ∀ clock', enqueue_candidate_investigations db slot clock' cdb' =
      (Ok (map (λ c, (candidate_task_id slot c, false)) (candidate_rows db)), cdb').
Proof.
  unfold enqueue_candidate_investigations. intros Hrun.
  apply enqueue_candidates_Ok in Hrun as (created & -> & Hall & Hx). exists created.
  split; [done|]. split; [done|]. split.
  - intros c Hc. rewrite Forall_forall in Hall. by destruct (Hall c Hc) as (_ & _ & ?).
  - intros clock'. by rewrite enqueue_candidates_again.
Qed.

(** The candidate may be enqueued, alone. *)
Definition dispatchable cdb (slot : str) c : Prop :=
  is_ok (candidate_job slot c) = true ∧
  is_ok (enqueue_arguments INVESTIGATE slot (candidate_payload c)) = true ∧
  ∀ t, tasks cdb !! candidate_task_id slot c = Some t →
    t_payload_json t = payload_text (candidate_payload c).

Lemma enqueue_candidate_runs slot clock rs c cdb :
  control_wf cdb → dispatchable cdb slot c →
  ∃ rs' cdb', enqueue_candidate slot clock rs c cdb = (Ok rs', cdb') ∧ control_wf cdb'.
Proof.
  intros Hwf ([job Hjob]%is_ok_true & [[[id key] text] Ha]%is_ok_true & Ht).
  destruct (candidate_arguments _ _ _ _ _ Ha) as (-> & -> & ->).
  assert (∃ created cdb', enqueue INVESTIGATE slot (candidate_payload c) clock cdb =
    (Ok (candidate_task_id slot c, created), cdb')) as (created & cdb' & He).
  { destruct (tasks cdb !! candidate_task_id slot c) as [t|] eqn:Hl.
    - exists false, cdb. apply enqueue_Ok. eexists _, _. split; [exact Ha|]. rewrite Hl.
      by rewrite (Ht t).
    - exists true. eexists. apply enqueue_Ok. eexists _, _. split; [exact Ha|]. rewrite Hl.
      split; [by apply slot_free|done]. }
  exists (rs ++ [(candidate_task_id slot c, created)]), cdb'. split.
  - unfold enqueue_candidate, mbind, M_bind, lift. rewrite Hjob, (candidate_job_Ok _ _ _ Hjob).
    by rewrite He.
  - by eapply enqueue_wf.
Qed.

Lemma dispatchable_other slot clock rs c c' cdb rs' cdb' :
  enqueue_candidate slot clock rs c cdb = (Ok rs', cdb') →
  candidate_task_id slot c' ≠ candidate_task_id slot c →
  dispatchable cdb slot c' → dispatchable cdb' slot c'.
Proof.
  intros Hrun Hne (Hj & Ha & Ht). split_and!; try done. intros t Ht'. apply Ht.
  unfold enqueue_candidate in Hrun.
  apply M_bind_Ok in Hrun as (job & ? & [= Hjob <-] & Hrun).
  apply M_bind_Ok in Hrun as ([id created] & cdb1 & He & [= <- <-]).
  rewrite (candidate_job_Ok _ _ _ Hjob) in He.
  apply enqueue_Ok in He as (key & text & Ha' & Hm).
  destruct (candidate_arguments _ _ _ _ _ Ha') as (-> & -> & ->).
  destruct (tasks cdb !! candidate_task_id slot c); destruct Hm as (_ & _ & ->); [done|].
  cbn [set_tasks tasks] in Ht'. by rewrite lookup_insert_ne in Ht'.
Qed.

Lemma enqueue_candidates_run slot clock l rs cdb :
  control_wf cdb → NoDup (map (candidate_task_id slot) l) → Forall (dispatchable cdb slot) l →
  ∃ rs' cdb', foldM (enqueue_candidate slot clock) rs l cdb = (Ok rs', cdb').
Proof.
  revert rs cdb. induction l as [|c l IH]; intros rs cdb Hwf Hnd Hall; cbn [foldM]; [by eexists _, _|].
  apply NoDup_cons in Hnd as [Hc Hnd]. apply Forall_cons in Hall as [Hdc Hall].
  destruct (enqueue_candidate_runs slot clock rs c cdb Hwf Hdc) as (rs1 & cdb1 & H1 & Hwf1).
  unfold mbind, M_bind. rewrite H1. apply IH; [done..|].
  rewrite Forall_forall in Hall |- *. intros c' Hc'.
  eapply dispatchable_other; [exact H1| |by apply Hall].
  intros Heq. apply Hc, list_elem_of_fmap. by exists c'.
Qed.

(** C28: Dispatching succeeds when the candidates have distinct task identifiers,
    none of which already holds another payload, and valid fields. *)
Theorem dispatch_succeeds db slot clock cdb :
  control_wf cdb → NoDup (map (candidate_task_id slot) (candidate_rows db)) →
  Forall (dispatchable cdb slot) (candidate_rows db) →
  ∃ rs cdb', enqueue_candidate_investigations db slot clock cdb = (Ok rs, cdb').
Proof. apply enqueue_candidates_run. Qed.
End tasks.

(** ** A concrete dispatch *)

Section samples.
Existing Instance fixed_parser.

Definition sample_lane (item lane : string) : lane_row :=
  mk_lane (u item) (u lane) (u "plan") (u "ai").

(** One article seen in two lanes, and another one. *)
Definition sample_state : state_db :=
  mk_state_db ∅ [sample_lane "b" "l1"; sample_lane "a" "l2"; sample_lane "a" "l1"] ∅.

Lemma candidate_rows_spec_witness :
  candidate_rows sample_state = [sample_lane "a" "l1"; sample_lane "b" "l1"] ∧
  NoDup (map lane_source_item_id (candidate_rows sample_state)).
Proof.
  split; [vm_compute; reflexivity|].
  apply (candidate_rows_spec sample_state).
  unfold lanes_keyed, sample_state. cbn [candidate_feed_lanes].
  apply (bool_decide_unpack _). vm_compute. exact I.
Defined.

Lemma dispatch_spec_witness :
  ∃ rs cdb, enqueue_candidate_investigations sample_state sample_slot 0 empty_control = (Ok rs, cdb) ∧
    (enqueue_candidate_investigations sample_state sample_slot 1 cdb).2 = cdb.
Proof.
  destruct (enqueue_candidate_investigations sample_state sample_slot 0 empty_control)
    as [r cdb] eqn:Hr.
  assert (is_ok r = true) as Hok.
  { assert (r = (enqueue_candidate_investigations sample_state sample_slot 0 empty_control).1)
      as -> by (rewrite Hr; reflexivity). vm_compute. reflexivity. }
  destruct r as [rs|]; [|discriminate Hok]. exists rs, cdb. split; [reflexivity|].
  destruct (dispatch_spec sample_state sample_slot 0 empty_control rs cdb Hr)
    as (created & _ & _ & _ & Hagain). rewrite Hagain. reflexivity.
Defined.

Lemma dispatchable_empty slot c :
  is_ok (candidate_job slot c) = true →
  is_ok (enqueue_arguments INVESTIGATE slot (candidate_payload c)) = true →
  dispatchable empty_control slot c.
Proof. intros Hj Ha. split_and!; try assumption. intros t Ht. discriminate Ht. Qed.

Lemma dispatch_succeeds_witness :
  ∃ rs cdb, enqueue_candidate_investigations sample_state sample_slot 0 empty_control = (Ok rs, cdb).
Proof.
  apply (dispatch_succeeds sample_state sample_slot 0 empty_control empty_control_wf).
  - apply (bool_decide_unpack _). vm_compute. exact I.
  - assert (candidate_rows sample_state = [sample_lane "a" "l1"; sample_lane "b" "l1"]) as ->
      by (vm_compute; reflexivity).
    constructor; [|constructor; [|constructor]]; apply dispatchable_empty; vm_compute; reflexivity.
Defined.
End samples.
