(* ===== verification/Scheduler.v ===== *)
(** * Scheduler: from schedule blocks to enqueued tasks.

    [scripts/news_container/scheduler.py].  An aware [datetime] in the schedule's
    zone is its wall time in microseconds with its fold; a UTC one is an instant.
    [ZoneInfo] stands for the time zone database, [py_str] for [str] of a value
    that is not a string.  The TOML document is given as the value [tomllib.loads]
    returns, without dates and times.  [time.sleep] and the clock of the loop are
    the list of the clock readings; overflow past the year 9999 is left out. *)
From S2P Require Import Prelude Text Sha256 Json Calendar Timestamps Investigation ControlStore Leases.
Local Open Scope Z_scope.

(** ** Local time *)

Definition MINUTE : Z := 60000000.

Record local_time := mk_local { wall : Z; fold : bool }.

(** [fromutc] gives the local time of an instant; [utcoffset] the offset of a
    local time, existing or not.  They agree on the local time of an instant. *)
Class ZoneInfo := {
  fromutc : Z → local_time;
  utcoffset : local_time → Z;
  fromutc_utcoffset t : wall (fromutc t) - utcoffset (fromutc t) = t }.

(** [datetime.hour], [datetime.minute] and [datetime.weekday()]: 1970-01-01 was
    a Thursday. *)
Definition hour_of (l : local_time) : Z := wall l / 3600000000 mod 24.
Definition minute_of (l : local_time) : Z := wall l / MINUTE mod 60.
Definition weekday_of (l : local_time) : Z := (wall l / DAY_US + 3) mod 7.

(** [l.replace(second=0, microsecond=0)] *)
Definition floor_minute (l : local_time) : local_time :=
  mk_local (wall l / MINUTE * MINUTE) (fold l).

(** [cursor_local + timedelta(minutes=1)], wall-clock arithmetic that clears the
    fold; [astimezone] of the zone the value already has is the identity. *)
Definition next_minute (l : local_time) : local_time := mk_local (wall l + MINUTE) false.

(** ** Schedule blocks *)

Inductive schedule_exn : Type :=
  | ScheduleError
  | Raised (e : py_error).

#[export] Instance schedule_exn_eq_dec : EqDecision schedule_exn.
Proof. solve_decision. Defined.

Record ScheduleBlock := mk_block
  { block_id : str; kind : str; local_hours : gset Z; local_minutes : gset Z;
    weekdays : gset Z; enabled : bool; notes : str; payload : dict }.

(** [frozenset(range(upper + 1))] *)
Definition clock_range (upper : Z) : gset Z :=
  list_to_set (map Z.of_nat (seq 0 (Z.to_nat (upper + 1)))).

Definition clock_value (upper : Z) (j : json) : result schedule_exn Z :=
  match j with
  | JInt n => if (0 <=? n) && (n <=? upper) then Ok n else Err ScheduleError
  | _ => Err ScheduleError
  end.

Definition _parse_clock_set (raw : option json) (upper : Z) : result schedule_exn (gset Z) :=
  match raw with
  | Some (JStr s) =>
      if bool_decide (s = u "all") then Ok (clock_range upper) else Err ScheduleError
  | Some (JList l) =>
      _ ← raise_if (length l =? 0)%nat ScheduleError;
      values ← mapR (clock_value upper) l;
      Ok (list_to_set values)
  | _ => Err ScheduleError
  end.

Definition _WEEKDAY_NAMES : list (str * Z) :=
  [(u "mon", 0); (u "tue", 1); (u "wed", 2); (u "thu", 3); (u "fri", 4); (u "sat", 5);
   (u "sun", 6)].

Definition weekday_value (j : json) : result schedule_exn Z :=
  match j with
  | JStr entry => of_option ScheduleError (lookup_key (lower entry) _WEEKDAY_NAMES)
  | _ => Err ScheduleError
  end.

Definition _parse_weekdays (raw : json) : result schedule_exn (gset Z) :=
  match raw with
  | JList l =>
      _ ← raise_if (length l =? 0)%nat ScheduleError;
      days ← mapR weekday_value l;
      Ok (list_to_set days)
  | _ => Err ScheduleError
  end.

(** [int(text)]: surrounding space, a sign, digits of any script with single
    underscores between them, at most 4300 digits. *)
Fixpoint drop_underscores (after_digit : bool) (s : str) : option str :=
  match s with
  | [] => if after_digit then Some [] else None
  | c :: s' =>
      if (c =? 95)%N then if after_digit then drop_underscores false s' else None
      else cons c <$> drop_underscores true s'
  end.

Definition int_of_text (text : str) : option Z :=
  let s := strip text in
  let '(sign, body) := match s with
                       | c :: s' => if (c =? 45)%N then (-1, s')
                                    else if (c =? 43)%N then (1, s') else (1, s)
                       | [] => (1, s)
                       end in
  digits ← drop_underscores false body;
  if (length digits <=? 4300)%nat then Z.mul sign <$> int_of_digits digits else None.

(** [due_local], as "HH:MM". *)
Definition parse_due_local (due_local : str) : result schedule_exn (gset Z * gset Z) :=
  let '(h, rest) := split1 58 due_local in
  local_hour ← of_option ScheduleError (int_of_text h);
  m ← of_option ScheduleError rest;
  local_minute ← of_option ScheduleError (int_of_text m);
  _ ← raise_if (negb ((0 <=? local_hour) && (local_hour <=? 23) &&
                      (0 <=? local_minute) && (local_minute <=? 59))) ScheduleError;
  Ok ({[local_hour]}, {[local_minute]}).

Definition has_key (key : str) (body : dict) : bool := bool_decide (key ∈ body.*1).

(** The hours and minutes of a block. *)
Definition parse_clock (body : dict) : result schedule_exn (gset Z * gset Z) :=
  let has_sets := has_key (u "hours") body || has_key (u "minutes") body in
  match lookup_key (u "due_local") body with
  | Some due_local =>
      _ ← raise_if has_sets ScheduleError;
      match due_local with
      | JStr s => parse_due_local s
      | _ => Err ScheduleError
      end
  | None =>
      _ ← raise_if (negb has_sets) ScheduleError;
      local_hours ← _parse_clock_set (lookup_key (u "hours") body) 23;
      local_minutes ← _parse_clock_set (lookup_key (u "minutes") body) 59;
      Ok (local_hours, local_minutes)
  end.

Definition all_weekdays : json :=
  JList (map (λ d, JStr d.1) _WEEKDAY_NAMES).

Section parse.
Context (py_str : json → str).

Definition parse_block (block_id : str) (body : json) : result schedule_exn ScheduleBlock :=
  match body with
  | JObj body =>
      match lookup_key (u "kind") body with
      | Some (JStr kind) =>
          _ ← map_err (λ _, ScheduleError) (validate_kind kind);
          '(local_hours, local_minutes) ← parse_clock body;
          weekdays ← _parse_weekdays (default all_weekdays (lookup_key (u "weekdays") body));
          let enabled := truthy (default (JBool true) (lookup_key (u "enabled") body)) in
          let notes := match default (JStr []) (lookup_key (u "notes") body) with
                       | JStr s => s
                       | v => py_str v
                       end in
          match default (JObj []) (lookup_key (u "payload") body) with
          | JObj payload_raw =>
              payload ← map_err (λ _, ScheduleError) (validate_payload payload_raw);
              Ok (mk_block block_id kind local_hours local_minutes weekdays enabled notes payload)
          | _ => Err ScheduleError
          end
      | _ => Err ScheduleError
      end
  | _ => Err ScheduleError
  end.

(** [raw] is [tomllib.loads(text)]. *)
Definition parse_schedule_toml (raw : dict) : result schedule_exn (list ScheduleBlock) :=
  match lookup_key (u "schedule") raw with
  | Some (JObj schedule_table) =>
      _ ← raise_if (length schedule_table =? 0)%nat ScheduleError;
      mapR (λ kv, parse_block kv.1 kv.2) schedule_table
  | _ => Err ScheduleError
  end.
End parse.

(** ** Slots *)

(** A task kind with the text of its due slot. *)
Definition slot : Type := str * str.

Definition block_matches (b : ScheduleBlock) (l : local_time) : bool :=
  enabled b && bool_decide (weekday_of l ∈ weekdays b) &&
  bool_decide (hour_of l ∈ local_hours b) && bool_decide (minute_of l ∈ local_minutes b).

(** [slots.sort(key=lambda pair: (pair[1], pair[0]))] *)
Definition slot_le (a b : slot) : Prop :=
  str_leb a.2 b.2 = true ∧ (a.2 = b.2 → str_leb a.1 b.1 = true).
#[export] Instance slot_le_dec : RelDecision slot_le.
Proof. intros a b. unfold slot_le. apply _. Defined.

Section slots.
Context `{ZoneInfo, IsoParser}.

(** [l.astimezone(UTC)] *)
Definition to_utc (l : local_time) : Z := wall l - utcoffset l.

(** [last_emitted] and [slots]. *)
Record sweep_state := mk_sweep { last_emitted : list (str * Z); found : list slot }.

Definition visit_block (lower_local upper_local cursor : local_time)
    (st : sweep_state) (b : ScheduleBlock) : sweep_state :=
  if negb (block_matches b cursor) then st
  else if bool_decide ((kind b, wall cursor) ∈ last_emitted st) then st
  else
    let emitted := (kind b, wall cursor) :: last_emitted st in
    let due_utc := to_utc cursor in
    if due_utc <? to_utc lower_local then mk_sweep emitted (found st)
    else if to_utc upper_local <? due_utc then mk_sweep emitted (found st)
    else mk_sweep emitted (found st ++ [(kind b, format_utc_z due_utc)]).

Fixpoint sweep (fuel : nat) (blocks : list ScheduleBlock)
    (lower_local upper_local cursor : local_time) (st : sweep_state) : sweep_state :=
  match fuel with
  | O => st
  | S fuel' =>
      if wall cursor <=? wall upper_local then
        sweep fuel' blocks lower_local upper_local (next_minute cursor)
          (foldl (visit_block lower_local upper_local cursor) st blocks)
      else st
  end.

(** The number of minutes from [cursor] to [upper], and one more step to leave
    the loop. *)
Definition sweep_fuel (cursor upper : local_time) : nat :=
  Z.to_nat ((wall upper - wall cursor) / MINUTE + 2).

Definition compute_due_slots (now_utc : Z) (blocks : list ScheduleBlock)
    (horizon_minutes : Z) : result schedule_exn (list slot) :=
  _ ← raise_if (horizon_minutes <? 0) (Raised ValueError);
  let upper_local := fromutc (now_utc + horizon_minutes * MINUTE) in
  let lower_local := fromutc now_utc in
  let cursor := floor_minute lower_local in
  let st := sweep (sweep_fuel cursor upper_local) blocks lower_local upper_local cursor
              (mk_sweep [] []) in
  Ok (merge_sort slot_le (found st)).

(** [_parse_utc_z] *)
Definition _parse_utc_z (value : str) : result schedule_exn Z :=
  of_option (Raised ValueError) (parse_utc_iso value).

Definition TWO_WEEKS : Z := 60 * 24 * 14.

Fixpoint after_now (now_utc : Z) (l : list slot) : result schedule_exn (list slot) :=
  match l with
  | [] => Ok []
  | s :: l' =>
      due ← _parse_utc_z s.2;
      future ← after_now now_utc l';
      Ok (if now_utc <? due then s :: future else future)
  end.

Definition next_due_slot (now_utc : Z) (blocks : list ScheduleBlock)
    : result schedule_exn (option slot) :=
  slots ← compute_due_slots now_utc blocks TWO_WEEKS;
  future ← after_now now_utc slots;
  Ok (head future).

(** ** The driver *)

Definition _payload_for_slot (k due_slot_utc : str) (blocks : list ScheduleBlock)
    : result schedule_exn dict :=
  due ← _parse_utc_z due_slot_utc;
  let l := fromutc due in
  let matches := map payload (filter (λ b, kind b = k ∧ block_matches b l = true) blocks) in
  match matches with
  | [] => Err ScheduleError
  | p :: _ =>
      let canonicals : list str := remove_dups (map payload_text matches) in
      _ ← raise_if (negb (length canonicals =? 1)%nat) ScheduleError;
      Ok p
  end.

(** A [control_store] call made by the scheduler. *)
Definition from_store {A} (m : M control_db py_error A) : M control_db schedule_exn A := λ db,
  let '(r, db') := m db in (map_err Raised r, db').

Definition enqueue_slot (blocks : list ScheduleBlock) (clock : Z)
    (results : list (str * str * bool)) (s : slot)
    : M control_db schedule_exn (list (str * str * bool)) :=
  payload ← lift (_payload_for_slot s.1 s.2 blocks);
  '(_, created) ← from_store (enqueue s.1 s.2 payload clock);
  mret (results ++ [(s.1, s.2, created)]).

(** [clock] is the time the control store reads for [created_at]. *)
Definition enqueue_due_slots (blocks : list ScheduleBlock) (now_utc horizon_minutes clock : Z)
    : M control_db schedule_exn (list (str * str * bool)) :=
  slots ← lift (compute_due_slots now_utc blocks horizon_minutes);
  foldM (enqueue_slot blocks clock) [] slots.

(** ** The loop *)

(** [max(0.5, min(sleep_cap_seconds, delta))], in microseconds. *)
Definition sleep_for (cap now : Z) (next : option slot) : result schedule_exn Z :=
  match next with
  | None => Ok cap
  | Some (_, due_slot) =>
      due ← _parse_utc_z due_slot;
      Ok (Z.max 500000 (Z.min cap (due - now)))
  end.

(** The readings of the clock drive the iterations; the value is the exit code
    and the sleeps, [None] while the loop would go on. *)
Fixpoint loop_from (blocks : list ScheduleBlock) (max_iterations cap iterations : Z)
    (sleeps readings : list Z) : M control_db schedule_exn (option Z * list Z) :=
  match readings with
  | [] => mret (None, sleeps)
  | now :: readings' =>
      _ ← enqueue_due_slots blocks now 0 now;
      let iterations := iterations + 1 in
      if negb (max_iterations =? 0) && (max_iterations <=? iterations)
      then mret (Some 0, sleeps)
      else
        next ← lift (next_due_slot now blocks);
        pause ← lift (sleep_for cap now next);
        loop_from blocks max_iterations cap iterations (sleeps ++ [pause]) readings'
  end.

Definition _run_loop (blocks : list ScheduleBlock) (max_iterations cap : Z)
    (readings : list Z) : M control_db schedule_exn (option Z * list Z) :=
  _ ← lift (raise_if (cap <=? 0) (Raised ValueError));
  loop_from blocks max_iterations cap 0 [] readings.
End slots.

(** ** What the sweep finds *)

Lemma next_minute_fold l : fold (next_minute l) = false.
Proof. done. Qed.

(** The cursor after [n] steps. *)
Fixpoint nth_cursor (n : nat) (l : local_time) : local_time :=
  match n with O => l | S n' => nth_cursor n' (next_minute l) end.

Lemma nth_cursor_wall n l : wall (nth_cursor n l) = wall l + Z.of_nat n * MINUTE.
Proof.
  revert l. induction n as [|n IH]; intros l; cbn [nth_cursor]; [lia|].
  rewrite IH. cbn [next_minute wall]. lia.
Qed.

Lemma nth_cursor_mk n w : nth_cursor n (mk_local w false) = mk_local (w + Z.of_nat n * MINUTE) false.
Proof.
  revert w. induction n as [|n IH]; intros w; cbn [nth_cursor].
  - f_equal. lia.
  - unfold next_minute. cbn [wall]. rewrite IH. f_equal. lia.
Qed.

#[export] Instance slot_le_trans : Transitive slot_le.
Proof.
  intros a b c [Hab Hab'] [Hbc Hbc']. split; [by eapply str_leb_trans|].
  intros Hac. assert (a.2 = b.2) as Heq.
  { unfold str_leb in *. rewrite !negb_true_iff in *. apply str_ltb_antisym; congruence. }
  eapply str_leb_trans; [by apply Hab'|apply Hbc'; congruence].
Qed.

#[export] Instance slot_le_total : Total slot_le.
Proof.
  intros a b. unfold slot_le. destruct (decide (a.2 = b.2)) as [Heq|Hne].
  - rewrite Heq. unfold str_leb at 1 3. rewrite str_ltb_irrefl.
    destruct (str_leb_total a.1 b.1); auto.
  - destruct (str_leb_total a.2 b.2); [left|right]; split; done || congruence.
Qed.

Section sweep_lemmas.
Context `{ZoneInfo}.
Context (lower upper : local_time) (blocks : list ScheduleBlock).
Implicit Types (st : sweep_state) (cursor : local_time) (b : ScheduleBlock).

Definition shown_slot (e : str * Z) : slot := (e.1, format_utc_z (to_utc (mk_local e.2 false))).
Definition in_window (e : str * Z) : Prop :=
  to_utc lower <= to_utc (mk_local e.2 false) <= to_utc upper.
#[export] Instance in_window_dec e : Decision (in_window e).
Proof. unfold in_window. apply _. Defined.

(** What the slots are, given the emitted keys. *)
Definition shown st : Prop :=
  NoDup (last_emitted st) ∧
  found st = map shown_slot (filter in_window (reverse (last_emitted st))).

Lemma visit_emitted cursor st b e :
  e ∈ last_emitted (visit_block lower upper cursor st b) ↔
  e ∈ last_emitted st ∨ (block_matches b cursor = true ∧ e = (kind b, wall cursor)).
Proof.
  unfold visit_block. destruct (block_matches b cursor); cbn [negb]; [|naive_solver].
  case_bool_decide as Hin; [naive_solver|].
  destruct (_ <? _); [|destruct (_ <? _)]; cbn [last_emitted];
    rewrite elem_of_cons; naive_solver.
Qed.

Lemma visit_shown cursor st b :
  fold cursor = false → shown st → shown (visit_block lower upper cursor st b).
Proof.
  intros Hf [Hnd Hs]. unfold visit_block.
  destruct (block_matches b cursor); cbn [negb]; [|done].
  case_bool_decide as Hin; [done|].
  assert (cursor = mk_local (wall cursor) false) as Hc by (destruct cursor; cbn in *; by subst).
  unfold shown. rewrite Hc in *. cbn [wall] in *. set (w := wall cursor) in *.
  assert (filter in_window (reverse ((kind b, w) :: last_emitted st)) =
          filter in_window (reverse (last_emitted st)) ++
          (if decide (in_window (kind b, w)) then [(kind b, w)] else [])) as Hf'.
  { by rewrite reverse_cons, filter_app. }
  destruct (Z.ltb_spec (to_utc (mk_local w false)) (to_utc lower)) as [Hl|Hl];
    [|destruct (Z.ltb_spec (to_utc upper) (to_utc (mk_local w false))) as [Hu|Hu]];
    cbn [last_emitted found]; (split; [by constructor|]); rewrite Hf', map_app, Hs.
  - rewrite decide_False by (unfold in_window; cbn [snd]; lia). by rewrite app_nil_r.
  - rewrite decide_False by (unfold in_window; cbn [snd]; lia). by rewrite app_nil_r.
  - rewrite decide_True by (unfold in_window; cbn [snd]; lia). done.
Qed.

Lemma visits_emitted cursor l st e :
  e ∈ last_emitted (foldl (visit_block lower upper cursor) st l) ↔
  e ∈ last_emitted st ∨ ∃ b, b ∈ l ∧ block_matches b cursor = true ∧ e = (kind b, wall cursor).
Proof.
  revert st. induction l as [|b l IH]; intros st; cbn [foldl].
  - split; [auto|]. intros [?|(b & Hb%elem_of_nil & _)]; done.
  - rewrite IH, visit_emitted. setoid_rewrite elem_of_cons. naive_solver.
Qed.

Lemma visits_shown cursor l st :
  fold cursor = false → shown st → shown (foldl (visit_block lower upper cursor) st l).
Proof. intros Hf. revert st. induction l; eauto using visit_shown. Qed.

Lemma sweep_emitted fuel cursor st e :
  e ∈ last_emitted (sweep fuel blocks lower upper cursor st) ↔
  e ∈ last_emitted st ∨ ∃ n b, (n < fuel)%nat ∧ wall (nth_cursor n cursor) <= wall upper ∧
    b ∈ blocks ∧ block_matches b (nth_cursor n cursor) = true ∧
    e = (kind b, wall (nth_cursor n cursor)).
Proof.
  revert cursor st. induction fuel as [|fuel IH]; intros cursor st; cbn [sweep].
  { split; [by left|]. intros [?|(n & b & ? & _)]; [done|lia]. }
  destruct (Z.leb_spec (wall cursor) (wall upper)) as [Hle|Hlt].
  - rewrite IH, visits_emitted. split.
    + intros [[?|(b & Hb)]|(n & b & ? & Hb)]; [by left| |].
      * right. exists O, b. cbn [nth_cursor]. split; [lia|]. naive_solver.
      * right. exists (S n), b. split; [lia|]. done.
    + intros [?|([|n] & b & ? & Hb)]; [auto| |].
      * left. right. exists b. cbn [nth_cursor] in Hb. naive_solver.
      * right. exists n, b. split; [lia|]. done.
  - split; [auto|]. intros [?|(n & b & _ & Hw & _)]; [done|].
    rewrite nth_cursor_wall in Hw. unfold MINUTE in Hw. lia.
Qed.

Lemma sweep_shown fuel cursor st :
  fold cursor = false → shown st → shown (sweep fuel blocks lower upper cursor st).
Proof.
  revert cursor st. induction fuel as [|fuel IH]; intros cursor st Hf Hs; cbn [sweep]; [done|].
  destruct (_ <=? _); [|done]. apply IH; [done|]. by apply visits_shown.
Qed.
End sweep_lemmas.

(** ** Slots under a steady offset *)

Lemma format_utc_z_inj t1 t2 :
  instant t1 → instant t2 → t1 mod MINUTE = 0 → t2 mod MINUTE = 0 →
  format_utc_z t1 = format_utc_z t2 → t1 = t2.
Proof.
  intros H1 H2 M1 M2 Heq.
  pose proof (format_utc_z_ltb t1 t2 H1 H2) as L1. pose proof (format_utc_z_ltb t2 t1 H2 H1) as L2.
  rewrite Heq, str_ltb_irrefl in L1. rewrite Heq, str_ltb_irrefl in L2.
  unfold MINUTE in *. revert L1 L2 M1 M2. Z.to_euclidean_division_equations. lia.
Qed.

Section steady.
Context `{ZoneInfo, IsoParser}.

(** The zone keeps the offset [o], a whole number of minutes, from [lo] to
    [hi], outside a repeated hour. *)
Definition steady (lo hi o : Z) : Prop :=
  o mod MINUTE = 0 ∧ ∀ t, lo <= t <= hi → fromutc t = mk_local (t + o) false.

(** The start of the minute of [now], where the sweep starts. *)
Definition minute_start (now : Z) : Z := now / MINUTE * MINUTE.

Context (now h o : Z) (blocks : list ScheduleBlock).
Context (Hh : 0 <= h) (Hsteady : steady (minute_start now) (now + h * MINUTE) o).

Lemma minute_start_bounds t : minute_start t <= t < minute_start t + MINUTE.
Proof using Type. unfold minute_start, MINUTE. Z.to_euclidean_division_equations. lia. Qed.

Lemma minute_start_range : minute_start now <= now + h * MINUTE.
Proof using Hh. pose proof (minute_start_bounds now). unfold MINUTE in *. lia. Qed.

Lemma steady_to_utc t :
  minute_start now <= t <= now + h * MINUTE → to_utc (mk_local (t + o) false) = t.
Proof using Hsteady.
  destruct Hsteady as [_ Hs]. intros Ht. pose proof (fromutc_utcoffset t) as Hz.
  by rewrite (Hs t Ht) in Hz.
Qed.

Lemma steady_start : floor_minute (fromutc now) = mk_local (minute_start now + o) false.
Proof using Hh Hsteady.
  destruct Hsteady as [Ho Hs]. unfold floor_minute. rewrite Hs.
  - cbn [wall fold]. f_equal. unfold minute_start, MINUTE in *.
    Z.to_euclidean_division_equations. lia.
  - pose proof (minute_start_bounds now). unfold MINUTE in *. lia.
Qed.

Definition steady_sweep : sweep_state :=
  let upper := fromutc (now + h * MINUTE) in let lower := fromutc now in
  let cursor := floor_minute lower in
  sweep (sweep_fuel cursor upper) blocks lower upper cursor (mk_sweep [] []).

Lemma compute_due_slots_runs :
  compute_due_slots now blocks h = Ok (merge_sort slot_le (found steady_sweep)).
Proof using Hh. unfold compute_due_slots. by rewrite (proj2 (Z.ltb_ge _ _)). Qed.

Lemma steady_emitted e :
  e ∈ last_emitted steady_sweep ↔
  ∃ b t, b ∈ blocks ∧ minute_start now <= t <= now + h * MINUTE ∧ t mod MINUTE = 0 ∧
    block_matches b (fromutc t) = true ∧ e = (kind b, t + o).
Proof using Hh Hsteady.
  pose proof minute_start_range as Hr. pose proof (minute_start_bounds now) as Hb.
  destruct Hsteady as [Ho Hs]. unfold steady_sweep. rewrite sweep_emitted, steady_start.
  cbn [last_emitted]. rewrite (Hs (now + h * MINUTE)) by lia. unfold sweep_fuel. cbn [wall].
  split.
  - intros [[]%elem_of_nil|(n & b & _ & Hw & Hbl & Hm & ->)].
    rewrite nth_cursor_mk in *. cbn [wall] in *.
    exists b, (minute_start now + Z.of_nat n * MINUTE).
    assert (minute_start now <= minute_start now + Z.of_nat n * MINUTE <= now + h * MINUTE)
      as Hrange by (unfold MINUTE in *; lia).
    rewrite (Hs _ Hrange). split_and!; try done; try lia.
    + unfold minute_start, MINUTE. Z.to_euclidean_division_equations. lia.
    + by rewrite <-Z.add_assoc, (Z.add_comm _ o), Z.add_assoc.
    + f_equal. lia.
  - intros (b & t & Hbl & Ht & Hmod & Hm & ->). right.
    exists (Z.to_nat ((t - minute_start now) / MINUTE)), b.
    assert (Z.of_nat (Z.to_nat ((t - minute_start now) / MINUTE)) * MINUTE =
            t - minute_start now) as Hn.
    { unfold minute_start, MINUTE in *. Z.to_euclidean_division_equations. lia. }
    rewrite nth_cursor_mk, Hn. cbn [wall]. rewrite (Hs t Ht) in Hm.
    replace (minute_start now + o + (t - minute_start now)) with (t + o) by lia.
    split_and!; try done; try lia.
    unfold MINUTE in *. Z.to_euclidean_division_equations. lia.
Qed.

Lemma steady_shown : shown (fromutc now) (fromutc (now + h * MINUTE)) steady_sweep.
Proof using Hh Hsteady.
  apply sweep_shown; [by rewrite steady_start|]. split; [constructor|done].
Qed.

Lemma steady_in_window t k :
  minute_start now <= t <= now + h * MINUTE →
  in_window (fromutc now) (fromutc (now + h * MINUTE)) (k, t + o) ↔ now <= t.
Proof using Hh Hsteady.
  intros Ht. pose proof (minute_start_bounds now). destruct Hsteady as [_ Hs].
  unfold in_window. cbn [snd]. rewrite (Hs now), (Hs (now + h * MINUTE)) by (unfold MINUTE in *; lia).
  rewrite !steady_to_utc by (unfold MINUTE in *; lia). lia.
Qed.

Lemma steady_found s :
  s ∈ found steady_sweep ↔
  ∃ b t, b ∈ blocks ∧ now <= t <= now + h * MINUTE ∧ t mod MINUTE = 0 ∧
    block_matches b (fromutc t) = true ∧ s = (kind b, format_utc_z t).
Proof using Hh Hsteady.
  pose proof (minute_start_bounds now). rewrite (proj2 steady_shown).
  rewrite list_elem_of_fmap. setoid_rewrite list_elem_of_filter.
  setoid_rewrite elem_of_reverse. setoid_rewrite steady_emitted. split.
  - intros (e & -> & Hw & b & t & Hb & Ht & Hm & Hbm & ->).
    apply steady_in_window in Hw; [|done]. exists b, t. unfold shown_slot. cbn [fst snd].
    rewrite steady_to_utc by done. split_and!; done || lia.
  - intros (b & t & Hb & Ht & Hm & Hbm & ->). exists (kind b, t + o).
    assert (minute_start now <= t <= now + h * MINUTE) as Ht' by lia.
    unfold shown_slot. cbn [fst snd]. rewrite steady_to_utc by done.
    split; [done|]. split; [apply steady_in_window; lia|]. by exists b, t.
Qed.

Lemma steady_found_NoDup :
  instant (minute_start now) → instant (now + h * MINUTE) → NoDup (found steady_sweep).
Proof using Hh Hsteady.
  intros Hlo Hhi. destruct steady_shown as [Hnd ->].
  apply NoDup_fmap_2_strong; [|by apply NoDup_filter; rewrite reverse_Permutation].
  intros e1 e2 [_ H1%elem_of_reverse%steady_emitted]%list_elem_of_filter
    [_ H2%elem_of_reverse%steady_emitted]%list_elem_of_filter.
  destruct H1 as (b1 & t1 & _ & R1 & M1 & _ & ->), H2 as (b2 & t2 & _ & R2 & M2 & _ & ->).
  unfold shown_slot. cbn [fst snd]. rewrite !steady_to_utc by done. intros [= -> Heq].
  apply format_utc_z_inj in Heq as ->; unfold instant in *; done || lia.
Qed.
End steady.

Section driver.
Context `{ZoneInfo, IsoParser}.
Implicit Types (db : control_db) (blocks : list ScheduleBlock) (s : slot).

(** C22: While the zone keeps its offset, the slots are exactly the minutes of the
    window at which an enabled block is due, once per kind, in order. *)
Theorem compute_due_slots_steady blocks now h o :
  0 <= h → steady (minute_start now) (now + h * MINUTE) o →
  instant (minute_start now) → instant (now + h * MINUTE) →
  ∃ slots, compute_due_slots now blocks h = Ok slots ∧
    StronglySorted slot_le slots ∧ NoDup slots ∧
    ∀ s, s ∈ slots ↔ ∃ b t, b ∈ blocks ∧ now <= t <= now + h * MINUTE ∧ t mod MINUTE = 0 ∧
      block_matches b (fromutc t) = true ∧ s = (kind b, format_utc_z t).
Proof.
  intros Hh Hs Hlo Hhi. eexists. split; [by apply compute_due_slots_runs|].
  split; [apply (StronglySorted_merge_sort slot_le)|]. rewrite merge_sort_Permutation.
  split; [by eapply steady_found_NoDup|]. intros s. rewrite merge_sort_Permutation.
  by eapply steady_found.
Qed.

(** A slot the window holds, at the instant it stands for. *)
Lemma due_slot_instant blocks now h o slots s :
  0 <= h → steady (minute_start now) (now + h * MINUTE) o →
  instant (minute_start now) → instant (now + h * MINUTE) →
  compute_due_slots now blocks h = Ok slots → s ∈ slots →
  ∃ b t, b ∈ blocks ∧ now <= t <= now + h * MINUTE ∧ instant t ∧ t mod MINUTE = 0 ∧
    block_matches b (fromutc t) = true ∧ s = (kind b, format_utc_z t) ∧
    parse_utc_iso s.2 = Some t.
Proof.
  intros Hh Hs Hlo Hhi Hc Hin. rewrite compute_due_slots_runs in Hc by done.
  injection Hc as <-. rewrite merge_sort_Permutation in Hin.
  apply (steady_found now h o blocks Hh Hs) in Hin as (b & t & Hb & Ht & Hm & Hbm & ->).
  pose proof (minute_start_bounds now).
  assert (instant t) as Hti by (unfold instant in *; lia).
  exists b, t. split_and!; try done; try lia. cbn [snd].
  apply parse_format_utc_z; [done|]. unfold MINUTE in Hm. Z.to_euclidean_division_equations. lia.
Qed.

Lemma remove_dups_same {A} `{EqDecision A} (x : A) l :
  l ≠ [] → (∀ y, y ∈ l → y = x) → remove_dups l = [x].
Proof.
  induction l as [|y l IH]; [done|]. intros _ Hall.
  rewrite (Hall y) by (apply elem_of_cons; by left). cbn [remove_dups].
  destruct l as [|z l]; [done|]. case_decide as Hx; [apply IH|exfalso; apply Hx].
  - done.
  - intros w Hw. apply Hall, elem_of_cons. by right.
  - rewrite <-(Hall z) by (apply elem_of_cons; right; apply elem_of_cons; by left).
    apply elem_of_cons. by left.
Qed.

Lemma remove_dups_one {A} `{EqDecision A} (x : A) l :
  (length (remove_dups (x :: l)) =? 1)%nat = forallb (λ y, bool_decide (y = x)) l.
Proof.
  destruct (forallb _ l) eqn:Hall.
  - rewrite forallb_forall in Hall. rewrite (remove_dups_same x); [done|done|].
    intros y [->|Hy%list_elem_of_In]%elem_of_cons; [done|]. by apply Hall, bool_decide_eq_true in Hy.
  - apply Nat.eqb_neq. intros Hlen.
    destruct (remove_dups (x :: l)) as [|z [|]] eqn:Hd; try done.
    assert (∀ y, y ∈ x :: l → y = z) as Hz.
    { intros y Hy. apply list_elem_of_singleton. rewrite <-Hd. by apply elem_of_remove_dups. }
    apply not_true_iff_false in Hall. apply Hall, forallb_forall. intros y Hy%list_elem_of_In.
    apply bool_decide_eq_true. rewrite (Hz y), (Hz x); [done|set_solver..].
Qed.

(** The enabled blocks of a kind that are due at an instant, in the order of the
    schedule. *)
Definition owners blocks (k : str) (t : Z) : list ScheduleBlock :=
  filter (λ b, kind b = k ∧ block_matches b (fromutc t) = true) blocks.

(** The blocks carry one payload. *)
Definition same_payload (b : ScheduleBlock) (l : list ScheduleBlock) : bool :=
  forallb (λ b', bool_decide (payload_text (payload b') = payload_text (payload b))) l.

Lemma payload_for_slot_owners blocks k text t :
  parse_utc_iso text = Some t →
  _payload_for_slot k text blocks =
    match owners blocks k t with
    | [] => Err ScheduleError
    | b :: rest => if same_payload b rest then Ok (payload b) else Err ScheduleError
    end.
Proof.
  intros Hp. unfold _payload_for_slot, _parse_utc_z. rewrite Hp.
  cbn [of_option mbind result_bind]. fold (owners blocks k t).
  destruct (owners blocks k t) as [|b rest]; [done|]. cbn [map].
  rewrite remove_dups_one. unfold same_payload.
  assert (forallb (λ y, bool_decide (y = payload_text (payload b)))
            (map payload_text (map payload rest)) =
          forallb (λ b', bool_decide (payload_text (payload b') = payload_text (payload b))) rest)
    as ->; [|by destruct (forallb _ rest)].
  induction rest as [|b' rest IH]; [done|]. cbn [map forallb]. by rewrite IH.
Qed.

(** Under a steady offset every slot the sweep emits stands for a minute of
    the window at which some block of its kind is due, and the driver then takes
    the payload of the first of these blocks if they all carry the same, and
    raises [ScheduleError] if they disagree. *)
Theorem due_slots_owned blocks now h o slots s :
  0 <= h → steady (minute_start now) (now + h * MINUTE) o →
  instant (minute_start now) → instant (now + h * MINUTE) →
  compute_due_slots now blocks h = Ok slots → s ∈ slots →
  ∃ t b rest, now <= t <= now + h * MINUTE ∧ s.2 = format_utc_z t ∧
    owners blocks s.1 t = b :: rest ∧
    _payload_for_slot s.1 s.2 blocks =
      if same_payload b rest then Ok (payload b) else Err ScheduleError.
Proof.
  intros Hh Hs Hlo Hhi Hc Hin.
  destruct (due_slot_instant _ _ _ _ _ _ Hh Hs Hlo Hhi Hc Hin)
    as (b & t & Hb & Ht & _ & _ & Hm & -> & Hp). cbn [fst snd] in *.
  rewrite (payload_for_slot_owners _ _ _ t Hp).
  destruct (owners blocks (kind b) t) as [|b' rest] eqn:Ho; [|by exists t, b', rest].
  assert (b ∈ owners blocks (kind b) t) as Hin' by (by apply list_elem_of_filter).
  rewrite Ho in Hin'. by apply elem_of_nil in Hin'.
Qed.
End driver.

(** ** Enqueueing *)

Section enqueueing.
Context `{ZoneInfo, IsoParser}.
Implicit Types (db : control_db) (blocks : list ScheduleBlock) (s : slot).

(** What a slot asks the store for: the payload of its blocks, the identifier of
    its task, and the task if it is new. *)
Definition slot_payload blocks s : dict :=
  match _payload_for_slot s.1 s.2 blocks with Ok p => p | Err _ => [] end.
Definition slot_key blocks s : str := job_key_of s.1 (slot_payload blocks s).
Definition slot_id blocks s : str := task_id_of s.1 s.2 (slot_key blocks s).
Definition slot_task blocks (clock : Z) s : task :=
  mk_task s.1 s.2 (slot_key blocks s) (payload_text (slot_payload blocks s)) Pending 0
    (utc_now_iso clock).

(** The slot has a payload that may be enqueued, and its task is stored with it. *)
Definition queued blocks db s : Prop :=
  _payload_for_slot s.1 s.2 blocks = Ok (slot_payload blocks s) ∧
  is_ok (enqueue_arguments s.1 s.2 (slot_payload blocks s)) = true ∧
  ∃ t, tasks db !! slot_id blocks s = Some t ∧
    t_payload_json t = payload_text (slot_payload blocks s).

Lemma enqueue_slot_Ok blocks clock rows s db rows' db' :
  enqueue_slot blocks clock rows s db = (Ok rows', db') →
  ∃ c, rows' = rows ++ [(s.1, s.2, c)] ∧ queued blocks db' s ∧
    match tasks db !! slot_id blocks s with
    | Some _ => c = false ∧ db' = db
    | None => c = true ∧
        db' = set_tasks (<[slot_id blocks s := slot_task blocks clock s]> (tasks db)) db
    end.
Proof.
  unfold enqueue_slot. intros Hrun.
  apply M_bind_Ok in Hrun as (p & ? & [= Hp <-] & Hrun).
  apply M_bind_Ok in Hrun as ([id c] & db1 & He & [= <- <-]).
  unfold from_store in He. destruct (enqueue _ _ _ _ _) as [r db2] eqn:Hq.
  injection He as Hr ->. apply map_err_Ok in Hr as ->.
  apply enqueue_Ok in Hq as (key & text & Ha & Hm). exists c. split; [done|].
  pose proof (enqueue_arguments_spec _ _ _ _ _ _ Ha) as (-> & -> & ->).
  assert (slot_payload blocks s = p) as Hsp by (unfold slot_payload; by rewrite Hp).
  unfold queued, slot_id, slot_task, slot_key. rewrite Hsp, Ha. cbn [is_ok].
  destruct (tasks db !! _) as [t|] eqn:Ht.
  - destruct Hm as (Htext & -> & ->). split; [|done]. do 2 (split; [done|]). by exists t.
  - destruct Hm as (_ & -> & ->). split; [|done]. do 2 (split; [done|]). eexists.
    cbn [set_tasks tasks]. by rewrite lookup_insert_eq.
Qed.

Lemma enqueue_slot_again blocks clock rows s db :
  queued blocks db s → enqueue_slot blocks clock rows s db = (Ok (rows ++ [(s.1, s.2, false)]), db).
Proof.
  intros (Hp & [[[id key] text] Ha]%is_ok_true & t & Ht & Htext).
  unfold enqueue_slot, mbind, M_bind, lift. rewrite Hp. unfold from_store.
  pose proof (enqueue_arguments_spec _ _ _ _ _ _ Ha) as (-> & Hid & ->).
  rewrite (proj2 (enqueue_Ok s.1 s.2 _ clock db id false db)); [done|].
  eexists _, _. split; [exact Ha|]. rewrite Hid. unfold slot_id, slot_key in Ht. by rewrite Ht.
Qed.

Lemma queued_mono blocks db db' s : tasks db ⊆ tasks db' → queued blocks db s → queued blocks db' s.
Proof.
  intros Hsub (Hp & Ha & t & Ht & Htext). split_and!; try done. exists t.
  split; [|done]. by eapply lookup_weaken.
Qed.

(** A row per slot: its kind, its time, and whether its task is new. *)
Definition slot_rows (slots : list slot) (created : list bool) : list (str * str * bool) :=
  zip_with (λ s c, (s.1, s.2, c)) slots created.

Lemma enqueue_slots_Ok blocks clock slots rows db rows' db' :
  foldM (enqueue_slot blocks clock) rows slots db = (Ok rows', db') →
  ∃ created, rows' = rows ++ slot_rows slots created ∧ Forall (queued blocks db') slots ∧
    enqueued_exactly (slot_id blocks) (slot_task blocks clock) slots db db' created.
Proof.
  revert rows db. induction slots as [|s slots IH]; intros rows db Hrun; cbn [foldM] in Hrun.
  - injection Hrun as <- <-. exists []. rewrite app_nil_r.
    split_and!; [done|constructor|apply enqueued_exactly_nil].
  - apply M_bind_Ok in Hrun as (rows1 & db1 & H1 & Hrun).
    apply enqueue_slot_Ok in H1 as (c & -> & Hq & Hc).
    apply IH in Hrun as (created & -> & Hall & Hx). exists (c :: created). split_and!.
    + by rewrite <-app_assoc.
    + constructor; [|done]. by eapply queued_mono, Hq; eapply enqueued_exactly_subseteq.
    + by eapply enqueued_exactly_cons.
Qed.

Lemma enqueue_slots_again blocks clock slots rows db :
  Forall (queued blocks db) slots →
  foldM (enqueue_slot blocks clock) rows slots db =
    (Ok (rows ++ map (λ s, (s.1, s.2, false)) slots), db).
Proof.
  intros Hall. revert rows. induction Hall as [|s slots Hs _ IH]; intros rows; cbn [foldM map].
  - by rewrite app_nil_r.
  - unfold mbind, M_bind. rewrite enqueue_slot_again by done. rewrite IH, <-app_assoc. done.
Qed.

(** C24: After a successful sweep the store holds what it held and, for each slot
    whose identifier was missing, its fresh pending task of generation 0, and
    nothing else; the rows are the slots in order, marked created exactly where
    a task was added; every slot has its task with the payload of its blocks;
    and a second sweep of the same window creates nothing. *)
Theorem enqueue_due_slots_spec blocks now h clock db rows db' :
  enqueue_due_slots blocks now h clock db = (Ok rows, db') →
  ∃ slots created, compute_due_slots now blocks h = Ok slots ∧
    rows = slot_rows slots created ∧
    enqueued_exactly (slot_id blocks) (slot_task blocks clock) slots db db' created ∧
    Forall (queued blocks db') slots ∧
    ∀ clock', enqueue_due_slots blocks now h clock' db' =
      (Ok (map (λ s, (s.1, s.2, false)) slots), db').
Proof.
  unfold enqueue_due_slots. intros Hrun.
  apply M_bind_Ok in Hrun as (slots & ? & [= Hc <-] & Hrun).
  apply enqueue_slots_Ok in Hrun as (created & -> & Hall & Hx).
  exists slots, created. split_and!; try done. intros clock'.
  unfold mbind, M_bind, lift. rewrite Hc. by rewrite enqueue_slots_again.
Qed.
End enqueueing.

(** ** Parsing *)

Section parsing.
Context (py_str : json → str).

Definition within (upper : Z) (values : gset Z) : Prop :=
  values ≠ ∅ ∧ ∀ x, x ∈ values → 0 <= x <= upper.

Definition block_wf (b : ScheduleBlock) : Prop :=
  kind b ∈ ALLOWED_KINDS ∧ within 23 (local_hours b) ∧ within 59 (local_minutes b) ∧
  within 6 (weekdays b) ∧ delivery_free (JObj (payload b)).

Lemma within_singleton upper x : 0 <= x <= upper → within upper {[x]}.
Proof. intros Hx. split; [by apply non_empty_singleton_L|]. by intros y ->%elem_of_singleton. Qed.

Lemma within_list upper (l : list Z) :
  l ≠ [] → Forall (λ x, 0 <= x <= upper) l → within upper (list_to_set l).
Proof.
  intros Hl Hall. rewrite Forall_forall in Hall. split.
  - destruct l as [|x l]; [done|]. cbn [list_to_set]. intros Heq.
    apply (not_elem_of_empty (C := gset Z) x). rewrite <-Heq. by apply elem_of_union_l, elem_of_singleton.
  - intros x Hx%elem_of_list_to_set. by apply Hall.
Qed.

Lemma within_mapR (f : json → result schedule_exn Z) upper (raw : list json) l :
  (∀ j x, f j = Ok x → 0 <= x <= upper) →
  (length raw =? 0)%nat = false → mapR f raw = Ok l → within upper (list_to_set l).
Proof.
  intros Hf Hlen Hl. pose proof (mapR_length _ _ _ Hl) as Hlength.
  apply within_list; [destruct l, raw; done|].
  apply mapR_Ok in Hl. clear Hlen Hlength. induction Hl; constructor; eauto.
Qed.

Lemma parse_clock_set_within raw upper values :
  0 <= upper → _parse_clock_set raw upper = Ok values → within upper values.
Proof.
  intros Hu. destruct raw as [[]|]; cbn [_parse_clock_set]; try done.
  - case_bool_decide; [|done]. intros [= <-]. apply within_list.
    + replace (Z.to_nat (upper + 1)) with (S (Z.to_nat upper)) by lia. done.
    + apply Forall_forall. intros x (n & -> & Hn)%list_elem_of_fmap.
      apply elem_of_seq in Hn. lia.
  - intros Hp. inv_ok. apply (within_mapR (clock_value upper) upper l); [|done..].
    intros [] y; cbn [clock_value]; try done. destruct (_ && _) eqn:Hb; [|done]. intros [= <-]. lia.
Qed.

Lemma parse_clock_within body hours minutes :
  parse_clock body = Ok (hours, minutes) → within 23 hours ∧ within 59 minutes.
Proof.
  unfold parse_clock. destruct (lookup_key (u "due_local") body) as [[]|]; intros Hp.
  all: apply bind_Ok in Hp as (? & _ & Hp); try done.
  - unfold parse_due_local in Hp. destruct (split1 58 s) as [h rest].
    inv_ok. split; apply within_singleton; lia.
  - apply bind_Ok in Hp as (hs & Hh & Hp). apply bind_Ok in Hp as (ms & Hm & [= <- <-]).
    split; by eapply parse_clock_set_within.
Qed.

Lemma weekday_value_within j x : weekday_value j = Ok x → 0 <= x <= 6.
Proof.
  destruct j; cbn [weekday_value]; try done. rewrite of_option_Ok. intros Hx%lookup_key_In.
  assert (Forall (λ d : str * Z, 0 <= d.2 <= 6) _WEEKDAY_NAMES) as Hall
    by (repeat constructor; cbn; lia).
  rewrite Forall_forall in Hall. apply (Hall _ Hx).
Qed.

Lemma parse_weekdays_within raw days : _parse_weekdays raw = Ok days → within 6 days.
Proof.
  destruct raw; cbn [_parse_weekdays]; try done. intros Hp. inv_ok.
  eapply within_mapR; [exact weekday_value_within|done..].
Qed.

Lemma validate_payload_free p p' : validate_payload p = Ok p' → delivery_free (JObj p').
Proof.
  unfold validate_payload. intros (j & [-> Hd]%scrub_delivery_iff & [= <-])%bind_Ok. done.
Qed.

Lemma parse_block_wf id body b : parse_block py_str id body = Ok b → block_id b = id ∧ block_wf b.
Proof.
  unfold parse_block. destruct body as [| | | | | |l]; try done.
  destruct (lookup_key (u "kind") l) as [[]|]; try done. intros Hp.
  apply bind_Ok in Hp as (? & Hk & Hp). apply bind_Ok in Hp as ([hours minutes] & Hc & Hp).
  apply bind_Ok in Hp as (days & Hd & Hp). cbv zeta in Hp.
  destruct (default (JObj []) _); try done. apply bind_Ok in Hp as (p & Hpl & [= <-]).
  apply map_err_Ok in Hk, Hpl. apply validate_kind_Ok in Hk as [_ Hk].
  apply parse_clock_within in Hc as [? ?]. split; [done|]. unfold block_wf. cbn [kind local_hours local_minutes weekdays payload].
  split_and!; try done.
  - by eapply parse_weekdays_within.
  - by eapply validate_payload_free.
Qed.

(** C25: A schedule that parses has at least one block, and every block has an
    allowed kind, non-empty clock and weekday sets in range, and a payload that
    does not ask for delivery. *)
Theorem parse_schedule_toml_wf raw blocks :
  parse_schedule_toml py_str raw = Ok blocks → blocks ≠ [] ∧ Forall block_wf blocks.
Proof.
  unfold parse_schedule_toml. destruct (lookup_key (u "schedule") raw) as [[]|]; try done.
  intros Hp. apply bind_Ok in Hp as (? & Hl%raise_if_Ok & Hp).
  pose proof (mapR_length _ _ _ Hp) as Hlen. split; [by destruct blocks, l|].
  apply mapR_Ok in Hp. clear Hl Hlen. induction Hp as [|kv b l' bs Hb _ IH]; constructor; [|done].
  by apply parse_block_wf in Hb as [_ ?].
Qed.
End parsing.

(** ** The next slot and the loop *)

Section next.
Context `{ZoneInfo, IsoParser}.
Implicit Types (blocks : list ScheduleBlock) (s : slot).

Definition parses s : Prop := is_Some (parse_utc_iso s.2).
Definition is_future (now : Z) s : Prop := now < default 0 (parse_utc_iso s.2).

#[export] Instance is_future_dec now s : Decision (is_future now s).
Proof. unfold is_future. apply _. Defined.

Lemma after_now_Ok now l : Forall parses l → after_now now l = Ok (filter (is_future now) l).
Proof.
  induction 1 as [|s l [t Ht] _ IH]; [done|]. cbn [after_now]. unfold _parse_utc_z.
  rewrite Ht, IH. cbn [of_option mbind result_bind]. rewrite filter_cons.
  destruct (Z.ltb_spec now t); [rewrite decide_True|rewrite decide_False];
    unfold is_future; rewrite ?Ht; cbn; done || lia.
Qed.

(** A minute at which some enabled block is due. *)
Definition due_at blocks (t : Z) (b : ScheduleBlock) : Prop :=
  b ∈ blocks ∧ t mod MINUTE = 0 ∧ block_matches b (fromutc t) = true.

(** The future slots of two weeks. *)
Definition future_slots (now : Z) blocks : list slot :=
  filter (is_future now) (merge_sort slot_le (found (steady_sweep now TWO_WEEKS blocks))).

Section two_weeks.
Context (now o : Z) blocks.
Context (Hs : steady (minute_start now) (now + TWO_WEEKS * MINUTE) o).
Context (Hlo : instant (minute_start now)) (Hhi : instant (now + TWO_WEEKS * MINUTE)).

Lemma two_weeks_runs :
  compute_due_slots now blocks TWO_WEEKS =
    Ok (merge_sort slot_le (found (steady_sweep now TWO_WEEKS blocks))).
Proof using Type. by apply compute_due_slots_runs. Qed.

Lemma two_weeks_instant t : now < t <= now + TWO_WEEKS * MINUTE → instant t.
Proof using Hlo Hhi. pose proof (minute_start_bounds now). unfold instant in *. lia. Qed.

Lemma future_slots_elem s :
  s ∈ future_slots now blocks ↔
  ∃ b t, due_at blocks t b ∧ now < t <= now + TWO_WEEKS * MINUTE ∧ s = (kind b, format_utc_z t).
Proof using Hs Hlo Hhi.
  unfold future_slots. rewrite list_elem_of_filter. split.
  - intros [Hf Hin].
    destruct (due_slot_instant blocks now TWO_WEEKS o _ s ltac:(done) Hs Hlo Hhi
      two_weeks_runs Hin) as (b & t & Hb & Ht & _ & Hmod & Hm & -> & Hp).
    unfold is_future in Hf. rewrite Hp in Hf. cbn in Hf.
    exists b, t. split_and!; done || lia.
  - intros (b & t & (Hb & Hmod & Hm) & Ht & ->). split.
    + unfold is_future. cbn [snd]. rewrite parse_format_utc_z; [cbn; lia|by apply two_weeks_instant|].
      unfold MINUTE in Hmod. Z.to_euclidean_division_equations. lia.
    + rewrite merge_sort_Permutation. apply (steady_found now TWO_WEEKS o blocks ltac:(done) Hs).
      exists b, t. split_and!; done || lia.
Qed.

Lemma next_due_slot_runs : next_due_slot now blocks = Ok (head (future_slots now blocks)).
Proof using Hs Hlo Hhi.
  unfold next_due_slot. rewrite two_weeks_runs. cbn [mbind result_bind].
  rewrite after_now_Ok; [done|]. apply Forall_forall. intros s Hin.
  destruct (due_slot_instant blocks now TWO_WEEKS o _ s ltac:(done) Hs Hlo Hhi
    two_weeks_runs Hin) as (? & t & _ & _ & _ & _ & _ & _ & Hp). by exists t.
Qed.

(** The texts of slots compare as their minutes. *)
Lemma slot_le_minutes k1 k2 t1 t2 :
  instant t1 → instant t2 → t1 mod MINUTE = 0 → t2 mod MINUTE = 0 →
  slot_le (k1, format_utc_z t1) (k2, format_utc_z t2) → t1 <= t2.
Proof using Type.
  intros H1 H2 M1 M2 [Hle _]. cbn [snd] in Hle. unfold str_leb in Hle.
  rewrite format_utc_z_ltb in Hle by done.
  unfold MINUTE in M1, M2. Z.to_euclidean_division_equations. lia.
Qed.
End two_weeks.

(** C23: While the zone keeps its offset from now to two weeks later, the next slot
    is the earliest minute strictly after now at which a block is due, and there
    is none exactly when no block is due in those two weeks. *)
Theorem next_due_slot_spec blocks now o :
  steady (minute_start now) (now + TWO_WEEKS * MINUTE) o →
  instant (minute_start now) → instant (now + TWO_WEEKS * MINUTE) →
  ∃ next, next_due_slot now blocks = Ok next ∧
    match next with
    | Some s => ∃ b t, due_at blocks t b ∧ s = (kind b, format_utc_z t) ∧
        now < t <= now + TWO_WEEKS * MINUTE ∧
        ∀ b' t', due_at blocks t' b' → now < t' → t <= t'
    | None => ∀ b' t', due_at blocks t' b' → ¬ now < t' <= now + TWO_WEEKS * MINUTE
    end.
Proof.
  intros Hs Hlo Hhi. eexists. split; [by eapply next_due_slot_runs|].
  pose proof (future_slots_elem now o blocks Hs Hlo Hhi) as Helem.
  pose proof (StronglySorted_filter slot_le (is_future now) _ (StronglySorted_merge_sort slot_le
    (found (steady_sweep now TWO_WEEKS blocks)))) as Hsorted.
  fold (future_slots now blocks) in Hsorted.
  destruct (future_slots now blocks) as [|s future]; cbn [head].
  - intros b t Hd Ht. apply (not_elem_of_nil (kind b, format_utc_z t)), Helem. by exists b, t.
  - destruct (proj1 (Helem s)) as (b & t & Hd & Ht & ->); [apply elem_of_cons; by left|].
    exists b, t. split_and!; try done; try lia. intros b' t' Hd' Hlt.
    destruct (decide (t' <= now + TWO_WEEKS * MINUTE)) as [Hle|]; [|lia].
    pose proof (two_weeks_instant now Hlo Hhi t Ht).
    pose proof (two_weeks_instant now Hlo Hhi t' (conj Hlt Hle)).
    assert ((kind b', format_utc_z t') ∈ (kind b, format_utc_z t) :: future) as Hin
      by (apply Helem; by exists b', t').
    apply elem_of_cons in Hin as [[= _ Heq]|Hin].
    + apply format_utc_z_inj in Heq; [lia|done..| |]; [apply Hd'|apply Hd].
    + inversion_clear Hsorted as [|? ? _ Hall]. rewrite Forall_forall in Hall.
      apply (slot_le_minutes (kind b) (kind b')); try done; [apply Hd|apply Hd'|by apply Hall].
Qed.

(** *** The loop *)

(** Between minutes, a sweep without horizon finds nothing. *)
Lemma off_minute_empty blocks now o :
  steady (minute_start now) now o → now mod MINUTE ≠ 0 →
  compute_due_slots now blocks 0 = Ok [].
Proof.
  intros Hs Hoff. rewrite compute_due_slots_runs by lia. do 2 f_equal.
  assert (steady (minute_start now) (now + 0 * MINUTE) o) as Hs' by (by rewrite Z.add_0_r).
  destruct (merge_sort slot_le _) as [|s l] eqn:Hl; [done|]. exfalso.
  assert (s ∈ found (steady_sweep now 0 blocks)) as Hin.
  { rewrite <-(merge_sort_Permutation slot_le), Hl. apply elem_of_cons. by left. }
  apply (steady_found now 0 o blocks) in Hin as (b & t & _ & Ht & Hm & _); [|lia|done].
  assert (t = now) as -> by lia. done.
Qed.

Definition between_minutes (now : Z) : Prop :=
  now mod MINUTE ≠ 0 ∧ ∃ o, steady (minute_start now) now o.

Lemma loop_from_off_minute blocks mx cap i sleeps readings db r db' :
  Forall between_minutes readings →
  loop_from blocks mx cap i sleeps readings db = (r, db') → db' = db.
Proof.
  intros Hall. revert i sleeps. induction Hall as [|now readings [Hoff [o Hs]] _ IH];
    intros i sleeps; cbn [loop_from].
  { by intros [= _ <-]. }
  unfold enqueue_due_slots, mbind at 1, M_bind. unfold mbind at 1, M_bind, lift.
  rewrite (off_minute_empty blocks now o) by done. cbn [foldM]. unfold mret at 1, M_ret.
  destruct (_ && _); [by intros [= _ <-]|].
  unfold mbind, M_bind, lift.
  destruct (next_due_slot now blocks) as [next|]; [|by intros [= _ <-]].
  destruct (sleep_for cap now next) as [pause|]; [|by intros [= _ <-]].
  apply IH.
Qed.

Lemma sleep_for_bounds cap now next pause :
  0 < cap → sleep_for cap now next = Ok pause → 0 < pause <= Z.max 500000 cap.
Proof.
  intros Hcap. unfold sleep_for. destruct next as [[k d]|].
  - intros (due & _ & [= <-])%bind_Ok. lia.
  - intros [= <-]. lia.
Qed.

Lemma loop_from_Ok blocks mx cap i sleeps readings db r sleeps' db' :
  0 < cap → loop_from blocks mx cap i sleeps readings db = (Ok (r, sleeps'), db') →
  (∃ new, sleeps' = sleeps ++ new ∧ Forall (λ p, 0 < p <= Z.max 500000 cap) new) ∧
  (0 <= i < mx → mx - i <= Z.of_nat (length readings) →
     r = Some 0 ∧ Z.of_nat (length sleeps') = Z.of_nat (length sleeps) + (mx - i - 1)).
Proof.
  intros Hcap. revert i sleeps db. induction readings as [|now readings IH];
    intros i sleeps db; cbn [loop_from length].
  { intros [= <- <- <-]. split; [exists []; by rewrite app_nil_r|]. lia. }
  intros Hrun. apply M_bind_Ok in Hrun as (? & db1 & _ & Hrun). cbv zeta in Hrun.
  destruct (_ && _) eqn:Hdone.
  - injection Hrun as <- <- <-. split; [exists []; by rewrite app_nil_r|]. split; [done|lia].
  - apply M_bind_Ok in Hrun as (next & ? & [= _ <-] & Hrun).
    apply M_bind_Ok in Hrun as (pause & ? & [= Hp <-] & Hrun).
    apply sleep_for_bounds in Hp; [|done].
    destruct (IH _ _ _ Hrun) as [(new & -> & Hnew) Hend]. split.
    + exists (pause :: new). rewrite <-app_assoc. split; [done|by constructor].
    + intros Hi Hlen.
      destruct Hend as [-> Hl]; [lia..|]. split; [done|].
      rewrite !length_app in Hl |- *. cbn [length] in *. lia.
Qed.

(** Every pause of the loop is positive and at most the larger of the cap and
    half a second, so a cap below half a second is exceeded; and with a bound on
    the iterations the loop ends by itself after exactly that many sweeps. *)
Theorem run_loop_bounded blocks mx cap readings db r sleeps db' :
  _run_loop blocks mx cap readings db = (Ok (r, sleeps), db') →
  Forall (λ p, 0 < p <= Z.max 500000 cap) sleeps ∧
  (0 < mx <= Z.of_nat (length readings) → r = Some 0 ∧ Z.of_nat (length sleeps) = mx - 1).
Proof.
  unfold _run_loop. intros Hrun.
  apply M_bind_Ok in Hrun as (? & ? & [= Hcap <-] & Hrun).
  apply raise_if_Ok, Z.leb_gt in Hcap.
  destruct (loop_from_Ok _ _ _ _ _ _ _ _ _ _ Hcap Hrun) as [(new & -> & Hnew) Hend].
  split; [done|]. intros Hmx. cbn [app length] in *. destruct Hend; [lia..|]. split; [done|lia].
Qed.

(** The loop sweeps without a horizon at whatever instant it wakes up, and such
    a sweep looks only at that exact instant: when no reading of the clock falls
    on a whole minute the loop never enqueues anything. *)
Lemma run_loop_off_minute blocks mx cap readings db r db' :
  Forall between_minutes readings →
  _run_loop blocks mx cap readings db = (r, db') → db' = db.
Proof.
  intros Hall. unfold _run_loop, mbind, M_bind, lift.
  destruct (raise_if _ _); [|by intros [= _ <-]]. by apply loop_from_off_minute.
Qed.
End next.

(** ** Concrete schedules *)

(** Europe/London in 2026: summer time from 2026-03-29T01:00Z to
    2026-10-25T01:00Z. *)
Module London.
Definition HOUR : Z := 3600000000.
Definition SPRING : Z := (days_from_civil 2026 3 29 * 24 + 1) * HOUR.
Definition AUTUMN : Z := (days_from_civil 2026 10 25 * 24 + 1) * HOUR.

Definition local_of (t : Z) : local_time :=
  if (SPRING <=? t) && (t <? AUTUMN) then mk_local (t + HOUR) false
  else mk_local t ((AUTUMN <=? t) && (t <? AUTUMN + HOUR)).

(** In the gap of spring the fold selects the offset before or after the
    transition; in the repeated hour of autumn it selects the occurrence. *)
Definition offset_of (l : local_time) : Z :=
  let w := wall l in
  if (SPRING <=? w) && (w <? SPRING + HOUR) then if fold l then HOUR else 0
  else if (AUTUMN <=? w) && (w <? AUTUMN + HOUR) then if fold l then 0 else HOUR
  else if (SPRING + HOUR <=? w) && (w <? AUTUMN) then HOUR else 0.

Lemma local_of_offset t : wall (local_of t) - offset_of (local_of t) = t.
Proof.
  assert (SPRING + 2 * HOUR < AUTUMN) as Hs by (vm_compute; done).
  assert (0 < HOUR) as Hh by (vm_compute; done).
  revert Hs Hh. unfold local_of, offset_of. generalize SPRING AUTUMN HOUR. intros S A H Hs Hh.
  destruct (Z.leb_spec S t), (Z.ltb_spec t A); cbn [andb wall fold].
  all: try (destruct (Z.leb_spec A t), (Z.ltb_spec t (A + H)); cbn [andb]).
  all: repeat match goal with
  | |- context [ ?a <=? ?b ] => destruct (Z.leb_spec a b)
  | |- context [ ?a <? ?b ] => destruct (Z.ltb_spec a b)
  end; cbn [andb]; lia.
Qed.

Definition zone : ZoneInfo :=
  {| fromutc := local_of; utcoffset := offset_of; fromutc_utcoffset := local_of_offset |}.

Lemma summer lo hi : SPRING <= lo → hi < AUTUMN → ∀ t, lo <= t <= hi →
  local_of t = mk_local (t + HOUR) false.
Proof.
  intros Hlo Hhi t Ht. unfold local_of.
  rewrite (proj2 (Z.leb_le _ _)), (proj2 (Z.ltb_lt _ _)) by lia. done.
Qed.
End London.

Section samples.
Existing Instance London.zone.
Existing Instance fixed_parser.

Definition sample_block (id k : string) (hour minute : Z) : ScheduleBlock :=
  mk_block (u id) (u k) {[hour]} {[minute]} (clock_range 6) true [] [].

(** Monday 2026-09-14: the blocks are due at 05:30Z and 05:45Z. *)
Definition sample_blocks : list ScheduleBlock :=
  [sample_block "p" "process" 6 45; sample_block "i" "ingest" 6 30].
Definition monday (minutes : Z) : Z := days_from_civil 2026 9 14 * DAY_US + minutes * MINUTE.

Definition sample_due : list slot :=
  [(u "ingest", u "2026-09-14T05:30:00Z"); (u "process", u "2026-09-14T05:45:00Z")].

Lemma sample_slots : compute_due_slots (monday 325) sample_blocks 25 = Ok sample_due.
Proof. vm_compute. reflexivity. Qed.

Lemma summer_steady lo hi :
  London.SPRING <= lo → hi < London.AUTUMN → steady lo hi London.HOUR.
Proof. intros Hlo Hhi. split; [done|]. by apply London.summer. Qed.

Lemma monday_steady h : 0 <= h <= 14 * 1440 →
  steady (minute_start (monday 325)) (monday 325 + h * MINUTE) London.HOUR ∧
  instant (minute_start (monday 325)) ∧ instant (monday 325 + h * MINUTE).
Proof.
  intros Hh. assert (minute_start (monday 325) = monday 325) as -> by reflexivity.
  assert (monday 325 = 1789363500000000) as -> by reflexivity. split.
  - apply summer_steady; [by vm_compute|].
    assert (London.AUTUMN = 1792890000000000) as -> by reflexivity. unfold MINUTE. lia.
  - unfold instant.
    assert (days_from_civil 1000 1 1 * DAY_US = -30610224000000000) as -> by reflexivity.
    assert (days_from_civil 10000 1 1 * DAY_US = 253402300800000000) as -> by reflexivity.
    unfold MINUTE. lia.
Qed.

Lemma compute_due_slots_steady_witness :
  ∃ slots, compute_due_slots (monday 325) sample_blocks 25 = Ok slots ∧ NoDup slots.
Proof.
  destruct (monday_steady 25) as (Hs & Hlo & Hhi); [lia|].
  destruct (compute_due_slots_steady sample_blocks (monday 325) 25 London.HOUR
    ltac:(lia) Hs Hlo Hhi) as (slots & Hc & _ & Hnd & _). exists slots. split; assumption.
Defined.

Lemma due_slots_owned_witness :
  compute_due_slots (monday 325) sample_blocks 25 = Ok sample_due ∧
  ∃ t b rest, owners sample_blocks (u "ingest") t = b :: rest ∧
    _payload_for_slot (u "ingest") (u "2026-09-14T05:30:00Z") sample_blocks =
      if same_payload b rest then Ok (payload b) else Err ScheduleError.
Proof.
  split; [exact sample_slots|]. destruct (monday_steady 25) as (Hs & Hlo & Hhi); [lia|].
  destruct (due_slots_owned sample_blocks (monday 325) 25 London.HOUR sample_due
    (u "ingest", u "2026-09-14T05:30:00Z") ltac:(lia) Hs Hlo Hhi sample_slots)
    as (t & b & rest & _ & _ & Ho & Hp).
  - apply elem_of_cons. by left.
  - exists t, b, rest. split; assumption.
Defined.

Lemma next_due_slot_spec_witness :
  ∃ next, next_due_slot (monday 325) sample_blocks = Ok next.
Proof.
  destruct (monday_steady TWO_WEEKS) as (Hs & Hlo & Hhi); [unfold TWO_WEEKS; lia|].
  destruct (next_due_slot_spec sample_blocks (monday 325) London.HOUR Hs Hlo Hhi)
    as (next & Hn & _). exists next. exact Hn.
Defined.

Definition swept : control_db := (enqueue_due_slots sample_blocks (monday 330) 15 0 empty_control).2.

Lemma enqueue_due_slots_spec_witness :
  ∃ rows, enqueue_due_slots sample_blocks (monday 330) 15 0 empty_control = (Ok rows, swept) ∧
    rows = [(u "ingest", u "2026-09-14T05:30:00Z", true);
            (u "process", u "2026-09-14T05:45:00Z", true)] ∧
    (enqueue_due_slots sample_blocks (monday 330) 15 1 swept).2 = swept.
Proof.
  destruct (enqueue_due_slots sample_blocks (monday 330) 15 0 empty_control) as [r db] eqn:Hr.
  assert (swept = db) as -> by (unfold swept; rewrite Hr; reflexivity).
  assert (r = Ok [(u "ingest", u "2026-09-14T05:30:00Z", true);
                  (u "process", u "2026-09-14T05:45:00Z", true)]) as ->.
  { assert (r = (enqueue_due_slots sample_blocks (monday 330) 15 0 empty_control).1) as ->
      by (rewrite Hr; reflexivity). vm_compute. reflexivity. }
  eexists. split; [reflexivity|]. split; [reflexivity|].
  destruct (enqueue_due_slots_spec sample_blocks (monday 330) 15 0 empty_control _ db Hr)
    as (slots & created & _ & _ & _ & _ & Hagain). rewrite Hagain. reflexivity.
Defined.

(** A TOML document with one block. *)
Definition sample_document : dict :=
  [(u "schedule", JObj [(u "morning", JObj
     [(u "kind", JStr (u "ingest")); (u "due_local", JStr (u "06:30"));
      (u "weekdays", JList [JStr (u "Mon"); JStr (u "tue")])])])].

Lemma parse_schedule_toml_wf_witness :
  ∃ b, parse_schedule_toml (λ _, []) sample_document = Ok [b] ∧ block_wf b.
Proof.
  destruct (parse_schedule_toml (λ _, []) sample_document) as [blocks|] eqn:Hp;
    [|by vm_compute in Hp].
  destruct (parse_schedule_toml_wf (λ _, []) sample_document blocks Hp) as [Hne Hall].
  vm_compute in Hp. injection Hp as <-. eexists. split; [reflexivity|].
  by apply Forall_cons in Hall as [? _].
Defined.

Lemma run_loop_bounded_witness :
  ∃ sleeps db, _run_loop sample_blocks 1 60000000 [monday 330] empty_control =
    (Ok (Some 0, sleeps), db) ∧ length sleeps = 0%nat.
Proof.
  destruct (_run_loop sample_blocks 1 60000000 [monday 330] empty_control) as [r db] eqn:Hr.
  assert (is_ok r = true) as Hok.
  { assert (r = (_run_loop sample_blocks 1 60000000 [monday 330] empty_control).1)
      as -> by (rewrite Hr; reflexivity). vm_compute. reflexivity. }
  destruct r as [[r sleeps]|]; [|discriminate Hok]. exists sleeps, db.
  destruct (run_loop_bounded _ _ _ _ _ _ _ _ Hr) as [_ Hend].
  destruct Hend as [-> Hl]; [cbn [length]; lia|]. split; [reflexivity|lia].
Defined.

(** With a cap of a tenth of a second the loop sleeps for half a second. *)
Example pause_exceeds_cap :
  sleep_for 100000 (monday 325) (Some (u "ingest", u "2026-09-14T05:30:00Z")) = Ok 500000.
Proof. vm_compute. reflexivity. Qed.

(** Between two minutes nothing is enqueued: at 05:30:00.000001Z the block due
    at 05:30Z is gone. *)
Example loop_misses_due_slot :
  (_run_loop sample_blocks 1 60000000 [monday 330] empty_control).2 ≠ empty_control ∧
  (_run_loop sample_blocks 1 60000000 [monday 330 + 1] empty_control).2 = empty_control.
Proof.
  split.
  - intros Heq. assert (size (tasks (_run_loop sample_blocks 1 60000000 [monday 330]
      empty_control).2) = size (tasks empty_control)) as Hsize by (rewrite Heq; reflexivity).
    vm_compute in Hsize. discriminate Hsize.
  - destruct (_run_loop sample_blocks 1 60000000 [monday 330 + 1] empty_control) as [r db] eqn:Hr.
    eapply run_loop_off_minute; [|exact Hr]. constructor; [|constructor]. split.
    + vm_compute. discriminate.
    + exists London.HOUR. apply summer_steady; vm_compute; [discriminate|reflexivity].
Qed.

(** Two blocks of one kind due at the same minute with different payloads: the
    slot is found, and the driver raises. *)
Example disagreeing_blocks_raise :
  let blocks := [mk_block (u "a") (u "ingest") {[6]} {[30]} (clock_range 6) true [] [];
                 mk_block (u "b") (u "ingest") {[6]} {[30]} (clock_range 6) true []
                   [(u "x", JInt 1)]] in
  compute_due_slots (monday 330) blocks 0 = Ok [(u "ingest", u "2026-09-14T05:30:00Z")] ∧
  _payload_for_slot (u "ingest") (u "2026-09-14T05:30:00Z") blocks = Err ScheduleError.
Proof. split; vm_compute; reflexivity. Qed.

(** A block due at 01:30, which does not exist on 2026-03-29: the sweep emits
    it all the same, and the driver then finds no block that owns the slot. *)
Example gap_slot_unowned :
  let blocks := [sample_block "g" "ingest" 1 30] in
  let midnight := days_from_civil 2026 3 29 * DAY_US in
  compute_due_slots midnight blocks 120 = Ok [(u "ingest", u "2026-03-29T01:30:00Z")] ∧
  (enqueue_due_slots blocks midnight 120 0 empty_control).1 = Err ScheduleError.
Proof. split; vm_compute; reflexivity. Qed.
End samples.
