(* ===== verification/Novelty.v ===== *)
(** * Novelty: the yield of each category.

    [scripts/news_pipeline/novelty.py]: attempts and decided records are merged
    into one summary per category.  [replace] runs [__post_init__] again, so every
    increment can raise. *)
From S2P Require Import Prelude Text.
Local Open Scope Z_scope.

(** ** Data *)

Inductive yield_error : Type := ValueError.

Definition _TERMINAL_SUCCESS : list str := map u ["success"; "partial"].
Definition _TERMINAL_FAILURE : list str := map u ["failed"; "rate_limited"].
Definition _DUPLICATE_DECISIONS : list str :=
  map u ["suppress_exact_url"; "suppress_exact_identity"; "suppress_recent_title";
         "suppress_batch_exact"].

Record AttemptYield := mk_attempt
  { at_category : str; at_status : str; at_returned_count : Z; at_duplicate_count : Z }.

Record NoveltyRecord := mk_record
  { nr_category : str; nr_source_item_id : str; nr_decision : str;
    nr_semantic_decision : option str; nr_source_id : option str; nr_title : str }.

Record CategoryYield := mk_yield
  { category : str; completed_rounds : Z; returned_count : Z; processed_count : Z;
    ingest_duplicate_count : Z; stale_count : Z; rewrite_count : Z;
    material_update_count : Z; distinct_event_count : Z; pending_count : Z;
    transport_failure_count : Z }.

#[export] Instance CategoryYield_eq_dec : EqDecision CategoryYield.
Proof. solve_decision. Defined.

Definition empty_text (s : str) : bool := (length s =? 0)%nat.

(** The three [__post_init__], on fields of the declared types. *)
Definition attempt_post_init (a : AttemptYield) : result yield_error unit :=
  _ ← raise_if (empty_text (at_category a)) ValueError;
  _ ← raise_if (negb (bool_decide (at_status a ∈ _TERMINAL_SUCCESS ++ _TERMINAL_FAILURE))) ValueError;
  raise_if ((at_returned_count a <? 0) || (at_duplicate_count a <? 0)) ValueError.

Definition record_post_init (r : NoveltyRecord) : result yield_error unit :=
  _ ← raise_if (empty_text (nr_category r)) ValueError;
  raise_if (empty_text (nr_source_item_id r)) ValueError.

Definition counts_of (y : CategoryYield) : list Z :=
  [completed_rounds y; returned_count y; processed_count y; ingest_duplicate_count y;
   stale_count y; rewrite_count y; material_update_count y; distinct_event_count y;
   pending_count y; transport_failure_count y].

Definition yield_post_init (y : CategoryYield) : result yield_error CategoryYield :=
  _ ← raise_if (empty_text (category y)) ValueError;
  _ ← raise_if (existsb (λ n, n <? 0) (counts_of y)) ValueError;
  Ok y.

Definition novel_count (y : CategoryYield) : Z := distinct_event_count y + material_update_count y.

Definition needs_expansion (y : CategoryYield) (minimum_novelty_target : Z) : result yield_error bool :=
  _ ← raise_if (minimum_novelty_target <? 0) ValueError;
  Ok ((0 <? completed_rounds y) && (novel_count y <? minimum_novelty_target)).

(** ** Merging *)

Inductive yield_field : Type :=
  | f_completed | f_returned | f_processed | f_ingest_duplicate | f_stale | f_rewrite
  | f_material_update | f_distinct_event | f_pending | f_transport_failure.

Definition bump (y : CategoryYield) (field : yield_field) (n : Z) : CategoryYield :=
  let '(mk_yield c co re pr du st rw ma di pe tr) := y in
  match field with
  | f_completed => mk_yield c (co + n) re pr du st rw ma di pe tr
  | f_returned => mk_yield c co (re + n) pr du st rw ma di pe tr
  | f_processed => mk_yield c co re (pr + n) du st rw ma di pe tr
  | f_ingest_duplicate => mk_yield c co re pr (du + n) st rw ma di pe tr
  | f_stale => mk_yield c co re pr du (st + n) rw ma di pe tr
  | f_rewrite => mk_yield c co re pr du st (rw + n) ma di pe tr
  | f_material_update => mk_yield c co re pr du st rw (ma + n) di pe tr
  | f_distinct_event => mk_yield c co re pr du st rw ma (di + n) pe tr
  | f_pending => mk_yield c co re pr du st rw ma di (pe + n) tr
  | f_transport_failure => mk_yield c co re pr du st rw ma di pe (tr + n)
  end.

(** [_increment(summary, field, amount)] *)
Definition _increment (y : CategoryYield) (field : yield_field) (amount : Z)
    : result yield_error CategoryYield :=
  yield_post_init (bump y field amount).

Definition empty_yield (c : str) : CategoryYield := mk_yield c 0 0 0 0 0 0 0 0 0 0.

(** [groups.setdefault(category, CategoryYield(category))]; the new summary is
    built even when there is one. *)
Definition setdefault (groups : gmap str CategoryYield) (c : str) : result yield_error CategoryYield :=
  fresh ← yield_post_init (empty_yield c);
  Ok (default fresh (groups !! c)).

Definition add_attempt (groups : gmap str CategoryYield) (a : AttemptYield)
    : result yield_error (gmap str CategoryYield) :=
  s ← setdefault groups (at_category a);
  s ← _increment s f_returned (at_returned_count a);
  s ← _increment s f_ingest_duplicate (at_duplicate_count a);
  s ← (if bool_decide (at_status a ∈ _TERMINAL_SUCCESS) then _increment s f_completed 1
       else _increment s f_transport_failure 1);
  Ok (<[at_category a := s]> groups).

(** The field a semantic decision counts for. *)
Definition semantic_field (semantic_decision : option str) : option yield_field :=
  if bool_decide (semantic_decision = Some (u "rewrite")) then Some f_rewrite
  else if bool_decide (semantic_decision = Some (u "material_update")) then Some f_material_update
  else if bool_decide (semantic_decision = Some (u "distinct_event")) then Some f_distinct_event
  else if bool_decide (semantic_decision ∈ [Some (u "pending_review"); Some (u "pending_model_error")])
  then Some f_pending else None.

Definition increment_if (b : bool) (y : CategoryYield) (field : yield_field)
    : result yield_error CategoryYield :=
  if b then _increment y field 1 else Ok y.

Definition add_record (groups : gmap str CategoryYield) (r : NoveltyRecord)
    : result yield_error (gmap str CategoryYield) :=
  s ← setdefault groups (nr_category r);
  s ← _increment s f_processed 1;
  s ← increment_if (bool_decide (nr_decision r ∈ _DUPLICATE_DECISIONS)) s f_ingest_duplicate;
  s ← increment_if (bool_decide (nr_decision r = u "drop_stale")) s f_stale;
  s ← match semantic_field (nr_semantic_decision r) with
      | Some field => _increment s field 1
      | None => Ok s
      end;
  Ok (<[nr_category r := s]> groups).

Definition text_le (a b : str) : Prop := str_leb a b = true.
#[export] Instance text_le_dec : RelDecision text_le.
Proof. intros a b. unfold text_le. apply _. Defined.

(** [sorted(groups)] *)
Definition sorted_categories (groups : gmap str CategoryYield) : list str :=
  merge_sort text_le (map fst (map_to_list groups)).

Definition summarize_yield (records : list NoveltyRecord) (attempts : list AttemptYield)
    : result yield_error (list CategoryYield) :=
  groups ← foldR add_attempt ∅ attempts;
  groups ← foldR add_record groups records;
  Ok (omap (λ c, groups !! c) (sorted_categories groups)).

Definition category_yield := summarize_yield.

(** ** The reference: each count as a sum over the inputs *)

Definition total {A} (f : A → Z) (l : list A) : Z := foldr (λ x s, f x + s) 0 l.
Definition tally (b : bool) : Z := if b then 1 else 0.

Section reference.
Context (records : list NoveltyRecord) (attempts : list AttemptYield) (c : str).

Definition over_attempts (f : AttemptYield → Z) : Z :=
  total (λ a, if bool_decide (at_category a = c) then f a else 0) attempts.
Definition over_records (f : NoveltyRecord → Z) : Z :=
  total (λ r, if bool_decide (nr_category r = c) then f r else 0) records.

Definition attempt_succeeds (a : AttemptYield) : bool :=
  bool_decide (at_status a ∈ _TERMINAL_SUCCESS).
Definition decided (d : string) (r : NoveltyRecord) : bool :=
  bool_decide (nr_semantic_decision r = Some (u d)).
Definition duplicate (r : NoveltyRecord) : bool :=
  bool_decide (nr_decision r ∈ _DUPLICATE_DECISIONS).

Definition reference : CategoryYield := mk_yield c
  (over_attempts (λ a, tally (attempt_succeeds a)))
  (over_attempts at_returned_count)
  (over_records (λ _, 1))
  (over_attempts at_duplicate_count + over_records (λ r, tally (duplicate r)))
  (over_records (λ r, tally (bool_decide (nr_decision r = u "drop_stale"))))
  (over_records (λ r, tally (decided "rewrite" r)))
  (over_records (λ r, tally (decided "material_update" r)))
  (over_records (λ r, tally (decided "distinct_event" r)))
  (over_records (λ r, tally (decided "pending_review" r || decided "pending_model_error" r)))
  (over_attempts (λ a, tally (negb (attempt_succeeds a)))).
End reference.

Definition mentioned (records : list NoveltyRecord) (attempts : list AttemptYield) : list str :=
  map at_category attempts ++ map nr_category records.

Lemma total_snoc {A} (f : A → Z) l x : total f (l ++ [x]) = total f l + f x.
Proof. unfold total. induction l as [|y l IH]; cbn; lia. Qed.

Lemma total_nonneg {A} (f : A → Z) l : Forall (λ x, 0 <= f x) l → 0 <= total f l.
Proof. unfold total. induction 1; cbn in *; lia. Qed.

Lemma total_zero {A} (f : A → Z) l : Forall (λ x, f x = 0) l → total f l = 0.
Proof. unfold total. induction 1; cbn in *; lia. Qed.

Lemma total_perm {A} (f : A → Z) l l' : l ≡ₚ l' → total f l = total f l'.
Proof. unfold total. induction 1; cbn in *; lia. Qed.

Create Rewrite HintDb yields.
#[export] Hint Rewrite @total_snoc : yields.

Lemma tally_nonneg b : 0 <= tally b.
Proof. by destruct b. Qed.

(** What one input does to its summary. *)
Definition attempt_effect (a : AttemptYield) (y : CategoryYield) : CategoryYield :=
  bump (bump (bump y f_returned (at_returned_count a)) f_ingest_duplicate (at_duplicate_count a))
    (if attempt_succeeds a then f_completed else f_transport_failure) 1.

Definition record_effect (r : NoveltyRecord) (y : CategoryYield) : CategoryYield :=
  let y := bump y f_processed 1 in
  let y := if duplicate r then bump y f_ingest_duplicate 1 else y in
  let y := if bool_decide (nr_decision r = u "drop_stale") then bump y f_stale 1 else y in
  match semantic_field (nr_semantic_decision r) with Some f => bump y f 1 | None => y end.

Lemma reference_attempt_same rs l a :
  reference rs (l ++ [a]) (at_category a) = attempt_effect a (reference rs l (at_category a)).
Proof.
  unfold reference, over_attempts. autorewrite with yields.
  rewrite !bool_decide_eq_true_2 by done. unfold attempt_effect.
  destruct (attempt_succeeds a); cbn [bump tally negb]; f_equal; lia.
Qed.

Lemma reference_attempt_other rs l a c :
  at_category a ≠ c → reference rs (l ++ [a]) c = reference rs l c.
Proof.
  intros Hc. unfold reference, over_attempts. autorewrite with yields.
  rewrite !bool_decide_eq_false_2 by done. by rewrite !Z.add_0_r.
Qed.

(** Evaluate the tallies of closed conditions. *)
Ltac eval_tallies :=
  repeat match goal with
  | |- context [tally ?b] =>
      let v := eval vm_compute in (tally b) in change (tally b) with v
  end.

(** The four groups of semantic decisions exclude each other. *)
Lemma semantic_effect d y :
  match semantic_field d with Some f => bump y f 1 | None => y end =
  bump (bump (bump (bump y f_rewrite (tally (bool_decide (d = Some (u "rewrite")))))
    f_material_update (tally (bool_decide (d = Some (u "material_update")))))
    f_distinct_event (tally (bool_decide (d = Some (u "distinct_event")))))
    f_pending (tally (bool_decide (d = Some (u "pending_review")) ||
                      bool_decide (d = Some (u "pending_model_error")))).
Proof.
  assert (bool_decide (d ∈ [Some (u "pending_review"); Some (u "pending_model_error")]) =
    bool_decide (d = Some (u "pending_review")) || bool_decide (d = Some (u "pending_model_error")))
    as Hp.
  { rewrite <-bool_decide_or. apply bool_decide_ext. rewrite !elem_of_cons, elem_of_nil. naive_solver. }
  unfold semantic_field. rewrite Hp.
  destruct y; destruct (bool_decide_reflect (d = Some (u "rewrite"))) as [->|];
    [eval_tallies; cbn [bump]; f_equal; lia|].
  destruct (bool_decide_reflect (d = Some (u "material_update"))) as [->|];
    [eval_tallies; cbn [bump]; f_equal; lia|].
  destruct (bool_decide_reflect (d = Some (u "distinct_event"))) as [->|];
    [eval_tallies; cbn [bump]; f_equal; lia|].
  destruct (_ || _); cbn [bump tally]; f_equal; lia.
Qed.

Lemma reference_record_same rs l r :
  reference (rs ++ [r]) l (nr_category r) = record_effect r (reference rs l (nr_category r)).
Proof.
  unfold record_effect. cbv zeta. rewrite semantic_effect.
  unfold reference, over_records. autorewrite with yields.
  rewrite !bool_decide_eq_true_2 by done. fold (decided "rewrite" r) (decided "material_update" r)
    (decided "distinct_event" r) (decided "pending_review" r) (decided "pending_model_error" r).
  destruct (duplicate r), (bool_decide (nr_decision r = _)); cbn [bump tally]; f_equal; lia.
Qed.

Lemma reference_record_other rs l r c :
  nr_category r ≠ c → reference (rs ++ [r]) l c = reference rs l c.
Proof.
  intros Hc. unfold reference, over_records. autorewrite with yields.
  rewrite !bool_decide_eq_false_2 by done. by rewrite !Z.add_0_r.
Qed.

Lemma reference_unmentioned rs l c : c ∉ mentioned rs l → reference rs l c = empty_yield c.
Proof.
  unfold mentioned. rewrite not_elem_of_app, !list_elem_of_fmap. intros [Ha Hr].
  assert (∀ f, over_attempts l c f = 0) as Ea.
  { intros f. apply total_zero, Forall_forall. intros a Hin.
    rewrite bool_decide_eq_false_2; [done|]. intros <-. apply Ha. by exists a. }
  assert (∀ f, over_records rs c f = 0) as Er.
  { intros f. apply total_zero, Forall_forall. intros a Hin.
    rewrite bool_decide_eq_false_2; [done|]. intros <-. apply Hr. by exists a. }
  unfold reference. by rewrite !Ea, !Er.
Qed.

(** ** The merge computes the reference *)

Definition yield_ok (y : CategoryYield) : Prop :=
  category y ≠ [] ∧ Forall (λ n, 0 <= n) (counts_of y).

Definition attempt_ok (a : AttemptYield) : Prop := attempt_post_init a = Ok tt.
Definition record_ok (r : NoveltyRecord) : Prop := record_post_init r = Ok tt.

Lemma yield_post_init_ok y : yield_ok y → yield_post_init y = Ok y.
Proof.
  intros [Hc Hn]. unfold yield_post_init.
  assert (empty_text (category y) = false) as -> by (by destruct (category y)).
  assert (existsb (λ n, n <? 0) (counts_of y) = false) as ->; [|done].
  apply not_true_iff_false. intros (n & Hin%list_elem_of_In & Hlt)%existsb_exists.
  rewrite Forall_forall in Hn. specialize (Hn n Hin). lia.
Qed.

Lemma empty_yield_ok c : c ≠ [] → yield_ok (empty_yield c).
Proof. intros Hc. split; [done|]. unfold empty_yield, counts_of. cbn. repeat (apply Forall_cons; split; [lia|]). by apply Forall_nil. Qed.

Lemma bump_ok y f n : yield_ok y → 0 <= n → yield_ok (bump y f n).
Proof.
  intros [Hc Hall] Hn. split; [by destruct y, f|].
  destruct y, f; unfold counts_of in *; cbn in *.
  all: repeat (apply Forall_cons in Hall as [? Hall]); repeat (apply Forall_cons; split; [lia|]); by apply Forall_nil.
Qed.

Lemma increment_ok y f n : yield_ok y → 0 <= n → _increment y f n = Ok (bump y f n).
Proof. intros Hy Hn. by apply yield_post_init_ok, bump_ok. Qed.

Lemma increment_if_ok b y f :
  yield_ok y → increment_if b y f = Ok (if b then bump y f 1 else y).
Proof. intros Hy. destruct b; [|done]. by apply increment_ok. Qed.

Lemma attempt_ok_fields a :
  attempt_ok a → at_category a ≠ [] ∧ 0 <= at_returned_count a ∧ 0 <= at_duplicate_count a.
Proof.
  unfold attempt_ok, attempt_post_init. intros Ha.
  apply bind_Ok in Ha as (? & Hc%raise_if_Ok & Ha).
  apply bind_Ok in Ha as (? & _ & Hn%raise_if_Ok).
  apply orb_false_iff in Hn as [? ?]. split; [by destruct (at_category a)|lia].
Qed.

Lemma record_ok_category r : record_ok r → nr_category r ≠ [].
Proof.
  unfold record_ok, record_post_init. intros (? & Hc%raise_if_Ok & _)%bind_Ok.
  by destruct (nr_category r).
Qed.

(** The value of a group, present or not. *)
Definition group_of (groups : gmap str CategoryYield) (c : str) : CategoryYield :=
  default (empty_yield c) (groups !! c).

Lemma setdefault_ok groups c : c ≠ [] → setdefault groups c = Ok (group_of groups c).
Proof. intros Hc. unfold setdefault. by rewrite yield_post_init_ok by by apply empty_yield_ok. Qed.

Lemma add_attempt_ok groups a :
  attempt_ok a → yield_ok (group_of groups (at_category a)) →
  add_attempt groups a =
    Ok (<[at_category a := attempt_effect a (group_of groups (at_category a))]> groups).
Proof.
  intros (Hc & Hr & Hd)%attempt_ok_fields Hy. unfold add_attempt.
  rewrite setdefault_ok by done. cbn [mbind result_bind].
  rewrite increment_ok by done. cbn [mbind result_bind].
  rewrite increment_ok by (done || by apply bump_ok). cbn [mbind result_bind].
  unfold attempt_effect, attempt_succeeds.
  destruct (bool_decide _); rewrite increment_ok; auto using bump_ok; lia.
Qed.

Lemma add_record_ok groups r :
  record_ok r → yield_ok (group_of groups (nr_category r)) →
  add_record groups r =
    Ok (<[nr_category r := record_effect r (group_of groups (nr_category r))]> groups).
Proof.
  intros Hc%record_ok_category Hy. unfold add_record, record_effect.
  rewrite setdefault_ok by done. cbn [mbind result_bind].
  assert (yield_ok (bump (group_of groups (nr_category r)) f_processed 1)) as H1
    by (apply bump_ok; done || lia).
  rewrite increment_ok by (done || lia). cbn [mbind result_bind].
  rewrite increment_if_ok by done. cbn [mbind result_bind]. fold (duplicate r).
  set (y2 := if duplicate r then _ else _).
  assert (yield_ok y2) as H2 by (unfold y2; destruct (duplicate r); [apply bump_ok; done || lia|done]).
  rewrite increment_if_ok by done. cbn [mbind result_bind].
  set (y3 := if bool_decide _ then _ else y2).
  assert (yield_ok y3) as H3 by (unfold y3; case_bool_decide; [apply bump_ok; done || lia|done]).
  destruct (semantic_field _); [|done]. by rewrite increment_ok by (done || lia).
Qed.

(** The groups hold the reference of every category mentioned so far. *)
Definition groups_are (records : list NoveltyRecord) (attempts : list AttemptYield)
    (groups : gmap str CategoryYield) : Prop :=
  ∀ c, groups !! c = if bool_decide (c ∈ mentioned records attempts)
                     then Some (reference records attempts c) else None.

Lemma groups_are_group_of rs l groups c : groups_are rs l groups → group_of groups c = reference rs l c.
Proof.
  intros Hg. unfold group_of. rewrite Hg. case_bool_decide; [done|].
  by rewrite reference_unmentioned.
Qed.

Lemma reference_ok rs l c :
  c ≠ [] → Forall attempt_ok l → yield_ok (reference rs l c).
Proof.
  intros Hc Hl. split; [done|].
  assert (∀ f, (∀ a, a ∈ l → 0 <= f a) → 0 <= over_attempts l c f) as Ea.
  { intros f Hf. apply total_nonneg, Forall_forall. intros a Hin. case_bool_decide; [auto|lia]. }
  assert (∀ f, (∀ r, 0 <= f r) → 0 <= over_records rs c f) as Er.
  { intros f Hf. apply total_nonneg, Forall_forall. intros r _. case_bool_decide; [auto|lia]. }
  rewrite Forall_forall in Hl. unfold counts_of, reference. cbn -[over_attempts over_records].
  repeat apply Forall_cons_2; try apply Forall_nil_2; try apply Z.add_nonneg_nonneg;
    first [apply Ea; intros a Ha; first [apply tally_nonneg|by apply attempt_ok_fields, Hl]
          |apply Er; intros r; first [apply tally_nonneg|lia]].
Qed.

Lemma groups_are_insert rs l rs' l' groups c y :
  groups_are rs l groups → (∀ d, d ∈ mentioned rs' l' ↔ d = c ∨ d ∈ mentioned rs l) →
  reference rs' l' c = y → (∀ d, c ≠ d → reference rs' l' d = reference rs l d) →
  groups_are rs' l' (<[c := y]> groups).
Proof.
  intros Hg Hm Hy Ho d. destruct (decide (d = c)) as [->|Hne].
  - rewrite lookup_insert_eq, bool_decide_eq_true_2; [by rewrite Hy|]. apply Hm. by left.
  - rewrite lookup_insert_ne, Hg, Ho by done.
    rewrite (bool_decide_ext (d ∈ mentioned rs' l') (d ∈ mentioned rs l)); [done|]. naive_solver.
Qed.

Lemma attempts_merge attempts :
  Forall attempt_ok attempts →
  ∃ groups, foldR add_attempt ∅ attempts = Ok groups ∧ groups_are [] attempts groups.
Proof.
  induction attempts as [|a l IH] using rev_ind; intros Hall.
  - exists ∅. split; [done|]. intros c. by rewrite bool_decide_eq_false_2 by by intros ?%elem_of_nil.
  - apply Forall_app in Hall as [Hl [Ha _]%Forall_cons].
    destruct (IH Hl) as (groups & Hrun & Hg). rewrite foldR_app, Hrun. cbn [foldR mbind result_bind].
    pose proof (attempt_ok_fields a Ha) as (Hc & _).
    pose proof (groups_are_group_of [] l groups (at_category a) Hg) as Hgo.
    rewrite add_attempt_ok, Hgo by (rewrite ?Hgo; auto using reference_ok).
    eexists. split; [done|]. eapply groups_are_insert; [done| |apply reference_attempt_same|].
    + intros d. unfold mentioned. rewrite map_app. cbn [map]. rewrite !elem_of_app, list_elem_of_singleton,
        elem_of_nil. tauto.
    + intros d Hd. by apply reference_attempt_other.
Qed.

Lemma records_merge attempts records groups :
  Forall attempt_ok attempts → Forall record_ok records → groups_are [] attempts groups →
  ∃ groups', foldR add_record groups records = Ok groups' ∧ groups_are records attempts groups'.
Proof.
  intros Hat Hall Hg0. induction records as [|r l IH] using rev_ind.
  - by exists groups.
  - apply Forall_app in Hall as [Hl [Hr _]%Forall_cons].
    destruct (IH Hl) as (groups' & Hrun & Hg). rewrite foldR_app, Hrun. cbn [foldR mbind result_bind].
    pose proof (record_ok_category r Hr) as Hc.
    pose proof (groups_are_group_of l attempts groups' (nr_category r) Hg) as Hgo.
    rewrite add_record_ok, Hgo by (rewrite ?Hgo; auto using reference_ok).
    eexists. split; [done|]. eapply groups_are_insert; [done| |apply reference_record_same|].
    + intros d. unfold mentioned. rewrite map_app. cbn [map]. rewrite !elem_of_app, list_elem_of_singleton. tauto.
    + intros d Hd. by apply reference_record_other.
Qed.

#[export] Instance text_le_trans : Transitive text_le.
Proof. intros a b c. apply str_leb_trans. Qed.
#[export] Instance text_le_total : Total text_le.
Proof. intros a b. apply str_leb_total. Qed.

Lemma sorted_categories_spec groups :
  StronglySorted text_le (sorted_categories groups) ∧ NoDup (sorted_categories groups) ∧
  ∀ c, c ∈ sorted_categories groups ↔ is_Some (groups !! c).
Proof.
  unfold sorted_categories. split; [apply (StronglySorted_merge_sort text_le)|].
  rewrite merge_sort_Permutation. split; [apply NoDup_fst_map_to_list|].
  intros c. rewrite merge_sort_Permutation. split.
  - intros ([k y] & -> & Hin%elem_of_map_to_list)%list_elem_of_fmap. by exists y.
  - intros [y Hy]. apply list_elem_of_fmap. exists (c, y). by rewrite elem_of_map_to_list.
Qed.

Lemma groups_are_omap rs l groups cats :
  groups_are rs l groups → (∀ c, c ∈ cats → is_Some (groups !! c)) →
  omap (λ c, groups !! c) cats = map (reference rs l) cats.
Proof.
  intros Hg. induction cats as [|c cats IH]; intros Hc; [done|]. cbn [omap list_omap map].
  destruct (Hc c) as [y Hy]; [apply elem_of_cons; by left|]. rewrite Hy, IH.
  - f_equal. rewrite Hg in Hy. case_bool_decide; [by injection Hy|done].
  - intros d Hd. apply Hc, elem_of_cons. by right.
Qed.

Lemma merge_runs records attempts :
  Forall attempt_ok attempts → Forall record_ok records →
  ∃ groups, groups_are records attempts groups ∧
    summarize_yield records attempts =
      Ok (map (reference records attempts) (sorted_categories groups)).
Proof.
  intros Hat Hrec. destruct (attempts_merge attempts Hat) as (g & Hg & Hare).
  destruct (records_merge attempts records g Hat Hrec Hare) as (groups & Hrun & Hgroups).
  exists groups. split; [done|]. unfold summarize_yield.
  rewrite Hg. cbn [mbind result_bind]. rewrite Hrun. cbn [mbind result_bind]. f_equal.
  apply groups_are_omap; [done|]. apply sorted_categories_spec.
Qed.

Lemma groups_are_mentioned rs l groups c :
  groups_are rs l groups → is_Some (groups !! c) ↔ c ∈ mentioned rs l.
Proof. intros Hg. rewrite Hg. case_bool_decide; [naive_solver|]. split; [by intros []|done]. Qed.

(** C39: Merging validated inputs never raises, and gives one summary for each
    category mentioned, in order, each of whose counts is the sum over the
    attempts and records of that category. *)
Theorem summarize_yield_spec records attempts :
  Forall attempt_ok attempts → Forall record_ok records →
  ∃ cats, summarize_yield records attempts = Ok (map (reference records attempts) cats) ∧
    StronglySorted text_le cats ∧ NoDup cats ∧
    ∀ c, c ∈ cats ↔ c ∈ mentioned records attempts.
Proof.
  intros Hat Hrec. destruct (merge_runs records attempts Hat Hrec) as (groups & Hg & Hrun).
  destruct (sorted_categories_spec groups) as (Hs & Hnd & Hin).
  exists (sorted_categories groups). split_and!; try done.
  intros c. by rewrite Hin, groups_are_mentioned.
Qed.

Lemma reference_perm rs rs' l l' c : rs ≡ₚ rs' → l ≡ₚ l' → reference rs l c = reference rs' l' c.
Proof.
  intros Hr Hl. unfold reference, over_attempts, over_records.
  by repeat match goal with |- context [total ?f l] => rewrite (total_perm f l l' Hl) end;
    repeat match goal with |- context [total ?f rs] => rewrite (total_perm f rs rs' Hr) end.
Qed.

Lemma summarize_yield_perm records records' attempts attempts' :
  Forall attempt_ok attempts → Forall record_ok records →
  records ≡ₚ records' → attempts ≡ₚ attempts' →
  summarize_yield records attempts = summarize_yield records' attempts'.
Proof.
  intros Hat Hrec Hr Ha.
  assert (Forall attempt_ok attempts') as Hat' by (by rewrite <-Ha).
  assert (Forall record_ok records') as Hrec' by (by rewrite <-Hr).
  destruct (merge_runs records attempts Hat Hrec) as (g & Hg & ->).
  destruct (merge_runs records' attempts' Hat' Hrec') as (g' & Hg' & ->).
  assert (g = g') as ->.
  { apply map_eq. intros c. rewrite Hg, Hg', (reference_perm _ _ _ _ c Hr Ha).
    rewrite (bool_decide_ext (c ∈ mentioned records attempts) (c ∈ mentioned records' attempts'));
      [done|]. unfold mentioned. by rewrite Hr, Ha. }
  f_equal. apply map_ext. intros c. by apply reference_perm.
Qed.

(** *** Nothing is lost between categories *)

Lemma total_plus {A} (f g : A → Z) l : total (λ x, f x + g x) l = total f l + total g l.
Proof. unfold total. induction l; cbn; lia. Qed.

Lemma total_ext {A} (f g : A → Z) l : (∀ x, f x = g x) → total f l = total g l.
Proof. intros Hfg. unfold total. induction l as [|x l IH]; cbn; [done|]. by rewrite Hfg, IH. Qed.

Lemma total_map {A B} (f : B → Z) (g : A → B) l : total f (map g l) = total (λ x, f (g x)) l.
Proof. unfold total. induction l; cbn; lia. Qed.

Lemma total_one (c : str) v cats :
  NoDup cats → c ∈ cats → total (λ d, if bool_decide (c = d) then v else 0) cats = v.
Proof.
  intros Hnd. induction Hnd as [|d cats Hd Hnd IH]; [by intros ?%elem_of_nil|].
  intros [->|Hc]%elem_of_cons; unfold total in *; cbn.
  - rewrite bool_decide_eq_true_2 by done.
    pose proof (total_zero (λ d', if bool_decide (d = d') then v else 0) cats) as Hz.
    unfold total in Hz. rewrite Hz; [lia|]. apply Forall_forall. intros x Hx.
    rewrite bool_decide_eq_false_2; [done|]. by intros ->.
  - rewrite bool_decide_eq_false_2 by (by intros ->). rewrite IH; [lia|done].
Qed.

Lemma total_by_category {A} (key : A → str) (f : A → Z) cats l :
  NoDup cats → (∀ x, x ∈ l → key x ∈ cats) →
  total (λ c, total (λ x, if bool_decide (key x = c) then f x else 0) l) cats = total f l.
Proof.
  intros Hnd Hin. induction l as [|x l IH].
  - by apply total_zero, Forall_forall.
  - cbn [total foldr]. fold (total f l). rewrite <-IH by (intros y Hy; apply Hin, elem_of_cons; by right).
    rewrite <-(total_one (key x) (f x) cats) at 1 by (try done; apply Hin, elem_of_cons; by left).
    by rewrite <-total_plus.
Qed.

(** C40: The novelty of the whole run, which the process runner reports as the sum
    over the summaries, counts each distinct event and material update exactly
    once, and does not depend on the order of the inputs. *)
Theorem novelty_conserved records records' attempts attempts' summaries :
  Forall attempt_ok attempts → Forall record_ok records →
  records ≡ₚ records' → attempts ≡ₚ attempts' →
  summarize_yield records' attempts' = Ok summaries →
  total novel_count summaries =
    total (λ r, tally (decided "distinct_event" r) + tally (decided "material_update" r)) records ∧
  summarize_yield records attempts = Ok summaries.
Proof.
  intros Hat Hrec Hr Ha Hrun. rewrite <-(summarize_yield_perm records _ attempts) in Hrun by done.
  split; [|done]. destruct (merge_runs records attempts Hat Hrec) as (g & Hg & Hg').
  rewrite Hrun in Hg'. injection Hg' as ->. rewrite total_map.
  destruct (sorted_categories_spec g) as (_ & Hnd & Hin).
  rewrite <-(total_by_category nr_category _ (sorted_categories g) records Hnd).
  - apply total_ext. intros c. unfold novel_count, reference. cbn. unfold over_records.
    rewrite <-total_plus. apply total_ext. intros r. by case_bool_decide.
  - intros r Hr'. apply Hin, (groups_are_mentioned _ _ _ _ Hg). unfold mentioned.
    apply elem_of_app. right. apply list_elem_of_fmap. by exists r.
Qed.

(** ** Concrete yields *)

Definition sample_attempts : list AttemptYield :=
  [mk_attempt (u "world") (u "success") 5 1; mk_attempt (u "ai") (u "rate_limited") 0 0].
Definition sample_records : list NoveltyRecord :=
  [mk_record (u "world") (u "i1") (u "keep") (Some (u "distinct_event")) (Some (u "feed")) (u "title");
   mk_record (u "world") (u "i2") (u "suppress_exact_url") None None [];
   mk_record (u "ai") (u "i3") (u "keep") (Some (u "material_update")) None []].

Lemma summarize_yield_spec_witness :
  ∃ cats, summarize_yield sample_records sample_attempts =
      Ok (map (reference sample_records sample_attempts) cats) ∧ NoDup cats.
Proof.
  destruct (summarize_yield_spec sample_records sample_attempts) as (cats & Hrun & _ & Hnd & _).
  - repeat constructor.
  - repeat constructor.
  - exists cats. split; assumption.
Defined.

Lemma novelty_conserved_witness :
  ∃ summaries, summarize_yield sample_records sample_attempts = Ok summaries ∧
    total novel_count summaries = 2.
Proof.
  destruct (summarize_yield (rev sample_records) (rev sample_attempts)) as [summaries|] eqn:Hrun;
    [|vm_compute in Hrun; discriminate Hrun].
  destruct (novelty_conserved sample_records (rev sample_records) sample_attempts
    (rev sample_attempts) summaries) as [Hn Hs]; [repeat constructor|repeat constructor|
    apply Permutation_rev|apply Permutation_rev|exact Hrun|].
  exists summaries. split; [exact Hs|]. rewrite Hn. vm_compute. reflexivity.
Defined.
