(* ===== verification/Number.v ===== *)
(** * Number: Python's [float] as IEEE 754 binary64, next to [int].

    A float is a [spec_float] of the Standard Library with 53 bits of mantissa
    and exponents below 1024.  Literals are rounded to nearest even, [repr]
    prints the shortest literal that reads back as the same float.  Comparisons
    of an [int] with a [float] are exact. *)
From S2P Require Import Prelude Text Json.
From Stdlib Require Import SpecFloat.
Local Open Scope Z_scope.

Abbreviation float := spec_float.

#[export] Instance spec_float_eq_dec : EqDecision float.
Proof. solve_decision. Defined.

(** The float nearest to [m * 10^e]. *)
Definition round_decimal (neg : bool) (m : N) (e : Z) : float :=
  match m with
  | 0%N => S754_zero neg
  | Npos p =>
      if 0 <=? e then SFdiv 53 1024 (S754_finite neg (p * Z.to_pos (10 ^ e)) 0) (S754_finite false 1 0)
      else SFdiv 53 1024 (S754_finite neg p 0) (S754_finite false (Z.to_pos (10 ^ (- e))) 0)
  end.

(** [float(z)] of an [int], which raises [OverflowError] from half an ulp above the
    largest float on. *)
Definition float_of_int (z : Z) : float := round_decimal (z <? 0) (Z.abs_N z) 0.
Definition int_overflows (z : Z) : bool := 2 ^ 1024 - 2 ^ 970 <=? Z.abs z.

Definition signed_digits (s : str) : Z :=
  match s with
  | c :: t => if (c =? 45)%N then - Z.of_N (N_of_dec t)
              else if (c =? 43)%N then Z.of_N (N_of_dec t) else Z.of_N (N_of_dec s)
  | [] => 0
  end.

Definition unsigned_literal (neg : bool) (s : str) : float :=
  let '(whole, s1) := span_digits s in
  let '(frac, s2) := match s1 with
    | c :: t => if (c =? 46)%N then span_digits t else ([], s1)
    | [] => ([], s1)
    end in
  let e := match s2 with _ :: t => signed_digits t | [] => 0 end in
  round_decimal neg (N_of_dec (whole ++ frac)) (e - Z.of_nat (length frac)).

(** [float(s)] of a literal of JSON or of the three words [json.loads] knows. *)
Definition float_of_literal (s : str) : float :=
  if bool_decide (s = u "NaN") then S754_nan
  else if bool_decide (s = u "Infinity") then S754_infinity false
  else if bool_decide (s = u "-Infinity") then S754_infinity true
  else match s with
       | c :: t => if (c =? 45)%N then unsigned_literal true t else unsigned_literal false s
       | [] => S754_nan
       end.

Definition is_finite (x : float) : bool :=
  match x with S754_zero _ | S754_finite _ _ _ => true | _ => false end.

(** [int(x)] of a finite float: towards zero. *)
Definition float_trunc (x : float) : Z :=
  match x with
  | S754_finite neg m e =>
      let magnitude := if 0 <=? e then Zpos m * 2 ^ e else Zpos m / 2 ^ (- e) in
      if neg then - magnitude else magnitude
  | _ => 0
  end.

(** The sign of [x - z], exactly; [None] for NaN. *)
Definition compare_int (x : float) (z : Z) : option comparison :=
  match x with
  | S754_zero _ => Some (0 ?= z)
  | S754_infinity neg => Some (if neg then Lt else Gt)
  | S754_nan => None
  | S754_finite neg m e =>
      let v := if neg then Zneg m else Zpos m in
      Some (if 0 <=? e then v * 2 ^ e ?= z else v ?= z * 2 ^ (- e))
  end.
Definition float_eq_int (x : float) (z : Z) : bool :=
  match compare_int x z with Some Eq => true | _ => false end.
Definition float_le_int (x : float) (z : Z) : bool :=
  match compare_int x z with Some (Lt | Eq) => true | _ => false end.
Definition float_gt_int (x : float) (z : Z) : bool :=
  match compare_int x z with Some Gt => true | _ => false end.

Definition float_lt (x y : float) : bool := SFltb x y.
Definition float_le (x y : float) : bool := SFleb x y.
Definition float_sub (x y : float) : float := SFsub 53 1024 x y.
Definition float_add (x y : float) : float := SFadd 53 1024 x y.

(** ** [repr] *)

(** The value of a finite positive float as a fraction. *)
Definition fraction (m : positive) (e : Z) : Z * Z :=
  if 0 <=? e then (Zpos m * 2 ^ e, 1) else (Zpos m, 2 ^ (- e)).

(** The number of digits before the point of [num / den]; [-j] when [j] zeros
    follow the point. *)
Fixpoint leading_zeros (fuel : nat) (num den : Z) : Z :=
  match fuel with
  | O => 0
  | S f => if den <=? num * 10 then 0 else 1 + leading_zeros f (num * 10) den
  end.
Definition point_position (num den : Z) : Z :=
  if den <=? num then Z.of_nat (length (dec_of_Z (num / den)))
  else - leading_zeros 400 num den.

(** The [n]-digit decimal next to the value that reads back as it, if any: the
    digits and the exponent of the last one. *)
Definition candidate (x : float) (num den : Z) (n : nat) : option (Z * Z) :=
  let q := point_position num den - Z.of_nat n in
  let '(a, b) := if 0 <=? q then (num, den * 10 ^ q) else (num * 10 ^ (- q), den) in
  let lo := a / b in
  let hi := lo + 1 in
  let good d := bool_decide (round_decimal false (Z.to_N d) q = x) in
  let nearer_hi := (b <? 2 * (a - lo * b)) || ((b =? 2 * (a - lo * b)) && Z.odd lo) in
  match good lo, good hi with
  | true, true => Some (if nearer_hi then hi else lo, q)
  | true, false => Some (lo, q)
  | false, true => Some (hi, q)
  | false, false => None
  end.

Fixpoint shortest (fuel n : nat) (x : float) (num den : Z) : Z * Z :=
  match fuel with
  | O => (0, 0)
  | S f => match candidate x num den n with
           | Some c => c
           | None => shortest f (S n) x num den
           end
  end.

Fixpoint strip_zeros (fuel : nat) (d q : Z) : Z * Z :=
  match fuel with
  | O => (d, q)
  | S f => if d mod 10 =? 0 then strip_zeros f (d / 10) (q + 1) else (d, q)
  end.

Definition zeros (n : Z) : str := repeat 48%N (Z.to_nat n).

(** The layout of [repr]: an exponent for values below 1e-4 or from 1e16 on. *)
Definition layout (digits : str) (point : Z) : str :=
  let n := Z.of_nat (length digits) in
  if (-4 <? point) && (point <=? 16) then
    if point <=? 0 then u "0." ++ zeros (- point) ++ digits
    else if n <=? point then digits ++ zeros (point - n) ++ u ".0"
    else take (Z.to_nat point) digits ++ 46%N :: drop (Z.to_nat point) digits
  else
    let e := point - 1 in
    let mantissa := match digits with
      | [] => [] | [c] => [c] | c :: rest => c :: 46%N :: rest end in
    mantissa ++ 101%N :: (if e <? 0 then 45%N else 43%N) ::
      (if Z.abs e <? 10 then 48%N :: dec_of_Z (Z.abs e) else dec_of_Z (Z.abs e)).

Definition repr_positive (m : positive) (e : Z) : str :=
  let '(num, den) := fraction m e in
  let '(d, q) := shortest 17 1 (S754_finite false m e) num den in
  let '(d, q) := strip_zeros 17 d q in
  let digits := dec_of_Z d in
  layout digits (q + Z.of_nat (length digits)).

Definition float_repr (x : float) : str :=
  match x with
  | S754_nan => u "nan"
  | S754_infinity neg => if neg then u "-inf" else u "inf"
  | S754_zero neg => if neg then u "-0.0" else u "0.0"
  | S754_finite neg m e => (if neg then [45%N] else []) ++ repr_positive m e
  end.

(** [json.dumps(x, allow_nan=False)]; [None] is [ValueError]. *)
Definition float_json (x : float) : option json :=
  if is_finite x then Some (JFloat (float_repr x)) else None.

(** ** Numbers of either type *)

Inductive number : Type :=
  | Int (z : Z)
  | Float (x : float).

(** [float(n)]; [None] is [OverflowError]. *)
Definition number_to_float (n : number) : option float :=
  match n with
  | Int z => if int_overflows z then None else Some (float_of_int z)
  | Float x => Some x
  end.
(** [int(n)] of a finite number. *)
Definition number_trunc (n : number) : Z :=
  match n with Int z => z | Float x => float_trunc x end.
Definition number_le_int (n : number) (z : Z) : bool :=
  match n with Int y => y <=? z | Float x => float_le_int x z end.
Definition number_gt_int (n : number) (z : Z) : bool :=
  match n with Int y => z <? y | Float x => float_gt_int x z end.

Example repr_examples :
  map (λ s, float_repr (float_of_literal (u s))) ["0.1"; "15"; "1e16"; "0.00001"; "2.5e-5"] =
  map u ["0.1"; "15.0"; "1e+16"; "1e-05"; "2.5e-05"].
Proof. vm_compute. reflexivity. Qed.

(** The bound of [int_overflows] is where rounding becomes infinite. *)
Example int_overflows_boundary :
  is_finite (float_of_int (2 ^ 1024 - 2 ^ 970 - 1)) = true ∧
  is_finite (float_of_int (2 ^ 1024 - 2 ^ 970)) = false.
Proof. split; vm_compute; reflexivity. Qed.
