(* ===== verification/Ip.v ===== *)
(** * Ip: [ipaddress.ip_address(s).compressed] of CPython 3.11.

    An address is its 32- or 128-bit number; [None] is [ValueError]. *)
From S2P Require Import Prelude Text Sha256.
Local Open Scope N_scope.

(** [s.split(sep)] for a one-character separator. *)
Fixpoint split_on (sep : N) (s : str) : list str :=
  match s with
  | [] => [[]]
  | c :: s' =>
      if c =? sep then [] :: split_on sep s'
      else match split_on sep s' with
           | [] => [[c]]
           | w :: ws => (c :: w) :: ws
           end
  end.

(** [sep.join(words)] for a one-character separator. *)
Fixpoint join_with (sep : N) (words : list str) : str :=
  match words with
  | [] => []
  | [w] => w
  | w :: ws => w ++ sep :: join_with sep ws
  end.

(** ** IPv4 *)

(** [IPv4Address._parse_octet] *)
Definition parse_octet (s : str) : option N :=
  if negb (length s =? 0)%nat && forallb is_digit s && (length s <=? 3)%nat &&
     (bool_decide (s = u "0") || negb (starts_with (u "0") s)) && (N_of_dec s <=? 255)
  then Some (N_of_dec s) else None.

Definition parse_ipv4 (s : str) : option N :=
  match split_on 46 s with
  | [a; b; c; d] =>
      a ← parse_octet a; b ← parse_octet b; c ← parse_octet c; d ← parse_octet d;
      Some (((a * 256 + b) * 256 + c) * 256 + d)
  | _ => None
  end.

Definition print_ipv4 (n : N) : str :=
  join_with 46 (map dec_of_N [n / 16777216; n / 65536 mod 256; n / 256 mod 256; n mod 256]).

(** ** IPv6 *)

Definition hex_digit_value (c : N) : option N :=
  if is_digit c then Some (c - 48)
  else if in_range 97 102 c then Some (c - 87)
  else if in_range 65 70 c then Some (c - 55) else None.

Fixpoint hex_number (acc : N) (s : str) : option N :=
  match s with
  | [] => Some acc
  | c :: s' => d ← hex_digit_value c; hex_number (acc * 16 + d) s'
  end.

(** [IPv6Address._parse_hextet] *)
Definition parse_hextet (s : str) : option N :=
  if (length s =? 0)%nat || (4 <? length s)%nat then None else hex_number 0 s.

Fixpoint hextets_value (acc : N) (parts : list str) : option N :=
  match parts with
  | [] => Some acc
  | p :: ps => h ← parse_hextet p; hextets_value (acc * 65536 + h) ps
  end.

(** ["%x" % n] of a number below 2^16. *)
Definition print_hextet (n : N) : str :=
  if n <? 16 then [hex_digit n]
  else if n <? 256 then [hex_digit (n / 16); hex_digit (n mod 16)]
  else if n <? 4096 then [hex_digit (n / 256); hex_digit (n / 16 mod 16); hex_digit (n mod 16)]
  else [hex_digit (n / 4096); hex_digit (n / 256 mod 16); hex_digit (n / 16 mod 16);
        hex_digit (n mod 16)].

(** The indices from [i] on of empty parts, the last part excepted. *)
Fixpoint empty_inside (i : nat) (parts : list str) : list nat :=
  match parts with
  | [] | [_] => []
  | p :: ps => (if (length p =? 0)%nat then [i] else []) ++ empty_inside (S i) ps
  end.

Definition is_empty (s : str) : bool := (length s =? 0)%nat.

(** [_ip_int_from_string], after an IPv4 suffix was converted. *)
Definition ipv6_of_parts (parts : list str) : option N :=
  let n := length parts in
  let first := default [] (head parts) in
  let final := default [] (last parts) in
  if (9 <? n)%nat then None
  else match empty_inside 1 (tail parts) with
  | [] =>
      if negb (n =? 8)%nat || is_empty first || is_empty final then None
      else hextets_value 0 parts
  | [skip] =>
      let hi := if is_empty first then (skip - 1)%nat else skip in
      let after := (n - skip - 1)%nat in
      let lo := if is_empty final then (after - 1)%nat else after in
      if (is_empty first && negb (hi =? 0)%nat) || (is_empty final && negb (lo =? 0)%nat) ||
         (8 <=? hi + lo)%nat then None
      else
        high ← hextets_value 0 (take hi parts);
        hextets_value (high * 2 ^ (16 * N.of_nat (8 - (hi + lo)))) (drop (n - lo) parts)
  | _ => None
  end.

Definition ipv6_number (s : str) : option N :=
  let parts := split_on 58 s in
  if (length parts <? 3)%nat then None
  else
    let suffix := default [] (last parts) in
    if existsb (N.eqb 46) suffix then
      v4 ← parse_ipv4 suffix;
      ipv6_of_parts (removelast parts ++ [print_hextet (v4 / 65536); print_hextet (v4 mod 65536)])
    else ipv6_of_parts parts.

(** The first longest run of zero hextets among [parts], which start at [index]:
    its start and length. *)
Fixpoint longest_zeros (index start len best_start best_len : nat) (parts : list str) : nat * nat :=
  match parts with
  | [] => (best_start, best_len)
  | p :: ps =>
      if bool_decide (p = u "0") then
        let start := if (len =? 0)%nat then index else start in
        let len := S len in
        if (best_len <? len)%nat then longest_zeros (S index) start len start len ps
        else longest_zeros (S index) start len best_start best_len ps
      else longest_zeros (S index) 0 0 best_start best_len ps
  end.

Definition compress_hextets (parts : list str) : list str :=
  let '(start, len) := longest_zeros 0 0 0 0 0 parts in
  if (1 <? len)%nat then
    let parts' := if (start + len =? length parts)%nat then parts ++ [[]] else parts in
    let parts'' := take start parts' ++ [] :: drop (start + len) parts' in
    if (start =? 0)%nat then [] :: parts'' else parts''
  else parts.

Definition print_ipv6 (n : N) : str :=
  join_with 58 (compress_hextets
    (map (λ k, print_hextet (n / 2 ^ (16 * k) mod 65536)) [7; 6; 5; 4; 3; 2; 1; 0])).

(** The address without its zone, and the zone. *)
Definition split_zone (s : str) : option (str * option str) :=
  match split1 37 s with
  | (addr, None) => Some (addr, None)
  | (addr, Some zone) => if is_empty zone || existsb (N.eqb 37) zone then None else Some (addr, Some zone)
  end.

(** [ipaddress.ip_address(s).compressed] *)
Definition ip_compressed (s : str) : option str :=
  if existsb (N.eqb 47) s then None
  else match parse_ipv4 s with
  | Some n => Some (print_ipv4 n)
  | None =>
      '(addr, zone) ← split_zone s;
      n ← ipv6_number addr;
      Some (print_ipv6 n ++ match zone with Some z => 37 :: z | None => [] end)
  end.

Example ip_examples :
  map (λ s, ip_compressed (u s))
    ["127.0.0.1"; "::1"; "2001:DB8:0:0:1:0:0:1"; "::ffff:10.0.0.1"; "fe80::1%eth0"; "1::"; "01.2.3.4";
     "1:2:3:4:5:6:7:8"; "::"; "1:2"; "1:::2"; "0:0:0:1:0:0:0:0"; "1:2:3:4:5:6:7::"; ":1:2:3:4:5:6:7"] =
  [Some (u "127.0.0.1"); Some (u "::1"); Some (u "2001:db8::1:0:0:1"); Some (u "::ffff:a00:1");
   Some (u "fe80::1%eth0"); Some (u "1::"); None; Some (u "1:2:3:4:5:6:7:8"); Some (u "::"); None; None;
   Some (u "0:0:0:1::"); Some (u "1:2:3:4:5:6:7:0"); None].
Proof. vm_compute. reflexivity. Qed.
