(* ===== verification/Url.v ===== *)
(** * Url: the parts of [urllib.parse] the program uses (CPython 3.11).

    [lower_text] is [str.lower] and [netloc_ok] is the check of the network
    location that needs Unicode tables or the bracketed-address grammar
    ([_checknetloc], [_check_bracketed_netloc]): [false] where it raises
    [ValueError].  Both are parameters of the definitions. *)
From S2P Require Import Prelude Text Ip.
Local Open Scope N_scope.

Record SplitResult := mk_split
  { scheme : str; netloc : str; path : str; query : str; fragment : str }.

(** [s.partition(sep)]: what is before, and what is after if [sep] occurs. *)
Abbreviation partition := split1.

(** [s.rpartition(sep)[2]]: what follows the last occurrence, or all of [s]. *)
Fixpoint after_last (sep : N) (s : str) : str :=
  match s with
  | [] => []
  | c :: s' => if existsb (N.eqb sep) s' then after_last sep s'
               else if c =? sep then s' else s
  end.

Definition is_c0_or_space (c : N) : bool := c <=? 32.
Fixpoint strip_left (s : str) : str :=
  match s with
  | c :: s' => if is_c0_or_space c then strip_left s' else s
  | [] => []
  end.
Definition unsafe_byte (c : N) : bool := (c =? 9) || (c =? 13) || (c =? 10).

Definition is_ascii_letter (c : N) : bool := is_lower c || is_upper c.
Definition scheme_char (c : N) : bool :=
  is_ascii_letter c || is_digit c || (c =? 43) || (c =? 45) || (c =? 46).

(** The scheme a URL starts with, and the rest. *)
Definition split_scheme (url : str) : str * str :=
  match partition 58 url with
  | (c :: s, Some rest) =>
      if is_ascii_letter c && forallb scheme_char (c :: s) then (lower (c :: s), rest) else ([], url)
  | _ => ([], url)
  end.

(** [_splitnetloc(url, 2)], given what follows the two slashes. *)
Fixpoint split_netloc (s : str) : str * str :=
  match s with
  | [] => ([], [])
  | c :: s' =>
      if (c =? 47) || (c =? 63) || (c =? 35) then ([], s)
      else let '(a, b) := split_netloc s' in (c :: a, b)
  end.

Definition has (c : N) (s : str) : bool := existsb (N.eqb c) s.

Section url.
Context (lower_text : str → str) (netloc_ok : str → bool).

(** [urlsplit(url, default_scheme)]; [None] is [ValueError]. *)
Definition urlsplit (url default_scheme : str) : option SplitResult :=
  let url := List.filter (λ c, negb (unsafe_byte c)) (strip_left url) in
  let '(scheme, url) := match split_scheme url with
    | ([], _) => (default_scheme, url)
    | found => found
    end in
  let '(netloc, url) := match url with
    | 47 :: 47 :: rest => split_netloc rest
    | _ => ([], url)
    end in
  if negb (Bool.eqb (has 91 netloc) (has 93 netloc)) then None
  else
    let '(url, fragment) := partition 35 url in
    let '(url, query) := partition 63 url in
    if netloc_ok netloc
    then Some (mk_split scheme netloc url (default [] query) (default [] fragment))
    else None.

(** [SplitResult._hostinfo]: host and port as texts. *)
Definition hostinfo (p : SplitResult) : str * str :=
  let info := after_last 64 (netloc p) in
  match partition 91 info with
  | (_, Some bracketed) =>
      let '(host, rest) := partition 93 bracketed in
      (host, default [] (partition 58 (default [] rest)).2)
  | (_, None) => let '(host, port) := partition 58 info in (host, default [] port)
  end.

Definition hostname (p : SplitResult) : option str :=
  match (hostinfo p).1 with
  | [] => None
  | h => let '(host, zone) := partition 37 h in
         Some (lower_text host ++ match zone with Some z => 37 :: z | None => [] end)
  end.

(** [None] is [ValueError], [Some None] a port that is not given. *)
Definition port (p : SplitResult) : option (option N) :=
  match (hostinfo p).2 with
  | [] => Some None
  | s => if forallb is_digit s && (N_of_dec s <=? 65535) then Some (Some (N_of_dec s)) else None
  end.

(** [urlunsplit] for a scheme that has a network location. *)
Definition urlunsplit (p : SplitResult) : str :=
  let url := path p in
  let url := match netloc p with
    | [] => if starts_with (u "//") url then url
            else u "//" ++ (match url with [] | 47 :: _ => url | _ => 47 :: url end)
    | _ => u "//" ++ netloc p ++ (match url with [] | 47 :: _ => url | _ => 47 :: url end)
    end in
  let url := match scheme p with [] => url | s => s ++ 58 :: url end in
  let url := match query p with [] => url | q => url ++ 63 :: q end in
  match fragment p with [] => url | f => url ++ 35 :: f end.

(** ** [urljoin(base, url)] for a base whose scheme is [https] *)

(** The path and the parameters of its last segment ([_splitparams]). *)
Definition split_params (path : str) : str * str :=
  let last_segment := after_last 47 path in
  match partition 59 last_segment with
  | (_, None) => (path, [])
  | (before, Some params) => (take (length path - length last_segment) path ++ before, params)
  end.
Definition join_params (path params : str) : str :=
  match params with [] => path | _ => path ++ 59 :: params end.

(** [segments[1:-1] = filter(None, segments[1:-1])] *)
Definition drop_empty_inside (segments : list str) : list str :=
  match segments with
  | first :: ((_ :: _) as l) =>
      first :: List.filter (λ s, negb (is_empty s)) (removelast l) ++
      match last l with Some s => [s] | None => [] end
  | _ => segments
  end.

Definition dots : str := u "..".
Definition dot : str := u ".".

Definition resolve_step (resolved : list str) (seg : str) : list str :=
  if bool_decide (seg = dots) then removelast resolved
  else if bool_decide (seg = dot) then resolved else resolved ++ [seg].

Definition resolve_path (base_path path : str) : str :=
  let base_parts := split_on 47 base_path in
  let base_parts := match last base_parts with
    | Some [] => base_parts | _ => removelast base_parts end in
  let segments := if starts_with (u "/") path then split_on 47 path
                  else drop_empty_inside (base_parts ++ split_on 47 path) in
  let resolved := fold_left resolve_step segments [] in
  let final := default [] (last segments) in
  let resolved := if bool_decide (final = dot ∨ final = dots) then resolved ++ [[]] else resolved in
  match join_with 47 resolved with [] => u "/" | r => r end.

Definition urljoin (base url : str) : option str :=
  match url with
  | [] => Some base
  | _ =>
      b ← urlsplit base [];
      t ← urlsplit url (scheme b);
      if negb (bool_decide (scheme t = scheme b)) then Some url
      else match netloc t with
      | _ :: _ =>
          let '(p, params) := split_params (path t) in
          Some (urlunsplit (mk_split (scheme t) (netloc t) (join_params p params) (query t) (fragment t)))
      | [] =>
          let '(p, params) := split_params (path t) in
          let '(bp, bparams) := split_params (path b) in
          match p, params with
          | [], [] =>
              Some (urlunsplit (mk_split (scheme t) (netloc b) (join_params bp bparams)
                (match query t with [] => query b | q => q end) (fragment t)))
          | _, _ =>
              Some (urlunsplit (mk_split (scheme t) (netloc b) (join_params (resolve_path bp p) params)
                (query t) (fragment t)))
          end
      end
  end.
End url.

(** ** A split URL is its own normal form *)

Lemma partition_absent sep s : has sep s = false → partition sep s = (s, None).
Proof.
  induction s as [|c s IH]; cbn [has existsb split1]; [done|].
  rewrite N.eqb_sym. intros [Hc Hs]%orb_false_iff. by rewrite Hc, IH.
Qed.

Lemma partition_app sep a b : has sep a = false → partition sep (a ++ sep :: b) = (a, Some b).
Proof.
  induction a as [|c a IH]; cbn [has existsb app split1]; [by rewrite N.eqb_refl|].
  rewrite N.eqb_sym. intros [Hc Ha]%orb_false_iff. by rewrite Hc, IH.
Qed.

Lemma partition_parts sep s a b : partition sep s = (a, b) →
  has sep a = false ∧ s = a ++ match b with Some r => sep :: r | None => [] end.
Proof.
  revert a. induction s as [|c s IH]; intros a; cbn [split1]; [by intros [= <- <-]|].
  destruct (N.eqb_spec c sep) as [->|Hc]; [by intros [= <- <-]|].
  destruct (partition sep s) as [a' b']. intros [= <- <-]. destruct (IH a' eq_refl) as [Ha ->].
  cbn [has existsb]. apply N.eqb_neq in Hc. rewrite N.eqb_sym, Hc. done.
Qed.

Definition ends_netloc (c : N) : bool := (c =? 47) || (c =? 63) || (c =? 35).
Definition opens_path (s : str) : Prop := match s with [] => True | c :: _ => ends_netloc c = true end.

Lemma split_netloc_parts s a b : split_netloc s = (a, b) →
  s = a ++ b ∧ forallb (λ c, negb (ends_netloc c)) a = true ∧ opens_path b.
Proof.
  revert a. induction s as [|c s IH]; intros a; cbn [split_netloc]; [by intros [= <- <-]|].
  fold (ends_netloc c). destruct (ends_netloc c) eqn:Hc; [by intros [= <- <-]|].
  destruct (split_netloc s) as [a' b']. intros [= <- <-]. destruct (IH a' eq_refl) as (-> & Ha & Hb).
  cbn [app forallb]. by rewrite Hc.
Qed.

Lemma split_netloc_app a b :
  forallb (λ c, negb (ends_netloc c)) a = true → opens_path b → split_netloc (a ++ b) = (a, b).
Proof.
  intros Ha Hb. induction a as [|c a IH]; cbn [app forallb] in *.
  - destruct b as [|c b]; [done|]. cbn [split_netloc]. fold (ends_netloc c). cbn in Hb. by rewrite Hb.
  - apply andb_true_iff in Ha as [Hc Ha]. cbn [split_netloc]. fold (ends_netloc c).
    apply negb_true_iff in Hc. by rewrite Hc, IH.
Qed.

Definition clean (s : str) : bool := forallb (λ c, negb (unsafe_byte c)) s.

Lemma filter_clean s : clean s = true → List.filter (λ c, negb (unsafe_byte c)) s = s.
Proof.
  induction s as [|c s IH]; cbn [clean forallb List.filter]; [done|].
  intros [-> Hs]%andb_true_iff. by rewrite IH.
Qed.

Lemma clean_filter s : clean (List.filter (λ c, negb (unsafe_byte c)) s) = true.
Proof.
  induction s as [|c s IH]; [done|]. cbn [List.filter]. destruct (negb (unsafe_byte c)) eqn:Hc; [|done].
  cbn [clean forallb]. by rewrite Hc.
Qed.

Lemma clean_app a b : clean (a ++ b) = clean a && clean b.
Proof. apply forallb_app. Qed.

Lemma split_on_join sep words :
  words ≠ [] → Forall (λ w, has sep w = false) words → split_on sep (join_with sep words) = words.
Proof.
  intros Hne Hall. induction Hall as [|w ws Hw Hall IH]; [done|]. clear Hne.
  assert (∀ rest l, split_on sep rest = l → l ≠ [] →
    split_on sep (w ++ rest) = match l with [] => [w] | x :: xs => (w ++ x) :: xs end) as Happ.
  { clear -Hw. induction w as [|c w IH]; intros rest l Hl Hne; cbn [app]; [by destruct l|].
    cbn [has existsb] in Hw. apply orb_false_iff in Hw as [Hc Hw]. cbn [split_on].
    rewrite N.eqb_sym, Hc, (IH Hw rest l Hl Hne). by destruct l. }
  destruct ws as [|w2 ws]; cbn [join_with].
  - specialize (Happ [] [[]] eq_refl). rewrite !app_nil_r in Happ. by apply Happ.
  - rewrite (Happ _ ([] :: w2 :: ws)); [by rewrite app_nil_r| |done].
    cbn [split_on]. rewrite N.eqb_refl. f_equal. by apply IH.
Qed.

Record split_normal (netloc_ok : str → bool) (p : SplitResult) : Prop := {
  normal_clean : clean (netloc p) = true ∧ clean (path p) = true ∧ clean (query p) = true ∧
                 clean (fragment p) = true;
  normal_netloc : forallb (λ c, negb (ends_netloc c)) (netloc p) = true ∧
                  Bool.eqb (has 91 (netloc p)) (has 93 (netloc p)) = true ∧ netloc_ok (netloc p) = true;
  normal_path : has 63 (path p) = false ∧ has 35 (path p) = false ∧ has 35 (query p) = false;
  normal_start : netloc p ≠ [] → match path p with [] => True | c :: _ => c = 47 end }.

Lemma has_app c a b : has c (a ++ b) = has c a || has c b.
Proof. apply existsb_app. Qed.

Lemma split_scheme_rest url s rest : split_scheme url = (s, rest) → ∃ p, url = p ++ rest.
Proof.
  unfold split_scheme. destruct (partition 58 url) as [a b] eqn:Hp. apply partition_parts in Hp as [_ Hu].
  destruct a as [|c a], b as [r|]; try (intros [= <- <-]; by exists []).
  destruct (_ && _); intros [= <- <-]; [|by exists []].
  exists ((c :: a) ++ [58]). by rewrite <-app_assoc.
Qed.

Lemma urlsplit_normal netloc_ok url d p : urlsplit netloc_ok url d = Some p → split_normal netloc_ok p.
Proof.
  unfold urlsplit. pose proof (clean_filter (strip_left url)) as Hclean. revert Hclean.
  generalize (List.filter (λ c, negb (unsafe_byte c)) (strip_left url)). intros s0 Hclean.
  assert (∃ sch s1, (match split_scheme s0 with ([], _) => (d, s0) | found => found end) = (sch, s1) ∧
    clean s1 = true) as (sch & s1 & -> & H1).
  { destruct (split_scheme s0) as [[|c sc] r] eqn:Hs; [by exists d, s0|]. exists (c :: sc), r.
    split; [done|]. apply split_scheme_rest in Hs as [q ->]. rewrite clean_app in Hclean.
    by apply andb_true_iff in Hclean as [_ ?]. }
  assert (∃ n s2, (match s1 with 47 :: 47 :: rest => split_netloc rest | _ => ([], s1) end) = (n, s2) ∧
    clean n = true ∧ clean s2 = true ∧ forallb (λ c, negb (ends_netloc c)) n = true ∧
    (n ≠ [] → opens_path s2)) as (n & s2 & -> & Hn & H2 & Hends & Hopen).
  { destruct (starts_with (u "//") s1) eqn:Hsl.
    - destruct s1 as [|c1 [|c2 s1]]; [done|by apply andb_true_iff in Hsl as [_ Hsl]|].
      cbn in Hsl. apply andb_true_iff in Hsl as [<-%N.eqb_eq [<-%N.eqb_eq _]%andb_true_iff].
      destruct (split_netloc s1) as [n s2] eqn:Hs. apply split_netloc_parts in Hs as (-> & ? & ?).
      exists n, s2. cbn [clean forallb] in H1. change (negb (unsafe_byte 47)) with true in H1.
      cbn [andb] in H1. change (clean (n ++ s2) = true) in H1. rewrite clean_app in H1.
      apply andb_true_iff in H1 as [??]. auto.
    - exists [], s1. split_and!; try done.
      destruct s1 as [|c1 [|c2 s1]]; try done.
      + destruct c1 as [|q]; [done|]. do 6 (destruct q as [q|q|]; try done).
      + cbn in Hsl. destruct (N.eq_dec c1 47) as [->|Hc1].
        * destruct (N.eq_dec c2 47) as [->|Hc2]; [done|].
          destruct c2 as [|q]; [done|]. do 6 (destruct q as [q|q|]; try done).
        * destruct c1 as [|q]; [done|]. do 6 (destruct q as [q|q|]; try done). }
  destruct (negb _) eqn:Hbr; [done|]. apply negb_false_iff in Hbr.
  destruct (partition 35 s2) as [s3 fr] eqn:Hf. apply partition_parts in Hf as [Hf ->].
  destruct (partition 63 s3) as [s4 q] eqn:Hq. apply partition_parts in Hq as [Hq ->].
  destruct (netloc_ok n) eqn:Hok; [|done]. intros [= <-].
  rewrite !clean_app, !andb_true_iff in H2. rewrite has_app, orb_false_iff in Hf.
  constructor; cbn [netloc path query fragment].
  - split_and!; try tauto; [destruct q; [|done]; destruct H2 as [[_ H2] _]|
      destruct fr; [|done]; destruct H2 as [_ H2]]; cbn [clean forallb] in H2;
      apply andb_true_iff in H2; apply H2.
  - done.
  - split_and!; [done|apply Hf|]. destruct q; [|done]. destruct Hf as [_ Hf].
    cbn [has existsb] in Hf. by apply orb_false_iff in Hf as [_ Hf].
  - intros Hne. specialize (Hopen Hne). destruct s4 as [|c s4]; [done|]. cbn in Hopen.
    cbn [has existsb app] in Hf, Hq. unfold ends_netloc in Hopen.
    apply orb_false_iff in Hq as [Hq _]. destruct Hf as [[Hc _]%orb_false_iff _].
    rewrite (N.eqb_sym c 63), (N.eqb_sym c 35), Hq, Hc, !orb_false_r in Hopen.
    by apply N.eqb_eq.
Qed.

(** What follows the network location. *)
Definition url_tail (p : SplitResult) : str :=
  path p ++ match query p with [] => [] | q => 63 :: q end ++
  match fragment p with [] => [] | f => 35 :: f end.

(** The schemes the program accepts. *)
Definition web_scheme (s : str) : Prop := s = u "http" ∨ s = u "https".

Lemma urlunsplit_web netloc_ok p :
  split_normal netloc_ok p → scheme p ≠ [] → netloc p ≠ [] →
  urlunsplit p = scheme p ++ 58 :: 47 :: 47 :: netloc p ++ url_tail p.
Proof.
  intros [_ _ _ Hstart] Hs Hn. specialize (Hstart Hn). unfold urlunsplit, url_tail.
  destruct (scheme p) as [|x sc]; [done|]. clear Hs.
  destruct (netloc p) as [|c n] eqn:Hnet; [done|].
  assert ((match path p with [] | 47 :: _ => path p | _ => 47 :: path p end) = path p) as ->.
  { destruct (path p) as [|y pa]; [done|]. by subst y. }
  destruct (query p), (fragment p); cbn [app u]; rewrite <-?app_assoc, ?app_nil_r; try done.
  all: cbn [app]; f_equal; rewrite <-?app_assoc; cbn [app]; rewrite <-?app_assoc; done.
Qed.

Lemma urlsplit_urlunsplit netloc_ok p d :
  split_normal netloc_ok p → web_scheme (scheme p) → netloc p ≠ [] →
  urlsplit netloc_ok (urlunsplit p) d = Some p.
Proof.
  intros Hp Hs Hn. rewrite (urlunsplit_web netloc_ok) by (done || by destruct Hs as [-> | ->]).
  destruct Hp as [(Hc1 & Hc2 & Hc3 & Hc4) (Hends & Hbr & Hok) (Hp1 & Hp2 & Hq) Hstart].
  specialize (Hstart Hn). unfold urlsplit.
  assert (clean (netloc p ++ url_tail p) = true) as Hclean.
  { rewrite !clean_app, Hc1. unfold url_tail. rewrite !clean_app, Hc2.
    cbn [andb]. apply andb_true_iff. split; [by destruct (query p)|by destruct (fragment p)]. }
  assert (∀ rest, clean rest = true →
    List.filter (λ c, negb (unsafe_byte c)) (strip_left (scheme p ++ 58 :: 47 :: 47 :: rest)) =
      scheme p ++ 58 :: 47 :: 47 :: rest ∧
    split_scheme (scheme p ++ 58 :: 47 :: 47 :: rest) = (scheme p, 47 :: 47 :: rest)) as Hsch.
  { intros rest Hr. by destruct Hs as [-> | ->]; (split; [|done]); cbn; rewrite filter_clean by done. }
  destruct (Hsch _ Hclean) as [-> ->]. clear Hsch.
  assert (∀ x : str * str, (match (scheme p, x.2) with ([], _) => (d, x.1) | found => found end) =
    (scheme p, x.2)) as Hfound by (intros; by destruct Hs as [-> | ->]).
  specialize (Hfound (scheme p ++ 58 :: 47 :: 47 :: netloc p ++ url_tail p,
    47 :: 47 :: netloc p ++ url_tail p)). cbn [fst snd] in Hfound. rewrite Hfound. clear Hfound.
  cbv beta iota.
  rewrite split_netloc_app; [|done|].
  2:{ unfold url_tail. destruct (path p) as [|c pa]; [|by subst c].
      destruct (query p); [by destruct (fragment p)|done]. }
  cbv beta iota. rewrite Hbr. cbn [negb]. unfold url_tail.
  assert (∀ q, has 35 q = false → partition 63 (path p ++ match q with [] => [] | _ => 63 :: q end) =
    (path p, match q with [] => None | _ => Some q end)) as Hpart.
  { intros [|x q] _; [by rewrite app_nil_r, partition_absent|by rewrite partition_app]. }
  assert (partition 35 (path p ++ match query p with [] => [] | q => 63 :: q end ++
      match fragment p with [] => [] | f => 35 :: f end) =
    (path p ++ match query p with [] => [] | q => 63 :: q end,
     match fragment p with [] => None | f => Some f end)) as ->.
  { rewrite app_assoc. assert (has 35 (path p ++ match query p with [] => [] | q => 63 :: q end) = false)
      by (rewrite has_app, Hp2; destruct (query p); [done|exact Hq]).
    destruct (fragment p); [by rewrite app_nil_r, partition_absent|by rewrite partition_app]. }
  specialize (Hpart (query p) Hq).
  destruct p as [sc n pa q f]; cbn [scheme netloc path query fragment] in *.
  assert (partition 63 (pa ++ match q with [] => [] | _ :: _ => 63 :: q end) =
    (pa, match q with [] => None | _ :: _ => Some q end)) as Hpq by by destruct q.
  destruct q as [|x q]; cbn [app] in *; rewrite Hpq; cbv beta iota; rewrite Hok;
    destruct f; done.
Qed.


Example urljoin_examples :
  map (λ t, urljoin (λ _, true) (u "https://h.example/a/b;p/c?q#f") (u t))
    ["d"; "../d"; "/x/./y/.."; "?z"; "//other/p"; "http://e/"; "HTTPS:///k"; "#s"; "../../../../g"] =
  map (λ t, Some (u t))
    ["https://h.example/a/b;p/d"; "https://h.example/a/d"; "https://h.example/x/";
     "https://h.example/a/b;p/c?z"; "https://other/p"; "http://e/"; "https://h.example/k";
     "https://h.example/a/b;p/c?q#s"; "https://h.example/g"].
Proof. vm_compute. reflexivity. Qed.

Example urlsplit_examples :
  map (λ t, (λ p, (scheme p, hostname lower p, port p, path p)) <$> urlsplit (λ _, true) (u t) [])
    ["HTTPS://User@Ex.Org:443/p?q"; "//[::1]:x/"; "mailto:a"; "https://h:99999/"; "https://[/"] =
  [Some (u "https", Some (u "ex.org"), Some (Some 443), u "/p");
   Some (u "", Some (u "::1"), None, u "/");
   Some (u "mailto", None, Some None, u "a");
   Some (u "https", Some (u "h"), None, u "/"); None].
Proof. vm_compute. reflexivity. Qed.
