(* ===== verification/Percent.v ===== *)
(** * Percent: percent-encoding and query strings ([urllib.parse]).

    [quote], [unquote], [parse_qsl(keep_blank_values=True)] and
    [urlencode(doseq=True)] on texts, and the [replace] mode of the UTF-8 decoder
    they use.  What [urlencode] writes is read back by [parse_qsl]. *)
From S2P Require Import Prelude Text Utf8 Json Ip Url.
Local Open Scope N_scope.

(** ** [bytes.decode("utf-8", "replace")] *)

Definition REPLACEMENT : N := 65533.

(** The second byte that may follow the first of three or of four. *)
Definition second_of_three (b b1 : N) : bool :=
  if b =? 224 then in_range 160 191 b1 else if b =? 237 then in_range 128 159 b1
  else is_continuation b1.
Definition second_of_four (b b1 : N) : bool :=
  if b =? 240 then in_range 144 191 b1 else if b =? 244 then in_range 128 143 b1
  else is_continuation b1.

(** Each longest prefix of a sequence that cannot go on is one replacement. *)
Fixpoint decode_replace (l : list N) : str :=
  match l with
  | [] => []
  | b :: l1 =>
      if b <? 128 then b :: decode_replace l1
      else if in_range 194 223 b then
        match l1 with
        | [] => [REPLACEMENT]
        | b1 :: l2 =>
            if is_continuation b1 then ((b - 192) * 64 + (b1 - 128)) :: decode_replace l2
            else REPLACEMENT :: decode_replace l1
        end
      else if in_range 224 239 b then
        match l1 with
        | [] => [REPLACEMENT]
        | b1 :: l2 =>
            if second_of_three b b1 then
              match l2 with
              | [] => [REPLACEMENT]
              | b2 :: l3 =>
                  if is_continuation b2
                  then ((b - 224) * 4096 + (b1 - 128) * 64 + (b2 - 128)) :: decode_replace l3
                  else REPLACEMENT :: decode_replace l2
              end
            else REPLACEMENT :: decode_replace l1
        end
      else if in_range 240 244 b then
        match l1 with
        | [] => [REPLACEMENT]
        | b1 :: l2 =>
            if second_of_four b b1 then
              match l2 with
              | [] => [REPLACEMENT]
              | b2 :: l3 =>
                  if is_continuation b2 then
                    match l3 with
                    | [] => [REPLACEMENT]
                    | b3 :: l4 =>
                        if is_continuation b3
                        then ((b - 240) * 262144 + (b1 - 128) * 4096 + (b2 - 128) * 64 + (b3 - 128))
                             :: decode_replace l4
                        else REPLACEMENT :: decode_replace l3
                    end
                  else REPLACEMENT :: decode_replace l2
              end
            else REPLACEMENT :: decode_replace l1
        end
      else REPLACEMENT :: decode_replace l1
  end.

(** ** Quoting *)

Definition unreserved (c : N) : bool :=
  is_lower c || is_upper c || is_digit c || (c =? 95) || (c =? 46) || (c =? 45) || (c =? 126).

Definition upper_hex (d : N) : N := if d <? 10 then 48 + d else 55 + d.
Definition quote_byte (safe : N → bool) (b : N) : str :=
  if safe b then [b] else [37; upper_hex (b / 16); upper_hex (b mod 16)].

(** [urllib.parse.quote] of a text, given all the characters it keeps; [None] is
    [UnicodeEncodeError]. *)
Definition percent_quote (safe : N → bool) (s : str) : option str :=
  bytes ← utf8_encode s; Some (concat (map (quote_byte safe) bytes)).

Definition space_to_plus (c : N) : N := if c =? 32 then 43 else c.
Definition plus_to_space (c : N) : N := if c =? 43 then 32 else c.

Definition quote_plus (s : str) : option str :=
  t ← percent_quote (λ c, unreserved c || (c =? 32)) s; Some (map space_to_plus t).

(** ** Unquoting *)

Fixpoint unquote_to_bytes (s : str) : list N :=
  match s with
  | [] => []
  | c :: s1 =>
      if c =? 37 then
        match s1 with
        | a :: b :: s3 =>
            match hex_value a, hex_value b with
            | Some x, Some y => (x * 16 + y) :: unquote_to_bytes s3
            | _, _ => c :: unquote_to_bytes s1
            end
        | _ => c :: unquote_to_bytes s1
        end
      else c :: unquote_to_bytes s1
  end.

(** Each run of ASCII characters is decoded on its own. *)
Fixpoint unquote_from (run s : str) : str :=
  match s with
  | [] => decode_replace (unquote_to_bytes run)
  | c :: s' =>
      if c <? 128 then unquote_from (run ++ [c]) s'
      else decode_replace (unquote_to_bytes run) ++ c :: unquote_from [] s'
  end.
Definition unquote (s : str) : str := unquote_from [] s.

(** ** Queries *)

Definition unquote_plus (s : str) : str := unquote (map plus_to_space s).

Definition parse_pair (name_value : str) : str * str :=
  let '(name, value) := partition 61 name_value in
  (unquote_plus name, unquote_plus (default [] value)).

Definition parse_qsl (qs : str) : list (str * str) :=
  map parse_pair (List.filter (λ s, negb (is_empty s)) (split_on 38 qs)).

Definition encode_pair (kv : str * str) : option str :=
  k ← quote_plus kv.1; v ← quote_plus kv.2; Some (k ++ 61 :: v).

Definition urlencode (items : list (str * str)) : option str :=
  texts ← mapM encode_pair items; Some (join_with 38 texts).

(** ** What is encoded is decoded *)

#[local] Ltac Zify.zify_post_hook ::= Z.to_euclidean_division_equations.

Ltac decide_eqb :=
  repeat match goal with
  | |- context [?a =? ?b] =>
      first [rewrite (proj2 (N.eqb_eq a b)) by lia | rewrite (proj2 (N.eqb_neq a b)) by lia]
  end.

Lemma decode_replace_char c rest :
  scalar c = true → decode_replace (utf8_char c ++ rest) = c :: decode_replace rest.
Proof.
  intros Hc. unfold utf8_char.
  assert (c < 55296 ∨ 57344 <= c <= 1114111) as Hs.
  { unfold scalar in Hc. rewrite orb_true_iff, N.ltb_lt, in_range_true in Hc. done. }
  destruct (N.ltb_spec c 128); [cbn [app decode_replace]; by decide_bytes|].
  destruct (N.ltb_spec c 2048); [|destruct (N.ltb_spec c 65536)]; cbn [app decode_replace].
  - assert (2 <= c / 64 < 32) as Hd by (split; [apply N.div_le_lower_bound|apply N.Div0.div_lt_upper_bound]; lia).
    decide_bytes. f_equal. pose proof (N.div_mod' c 64). lia.
  - assert (c / 4096 < 16) as Hd by (apply N.Div0.div_lt_upper_bound; lia).
    pose proof (N.div_mod' c 64). pose proof (N.div_mod' (c / 64) 64).
    rewrite N.Div0.div_div in *. change (64 * 64) with 4096 in *.
    pose proof (N.mod_lt c 64 ltac:(lia)). pose proof (N.mod_lt (c / 64) 64 ltac:(lia)).
    assert (second_of_three (224 + c / 4096) (128 + (c / 64) mod 64) = true) as ->.
    { unfold second_of_three. destruct (N.eqb_spec (224 + c / 4096) 224).
      - apply in_range_true. lia.
      - destruct (N.eqb_spec (224 + c / 4096) 237); [apply in_range_true; lia|apply continuation_byte]. }
    decide_bytes. f_equal. lia.
  - assert (c / 262144 < 5) as Hd by (apply N.Div0.div_lt_upper_bound; lia).
    pose proof (N.div_mod' c 64). pose proof (N.div_mod' (c / 64) 64).
    pose proof (N.div_mod' (c / 4096) 64). rewrite !N.Div0.div_div in *.
    change (64 * 64) with 4096 in *. change (4096 * 64) with 262144 in *.
    pose proof (N.mod_lt c 64 ltac:(lia)). pose proof (N.mod_lt (c / 64) 64 ltac:(lia)).
    pose proof (N.mod_lt (c / 4096) 64 ltac:(lia)).
    set (r0 := c mod 64) in *. set (r1 := (c / 64) mod 64) in *. set (r2 := (c / 4096) mod 64) in *.
    set (q3 := c / 262144) in *. set (q2 := c / 4096) in *. set (q1 := c / 64) in *.
    clearbody r0 r1 r2 q3 q2 q1.
    assert (second_of_four (240 + q3) (128 + r2) = true) as ->.
    { unfold second_of_four, is_continuation. destruct (N.eqb_spec (240 + q3) 240).
      - apply in_range_true. lia.
      - destruct (N.eqb_spec (240 + q3) 244); apply in_range_true; lia. }
    unfold is_continuation. decide_bytes. f_equal. lia.
Qed.

Lemma decode_replace_utf8 s : Forall (λ c, scalar c = true) s → decode_replace (utf8 s) = s.
Proof.
  induction 1 as [|c s Hc _ IH]; [done|]. unfold utf8 in *. cbn [map concat].
  by rewrite decode_replace_char, IH.
Qed.

Lemma utf8_bytes s : Forall (λ c, scalar c = true) s → Forall (λ b, b < 256) (utf8 s).
Proof.
  induction 1 as [|c s Hc _ IH]; [constructor|]. unfold utf8 in *. cbn [map concat].
  apply Forall_app. split; [|done].
  assert (c <= 1114111) as Hs.
  { unfold scalar in Hc. rewrite orb_true_iff, N.ltb_lt, in_range_true in Hc. lia. }
  assert (∀ x, 128 + x mod 64 < 256) as Hcont by (intros x; pose proof (N.mod_lt x 64 ltac:(done)); lia).
  unfold utf8_char. destruct (N.ltb_spec c 128); [by repeat constructor; lia|].
  destruct (N.ltb_spec c 2048); [|destruct (N.ltb_spec c 65536)]; repeat constructor; try apply Hcont.
  - assert (c / 64 < 32) by (apply N.Div0.div_lt_upper_bound; lia). lia.
  - assert (c / 4096 < 16) by (apply N.Div0.div_lt_upper_bound; lia). lia.
  - assert (c / 262144 < 5) by (apply N.Div0.div_lt_upper_bound; lia). lia.
Qed.

Lemma hex_value_upper d : d < 16 → hex_value (upper_hex d) = Some d.
Proof.
  intros Hd. unfold hex_value, upper_hex, is_digit. destruct (N.ltb_spec d 10); decide_bytes; f_equal; lia.
Qed.

Section quoting.
Context (safe : N → bool) (safe_percent : safe 37 = false).

Lemma unquote_quoted bytes rest :
  Forall (λ b, b < 256) bytes →
  unquote_to_bytes (concat (map (quote_byte safe) bytes) ++ rest) = bytes ++ unquote_to_bytes rest.
Proof.
  induction 1 as [|b bytes Hb _ IH]; [done|]. cbn [map concat]. rewrite <-app_assoc.
  unfold quote_byte at 1. destruct (safe b) eqn:Hs; cbn [app unquote_to_bytes].
  - destruct (N.eqb_spec b 37) as [->|Hne]; [congruence|]. by rewrite IH.
  - change (37 =? 37) with true. cbv iota.
    rewrite !hex_value_upper by lia. rewrite IH. f_equal. lia.
Qed.

(** The characters of quoted bytes. *)
Lemma quoted_chars (P : N → Prop) bytes :
  P 37 → (∀ d, d < 16 → P (upper_hex d)) → Forall (λ b, b < 256 ∧ (safe b = true → P b)) bytes →
  Forall P (concat (map (quote_byte safe) bytes)).
Proof.
  intros H37 Hhex. induction 1 as [|b bytes [Hb Hs] _ IH]; [constructor|]. cbn [map concat].
  apply Forall_app. split; [|done]. unfold quote_byte. destruct (safe b); [by repeat constructor; auto|].
  repeat constructor; [done|apply Hhex; lia..].
Qed.
End quoting.

Lemma unquote_ascii run s :
  Forall (λ c, c < 128) s → unquote_from run s = decode_replace (unquote_to_bytes (run ++ s)).
Proof.
  intros Hs. revert run. induction Hs as [|c s Hc _ IH]; intros run; cbn [unquote_from].
  - by rewrite app_nil_r.
  - rewrite (proj2 (N.ltb_lt _ _)) by done. by rewrite IH, <-app_assoc.
Qed.

Definition keeps_space (c : N) : bool := unreserved c || (c =? 32).

Lemma upper_hex_alnum d : d < 16 → is_digit (upper_hex d) = true ∨ is_upper (upper_hex d) = true.
Proof.
  intros Hd. unfold is_digit, is_upper, upper_hex. rewrite !in_range_true. destruct (N.ltb_spec d 10); lia.
Qed.

(** The characters an encoded query is made of, besides [&] and [=]. *)
Definition query_char (c : N) : bool := unreserved c || (c =? 37) || (c =? 43).

Lemma unreserved_ascii c : unreserved c = true → c < 128 ∧ c ≠ 37 ∧ c ≠ 43 ∧ c ≠ 38 ∧ c ≠ 61.
Proof.
  unfold unreserved, is_lower, is_upper, is_digit. rewrite !orb_true_iff, !in_range_true, !N.eqb_eq. lia.
Qed.

Lemma hex_query_char d : d < 16 → unreserved (upper_hex d) = true.
Proof. intros [H|H]%upper_hex_alnum; unfold unreserved; rewrite H, ?orb_true_r; done. Qed.

Lemma quote_plus_Some s t :
  quote_plus s = Some t →
  Forall (λ c, query_char c = true) t ∧ unquote_plus t = s.
Proof.
  unfold quote_plus, percent_quote. destruct (utf8_encode s) as [bytes|] eqn:He; [|done].
  intros [= <-]. apply utf8_encode_Some in He as [Hs ->].
  change (λ c, unreserved c || (c =? 32)) with keeps_space.
  set (q := concat (map (quote_byte keeps_space) (utf8 s))).
  assert (Forall (λ c, unreserved c = true ∨ c = 32 ∨ c = 37) q) as Hq.
  { apply quoted_chars; [by auto|intros d Hd; left; by apply hex_query_char|].
    eapply Forall_impl; [by apply utf8_bytes|]. intros b Hb. split; [done|]. unfold keeps_space.
    rewrite orb_true_iff, N.eqb_eq. tauto. }
  split.
  - apply Forall_map. eapply Forall_impl; [exact Hq|]. intros c Hc. unfold space_to_plus, query_char.
    destruct (N.eqb_spec c 32) as [->|Hne]; [done|].
    destruct Hc as [->|[->| ->]]; done.
  - unfold unquote_plus. assert (map plus_to_space (map space_to_plus q) = q) as ->.
    { rewrite map_map. rewrite <-(map_id q) at 2. apply map_ext_in. intros c Hc.
      rewrite Forall_forall in Hq. specialize (Hq c (proj2 (list_elem_of_In _ _) Hc)).
      unfold plus_to_space, space_to_plus. destruct (N.eqb_spec c 32) as [->|Hne]; [done|].
      destruct Hq as [Hq|[->| ->]]; [|done..]. apply unreserved_ascii in Hq. by decide_eqb. }
    unfold unquote. rewrite unquote_ascii.
    2:{ eapply Forall_impl; [exact Hq|]. intros c [Hc|[->| ->]]; [|lia..]. by apply unreserved_ascii in Hc as [? _]. }
    cbn [app]. rewrite <-(app_nil_r q). unfold q.
    rewrite unquote_quoted by (done || by apply utf8_bytes). cbn [unquote_to_bytes].
    rewrite app_nil_r. by apply decode_replace_utf8.
Qed.

Lemma query_char_has c t :
  Forall (λ c, query_char c = true) t → query_char c = false → has c t = false.
Proof.
  intros Ht Hc. induction Ht as [|d t Hd _ IH]; [done|]. cbn [has existsb].
  destruct (N.eqb_spec c d) as [->|]; [congruence|done].
Qed.

Lemma encode_pair_Some kv t :
  encode_pair kv = Some t →
  Forall (λ c, query_char c = true ∨ c = 61) t ∧ t ≠ [] ∧ parse_pair t = kv.
Proof.
  unfold encode_pair. destruct kv as [k v]. cbn [fst snd].
  destruct (quote_plus k) as [k'|] eqn:Hk; [|done]. destruct (quote_plus v) as [v'|] eqn:Hv; [|done].
  intros [= <-]. apply quote_plus_Some in Hk as [Hk1 Hk2], Hv as [Hv1 Hv2]. split_and!.
  - apply Forall_app. split; [eapply Forall_impl; [exact Hk1|auto]|constructor; [auto|]].
    eapply Forall_impl; [exact Hv1|auto].
  - by destruct k'.
  - unfold parse_pair. rewrite partition_app by (by eapply query_char_has).
    change (default [] (Some v')) with v'.
    by rewrite Hk2, Hv2.
Qed.

(** What [urlencode] writes, [parse_qsl] reads. *)
Lemma parse_qsl_urlencode items t :
  urlencode items = Some t →
  parse_qsl t = items ∧ Forall (λ c, query_char c = true ∨ c = 61 ∨ c = 38) t.
Proof.
  unfold urlencode. destruct (mapM encode_pair items) as [texts|] eqn:Hm; [|done]. intros [= <-].
  apply mapM_Some in Hm. unfold parse_qsl.
  assert (Forall (λ w, has 38 w = false) texts ∧ Forall (λ w, w ≠ []) texts ∧
    map parse_pair texts = items ∧
    Forall (λ w, Forall (λ c, query_char c = true ∨ c = 61) w) texts) as (H1 & H2 & H3 & H4).
  { induction Hm as [|kv w items texts Hw _ (IH1 & IH2 & IH3 & IH4)]; [by repeat constructor|].
    apply encode_pair_Some in Hw as (Hc & Hne & Hp). split_and!.
    - constructor; [|done]. clear -Hc. induction Hc as [|d w Hd _ IH]; [done|]. cbn [has existsb].
      destruct (N.eqb_spec 38 d) as [<-|]; [by destruct Hd|done].
    - by constructor.
    - cbn [map]. by rewrite Hp, IH3.
    - by constructor. }
  split.
  - destruct texts as [|w texts]; [by subst items|].
    rewrite split_on_join by done. rewrite <-H3. f_equal.
    clear -H2. induction H2 as [|x l Hx _ IH]; [done|]. cbn [List.filter].
    destruct x; [done|]. change (is_empty (n :: x)) with false. cbn [negb]. by rewrite IH.
  - clear -H4. induction H4 as [|w texts Hw H4 IH]; [constructor|]. cbn [join_with].
    assert (Forall (λ c, query_char c = true ∨ c = 61 ∨ c = 38) w) as Hw'
      by (eapply Forall_impl; [exact Hw|]; intros ? [?|?]; auto).
    destruct texts as [|w2 texts]; [done|]. apply Forall_app. split; [done|]. constructor; [auto|done].
Qed.
