(* ===== verification/Canonical.v ===== *)
(** * Canonical: canonical URLs.

    [scripts/news_pipeline/canonicalization.py].  [lower_text], [netloc_ok] and
    [casefold] stand for Unicode tables, [unicode_idna] for [str.encode("idna")]
    of a host that is not ASCII ([None] is [UnicodeError]).  An exception is a
    [ValueError] in every case. *)
From S2P Require Import Prelude Text Utf8 Ip Url Percent.
Local Open Scope N_scope.

Inductive url_error : Type := BadUrl.

Definition _TRACKING_NAMES : list str := map u ["fbclid"; "gclid"; "ref"; "ref_src"; "mc_cid"; "mc_eid"].

(** ** Paths *)

(** [posixpath.normpath] *)
Definition normpath_step (absolute : bool) (new_comps : list str) (comp : str) : list str :=
  if is_empty comp || bool_decide (comp = dot) then new_comps
  else if negb (bool_decide (comp = dots)) ||
          (negb absolute && (length new_comps =? 0)%nat) ||
          bool_decide (last new_comps = Some dots)
  then new_comps ++ [comp]
  else removelast new_comps.

Definition initial_slashes (path : str) : str :=
  if starts_with (u "//") path && negb (starts_with (u "///") path) then u "//"
  else if starts_with (u "/") path then u "/" else [].

Definition normpath (path : str) : str :=
  let absolute := starts_with (u "/") path in
  let new_comps := fold_left (normpath_step absolute) (split_on 47 path) [] in
  match initial_slashes path ++ join_with 47 new_comps with [] => dot | p => p end.

Definition _remove_dot_segments (path : str) : str :=
  match path with
  | [] => []
  | _ =>
      let leading_slash := starts_with (u "/") path in
      let trailing_slash := ends_with (u "/") path || ends_with (u "/.") path || ends_with (u "/..") path in
      let normalized := normpath path in
      let normalized := if bool_decide (normalized = dot) then [] else normalized in
      let normalized := if leading_slash && negb (starts_with (u "/") normalized)
                        then 47 :: normalized else normalized in
      if trailing_slash && negb (is_empty normalized) && negb (ends_with (u "/") normalized)
      then normalized ++ [47] else normalized
  end.

(** The characters [quote] keeps in a path. *)
Definition path_safe (c : N) : bool :=
  unreserved c || bool_decide (c ∈ u "/%:@!$&'()*+,;=-._~").

(** ** Queries *)

(** Python compares tuples element by element. *)
Definition pair_leb (p q : str * str) : bool :=
  str_ltb p.1 q.1 || (bool_decide (p.1 = q.1) && str_leb p.2 q.2).
Definition pair_le (p q : str * str) : Prop := pair_leb p q = true.
#[export] Instance pair_le_dec : RelDecision pair_le.
Proof. intros p q. unfold pair_le. apply _. Defined.

Section canonical.
Context (lower_text casefold : str → str) (netloc_ok : str → bool) (unicode_idna : str → option str).

Definition is_tracking (key : str) : bool :=
  let lowered := lower_text key in
  starts_with (u "utm_") lowered || bool_decide (lowered ∈ _TRACKING_NAMES).

Definition query_items (query : str) : list (str * str) :=
  merge_sort pair_le (List.filter (λ kv, negb (is_tracking kv.1)) (parse_qsl query)).

(** ** Hosts *)

Definition is_ascii (s : str) : bool := forallb (λ c, c <? 128) s.

(** [host.encode("idna").decode("ascii")]; an ASCII host is only checked. *)
Definition idna_labels_ok (s : str) : bool :=
  let labels := split_on 46 s in
  forallb (λ l, (0 <? length l)%nat && (length l <? 64)%nat) (removelast labels) &&
  (length (default [] (last labels)) <? 64)%nat.
Definition encode_idna (host : str) : option str :=
  if is_ascii host then if idna_labels_ok host then Some host else None else unicode_idna host.

(** [s.rstrip(".")] *)
Fixpoint rstrip_dots (s : str) : str :=
  match s with
  | [] => []
  | c :: s' => match rstrip_dots s' with [] => if c =? 46 then [] else [c] | t => c :: t end
  end.

Definition default_port (scheme : str) (port : N) : bool :=
  (bool_decide (scheme = u "http") && (port =? 80)) || (bool_decide (scheme = u "https") && (port =? 443)).

(** The network location: host, brackets, port. *)
Definition canonical_netloc (scheme host : str) (port : option N) : str :=
  let host := if has 58 host && negb (starts_with (u "[") host) then 91 :: host ++ [93] else host in
  match port with
  | Some p => if default_port scheme p then host else host ++ 58 :: dec_of_N p
  | None => host
  end.

(** [None] and the empty text have no canonical URL. *)
Definition canonicalize_text (url : str) : result url_error str :=
  parsed ← of_option BadUrl (urlsplit netloc_ok url []);
  let scheme := lower_text (scheme parsed) in
  _ ← raise_if (negb (bool_decide (scheme ∈ map u ["http"; "https"]))) BadUrl;
  hostname ← match hostname lower_text parsed with
             | None | Some [] => Err BadUrl
             | Some h => Ok h
             end;
  host ← of_option BadUrl (encode_idna (rstrip_dots (lower_text hostname)));
  _ ← raise_if (is_empty host) BadUrl;
  port ← of_option BadUrl (port parsed);
  _ ← raise_if (has 64 (netloc parsed)) BadUrl;
  path ← of_option BadUrl (percent_quote path_safe (_remove_dot_segments (path parsed)));
  query ← of_option BadUrl (urlencode (query_items (query parsed)));
  Ok (urlunsplit (mk_split scheme (canonical_netloc scheme host port) path query [])).

Definition canonicalize_url (url : option str) : result url_error (option str) :=
  match url with
  | None | Some [] => Ok None
  | Some url => Some <$> canonicalize_text url
  end.

(** ** Routes that are no articles *)

Definition _INDEX_BASENAMES : list str := map u ["index"; "index.htm"; "index.html"; "index.php"].
Definition _HOME_PATHS : list str := map u ["/home"; "/home/"].

(** The reason, if any, for the path of a canonical URL. *)
Definition path_reason (path : str) : option str :=
  let path := match path with [] => u "/" | p => p end in
  if bool_decide (path = u "/" ∨ path ∈ _HOME_PATHS) then Some (u "home_page")
  else
    let segments := map casefold (List.filter (λ s, negb (is_empty s)) (split_on 47 path)) in
    match head segments with
    | Some first =>
        if bool_decide (first ∈ map u ["search"; "tag"; "tags"])
        then Some (if bool_decide (first = u "tags") then u "tag_page" else first ++ u "_page")
        else if bool_decide (default [] (last segments) ∈ _INDEX_BASENAMES)
        then Some (u "index_page") else None
    | None => None
    end.

Definition non_article_url_reason (url : option str) : result url_error (option str) :=
  canonical ← canonicalize_url url;
  match canonical with
  | None => Ok (Some (u "missing_url"))
  | Some canonical =>
      parsed ← of_option BadUrl (urlsplit netloc_ok canonical []);
      Ok (path_reason (path parsed))
  end.
End canonical.

Example canonical_examples :
  map (λ t, canonicalize_url lower (λ _, true) (λ _, None) (Some (u t)))
    ["HTTP://Www.Example.org.:80/a/./b/../c d/?utm_source=x&b=2&a=%7e&Ref=1#f"; "https://h:0443"; "ftp://h/";
     "http://u@h/"; "http://h//../x?q"; "http://a..b/"] =
  [Ok (Some (u "http://www.example.org/a/c%20d/?a=~&b=2")); Ok (Some (u "https://h")); Err BadUrl;
   Err BadUrl; Ok (Some (u "http://h//x?q=")); Err BadUrl].
Proof. vm_compute. reflexivity. Qed.
