(* ===== verification/CanonicalFacts.v ===== *)
(** * CanonicalFacts: what a canonical URL is.

    Canonicalising is idempotent where the host is a plain name, so the canonical
    text can serve as the identity of an article; it has no tracking parameter, no
    dot segment, no fragment, no default port and no credentials.  Hosts that
    IDNA maps to unusual texts escape it. *)
From S2P Require Import Prelude Text Utf8 Ip Url Percent Canonical.
Local Open Scope N_scope.

(** ** Normal paths *)

(** A path component that [normpath] keeps. *)
Definition plain_comp (c : str) : Prop := c ≠ [] ∧ c ≠ dot ∧ c ≠ dots ∧ has 47 c = false.

Definition normal_form (slashes : str) (comps : list str) (trailing : bool) : str :=
  slashes ++ join_with 47 comps ++ (if trailing then [47] else []).

Inductive normal_path : str → Prop :=
  | normal_empty : normal_path []
  | normal_comps slashes comps trailing :
      slashes = [47] ∨ slashes = [47; 47] → Forall plain_comp comps →
      (trailing = true → comps ≠ []) → normal_path (normal_form slashes comps trailing).

Lemma split_on_has sep s : Forall (λ w, has sep w = false) (split_on sep s).
Proof.
  induction s as [|c s IH]; cbn [split_on]; [by repeat constructor|].
  destruct (N.eqb_spec c sep) as [->|Hne]; [by constructor|].
  destruct (split_on sep s) as [|w ws]; [constructor; [|constructor]|inversion IH; subst; constructor; [|done]];
    cbn [has existsb]; rewrite N.eqb_sym, (proj2 (N.eqb_neq c sep)) by done; done.
Qed.

Lemma plain_step comps comp :
  Forall plain_comp comps → has 47 comp = false → Forall plain_comp (normpath_step true comps comp).
Proof.
  intros Hc Hh. unfold normpath_step.
  destruct comp as [|x comp]; [done|]. change (is_empty (x :: comp)) with false. cbn [orb].
  case_bool_decide as Hdot; [done|]. cbn [negb andb orb]. case_bool_decide as Hdots; cbn [negb orb].
  - case_bool_decide as Hlast.
    + exfalso. apply last_Some_elem_of in Hlast. rewrite Forall_forall in Hc.
      apply Hc in Hlast as (_ & _ & Hd & _). by apply Hd.
    + apply Forall_forall. intros c Hin. rewrite Forall_forall in Hc. apply Hc.
      destruct comps as [|y l] using rev_ind; [by apply Hin|]. rewrite removelast_last in Hin.
      apply elem_of_app. by left.
  - apply Forall_app. split; [done|]. constructor; [|constructor]. done.
Qed.

Lemma plain_fold l comps :
  Forall plain_comp comps → Forall (λ w, has 47 w = false) l →
  Forall plain_comp (fold_left (normpath_step true) l comps).
Proof.
  revert comps. induction l as [|w l IH]; intros comps Hc Hl; cbn [fold_left]; [done|].
  apply Forall_cons_1 in Hl as [Hw Hl]. apply IH; [|done]. by apply plain_step.
Qed.

(** Plain components go through the loop; empty ones are skipped. *)
Lemma fold_plain l comps :
  Forall (λ w, w = [] ∨ plain_comp w) l →
  fold_left (normpath_step true) l comps = comps ++ List.filter (λ w, negb (is_empty w)) l.
Proof.
  revert comps. induction l as [|w l IH]; intros comps Hl; cbn [fold_left List.filter].
  - by rewrite app_nil_r.
  - apply Forall_cons_1 in Hl as [Hw Hl]. rewrite IH by done. destruct w as [|x w]; [done|].
    destruct Hw as [|(_ & Hd & Hds & _)]; [done|]. change (is_empty (x :: w)) with false.
    unfold normpath_step. change (is_empty (x :: w)) with false. cbn [orb negb].
    rewrite !bool_decide_eq_false_2 by done. cbn [orb negb andb]. by rewrite <-app_assoc.
Qed.

Lemma ends_slash s : ends_with (u "/") s = bool_decide (last s = Some 47).
Proof.
  unfold ends_with. change (reverse (u "/")) with [47].
  destruct s as [|x s _] using rev_ind; [done|]. rewrite reverse_snoc, last_snoc. cbn [starts_with].
  rewrite andb_true_r. destruct (N.eqb_spec 47 x) as [->|Hne]; case_bool_decide; congruence.
Qed.

Lemma last_app_nonempty {A} (a b : list A) : b ≠ [] → last (a ++ b) = last b.
Proof. destruct b as [|x b _] using rev_ind; [done|]. intros _. by rewrite app_assoc, !last_snoc. Qed.

(** The last component ends the joined text. *)
Lemma join_with_snoc sep l w :
  join_with sep (l ++ [w]) = match l with [] => w | _ => join_with sep l ++ sep :: w end.
Proof.
  induction l as [|x l IH]; [done|]. cbn [app join_with]. destruct l as [|y l]; [done|].
  cbn [app] in *. rewrite IH. cbn [join_with]. by rewrite <-app_assoc.
Qed.

Lemma has_last c s : has c s = false → last s ≠ Some c.
Proof.
  intros Hh Hl. apply last_Some_elem_of in Hl. induction s as [|d s IH]; [inversion Hl|].
  cbn [has existsb] in Hh. apply orb_false_iff in Hh as [Hd Hh]. apply N.eqb_neq in Hd.
  apply elem_of_cons in Hl as [->|Hl]; [done|]. by apply IH.
Qed.

Lemma last_joined slashes comps :
  Forall plain_comp comps → comps ≠ [] →
  last (slashes ++ join_with 47 comps) ≠ Some 47.
Proof.
  intros Hc Hne. destruct comps as [|w l _] using rev_ind; [done|].
  apply Forall_app in Hc as [_ (Hw & _ & _ & Hh)%Forall_cons_1%proj1].
  rewrite join_with_snoc. destruct l as [|x l].
  - rewrite last_app_nonempty by done. by apply has_last.
  - rewrite app_assoc, last_app_nonempty by done.
    change (47 :: w) with ([47] ++ w). rewrite last_app_nonempty by done. by apply has_last.
Qed.

Lemma initial_cases p :
  starts_with (u "/") p = true → initial_slashes p = [47] ∨ initial_slashes p = [47; 47].
Proof. intros H. unfold initial_slashes. rewrite H. destruct (_ && _); auto. Qed.

Lemma normpath_absolute p :
  starts_with (u "/") p = true →
  ∃ slashes comps, (slashes = [47] ∨ slashes = [47; 47]) ∧ Forall plain_comp comps ∧
    normpath p = slashes ++ join_with 47 comps.
Proof.
  intros Hp. unfold normpath. rewrite Hp.
  exists (initial_slashes p), (fold_left (normpath_step true) (split_on 47 p) []).
  split; [by apply initial_cases|]. split.
  - apply plain_fold; [constructor|apply split_on_has].
  - destruct (initial_cases p Hp) as [-> | ->]; done.
Qed.

Lemma remove_dot_segments_normal p :
  starts_with (u "/") p = true → normal_path (_remove_dot_segments p).
Proof.
  intros Hp. destruct (normpath_absolute p Hp) as (sl & comps & Hsl & Hc & Hn).
  destruct p as [|c p]; [done|]. unfold _remove_dot_segments. rewrite Hp, Hn.
  assert (starts_with (u "/") (sl ++ join_with 47 comps) = true) as Hst by by destruct Hsl as [-> | ->].
  rewrite bool_decide_eq_false_2 by (by destruct Hsl as [-> | ->]). rewrite Hst. cbn [negb andb].
  assert (is_empty (sl ++ join_with 47 comps) = false) as -> by by destruct Hsl as [-> | ->].
  rewrite andb_true_r, (ends_slash (sl ++ _)).
  match goal with |- context [?t && _] => destruct t end; cbn [andb].
  - case_bool_decide as Hl; cbn [negb].
    + rewrite <-(app_nil_r (sl ++ _)), <-app_assoc. by apply (normal_comps sl comps false).
    + rewrite <-app_assoc. apply (normal_comps sl comps true); [done|done|]. intros _ ->. apply Hl.
      by destruct Hsl as [-> | ->].
  - rewrite <-(app_nil_r (sl ++ _)), <-app_assoc. by apply (normal_comps sl comps false).
Qed.

Lemma initial_slashes_eq p :
  initial_slashes p =
    if starts_with [47; 47] p && negb (starts_with [47; 47; 47] p) then [47; 47]
    else if starts_with [47] p then [47] else [].
Proof. done. Qed.

(** The first component does not add to the slashes. *)
Lemma initial_normal sl comps trailing :
  sl = [47] ∨ sl = [47; 47] → Forall plain_comp comps → (trailing = true → comps ≠ []) →
  initial_slashes (normal_form sl comps trailing) = sl ∧
  starts_with (u "/") (normal_form sl comps trailing) = true.
Proof.
  intros Hsl Hc Ht. unfold normal_form.
  assert (∀ y, (match join_with 47 comps ++ (if trailing then [47] else []) with [] => True | x :: _ => x ≠ 47 end) ∨ y)
    as Hhead.
  { left. destruct comps as [|w l]; [by destruct trailing; [destruct Ht|]|].
    apply Forall_cons_1 in Hc as [(Hne & _ & _ & Hh) _]. destruct w as [|x w]; [done|].
    cbn [has existsb] in Hh. apply orb_false_iff in Hh as [Hx%N.eqb_neq _].
    cbn [join_with]. destruct l; cbn [app]; intros ->; by apply Hx. }
  destruct (Hhead False) as [Hh|[]]. clear Hhead.
  destruct (join_with 47 comps ++ _) as [|x rest].
  - by destruct Hsl as [-> | ->].
  - change (u "/") with [47]. rewrite initial_slashes_eq.
    destruct Hsl as [-> | ->]; cbn [app starts_with]; rewrite ?N.eqb_refl;
      rewrite (proj2 (N.eqb_neq 47 x)) by congruence; done.
Qed.

Lemma split_on_slash s : split_on 47 (47 :: s) = [] :: split_on 47 s.
Proof. done. Qed.

Lemma split_on_nonempty sep s : split_on sep s ≠ [].
Proof. destruct s as [|c s]; [done|]. cbn [split_on]. destruct (c =? sep); [done|]. by destruct (split_on sep s). Qed.

Lemma split_on_snoc s : split_on 47 (s ++ [47]) = split_on 47 s ++ [[]].
Proof.
  induction s as [|c s IH]; [done|]. cbn [app split_on]. rewrite IH.
  destruct (c =? 47); [done|]. pose proof (split_on_nonempty 47 s). by destruct (split_on 47 s).
Qed.

Lemma filter_plain comps :
  Forall plain_comp comps → List.filter (λ w, negb (is_empty w)) comps = comps.
Proof.
  induction 1 as [|w l (Hw & _) _ IH]; [done|]. cbn [List.filter]. destruct w; [done|].
  change (is_empty (n :: w)) with false. cbn [negb]. by rewrite IH.
Qed.

Lemma fold_normal sl comps trailing :
  sl = [47] ∨ sl = [47; 47] → Forall plain_comp comps → (trailing = true → comps ≠ []) →
  fold_left (normpath_step true) (split_on 47 (normal_form sl comps trailing)) [] = comps.
Proof.
  intros Hsl Hc Ht. set (parts := match comps with [] => [[]] | _ => comps end).
  assert (split_on 47 (join_with 47 comps) = parts) as Hparts.
  { unfold parts. destruct comps; [done|]. apply split_on_join; [done|].
    eapply Forall_impl; [exact Hc|]. by intros w (_ & _ & _ & ?). }
  assert (split_on 47 (join_with 47 comps ++ (if trailing then [47] else [])) =
    parts ++ (if trailing then [[]] else [])) as Hall.
  { destruct trailing; [by rewrite split_on_snoc, Hparts|by rewrite !app_nil_r]. }
  assert (Forall (λ w, w = [] ∨ plain_comp w) comps) as Hc' by (eapply Forall_impl; [exact Hc|auto]).
  assert (Forall (λ w, w = [] ∨ plain_comp w) parts ∧
    List.filter (λ w, negb (is_empty w)) parts = comps) as [Hp Hf].
  { unfold parts. destruct comps; [by repeat constructor; auto|]. split; [done|by apply filter_plain]. }
  assert (∀ pre, Forall (λ w, w = []) pre →
    fold_left (normpath_step true) (pre ++ parts ++ (if trailing then [[]] else [])) [] = comps) as Hfold.
  { intros pre Hpre. rewrite fold_plain.
    - cbn [app]. rewrite !List.filter_app, Hf.
      assert (List.filter (λ w, negb (is_empty w)) pre = []) as ->
        by (clear -Hpre; induction Hpre as [|w l -> _ IH]; [done|exact IH]).
      destruct trailing; by rewrite app_nil_r.
    - apply Forall_app. split; [eapply Forall_impl; [exact Hpre|auto]|].
      apply Forall_app. split; [done|]. destruct trailing; repeat constructor. }
  unfold normal_form. destruct Hsl as [-> | ->]; cbn [app].
  - rewrite split_on_slash, Hall. by apply (Hfold [[]]); repeat constructor.
  - rewrite !split_on_slash, Hall. by apply (Hfold [[]; []]); repeat constructor.
Qed.

(** The last component is no dot segment. *)
Lemma ends_dots sl comps :
  sl = [47] ∨ sl = [47; 47] → Forall plain_comp comps → comps ≠ [] →
  ends_with (u "/.") (sl ++ join_with 47 comps) = false ∧
  ends_with (u "/..") (sl ++ join_with 47 comps) = false.
Proof.
  intros Hsl Hc Hne. destruct comps as [|w l _] using rev_ind; [done|].
  apply Forall_app in Hc as [_ (Hw & Hd & Hds & Hh)%Forall_cons_1%proj1].
  assert (∃ y, sl ++ join_with 47 (l ++ [w]) = y ++ 47 :: w) as (y & ->).
  { rewrite join_with_snoc. destruct l as [|x l].
    - destruct Hsl as [-> | ->]; [by exists []|by exists [47]].
    - exists (sl ++ join_with 47 (x :: l)). by rewrite <-app_assoc. }
  assert (has 47 (reverse w) = false) as Hr.
  { destruct (has 47 (reverse w)) eqn:Hx; [|done]. unfold has in *. apply existsb_exists in Hx as (c & Hc & He).
    apply N.eqb_eq in He as <-. assert (existsb (N.eqb 47) w = true); [|congruence].
    apply existsb_exists. exists 47. split; [|done]. apply list_elem_of_In. apply list_elem_of_In in Hc.
    by rewrite reverse_Permutation in Hc. }
  unfold ends_with. rewrite reverse_app, reverse_cons.
  change (reverse (u "/.")) with [46; 47]. change (reverse (u "/..")) with [46; 46; 47].
  destruct (reverse w) as [|a [|b [|c r]]] eqn:Hrev; apply (f_equal reverse) in Hrev;
    rewrite reverse_involutive in Hrev; cbn in Hrev; subst w; [done|..]; cbn [app starts_with has existsb] in *.
  - split; [|destruct (46 =? a); done]. destruct (N.eqb_spec 46 a) as [<-|]; [|done]. by destruct Hd.
  - apply orb_false_iff in Hr as [Ha [Hb _]%orb_false_iff]. rewrite Hb, andb_false_r.
    split; [done|]. destruct (N.eqb_spec 46 a) as [<-|]; [|done].
    destruct (N.eqb_spec 46 b) as [<-|]; [|done]. by destruct Hds.
  - apply orb_false_iff in Hr as [Ha [Hb [Hc _]%orb_false_iff]%orb_false_iff].
    rewrite Hb, Hc, !andb_false_r. done.
Qed.

Lemma remove_dot_segments_stable x : normal_path x → _remove_dot_segments x = x.
Proof.
  intros [|sl comps trailing Hsl Hc Ht]; [done|].
  destruct (initial_normal sl comps trailing Hsl Hc Ht) as [Hinit Hst].
  pose proof (fold_normal sl comps trailing Hsl Hc Ht) as Hfold.
  unfold _remove_dot_segments. destruct (normal_form sl comps trailing) as [|x0 rest] eqn:Hx; [done|].
  assert (normpath (x0 :: rest) = sl ++ join_with 47 comps) as ->.
  { unfold normpath. rewrite Hst, Hinit, Hfold. by destruct Hsl as [-> | ->]. }
  rewrite bool_decide_eq_false_2 by (by destruct Hsl as [-> | ->]).
  assert (starts_with (u "/") (sl ++ join_with 47 comps) = true) as Hst2 by by destruct Hsl as [-> | ->].
  rewrite Hst, Hst2. cbn [negb andb].
  assert (is_empty (sl ++ join_with 47 comps) = false) as -> by by destruct Hsl as [-> | ->].
  rewrite andb_true_r, <-Hx, !ends_slash. unfold normal_form. rewrite app_assoc.
  destruct trailing; [|rewrite app_nil_r].
  - rewrite last_snoc. rewrite bool_decide_eq_true_2 by done. cbn [orb andb].
    rewrite bool_decide_eq_false_2 by (apply last_joined; auto). done.
  - destruct (decide (comps = [])) as [->|Hne].
    + rewrite app_nil_r. rewrite (bool_decide_eq_true_2 (last sl = Some 47)) by (by destruct Hsl as [-> | ->]).
      by rewrite andb_false_r.
    + rewrite bool_decide_eq_false_2 by (by apply last_joined).
      destruct (ends_dots sl comps Hsl Hc Hne) as [-> ->]. done.
Qed.

(** ** Quoting keeps a path normal *)

Definition quoted (x : str) : str := concat (map (quote_byte path_safe) (utf8 x)).

Lemma quoted_app a b : quoted (a ++ b) = quoted a ++ quoted b.
Proof. unfold quoted, utf8. by rewrite map_app, concat_app, map_app, concat_app. Qed.

Lemma quoted_join l : quoted (join_with 47 l) = join_with 47 (map quoted l).
Proof.
  induction l as [|w l IH]; [done|]. cbn [join_with map]. destruct l as [|w2 l]; [done|].
  rewrite quoted_app. change (47 :: join_with 47 (w2 :: l)) with ([47] ++ join_with 47 (w2 :: l)).
  by rewrite quoted_app, IH.
Qed.

Lemma utf8_char_bytes c b : b ∈ utf8_char c → b < 128 → b = c.
Proof.
  unfold utf8_char. intros Hb Hl. destruct (N.ltb_spec c 128); [by apply list_elem_of_singleton in Hb|].
  exfalso. assert (Forall (λ b, 128 <= b) (if c <? 2048 then [192 + c / 64; 128 + c mod 64]
    else if c <? 65536 then [224 + c / 4096; 128 + (c / 64) mod 64; 128 + c mod 64]
    else [240 + c / 262144; 128 + (c / 4096) mod 64; 128 + (c / 64) mod 64; 128 + c mod 64])) as Hall.
  { assert (∀ x y, 128 <= x → 128 <= x + y) by (intros x y; lia).
    repeat (destruct (_ <? _)); repeat constructor; match goal with H : _ |- _ => by apply H end. }
  rewrite Forall_forall in Hall. apply Hall in Hb. lia.
Qed.

Lemma utf8_bytes_low w b : b ∈ utf8 w → b < 128 → b ∈ w.
Proof.
  unfold utf8. induction w as [|c w IH]; cbn [map concat]; [intros H; inversion H|].
  rewrite elem_of_app, elem_of_cons. intros [Hb|Hb] Hl; [left; by eapply utf8_char_bytes|auto].
Qed.

Lemma utf8_low w : Forall (λ b, b < 128) (utf8 w) → utf8 w = w.
Proof.
  unfold utf8. induction w as [|c w IH]; cbn [map concat]; [done|].
  intros [Hc Hw]%Forall_app. rewrite IH by done.
  destruct (N.ltb_spec c 128) as [Hlt|Hge].
  { unfold utf8_char. by rewrite (proj2 (N.ltb_lt _ _)). }
  exfalso.
  destruct (utf8_char c) as [|b bs] eqn:Hb.
  - unfold utf8_char in Hb. by repeat (destruct (_ <? _)).
  - apply Forall_cons_1 in Hc as [Hlt _]. assert (b = c) as ->; [|lia].
    apply utf8_char_bytes; [rewrite Hb; by left|done].
Qed.

Lemma utf8_ascii w : Forall (λ b, b < 128) w → utf8 w = w.
Proof.
  unfold utf8. induction 1 as [|c w Hc _ IH]; cbn [map concat]; [done|].
  rewrite IH. unfold utf8_char. by rewrite (proj2 (N.ltb_lt _ _)) by done.
Qed.

Lemma upper_hex_range d : d < 16 → 48 <= upper_hex d < 71 ∧ upper_hex d ≠ 47 ∧ upper_hex d ≠ 46.
Proof. intros Hd. unfold upper_hex. destruct (N.ltb_spec d 10); lia. Qed.

Lemma path_safe_ascii c : path_safe c = true → 32 < c < 127 ∧ c ≠ 63 ∧ c ≠ 35 ∧ c ≠ 91 ∧ c ≠ 93.
Proof.
  unfold path_safe. intros [H|H]%orb_true_iff.
  - unfold unreserved, is_lower, is_upper, is_digit in H.
    rewrite !orb_true_iff, !in_range_true, !N.eqb_eq in H. lia.
  - apply bool_decide_eq_true in H. cbn [u] in H.
    repeat (apply elem_of_cons in H as [->|H]; [repeat split; try (by vm_compute); discriminate|]). inversion H.
Qed.

Lemma path_safe_hex d : d < 16 → path_safe (upper_hex d) = true.
Proof.
  intros Hd. unfold path_safe. by rewrite (hex_query_char d Hd).
Qed.

Lemma quoted_safe x : Forall (λ c, scalar c = true) x → Forall (λ c, path_safe c = true) (quoted x).
Proof.
  intros Hx. apply (quoted_chars path_safe); [done|apply path_safe_hex|].
  eapply Forall_impl; [by apply utf8_bytes|]. auto.
Qed.

Lemma quoted_no_slash w : has 47 w = false → has 47 (quoted w) = false.
Proof.
  intros Hw. unfold quoted. assert (47 ∉ utf8 w) as Hn.
  { intros Hin%utf8_bytes_low; [|done]. assert (existsb (N.eqb 47) w = true); [|unfold has in Hw; congruence].
    apply existsb_exists. exists 47. split; [by apply list_elem_of_In|done]. }
  induction (utf8 w) as [|b bs IH]; [done|]. apply not_elem_of_cons in Hn as [Hb Hn].
  cbn [map concat]. rewrite has_app, IH by done. rewrite orb_false_r. unfold quote_byte.
  destruct (path_safe b); cbn [has existsb].
  - rewrite (proj2 (N.eqb_neq 47 b)) by congruence. done.
  - assert (∀ d, (47 =? upper_hex d) = false) as Hd.
    { intros d. apply N.eqb_neq. unfold upper_hex. destruct (d <? 10); lia. }
    by rewrite !Hd.
Qed.

Lemma quoted_dots w : Forall (λ c, c = 46) (quoted w) → quoted w = w.
Proof.
  intros H. assert (quoted w = utf8 w) as Hq.
  { unfold quoted in *. induction (utf8 w) as [|b bs IH]; [done|]. cbn [map concat] in *.
    apply Forall_app in H as [Hb Hbs]. rewrite IH by done. unfold quote_byte in *.
    destruct (path_safe b); [done|]. apply Forall_cons_1 in Hb as [Hb _]. done. }
  rewrite Hq in *. apply utf8_low. eapply Forall_impl; [exact H|]. intros c ->. done.
Qed.

Lemma quoted_plain w : plain_comp w → plain_comp (quoted w).
Proof.
  intros (Hne & Hd & Hds & Hh). split_and!.
  - destruct w as [|c w]; [done|]. change (c :: w) with ([c] ++ w). rewrite quoted_app.
    assert (utf8_char c ≠ []) as Hc by (unfold utf8_char; repeat (destruct (_ <? _)); done).
    unfold quoted, utf8. cbn [map concat]. rewrite app_nil_r.
    destruct (utf8_char c) as [|b bs]; [done|]. cbn [map concat]. unfold quote_byte. by destruct (path_safe b).
  - intros H. rewrite <-(quoted_dots w) in Hd by (rewrite H; by repeat constructor). by apply Hd.
  - intros H. rewrite <-(quoted_dots w) in Hds by (rewrite H; by repeat constructor). by apply Hds.
  - by apply quoted_no_slash.
Qed.

Lemma quoted_normal x : normal_path x → normal_path (quoted x).
Proof.
  intros [|sl comps trailing Hsl Hc Ht]; [constructor|]. unfold normal_form.
  rewrite !quoted_app, quoted_join.
  assert (quoted sl = sl) as -> by by destruct Hsl as [-> | ->].
  assert (quoted (if trailing then [47] else []) = if trailing then [47] else []) as -> by by destruct trailing.
  apply (normal_comps sl (map quoted comps) trailing); [done| |].
  - apply Forall_map. eapply Forall_impl; [exact Hc|]. apply quoted_plain.
  - intros Htr Hm. by apply map_eq_nil, (Ht Htr) in Hm.
Qed.

(** What is quoted once stays as it is. *)
Lemma quote_stable q :
  Forall (λ c, path_safe c = true) q → percent_quote path_safe q = Some q.
Proof.
  intros Hq. assert (Forall (λ c, c < 128) q) as Ha
    by (eapply Forall_impl; [exact Hq|]; intros c Hc%path_safe_ascii; cbv beta; lia).
  unfold percent_quote. assert (utf8_encode q = Some q) as ->.
  { apply utf8_encode_Some. split; [|by rewrite utf8_ascii].
    eapply Forall_impl; [exact Ha|]. intros c Hc. unfold scalar. apply orb_true_iff. left. apply N.ltb_lt. cbv beta in Hc.
    etrans; [exact Hc|]. done. }
  cbn. f_equal. clear Ha. induction Hq as [|c q Hc _ IH]; [done|]. cbn [map concat].
  unfold quote_byte at 1. rewrite Hc. cbn [app]. by rewrite IH.
Qed.

(** ** Hosts *)

Definition host_char (c : N) : bool :=
  negb (ends_netloc c) && negb (unsafe_byte c) && negb (c =? 64) && negb (c =? 58) &&
  negb (c =? 91) && negb (c =? 93).

(** A host name as IDNA gives it for a plain name. *)
Record proper_host (h : str) : Prop := {
  proper_nonempty : h ≠ [];
  proper_ascii : is_ascii h = true;
  proper_lower : lower h = h;
  proper_end : rstrip_dots h = h;
  proper_labels : idna_labels_ok h = true;
  proper_chars : Forall (λ c, host_char c = true) h }.

Definition port_text (port : option N) : str :=
  match port with Some p => 58 :: dec_of_N p | None => [] end.

Definition explicit_port (scheme : str) (port : option N) : option N :=
  match port with Some p => if default_port scheme p then None else Some p | None => None end.

Lemma has_Forall c s (P : N → Prop) : Forall P s → ¬ P c → has c s = false.
Proof.
  intros Hs Hc. induction Hs as [|d s Hd _ IH]; [done|]. cbn [has existsb].
  rewrite (proj2 (N.eqb_neq c d)) by (intros ->; done). done.
Qed.

Lemma has_host c h : proper_host h → host_char c = false → has c h = false.
Proof. intros Hh Hc. eapply has_Forall; [apply Hh|]. cbv beta. congruence. Qed.

Lemma canonical_netloc_proper scheme h port :
  proper_host h → canonical_netloc scheme h port = h ++ port_text (explicit_port scheme port).
Proof.
  intros Hh. unfold canonical_netloc, explicit_port, port_text. rewrite (has_host 58 h) by done. cbn [andb].
  destruct port as [p|]; [destruct (default_port scheme p)|]; by rewrite ?app_nil_r.
Qed.

Lemma after_last_absent sep s : has sep s = false → after_last sep s = s.
Proof.
  destruct s as [|c s]; [done|]. cbn [has existsb]. intros [Hc Hs]%orb_false_iff. cbn [after_last].
  by rewrite Hs, N.eqb_sym, Hc.
Qed.

Lemma digit_host c : is_digit c = true → host_char c = true.
Proof.
  unfold is_digit. rewrite in_range_true. intros Hc.
  unfold host_char, ends_netloc, unsafe_byte. rewrite !(proj2 (N.eqb_neq _ _)) by lia. done.
Qed.

Lemma lower_split h c : lower h = h → lower (partition c h).1 = (partition c h).1.
Proof.
  intros Hl. destruct (partition c h) as [a b] eqn:Hp. apply partition_parts in Hp as [_ ->].
  unfold lower in Hl. rewrite map_app in Hl. apply app_inj_1 in Hl as [? _]; [done|]. by rewrite length_map.
Qed.

Lemma is_ascii_app a b : is_ascii (a ++ b) = is_ascii a && is_ascii b.
Proof. apply forallb_app. Qed.

(** ** Queries *)

#[export] Instance pair_le_trans : Transitive pair_le.
Proof.
  intros [a1 a2] [b1 b2] [c1 c2]. unfold pair_le, pair_leb. cbn [fst snd].
  rewrite !orb_true_iff, !andb_true_iff, !bool_decide_eq_true.
  intros [Ha|[-> Ha]] [Hb|[-> Hb]]; eauto using str_ltb_trans, str_leb_trans.
Qed.
#[export] Instance pair_le_total : Total pair_le.
Proof.
  intros [a1 a2] [b1 b2]. unfold pair_le, pair_leb. cbn [fst snd].
  rewrite !orb_true_iff, !andb_true_iff, !bool_decide_eq_true.
  destruct (str_ltb a1 b1) eqn:Hab; [by left; left|]. destruct (str_ltb b1 a1) eqn:Hba; [by right; left|].
  pose proof (str_ltb_antisym a1 b1 Hab Hba) as ->.
  destruct (str_leb_total a2 b2); [left|right]; by right.
Qed.
#[export] Instance pair_le_antisymm : AntiSymm (=) pair_le.
Proof.
  intros [a1 a2] [b1 b2]. unfold pair_le, pair_leb. cbn [fst snd].
  rewrite !orb_true_iff, !andb_true_iff, !bool_decide_eq_true.
  intros [Ha|[-> Ha]] [Hb|[Heq Hb]]; subst.
  - apply str_ltb_asym in Ha. congruence.
  - by rewrite str_ltb_irrefl in Ha.
  - by rewrite str_ltb_irrefl in Hb.
  - f_equal. unfold str_leb in *. rewrite !negb_true_iff in *. by apply str_ltb_antisym.
Qed.

Lemma merge_sort_sorted l : StronglySorted pair_le l → merge_sort pair_le l = l.
Proof.
  intros Hl. apply (StronglySorted_unique pair_le); [apply (StronglySorted_merge_sort pair_le)|done|].
  apply merge_sort_Permutation.
Qed.

Lemma query_items_sorted lower_text query : StronglySorted pair_le (query_items lower_text query).
Proof. apply (StronglySorted_merge_sort pair_le). Qed.

Lemma query_items_In lower_text query kv :
  kv ∈ query_items lower_text query ↔ kv ∈ parse_qsl query ∧ is_tracking lower_text kv.1 = false.
Proof.
  unfold query_items. rewrite merge_sort_Permutation, !list_elem_of_In, List.filter_In.
  by rewrite negb_true_iff.
Qed.

(** The items of the text that is written are the items. *)
Lemma query_items_stable lower_text query t :
  urlencode (query_items lower_text query) = Some t → query_items lower_text t = query_items lower_text query.
Proof.
  intros [Hp _]%parse_qsl_urlencode. unfold query_items at 1. rewrite Hp.
  rewrite (List.forallb_filter_id _ (query_items _ _)).
  - apply merge_sort_sorted, query_items_sorted.
  - apply forallb_forall. intros kv Hkv%list_elem_of_In%query_items_In. by rewrite (proj2 Hkv).
Qed.

Section facts.
Context (lower_text : str → str) (netloc_ok : str → bool) (unicode_idna : str → option str).

(** [str.lower] on ASCII texts; an ASCII network location without a bracketed
    address is not checked. *)
Hypothesis lower_ascii : ∀ s, is_ascii s = true → lower_text s = lower s.
Hypothesis netloc_plain : ∀ n, is_ascii n = true → has 91 n = false → netloc_ok n = true.

Abbreviation hostname := (hostname lower_text).
Abbreviation urlsplit := (urlsplit netloc_ok).
Abbreviation encode_idna := (encode_idna unicode_idna).
Abbreviation canonicalize_text := (canonicalize_text lower_text netloc_ok unicode_idna).

Lemma reparse scheme h port q t :
  web_scheme scheme → proper_host h → (∀ p, port = Some p → p <= 65535) →
  normal_path q → Forall (λ c, path_safe c = true) q →
  Forall (λ c, query_char c = true ∨ c = 61 ∨ c = 38) t →
  let p := mk_split scheme (h ++ port_text port) q t [] in
  urlsplit (urlunsplit p) [] = Some p ∧ hostname p = Some h ∧ Url.port p = Some port ∧
  has 64 (netloc p) = false.
Proof.
  intros Hs Hh Hport Hq Hqc Ht p.
  assert (Forall (λ c, host_char c = true ∨ c = 58) (h ++ port_text port)) as Hchars.
  { apply Forall_app. split; [eapply Forall_impl; [apply Hh|auto]|]. destruct port as [n|]; [|constructor].
    constructor; [auto|]. eapply Forall_impl; [apply dec_of_N_digits|]. intros c Hc. left. by apply digit_host. }
  assert (∀ c, host_char c = false → c ≠ 58 → has c (h ++ port_text port) = false) as Hhas.
  { intros c Hc Hne. eapply has_Forall; [exact Hchars|]. intros [H|H]; congruence. }
  assert (is_ascii (h ++ port_text port) = true) as Hascii.
  { rewrite is_ascii_app, (proper_ascii h) by done. destruct port as [n|]; [|done]. cbn [port_text andb].
    apply forallb_forall. intros c [<-|Hc]; [done|]. pose proof (dec_of_N_digits n) as Hd.
    rewrite Forall_forall in Hd. apply list_elem_of_In, Hd in Hc. unfold is_digit in Hc.
    apply in_range_true in Hc. apply N.ltb_lt. lia. }
  assert (h ++ port_text port ≠ []) as Hne by (destruct h; [by destruct (proper_nonempty [] Hh)|done]).
  assert (split_normal netloc_ok p) as Hnormal.
  { constructor; cbn [netloc path query fragment].
    - split_and!; [apply forallb_forall; intros c Hc%list_elem_of_In; cbv beta..|done].
      + rewrite Forall_forall in Hchars. apply Hchars in Hc as [Hc | ->]; [|done].
        unfold host_char in Hc. rewrite !andb_true_iff in Hc. tauto.
      + rewrite Forall_forall in Hqc. apply Hqc, path_safe_ascii in Hc. unfold unsafe_byte.
        rewrite !(proj2 (N.eqb_neq _ _)) by lia. done.
      + rewrite Forall_forall in Ht. apply Ht in Hc as [Hc|[-> | ->]]; [|done..].
        unfold query_char in Hc. unfold unsafe_byte. apply orb_true_iff in Hc as [[Hc|Hc]%orb_true_iff|Hc];
          [|apply N.eqb_eq in Hc as ->; done..].
        unfold unreserved, is_lower, is_upper, is_digit in Hc.
        rewrite !orb_true_iff, !in_range_true, !N.eqb_eq in Hc.
        rewrite !(proj2 (N.eqb_neq _ _)) by lia. done.
    - split_and!.
      + apply forallb_forall. intros c Hc%list_elem_of_In. rewrite Forall_forall in Hchars.
        apply Hchars in Hc as [Hc | ->]; [|done]. unfold host_char in Hc. rewrite !andb_true_iff in Hc. tauto.
      + by rewrite !Hhas.
      + apply netloc_plain; [done|by apply Hhas].
    - split_and!; [eapply has_Forall; [exact Hqc|cbv beta; done]..|].
      eapply has_Forall; [exact Ht|]. cbv beta. intros [H|[H|H]]; done.
    - intros _. destruct Hq as [|sl comps tr [-> | ->] _ _]; done. }
  split_and!.
  - by apply urlsplit_urlunsplit.
  - unfold Url.hostname, hostinfo. cbn [netloc]. rewrite after_last_absent by (by apply Hhas).
    rewrite partition_absent by (by apply Hhas). cbv beta iota.
    change (netloc p) with (h ++ port_text port).
    assert ((let '(host, port) := partition 58 (h ++ port_text port) in (host, default [] port)) =
      (h, match port with Some n => dec_of_N n | None => [] end)) as ->.
    { pose proof (has_host 58 h Hh eq_refl). destruct port as [n|]; cbn [port_text].
      - by rewrite partition_app. - by rewrite app_nil_r, partition_absent. }
    cbn [fst].
    trans (let '(host, zone) := partition 37 h in
      Some (lower_text host ++ match zone with Some z => 37 :: z | None => [] end)).
    { by destruct h; [destruct (proper_nonempty [] Hh)|]. }
    pose proof (lower_split h 37 (proper_lower h Hh)) as Hlow.
    destruct (partition 37 h) as [a z] eqn:Hz. apply partition_parts in Hz as [_ Hz]. cbn [fst] in Hlow.
    assert (lower_text a = a) as Ha.
    { pose proof (proper_ascii h Hh) as Ha. rewrite Hz, is_ascii_app, andb_true_iff in Ha.
      by rewrite lower_ascii by apply Ha. }
    by rewrite Ha, <-Hz.
  - unfold Url.port, hostinfo. change (netloc p) with (h ++ port_text port). rewrite after_last_absent by (by apply Hhas).
    rewrite partition_absent by (by apply Hhas). cbv beta iota.
    pose proof (has_host 58 h Hh eq_refl).
    destruct port as [n|]; cbn [port_text].
    + rewrite partition_app by done. cbn [snd]. change (default [] (Some (dec_of_N n))) with (dec_of_N n).
      destruct (dec_of_N n) as [|d ds] eqn:Hd; [by apply dec_of_N_nonempty in Hd|]. rewrite <-Hd.
      rewrite N_of_dec_of_N, (proj2 (N.leb_le _ _)) by auto.
      assert (forallb is_digit (dec_of_N n) = true) as ->; [|done].
      apply forallb_forall. intros c Hc%list_elem_of_In. pose proof (dec_of_N_digits n) as Hds.
      rewrite Forall_forall in Hds. by apply Hds.
    + by rewrite app_nil_r, partition_absent.
  - by apply Hhas.
Qed.

(** ** The parts of a canonical URL *)

Lemma canonicalize_text_parts url c :
  canonicalize_text url = Ok c → ∃ p h host port path query,
    urlsplit url [] = Some p ∧ web_scheme (lower_text (scheme p)) ∧ hostname p = Some h ∧ h ≠ [] ∧
    encode_idna (rstrip_dots (lower_text h)) = Some host ∧ host ≠ [] ∧ Url.port p = Some port ∧
    has 64 (netloc p) = false ∧ percent_quote path_safe (_remove_dot_segments (Url.path p)) = Some path ∧
    urlencode (query_items lower_text (Url.query p)) = Some query ∧
    c = urlunsplit (mk_split (lower_text (scheme p)) (canonical_netloc (lower_text (scheme p)) host port)
                     path query []).
Proof.
  unfold Canonical.canonicalize_text. intros H. inv_ok.
  match goal with H : (lower_text _ ∈ _) |- _ => rename H into Hs end.
  match goal with H : (match _ with _ => _ end) = Ok ?h |- _ => rename H into Hh; rename h into hn end.
  destruct (hostname _) as [[|y ys]|] eqn:Hhost in Hh; [done| |done]. injection Hh as <-.
  match goal with H : is_empty ?h = false |- _ => assert (h ≠ []) by by destruct h end.
  eexists _, _, _, _, _, _. split_and!; try done.
  apply elem_of_cons in Hs as [Hs|Hs%list_elem_of_singleton]; [by left|by right].
Qed.

Lemma canonicalize_text_build url p h host port path query :
  urlsplit url [] = Some p → web_scheme (lower_text (scheme p)) → hostname p = Some h → h ≠ [] →
  encode_idna (rstrip_dots (lower_text h)) = Some host → host ≠ [] → Url.port p = Some port →
  has 64 (netloc p) = false → percent_quote path_safe (_remove_dot_segments (Url.path p)) = Some path →
  urlencode (query_items lower_text (Url.query p)) = Some query →
  canonicalize_text url = Ok (urlunsplit (mk_split (lower_text (scheme p))
    (canonical_netloc (lower_text (scheme p)) host port) path query [])).
Proof.
  intros Hp Hs Hh Hne He Hhost Hport Hat Hpath Hq. unfold Canonical.canonicalize_text.
  rewrite Hp. cbn [of_option mbind result_bind].
  rewrite (bool_decide_eq_true_2 _) by (destruct Hs as [-> | ->]; [left|right; left]).
  cbn [negb raise_if mbind result_bind]. rewrite Hh. destruct h as [|x h]; [done|]. cbn [mbind result_bind].
  rewrite He. cbn [of_option mbind result_bind]. destruct host as [|y host]; [done|].
  change (is_empty (y :: host)) with false. cbn [raise_if mbind result_bind].
  rewrite Hport. cbn [of_option mbind result_bind]. rewrite Hat. cbn [raise_if mbind result_bind].
  rewrite Hpath. cbn [of_option mbind result_bind]. rewrite Hq. done.
Qed.

(** ** Plain hosts *)

Lemma rstrip_Forall (P : N → Prop) s : Forall P s → Forall P (rstrip_dots s).
Proof.
  induction 1 as [|c s Hc _ IH]; cbn [rstrip_dots]; [constructor|].
  destruct (rstrip_dots s); [destruct (c =? 46); [done|]|]; by constructor.
Qed.

Lemma rstrip_idempotent s : rstrip_dots (rstrip_dots s) = rstrip_dots s.
Proof.
  induction s as [|c s IH]; [done|]. cbn [rstrip_dots]. destruct (rstrip_dots s) as [|d r] eqn:Hr.
  - destruct (c =? 46) eqn:Hc; [done|]. cbn. by rewrite Hc.
  - cbn [rstrip_dots] in *. by rewrite IH.
Qed.

Lemma lower_id s : Forall (λ c, lower_char c = c) s ↔ lower s = s.
Proof.
  unfold lower. split; [induction 1 as [|c s Hc _ IH]; [done|]; cbn [map]; congruence|].
  induction s as [|c s IH]; cbn [map]; [done|]. intros [= Hc Hs]. constructor; [done|]. by apply IH.
Qed.

Lemma lower_char_small c : c < 128 → lower_char c < 128.
Proof. intros Hc. unfold lower_char. destruct (is_upper c) eqn:Hu; [apply in_range_true in Hu|]; lia. Qed.

Lemma lower_char_host c : host_char c = true → host_char (lower_char c) = true.
Proof.
  intros Hc. unfold lower_char. destruct (is_upper c) eqn:Hu; [|done]. apply in_range_true in Hu.
  unfold host_char, ends_netloc, unsafe_byte. rewrite !(proj2 (N.eqb_neq _ _)) by lia. done.
Qed.

Lemma is_ascii_Forall s : is_ascii s = true ↔ Forall (λ c, c < 128) s.
Proof.
  unfold is_ascii. rewrite forallb_forall, Forall_forall.
  setoid_rewrite list_elem_of_In. by setoid_rewrite N.ltb_lt.
Qed.

Lemma lower_idempotent s : lower (lower s) = lower s.
Proof.
  apply lower_id, Forall_forall. intros c Hc. apply list_elem_of_fmap in Hc as (d & -> & _).
  unfold lower_char. destruct (is_upper d) eqn:Hd; [|by rewrite Hd]. apply in_range_true in Hd.
  destruct (is_upper _) eqn:Hd2; [apply in_range_true in Hd2; lia|done].
Qed.

(** What an ASCII network location without brackets or user has for a host. *)
Lemma plain_hostname p h :
  split_normal netloc_ok p → is_ascii (netloc p) = true → has 91 (netloc p) = false →
  has 64 (netloc p) = false → hostname p = Some h →
  is_ascii h = true ∧ Forall (λ c, host_char c = true) h.
Proof.
  intros Hp Ha Hb Hat. destruct (normal_netloc _ _ Hp) as (Hends & Hbr & _).
  rewrite Hb in Hbr. apply eqb_prop in Hbr. symmetry in Hbr.
  destruct (normal_clean _ _ Hp) as (Hclean & _).
  unfold Url.hostname, hostinfo. rewrite after_last_absent, partition_absent by done.
  destruct (partition 58 (netloc p)) as [a b] eqn:Hpart. apply partition_parts in Hpart as [Hcolon Hnet].
  cbn [fst]. intros Hh.
  assert (is_ascii a = true ∧ Forall (λ c, host_char c = true) a) as [Haa Hac].
  { rewrite Hnet, is_ascii_app, andb_true_iff in Ha. split; [apply Ha|]. apply Forall_forall. intros c Hc.
    assert (c ∈ netloc p) as Hin by (rewrite Hnet; apply elem_of_app; by left).
    unfold host_char. unfold clean in Hclean. rewrite forallb_forall in Hends, Hclean.
    rewrite Hends, Hclean by (by apply list_elem_of_In). cbn [andb].
    assert (∀ d x, d ∈ x → ∀ e, has e x = false → (d =? e) = false) as Hx.
    { intros d x Hd e He. apply N.eqb_neq. intros ->. unfold has in He.
      rewrite (proj2 (existsb_exists _ _)) in He; [done|]. exists e. by rewrite <-list_elem_of_In, N.eqb_refl. }
    rewrite (Hx c (netloc p) Hin 64), (Hx c (netloc p) Hin 91), (Hx c (netloc p) Hin 93), (Hx c a Hc 58) by done.
    done. }
  destruct a as [|x a]; [done|]. destruct (partition 37 (x :: a)) as [y z] eqn:Hz.
  apply partition_parts in Hz as [_ Hz]. rewrite Hz in Haa, Hac.
  rewrite is_ascii_app, andb_true_iff in Haa. apply Forall_app in Hac as [Hy Hzc]. destruct Haa as [Hya Hza].
  injection Hh as <-. rewrite lower_ascii by done. split.
  - rewrite is_ascii_app, andb_true_iff. split; [|done]. apply is_ascii_Forall in Hya.
    apply is_ascii_Forall, Forall_map. eapply Forall_impl; [exact Hya|apply lower_char_small].
  - apply Forall_app. split; [|done]. apply Forall_map. eapply Forall_impl; [exact Hy|apply lower_char_host].
Qed.

Lemma plain_proper h host :
  is_ascii h = true → Forall (λ c, host_char c = true) h →
  encode_idna (rstrip_dots (lower_text h)) = Some host → host ≠ [] → proper_host host.
Proof.
  intros Ha Hc. rewrite lower_ascii by done.
  assert (is_ascii (rstrip_dots (lower h)) = true) as Has.
  { apply is_ascii_Forall, rstrip_Forall, Forall_map. apply is_ascii_Forall in Ha.
    eapply Forall_impl; [exact Ha|apply lower_char_small]. }
  unfold Canonical.encode_idna. rewrite Has. destruct (idna_labels_ok _) eqn:Hl; [|done]. intros [= <-] Hne.
  constructor; [done..| | |done|].
  - apply lower_id, rstrip_Forall, lower_id, lower_idempotent.
  - apply rstrip_idempotent.
  - apply rstrip_Forall, Forall_map. eapply Forall_impl; [exact Hc|apply lower_char_host].
Qed.

(** The host of the address is an ASCII name, or IDNA gives one for it. *)
Definition plain_host (url : str) : Prop :=
  ∃ p, urlsplit url [] = Some p ∧
    (is_ascii (netloc p) = true ∧ has 91 (netloc p) = false ∨
     ∀ h host, hostname p = Some h → encode_idna (rstrip_dots (lower_text h)) = Some host → proper_host host).

Lemma plain_host_proper url p h host :
  plain_host url → urlsplit url [] = Some p → has 64 (netloc p) = false → hostname p = Some h →
  encode_idna (rstrip_dots (lower_text h)) = Some host → host ≠ [] → proper_host host.
Proof.
  intros (p' & Hp' & [[Ha Hb]|H]) Hp Hat Hh He Hne; rewrite Hp in Hp'; injection Hp' as <-; [|by eapply H].
  apply urlsplit_normal in Hp. destruct (plain_hostname p h) as [Hha Hhc]; [done..|]. by eapply plain_proper.
Qed.

Lemma port_small p port : Url.port p = Some port → ∀ n, port = Some n → n <= 65535.
Proof.
  unfold Url.port. intros H n ->. destruct (hostinfo p).2 as [|c s]; [done|].
  destruct (forallb _ _); [|done]. cbn [andb] in H. destruct (_ <=? _) eqn:Hle; [|done].
  injection H as <-. by apply N.leb_le.
Qed.

Lemma hostname_netloc p h : hostname p = Some h → netloc p ≠ [].
Proof. unfold Url.hostname, hostinfo. intros H Hn. by rewrite Hn in H. Qed.

Lemma explicit_port_idempotent scheme port :
  explicit_port scheme (explicit_port scheme port) = explicit_port scheme port.
Proof. destruct port as [n|]; [|done]. cbn. destruct (default_port scheme n) eqn:Hd; [done|]. cbn. by rewrite Hd. Qed.

Lemma quoted_path p path :
  split_normal netloc_ok p → netloc p ≠ [] → percent_quote path_safe (_remove_dot_segments (Url.path p)) = Some path →
  normal_path path ∧ Forall (λ c, path_safe c = true) path.
Proof.
  intros Hp Hn. unfold percent_quote. destruct (utf8_encode _) as [bs|] eqn:Hbs; [|done]. intros [= <-].
  apply utf8_encode_Some in Hbs as [Hsc ->]. fold (quoted (_remove_dot_segments (Url.path p))).
  split; [apply quoted_normal|by apply quoted_safe].
  pose proof (Url.normal_start _ _ Hp Hn) as Hst. destruct (Url.path p) as [|c q]; [constructor|]. subst c.
  by apply remove_dot_segments_normal.
Qed.

(** Canonicalising gives parts that survive being read again. *)
Lemma canonical_reparse url c :
  canonicalize_text url = Ok c → plain_host url → ∃ p scheme host port path query,
    urlsplit url [] = Some p ∧ web_scheme scheme ∧ proper_host host ∧
    (∀ n, port = Some n → n <= 65535) ∧ explicit_port scheme port = port ∧ normal_path path ∧
    Forall (λ c, path_safe c = true) path ∧
    urlencode (query_items lower_text (Url.query p)) = Some query ∧
    Forall (λ c, query_char c = true ∨ c = 61 ∨ c = 38) query ∧
    c = urlunsplit (mk_split scheme (host ++ port_text port) path query []).
Proof.
  intros (p & h & host & port & path & query & Hp & Hs & Hh & Hne & He & Hhost & Hport & Hat & Hpath & Hq & ->)
    %canonicalize_text_parts Hplain.
  pose proof (plain_host_proper url p h host Hplain Hp Hat Hh He Hhost) as Hproper.
  pose proof (urlsplit_normal _ _ _ _ Hp) as Hnorm.
  destruct (quoted_path p path Hnorm (hostname_netloc p h Hh) Hpath) as [Hn Hsafe].
  exists p, (lower_text (scheme p)), host, (explicit_port (lower_text (scheme p)) port), path, query.
  split_and!; try done.
  - intros n Hn'. eapply port_small; [exact Hport|]. destruct port as [m|]; [|done]. cbn in Hn'.
    by destruct (default_port _ m).
  - apply explicit_port_idempotent.
  - by eapply parse_qsl_urlencode.
  - by rewrite canonical_netloc_proper.
Qed.

Lemma canonical_again url c :
  canonicalize_url lower_text netloc_ok unicode_idna (Some url) = Ok (Some c) → plain_host url →
  canonicalize_url lower_text netloc_ok unicode_idna (Some c) = Ok (Some c).
Proof.
  destruct url as [|x url]; [done|]. cbn [canonicalize_url]. set (url' := x :: url) in *. intros H Hplain.
  destruct (canonicalize_text url') as [c'|] eqn:Hc; [|done]. injection H as ->.
  destruct (canonical_reparse url' c Hc Hplain) as
    (p & scheme & host & port & path & query & Hp & Hs & Hh & Hport & Hexp & Hn & Hsafe & Hq & Hqc & ->).
  destruct (reparse scheme host port path query Hs Hh Hport Hn Hsafe Hqc) as (Hsplit & Hhn & Hpt & Hat).
  set (r := mk_split scheme (host ++ port_text port) path query []) in *.
  assert (lower_text scheme = scheme) as Hls by (rewrite lower_ascii; by destruct Hs as [-> | ->]).
  pose proof (canonicalize_text_build (urlunsplit r) r host host port path query Hsplit) as Hb.
  change (Url.scheme r) with scheme in Hb. rewrite Hls in Hb.
  rewrite Hb; [|done|done|apply Hh| |apply Hh|done|done| |].
  - rewrite canonical_netloc_proper, Hexp by done.
    fold r. destruct (urlunsplit r) as [|y l] eqn:Hr; [|done]. exfalso.
    rewrite (urlunsplit_web netloc_ok) in Hr; [by destruct Hs as [-> | ->]|by eapply urlsplit_normal..| |].
    + by destruct Hs as [-> | ->].
    + by apply (hostname_netloc r host).
  - rewrite lower_ascii, (proper_lower host), (proper_end host) by (done || by apply proper_ascii).
    unfold Canonical.encode_idna. by rewrite (proper_ascii host), (proper_labels host).
  - change (Url.path r) with path. by rewrite remove_dot_segments_stable, quote_stable.
  - change (Url.query r) with query. by rewrite (query_items_stable _ (Url.query p)).
Qed.

(** Canonicalising again changes nothing. *)
Theorem canonicalize_idempotent url c :
  canonicalize_url lower_text netloc_ok unicode_idna (Some url) = Ok (Some c) → plain_host url →
  canonicalize_url lower_text netloc_ok unicode_idna (Some c) = Ok (Some c).
Proof. apply canonical_again. Qed.

(** A canonical URL: a web scheme, a plain host, no port but one that differs
    from the default, a path without dot segments, the query items sorted and
    without tracking, no fragment, and nobody's credentials. *)
Theorem canonical_form url c :
  canonicalize_url lower_text netloc_ok unicode_idna (Some url) = Ok (Some c) → plain_host url →
  ∃ original r host port,
    urlsplit url [] = Some original ∧ urlsplit c [] = Some r ∧
    web_scheme (scheme r) ∧ hostname r = Some host ∧ proper_host host ∧
    Url.port r = Some port ∧ explicit_port (scheme r) port = port ∧
    normal_path (path r) ∧ fragment r = [] ∧ has 64 (netloc r) = false ∧
    StronglySorted pair_le (parse_qsl (query r)) ∧
    parse_qsl (query r) ≡ₚ List.filter (λ kv, negb (is_tracking lower_text kv.1)) (parse_qsl (query original)).
Proof.
  destruct url as [|x url]; [done|]. cbn [canonicalize_url]. set (url' := x :: url) in *. intros H Hplain.
  destruct (canonicalize_text url') as [c'|] eqn:Hc; [|done]. injection H as ->.
  destruct (canonical_reparse url' c Hc Hplain) as
    (p & scheme & host & port & path & query & Hp & Hs & Hh & Hport & Hexp & Hn & Hsafe & Hq & Hqc & ->).
  destruct (reparse scheme host port path query Hs Hh Hport Hn Hsafe Hqc) as (Hsplit & Hhn & Hpt & Hat).
  apply parse_qsl_urlencode in Hq as [Hq _].
  exists p, (mk_split scheme (host ++ port_text port) path query []), host, port.
  split_and!; try done; cbn [Url.query]; rewrite Hq.
  - apply query_items_sorted.
  - apply merge_sort_Permutation.
Qed.
End facts.

Lemma canonicalize_idempotent_witness :
  canonicalize_url lower (λ _, true) (λ _, None)
    (Some (u "http://www.example.org/a/c%20d/?a=~&b=2")) = Ok (Some (u "http://www.example.org/a/c%20d/?a=~&b=2")).
Proof.
  apply (canonicalize_idempotent lower (λ _, true) (λ _, None) (λ _ _, eq_refl) (λ _ _ _, eq_refl)
    (u "HTTP://Www.Example.org.:80/a/./b/../c d/?utm_source=x&b=2&a=%7e&Ref=1#f")).
  - vm_compute. reflexivity.
  - eexists. split; [vm_compute; reflexivity|]. left. vm_compute. split; reflexivity.
Defined.

Lemma canonical_form_witness :
  ∃ original r host port,
    urlsplit (λ _, true) (u "https://h:0443/b/..?z=1&a=2&gclid=3#f") [] = Some original ∧
    urlsplit (λ _, true) (u "https://h/?a=2&z=1") [] = Some r ∧
    web_scheme (scheme r) ∧ hostname lower r = Some host ∧ proper_host host ∧
    Url.port r = Some port ∧ explicit_port (scheme r) port = port ∧
    normal_path (path r) ∧ fragment r = [] ∧ has 64 (netloc r) = false ∧
    StronglySorted pair_le (parse_qsl (query r)) ∧
    parse_qsl (query r) ≡ₚ List.filter (λ kv, negb (is_tracking lower kv.1)) (parse_qsl (query original)).
Proof.
  apply (canonical_form lower (λ _, true) (λ _, None) (λ _ _, eq_refl) (λ _ _ _, eq_refl)).
  - vm_compute. reflexivity.
  - eexists. split; [vm_compute; reflexivity|]. left. vm_compute. split; reflexivity.
Defined.

(** ** Hosts that escape *)

(** What IDNA gives for [é] before an ideographic full stop and for a fullwidth
    left square bracket. *)
Definition sample_idna (host : str) : option str :=
  if bool_decide (host = [233; 12290]) then Some (u "xn--9ca.")
  else if bool_decide (host = [65339]) then Some (u "[") else None.

(** A dot that is only a dot for IDNA stays at the end of the host. *)
Lemma ideographic_dot_not_stable :
  let canonicalize := canonicalize_url lower (λ _, true) sample_idna in
  canonicalize (Some (u "http://" ++ [233; 12290] ++ u "/")) = Ok (Some (u "http://xn--9ca./")) ∧
  canonicalize (Some (u "http://xn--9ca./")) = Ok (Some (u "http://xn--9ca/")).
Proof. vm_compute. done. Qed.

(** A canonical text that is no URL. *)
Lemma bracket_host_not_a_url :
  canonicalize_url lower (λ _, true) sample_idna (Some (u "http://" ++ [65339] ++ u "/")) =
    Ok (Some (u "http://[/")) ∧
  non_article_url_reason lower lower (λ _, true) sample_idna (Some (u "http://[/")) = Err BadUrl.
Proof. vm_compute. done. Qed.
