(* ===== verification/WorkerJobs.v ===== *)
(** * WorkerJobs: what a container worker runs, and where.

    [scripts/news_container/worker.py] up to the loop: path containment, argument
    vectors, bounded capture, dispatch and validation.  [jobs.main] is an argument:
    what it writes and how it ends for an argument vector.  The file system answers
    through [is_symlink] and [realpath]. *)
From S2P Require Import Prelude Text Utf8 Sha256 Json Number Ip Url Percent Canonical CanonicalFacts Investigation ControlStore.
Local Open Scope Z_scope.

(** An exception: its class and its text. *)
Record exn := mk_exn { exn_class : str; exn_text : str }.
#[export] Instance exn_eq_dec : EqDecision exn.
Proof. solve_decision. Defined.

(** ** Paths *)

(** A [PurePosixPath]: its root and its parts. *)
Record path := mk_path { path_root : str; path_parts : list str }.

Definition path_text (p : path) : str :=
  match path_root p, path_parts p with [], [] => dot | r, ps => r ++ join_with 47 ps end.

(** [path.parents], the nearest first *)
Definition path_parents (p : path) : list path :=
  map (λ k, mk_path (path_root p) (take k (path_parts p))) (rev (seq 0 (length (path_parts p)))).

Inductive path_error := PathEscapeError | SymlinkForbiddenError.

(** The components that [os.path.commonpath] compares. *)
Definition components (s : str) : list str :=
  List.filter (λ c, negb (is_empty c) && negb (bool_decide (c = dot))) (split_on 47 s).

Fixpoint common_prefix (a b : list str) : list str :=
  match a, b with
  | x :: a', y :: b' => if bool_decide (x = y) then x :: common_prefix a' b' else []
  | _, _ => []
  end.

(** [os.path.commonpath([a, b])]; [None] is [ValueError]. *)
Definition commonpath (a b : str) : option str :=
  let absolute := starts_with (u "/") a in
  if Bool.eqb absolute (starts_with (u "/") b) then
    Some ((if absolute then u "/" else []) ++ join_with 47 (common_prefix (components a) (components b)))
  else None.

Section paths.
Context (is_symlink : path → bool) (realpath : path → str).

Definition assert_path_within_canary (p : path) (canary_root : option path) : result path_error path :=
  _ ← raise_if (negb (bool_decide (path_text p = normpath (path_text p)))) PathEscapeError;
  _ ← raise_if (existsb is_symlink (path_parents p)) SymlinkForbiddenError;
  _ ← raise_if (is_symlink p) SymlinkForbiddenError;
  match canary_root with
  | None => Ok p
  | Some root =>
      _ ← raise_if (negb (bool_decide (path_text root = normpath (path_text root)))) PathEscapeError;
      _ ← raise_if (is_symlink root) SymlinkForbiddenError;
      common ← of_option PathEscapeError (commonpath (realpath p) (realpath root));
      _ ← raise_if (negb (bool_decide (common = realpath root))) PathEscapeError;
      Ok p
  end.

Definition assert_canary_mode (enabled : bool) (canary_root : option path) : result path_error (option path) :=
  if negb enabled then Ok canary_root
  else match canary_root with
       | None => Err PathEscapeError
       | Some root => Some <$> assert_path_within_canary root None
       end.
End paths.

(** ** Argument vectors *)

(** [control_db], [owner] and [generation] as texts, if they are given. *)
Record DispatchContext := mk_context
  { db_path : str; artifact_root : str; cx_task_id : str; due_slot_utc : str; cx_payload : json;
    cx_control_db : option str; cx_owner : option str; cx_generation : option Z }.

Definition exn_of (c : string) : exn := mk_exn (u c) [].

(** [ctx.payload.get(key)] *)
Definition payload_get (payload : json) (key : string) : result exn json :=
  match payload with
  | JObj l => Ok (default JNull (lookup_key (u key) l))
  | _ => Err (exn_of "AttributeError")
  end.

Definition is_null (j : json) : bool := match j with JNull => true | _ => false end.

Definition nonempty_string (j : json) : option str :=
  match j with JStr ((_ :: _) as s) => Some s | _ => None end.

Definition _require_payload (ctx : DispatchContext) (key : string) : result exn str :=
  value ← payload_get (cx_payload ctx) key;
  of_option (exn_of "ValueError") (nonempty_string value).

(** An optional field that must be a non-empty string. *)
Definition optional_payload (ctx : DispatchContext) (key : string) : result exn (option str) :=
  value ← payload_get (cx_payload ctx) key;
  match value with
  | JNull => Ok None
  | _ => Some <$> of_option (exn_of "ValueError") (nonempty_string value)
  end.

(** Digits with single underscores between them. *)
Fixpoint drop_underscores (after_digit : bool) (s : str) : option str :=
  match s with
  | [] => if after_digit then Some [] else None
  | c :: s' =>
      if (c =? 95)%N then if after_digit then drop_underscores false s' else None
      else cons c <$> drop_underscores true s'
  end.

(** [int(text)]; more than 4300 digits are refused. *)
Definition int_of_text (s : str) : option Z :=
  let '(negative, digits) := match strip s with
    | 45%N :: s' => (true, s')
    | 43%N :: s' => (false, s')
    | s' => (false, s')
    end in
  digits ← drop_underscores false digits;
  value ← int_of_digits digits;
  if (4300 <? length digits)%nat then None else Some (if negative : bool then - value else value).

(** [int(value)] of a JSON value. *)
Definition py_int (j : json) : result exn Z :=
  match j with
  | JInt z => Ok z
  | JBool b => Ok (if b then 1 else 0)
  | JStr s => of_option (exn_of "ValueError") (int_of_text s)
  | JFloat r =>
      let x := float_of_literal r in
      if is_finite x then Ok (float_trunc x) else Err (exn_of (if contains (u "nan") (lower r) then "ValueError" else "OverflowError"))
  | _ => Err (exn_of "TypeError")
  end.

Definition _ingest_argv (ctx : DispatchContext) : result exn (list str) :=
  sources ← _require_payload ctx "sources";
  topics ← _require_payload ctx "topics";
  policy ← _require_payload ctx "policy";
  provenance ← optional_payload ctx "provenance";
  Ok ([u "tick"; u "--db"; db_path ctx; u "--sources"; sources; u "--topics"; topics; u "--policy"; policy] ++
      match provenance with Some p => [u "--provenance"; p] | None => [] end ++
      [u "--run-started-at"; due_slot_utc ctx; u "--enable-network"] ++
      match cx_control_db ctx with Some c => [u "--control-db"; c] | None => [] end).

Definition _process_argv (ctx : DispatchContext) : result exn (list str) :=
  raw_items ← match cx_payload ctx with
    | JObj l => Ok (default (JInt 500) (lookup_key (u "max_items") l))
    | _ => Err (exn_of "AttributeError")
    end;
  max_items ← py_int raw_items;
  history_db ← optional_payload ctx "history_db";
  sources ← payload_get (cx_payload ctx) "sources";
  topics ← payload_get (cx_payload ctx) "topics";
  policy ← payload_get (cx_payload ctx) "policy";
  config ←
    (if is_null sources && is_null topics && is_null policy then Ok []
     else of_option (exn_of "ValueError")
            (sources ← nonempty_string sources; topics ← nonempty_string topics; policy ← nonempty_string policy;
             Some [u "--sources"; sources; u "--topics"; topics; u "--policy"; policy]));
  Ok ([u "process"; u "--db"; db_path ctx; u "--evaluated-at"; due_slot_utc ctx;
       u "--max-items"; dec_of_Z max_items; u "--enable-network"] ++
      match history_db with Some h => [u "--history-db"; h] | None => [] end ++ config).

Definition _investigate_argv (ctx : DispatchContext) : result exn (list str) :=
  payload ← match cx_payload ctx with JObj l => Ok l | _ => Err (exn_of "ValueError") end;
  _ ← map_err (λ _, exn_of "ValueError") (validate_investigation_payload payload);
  round_number ← match default (JInt 0) (lookup_key (u "round_number") payload) with
    | JInt n => if (0 <=? n) && (n <? 2) then Ok n else Err (exn_of "ValueError")
    | _ => Err (exn_of "ValueError")
    end;
  candidate_id ← _require_payload ctx "candidate_id";
  feed_lane_id ← _require_payload ctx "feed_lane_id";
  query_plan_id ← _require_payload ctx "query_plan_id";
  investigation_id ← _require_payload ctx "investigation_id";
  category ← _require_payload ctx "category";
  fence ← match cx_control_db ctx, cx_owner ctx, cx_generation ctx with
    | Some c, Some o, Some g =>
        Ok [u "--control-db"; c; u "--control-task-id"; cx_task_id ctx; u "--control-owner"; o;
            u "--control-generation"; dec_of_Z g]
    | None, None, None => Ok []
    | _, _, _ => Err (exn_of "ValueError")
    end;
  Ok ([u "investigate"; u "--db"; db_path ctx; u "--candidate-id"; candidate_id; u "--feed-lane-id"; feed_lane_id;
       u "--query-plan-id"; query_plan_id; u "--investigation-id"; investigation_id; u "--category"; category;
       u "--round-number"; dec_of_Z round_number; u "--evaluated-at"; due_slot_utc ctx; u "--enable-network"] ++ fence).

Definition _report_argv (ctx : DispatchContext) : result exn (list str) :=
  live ← payload_get (cx_payload ctx) "enable_live_delivery";
  _ ← raise_if (truthy live) (exn_of "DeliveryForbiddenError");
  prior ← payload_get (cx_payload ctx) "prior_upper_utc";
  Ok ([u "daily-report"; u "--db"; db_path ctx; u "--artifact-root"; artifact_root ctx;
       u "--as-of-utc"; due_slot_utc ctx] ++
      match nonempty_string prior with Some p => [u "--prior-upper-utc"; p] | None => [] end).

(** The builder of a kind other than validate. *)
Definition build_argv (kind : str) (ctx : DispatchContext) : result exn (list str) :=
  if bool_decide (kind = u "ingest") then _ingest_argv ctx
  else if bool_decide (kind = u "investigate") then _investigate_argv ctx
  else if bool_decide (kind = u "process") then _process_argv ctx
  else if bool_decide (kind = u "report") then _report_argv ctx
  else Err (exn_of "AssertionError").

(** ** Dispatch *)

Definition MAX_STDOUT_BYTES : nat := Z.to_nat 65536.

(** [value.encode("utf-8", "replace")] *)
Definition encode_replace (s : str) : list N :=
  concat (map (λ c, if scalar c then utf8_char c else [63%N]) s).

(** [_BoundedTextCapture.write] *)
Definition capture_write (limit : nat) (buffer : list N) (value : str) : list N :=
  let remaining := (limit - length buffer)%nat in
  if (0 <? remaining)%nat then buffer ++ take remaining (encode_replace value) else buffer.

Definition capture (writes : list str) : list N := foldl (capture_write MAX_STDOUT_BYTES) [] writes.

(** How a run of [jobs.main] ends. *)
Inductive job_end :=
  | Returns (exit_code : Z)
  | Exits (code : option Z)
  | Raises (e : exn).
Record job_run := mk_job_run { job_stdout : list str; job_stderr : list str; job_ends : job_end }.

Record DispatchResult := mk_dispatch
  { exit_code : Z; stdout_bytes : nat; stdout_hash : str; dr_status : task_state;
    error_class : option str; error_message : option str }.

Definition _RUNTIME_ERROR_MAP : list str :=
  map u ["RuntimeError"; "ValueError"; "TimeoutError"; "FileNotFoundError"; "PermissionError"; "OSError";
         "sqlite3.OperationalError"; "sqlite3.DatabaseError"; "sqlite3.IntegrityError"].

Definition _classify_runtime_error (stderr : str) : str :=
  default (u "RuntimeError") (List.find (λ needle, contains needle stderr) _RUNTIME_ERROR_MAP).

Definition sanitized_message (message : str) : option str := sanitize_error_message (Some message) (Z.to_nat 4096).

Definition LIVE_FLAG : str := u "--enable-live-delivery".

Definition _dispatch (jobs_main : list str → job_run) (argv : list str) : result exn DispatchResult :=
  _ ← raise_if (bool_decide (LIVE_FLAG ∈ argv)) (exn_of "DeliveryForbiddenError");
  let job := jobs_main argv in
  let stdout := capture (job_stdout job) in
  let finished code :=
    if code =? 0 then mk_dispatch 0 (length stdout) (sha256_bytes stdout) Completed None None
    else
      let stderr := decode_replace (capture (job_stderr job)) in
      mk_dispatch code (length stdout) (sha256_bytes stdout) Failed (Some (_classify_runtime_error stderr))
        (sanitized_message (match stderr with [] => u "jobs.main exit " ++ dec_of_Z code | _ => stderr end)) in
  Ok match job_ends job with
     | Returns code => finished code
     | Exits code => finished (default 1 code)
     | Raises e =>
         mk_dispatch 1 (length stdout) (sha256_bytes stdout) Failed (sanitize_error_class (Some (exn_class e)))
           (sanitized_message (exn_text e))
     end.

(** The results the worker makes up itself. *)
Definition refused_result (e : exn) : DispatchResult :=
  mk_dispatch 2 0 (sha256_bytes []) Failed (Some (exn_class e)) (sanitized_message (exn_text e)).
Definition failed_result (e : exn) : DispatchResult :=
  mk_dispatch 1 0 (sha256_bytes []) Failed (sanitize_error_class (Some (exn_class e))) (sanitized_message (exn_text e)).

(** ** Validation *)

(** What [health_snapshot] gives, or how reading it ends. *)
Inductive snapshot :=
  | NoStateDb
  | ImportFails (class : str)
  | SnapshotFails (e : exn)
  | Snapshot (items : dict).

Definition unavailable_health (error : str) : dict :=
  [(u "schema_v6", JBool false); (u "integrity", JStr (u "unavailable")); (u "ready", JBool false);
   (u "error", JStr error); (u "report_delivery_attempts", JInt 0); (u "unresolved_delivery_attempts", JInt 0)].

Definition get_or (d : dict) (key : string) (default_value : json) : json :=
  default default_value (lookup_key (u key) d).

(** [int(...)] of a count that is no number raises, outside the try. *)
Definition _read_state_health (s : snapshot) : result exn dict :=
  match s with
  | NoStateDb => Ok (unavailable_health (u "state_db_not_provided"))
  | ImportFails class => Ok (unavailable_health (u "news_health_import_failed:" ++ class))
  | SnapshotFails e => Ok (unavailable_health (exn_class e ++ u ":" ++ exn_text e))
  | Snapshot snapshot =>
      let counts := match get_or snapshot "counts" JNull with JObj l => l | _ => [] end in
      deliveries ← py_int (get_or counts "report_delivery_attempts" (JInt 0));
      unresolved ← py_int (get_or snapshot "unresolved_delivery_attempts" (JInt 0));
      Ok [(u "schema_v6", JBool (truthy (get_or snapshot "schema_v6" JNull)));
          (u "integrity", get_or snapshot "integrity" (JStr (u "unavailable")));
          (u "foreign_key_errors", get_or snapshot "foreign_key_errors" (JList []));
          (u "ready", JBool (truthy (get_or snapshot "ready" JNull)));
          (u "schema_versions", get_or snapshot "schema_versions" (JList []));
          (u "report_delivery_attempts", JInt deliveries);
          (u "unresolved_delivery_attempts", JInt unresolved);
          (u "schema_error", get_or snapshot "schema_error" JNull);
          (u "error", get_or snapshot "error" JNull)]
  end.

(** The rows of [PRAGMA integrity_check] and [PRAGMA foreign_key_check], the schema
    version and the tasks of the forbidden kind. *)
Record store_checks := mk_checks
  { integrity : list str; fk_rows : list (Z * str * str); version : Z; delivery_kinds : list str }.

(** The text of a JSON value inside a message: [str] of it. *)
Section validate.
Context (repr_strs : list str → str) (repr_rows : list (Z * str * str) → str) (str_of : json → str).

Definition first_truthy (values : list json) : option json := List.find truthy values.

Definition join_semicolon (reasons : list str) : str :=
  match reasons with [] => [] | r :: l => foldl (λ acc x, acc ++ u "; " ++ x) r l end.

Definition health_reason (health : dict) : str :=
  if negb (truthy (get_or health "schema_v6" JNull)) then
    match first_truthy [get_or health "schema_error" JNull; get_or health "error" JNull] with
    | Some v => str_of v
    | None => u "state DB is not schema v6"
    end
  else
    let reasons :=
      (match get_or health "integrity" JNull with JStr s => if bool_decide (s = u "ok") then [] else [u "integrity check failed"]
       | _ => [u "integrity check failed"] end) ++
      (if truthy (get_or health "foreign_key_errors" JNull) then [u "foreign-key check failed"] else []) ++
      (if truthy (get_or health "unresolved_delivery_attempts" (JInt 0)) then [u "unresolved delivery attempts present"] else []) in
    match join_semicolon reasons with [] => u "state DB health check failed" | r => r end.

Definition validate_payload_json (state_db : option str) (checks : store_checks) (health : dict) : json :=
  JObj [(u "integrity", JList (map JStr (integrity checks)));
        (u "foreign_key_violations", JList (map (λ '(n, t, p), JList [JInt n; JStr t; JStr p]) (fk_rows checks)));
        (u "schema_version", JInt (version checks));
        (u "delivery_count", JInt (Z.of_nat (length (delivery_kinds checks))));
        (u "delivery_kinds", JList (map JStr (delivery_kinds checks)));
        (u "state_db", match state_db with Some s => JStr s | None => JNull end);
        (u "state_health", JObj health)].

(** [checks] is what reading the control store gives, [Err] an exception of it. *)
Definition run_validate (checks : result exn store_checks) (state_db : option str) (s : snapshot)
    : result exn DispatchResult :=
  match checks with
  | Err e => Ok (mk_dispatch 1 0 (sha256_bytes []) Failed (Some (exn_class e)) (sanitized_message (exn_text e)))
  | Ok checks =>
      health ← _read_state_health s;
      payload ← of_option (exn_of "UnicodeEncodeError")
        (utf8_encode (dumps true (validate_payload_json state_db checks health)));
      let failed class message :=
        Ok (mk_dispatch 1 (length payload) (sha256_bytes payload) Failed (Some (u class)) (Some message)) in
      if negb (bool_decide (integrity checks = [u "ok"])) then
        failed "sqlite3.DatabaseError" (u "integrity_check reported " ++ repr_strs (integrity checks))
      else if negb (bool_decide (fk_rows checks = [])) then
        failed "sqlite3.IntegrityError" (u "foreign_key_check reported " ++ repr_rows (fk_rows checks))
      else if negb (bool_decide (delivery_kinds checks = [])) then
        failed "DeliveryForbiddenError" (u "zero-delivery check failed: found " ++ repr_strs (delivery_kinds checks))
      else if negb (truthy (get_or health "schema_v6" JNull)) || negb (truthy (get_or health "ready" JNull)) then
        failed "sqlite3.DatabaseError" (u "state DB failed v6 check: " ++ health_reason health)
      else Ok (mk_dispatch 0 (length payload) (sha256_bytes payload) Completed None None)
  end.
End validate.

(** ** What they guarantee *)

Lemma components_joined cp :
  Forall plain_comp cp → components (u "/" ++ join_with 47 cp) = cp.
Proof.
  intros Hcp. unfold components. destruct cp as [|w cp]; [done|].
  change (u "/" ++ join_with 47 (w :: cp)) with (join_with 47 ([] :: w :: cp)).
  rewrite split_on_join; [|done|constructor; [done|]; eapply Forall_impl; [exact Hcp|]; by intros ? (_ & _ & _ & ?)].
  trans (List.filter (λ c, negb (is_empty c) && negb (bool_decide (c = dot))) (w :: cp)); [done|].
  revert Hcp. generalize (w :: cp). intros l Hcp. induction Hcp as [|v l (Hv & Hd & _) _ IH]; [done|].
  cbn [List.filter]. destruct v as [|x v]; [done|]. change (is_empty (x :: v)) with false. cbn [negb andb].
  rewrite bool_decide_eq_false_2 by done. cbn [negb]. by rewrite IH.
Qed.

Lemma common_prefix_of a b : common_prefix a b `prefix_of` a ∧ common_prefix a b `prefix_of` b.
Proof.
  revert b. induction a as [|x a IH]; intros [|y b]; cbn [common_prefix]; try (split; apply prefix_nil).
  case_bool_decide as Hxy; [subst|split; apply prefix_nil]. destruct (IH b). split; by apply prefix_cons.
Qed.

Lemma components_plain s : Forall (λ c, c ≠ [] ∧ c ≠ dot ∧ has 47 c = false) (components s).
Proof.
  unfold components. apply Forall_forall. intros c [Hc Hn]%list_elem_of_In%List.filter_In.
  pose proof (split_on_has 47 s) as Hs. rewrite Forall_forall in Hs. apply list_elem_of_In, Hs in Hc.
  destruct c as [|x c]; [done|]. change (is_empty (x :: c)) with false in Hn. cbn [negb andb] in Hn.
  apply negb_true_iff, bool_decide_eq_false in Hn. done.
Qed.

(** [realpath] gives the text of its components. *)
Definition real (s : str) : Prop := s = u "/" ++ join_with 47 (components s).

(** A path that is accepted under a root is free of dot segments and of symbolic
    links, and what it resolves to lies under what the root resolves to. *)
Theorem path_contained is_symlink realpath p root q :
  assert_path_within_canary is_symlink realpath p (Some root) = Ok q →
  real (realpath p) → real (realpath root) → Forall (λ c, c ≠ dots) (components (realpath root)) →
  q = p ∧ is_symlink p = false ∧ Forall (λ parent, is_symlink parent = false) (path_parents p) ∧
  (starts_with (u "/") (path_text p) = true → normal_path (path_text p)) ∧
  components (realpath root) `prefix_of` components (realpath p).
Proof.
  unfold assert_path_within_canary. intros Hok Hp Hroot Hdots. inv_ok.
  repeat match goal with H : negb (bool_decide _) = false |- _ => apply negb_false_iff, bool_decide_eq_true in H end.
  split_and!; [done|done| | |].
  - apply Forall_forall. intros parent Hin. match goal with H : existsb _ _ = false |- _ => rename H into He end.
    destruct (is_symlink parent) eqn:Hs; [|done]. rewrite <-He. symmetry. apply existsb_exists.
    exists parent. by rewrite <-list_elem_of_In.
  - intros Habs. destruct (normpath_absolute (path_text q) Habs) as (sl & comps & Hsl & Hc & Heq).
    match goal with H : path_text q = normpath _ |- _ => rewrite H, Heq end.
    rewrite <-(app_nil_r (join_with 47 comps)). by apply (normal_comps sl comps false).
  - match goal with H : commonpath _ _ = Some _ |- _ => rename H into Hcommon end.
    assert (∀ s, real s → starts_with (u "/") s = true) as Habs by (intros s ->; done).
    unfold commonpath in Hcommon. rewrite !Habs in Hcommon by done. cbn [Bool.eqb] in Hcommon.
    injection Hcommon as Hcommon.
    match goal with H : ?x = realpath root |- _ => rename H into Heq end. rewrite <-Hcommon in Heq.
    set (cp := common_prefix (components (realpath q)) (components (realpath root))) in *.
    destruct (common_prefix_of (components (realpath q)) (components (realpath root))) as [Hpre Hpre']. fold cp in Hpre, Hpre'.
    assert (components (realpath root) = cp) as ->; [|done].
    rewrite <-Heq. apply components_joined. destruct Hpre' as [l Hl].
    assert (Forall plain_comp (components (realpath root))) as Hall.
    { pose proof (components_plain (realpath root)) as Hpl. rewrite Forall_forall in *. intros c Hc.
      destruct (Hpl c Hc) as (? & ? & ?). specialize (Hdots c Hc). done. }
    rewrite Hl in Hall. by apply Forall_app in Hall as [? _].
Qed.

(** The capture holds the first bytes of what was written. *)
Lemma capture_prefix writes : capture writes = take MAX_STDOUT_BYTES (concat (map encode_replace writes)).
Proof.
  unfold capture. generalize MAX_STDOUT_BYTES. intros limit.
  assert (∀ ws buffer, (length buffer <= limit)%nat →
    foldl (capture_write limit) buffer ws = buffer ++ take (limit - length buffer) (concat (map encode_replace ws))) as Hfold.
  { induction ws as [|w ws IH]; intros buffer Hle; cbn [foldl map concat]; [by rewrite take_nil, app_nil_r|].
    unfold capture_write at 2. destruct (Nat.ltb_spec 0 (limit - length buffer)) as [Hlt|Hge].
    - rewrite IH by (rewrite length_app, length_take; lia). rewrite length_app, length_take, <-app_assoc. f_equal.
      rewrite take_app. f_equal. f_equal. lia.
    - rewrite IH by done. replace (limit - length buffer)%nat with 0%nat by lia. done. }
  rewrite Hfold by (cbn; lia). cbn [length app]. by rewrite Nat.sub_0_r.
Qed.

(** No argument vector that asks for live delivery reaches [jobs.main]. *)
Lemma dispatch_refuses jobs_main argv :
  LIVE_FLAG ∈ argv → _dispatch jobs_main argv = Err (exn_of "DeliveryForbiddenError").
Proof. intros Hin. unfold _dispatch. by rewrite bool_decide_eq_true_2. Qed.

(** Completed means that the job returned zero. *)
Lemma dispatch_completed jobs_main argv r :
  _dispatch jobs_main argv = Ok r →
  LIVE_FLAG ∉ argv ∧ (dr_status r = Completed ∨ dr_status r = Failed) ∧
  (dr_status r = Completed ↔ job_ends (jobs_main argv) = Returns 0 ∨ job_ends (jobs_main argv) = Exits (Some 0)) ∧
  (dr_status r = Completed ↔ exit_code r = 0).
Proof.
  unfold _dispatch. intros Hr. inv_ok. split; [done|].
  assert (∀ o, default 1 o = match o with Some c => c | None => 1 end) as Hdefault by by intros [].
  destruct (job_ends (jobs_main argv)) as [code|code|e]; rewrite ?Hdefault; [|destruct code as [code|]|];
    try (destruct (Z.eqb_spec code 0) as [->|Hne]); cbn [dr_status exit_code Z.eqb];
    (split; [auto|]); split; split; intros Hx; try discriminate; auto; try (destruct Hx as [Hx|Hx]); congruence.
Qed.

Lemma path_contained_witness :
  let p := mk_path (u "/") [u "c"; u "lock"] in
  let root := mk_path (u "/") [u "c"] in
  p = p ∧ false = false ∧ Forall (λ _ : path, false = false) (path_parents p) ∧
  (starts_with (u "/") (path_text p) = true → normal_path (path_text p)) ∧
  components (path_text root) `prefix_of` components (path_text p).
Proof.
  apply (path_contained (λ _, false) path_text (mk_path (u "/") [u "c"; u "lock"]) (mk_path (u "/") [u "c"])
    (mk_path (u "/") [u "c"; u "lock"])).
  - vm_compute. reflexivity.
  - vm_compute. reflexivity.
  - vm_compute. reflexivity.
  - repeat constructor. discriminate.
Defined.

(** Validation completes exactly for a sound store without delivery tasks and a
    state database that its snapshot calls version 6 and ready. *)
Theorem validate_completes repr_strs repr_rows str_of checks state_db s r :
  run_validate repr_strs repr_rows str_of (Ok checks) state_db s = Ok r →
  (dr_status r = Completed ↔
   integrity checks = [u "ok"] ∧ fk_rows checks = [] ∧ delivery_kinds checks = [] ∧
   ∃ items, s = Snapshot items ∧ truthy (get_or items "schema_v6" JNull) = true ∧
     truthy (get_or items "ready" JNull) = true).
Proof.
  unfold run_validate. intros Hr. inv_ok.
  match goal with H : _read_state_health s = Ok ?h |- _ => rename H into Hh; rename h into health end.
  assert ((truthy (get_or health "schema_v6" JNull) = true ∧ truthy (get_or health "ready" JNull) = true) ↔
    ∃ items, s = Snapshot items ∧ truthy (get_or items "schema_v6" JNull) = true ∧
      truthy (get_or items "ready" JNull) = true) as <-.
  { destruct s as [|c|e|items]; cbn [_read_state_health] in Hh.
    1-3: injection Hh as <-; split; [intros [H _]; vm_compute in H; done|intros (items & ? & _); done].
    inv_ok. change (get_or _ "schema_v6" JNull) with (JBool (truthy (get_or items "schema_v6" JNull))) at 1.
    change (get_or (_ :: _ :: _ :: _) "ready" JNull) with (JBool (truthy (get_or items "ready" JNull))) at 1.
    cbn [truthy]. split; [intros [? ?]; by exists items|]. by intros (items' & [= <-] & ?). }
  repeat case_bool_decide; cbn [negb] in Hr; try (injection Hr as <-; cbn [dr_status]; split; [done|tauto]).
  destruct (truthy (get_or health "schema_v6" JNull)), (truthy (get_or health "ready" JNull)); cbn [negb orb] in Hr;
    injection Hr as <-; cbn [dr_status]; split; try done; intros (_ & _ & _ & ? & ?); done.
Qed.

Lemma validate_completes_witness :
  let r := mk_dispatch 0 335 (stdout_hash (match run_validate (λ _, []) (λ _, []) (λ _, []) (Ok (mk_checks [u "ok"] [] 1 [])) None
      (Snapshot [(u "schema_v6", JBool true); (u "ready", JBool true)]) with Ok r => r | Err e => failed_result e end))
      Completed None None in
  dr_status r = Completed ↔
   integrity (mk_checks [u "ok"] [] 1 []) = [u "ok"] ∧ fk_rows (mk_checks [u "ok"] [] 1 []) = [] ∧
   delivery_kinds (mk_checks [u "ok"] [] 1 []) = [] ∧
   ∃ items, Snapshot [(u "schema_v6", JBool true); (u "ready", JBool true)] = Snapshot items ∧
     truthy (get_or items "schema_v6" JNull) = true ∧ truthy (get_or items "ready" JNull) = true.
Proof.
  apply (validate_completes (λ _, []) (λ _, []) (λ _, []) (mk_checks [u "ok"] [] 1 []) None
    (Snapshot [(u "schema_v6", JBool true); (u "ready", JBool true)])).
  vm_compute. reflexivity.
Defined.
