(* ===== verification/Worker.v ===== *)
(** * Worker: the loop of a container worker, among other workers.

    [run_worker] and [_LeaseRenewer] of [scripts/news_container/worker.py].  A
    worker selects, takes the lock, claims, runs its job while a thread renews the
    lease, and completes.  Between any two of its statements other processes, its
    renewal thread and the job itself may change the control store: a turn of the
    loop is given the clock readings, the outcome of the lock and of the job, and a
    [gap] for each point where the store may have changed. *)
From S2P Require Import Prelude Text Sha256 Json Calendar Timestamps Investigation ControlStore Leases WorkerJobs.
Local Open Scope Z_scope.

(** [f"{role}@{os.getpid()}#{n}"] *)
Definition _unique_owner (role : str) (pid n : N) : str := role ++ u "@" ++ dec_of_N pid ++ u "#" ++ dec_of_N n.

Record WorkerConfig := mk_config
  { w_kind : str; w_control_db : path; w_state_db : path; w_artifact_root : path; w_lock_path : path;
    w_owner : str; claim_ttl_seconds : Z; w_canary_root : option path; max_iterations : nat;
    lease_renew_seconds : Z }.

Inductive worker_error :=
  | UnknownKind
  | PathRefused (e : path_error)
  | RuntimeRefused.

(** The checks before the loop. *)
Definition check_config (is_symlink : path → bool) (realpath : path → str) (production : bool) (cfg : WorkerConfig)
    : result worker_error unit :=
  _ ← raise_if (negb (bool_decide (w_kind cfg ∈ ALLOWED_KINDS))) UnknownKind;
  _ ← map_err PathRefused
        (mapR (λ p, assert_path_within_canary is_symlink realpath p (w_canary_root cfg))
           [w_control_db cfg; w_state_db cfg; w_artifact_root cfg; w_lock_path cfg]);
  _ ← match w_canary_root cfg with
      | Some root => map_err PathRefused (assert_canary_mode is_symlink realpath true (Some root))
      | None => Ok None
      end;
  _ ← raise_if production RuntimeRefused;
  raise_if (existsb (λ part, bool_decide (part ∈ map u ["prod"; "production"])) (path_parts (w_control_db cfg)))
    RuntimeRefused.

(** ** What a turn meets *)

Abbreviation gap := (control_db → control_db).

(** A tick of the renewal thread; [sqlite3.Error] if the connection fails. *)
Record tick := mk_tick { tick_gap : gap; tick_now : Z; tick_fails : bool }.

Inductive lock_outcome := LockTaken | LockContended | LockFails (e : exn).

Record turn := mk_turn
  { gap_select : gap; now_select : Z; t_lock : lock_outcome;
    gap_claim : gap; now_claim : Z;
    ticks : list tick; jobs_main : list str → job_run;
    read_checks : result exn (list str * list (Z * str * str) * Z); health : snapshot;
    late_ticks : list tick; gap_complete : gap; now_complete : Z }.

(** The counters, and for the theorems the claims and the runs of this worker. *)
Record worker_state := mk_worker
  { processed : nat; failed : nat; fence_lost : nat; claimed : list (str * Z); written : list run }.
Definition fresh_worker : worker_state := mk_worker 0 0 0 [] [].

Definition had_failures (s : worker_state) : bool := (0 <? failed s)%nat || (0 <? fence_lost s)%nat.

Inductive crash := StoreRaises (e : py_error) | LockRaises (e : exn) | PayloadUnreadable.
Inductive turn_end := Idle | Done | Crashes (c : crash).

(** The subclasses of [ControlStoreError]. *)
Definition is_control_store_error (e : py_error) : bool :=
  match e with ValueError | IntegrityError => false | _ => true end.

Inductive renewer := Alive | Lost | Dead.
#[export] Instance renewer_eq_dec : EqDecision renewer.
Proof. solve_decision. Defined.

Section worker.
Context `{IsoParser} (repr_strs : list str → str) (repr_rows : list (Z * str * str) → str) (str_of : json → str).
Context (cfg : WorkerConfig) (owner : str).

(** [_LeaseRenewer._run], as far as it comes. *)
Fixpoint renew_ticks (task_id : str) (generation : Z) (r : renewer) (l : list tick) (db : control_db)
    : renewer * control_db :=
  match l with
  | [] => (r, db)
  | t :: l =>
      let db := tick_gap t db in
      match r with
      | Alive =>
          if tick_fails t then renew_ticks task_id generation Lost l db
          else match renew_claim task_id owner generation (claim_ttl_seconds cfg) (tick_now t) db with
               | (Ok _, db) => renew_ticks task_id generation Alive l db
               | (Err ClaimMismatchError, db) => renew_ticks task_id generation Lost l db
               | (Err _, db) => renew_ticks task_id generation Dead l db
               end
      | _ => renew_ticks task_id generation r l db
      end
  end.

Definition job_result (t : turn) (task_id due_slot_utc : str) (payload : json) (generation : Z) (db : control_db)
    : DispatchResult :=
  let outcome :=
    if bool_decide (w_kind cfg = u "validate") then
      run_validate repr_strs repr_rows str_of
        ((λ '(i, f, v), mk_checks i f v (zero_delivery_check db).2) <$> read_checks t)
        (Some (path_text (w_state_db cfg))) (health t)
    else
      argv ← build_argv (w_kind cfg)
        (mk_context (path_text (w_state_db cfg)) (path_text (w_artifact_root cfg)) task_id due_slot_utc payload
           (Some (path_text (w_control_db cfg))) (Some owner) (Some generation));
      _dispatch (jobs_main t) argv in
  match outcome with
  | Ok r => r
  | Err e => if bool_decide (exn_class e = u "DeliveryForbiddenError") then refused_result e else failed_result e
  end.

Definition report_of (r : DispatchResult) : report :=
  mk_report (Some (exit_code r)) (Some (stdout_hash r)) (error_class r) (error_message r)
    (path_text <$> w_canary_root cfg).

(** The work on a claimed task. *)
Definition work_claimed (t : turn) (task_id due_slot_utc : str) (payload : json) (generation : Z)
    (s : worker_state) (db : control_db) : turn_end * worker_state * control_db :=
  let s := mk_worker (processed s) (failed s) (fence_lost s) (claimed s ++ [(task_id, generation)]) (written s) in
  let renewing := if 0 <? lease_renew_seconds cfg then Alive else Dead in
  let '(r, db) := renew_ticks task_id generation renewing (ticks t) db in
  let result := job_result t task_id due_slot_utc payload generation db in
  let lost := bool_decide (r = Lost) in
  let '(_, db) := renew_ticks task_id generation r (late_ticks t) db in
  if lost then (Done, mk_worker (processed s) (failed s) (S (fence_lost s)) (claimed s) (written s), db)
  else
    let db := gap_complete t db in
    match complete task_id owner generation (dr_status result) (report_of result) (now_complete t) db with
    | (Ok _, db) =>
        (Done, mk_worker (S (processed s)) (if bool_decide (dr_status result = Failed) then S (failed s) else failed s)
                 (fence_lost s) (claimed s)
                 (written s ++ [run_of task_id owner generation (dr_status result) (report_of result) (now_complete t)]), db)
    | (Err e, db) =>
        if is_control_store_error e
        then (Done, mk_worker (processed s) (S (failed s)) (fence_lost s) (claimed s) (written s), db)
        else (Crashes (StoreRaises e), s, db)
    end.

(** One turn of the loop, after the check of the iterations. *)
Definition work_turn (t : turn) (s : worker_state) (db : control_db) : turn_end * worker_state * control_db :=
  let db := gap_select t db in
  match selectable_tasks db (w_kind cfg) (now_select t) (Some 1%nat) with
  | Err e => (Crashes (StoreRaises e), s, db)
  | Ok [] => (Idle, s, db)
  | Ok ((task_id, row) :: _) =>
      match (match t_payload_json row with [] => Some (JObj []) | text => loads text end) with
      | None => (Crashes PayloadUnreadable, s, db)
      | Some payload =>
          match t_lock t with
          | LockContended => (Done, s, db)
          | LockFails e => (Crashes (LockRaises e), s, db)
          | LockTaken =>
              let db := gap_claim t db in
              match claim task_id owner (claim_ttl_seconds cfg) (now_claim t) db with
              | (Ok (generation, _, _), db) => work_claimed t task_id (t_due_slot_utc row) payload generation s db
              | (Err e, db) =>
                  if is_control_store_error e then (Done, s, db) else (Crashes (StoreRaises e), s, db)
              end
          end
      end
  end.

Inductive worker_end := Returned | Raised (c : crash) | StillRunning.

(** The loop over the turns it is given; [budget] is [None] without a limit. *)
Fixpoint run_loop (budget : option nat) (turns : list turn) (s : worker_state) (db : control_db)
    : worker_end * worker_state * control_db :=
  match budget with
  | Some 0%nat => (Returned, s, db)
  | _ =>
      match turns with
      | [] => (StillRunning, s, db)
      | t :: turns =>
          match work_turn t s db with
          | (Idle, s, db) =>
              match budget with
              | Some _ => (Returned, s, db)
              | None => run_loop None turns s db
              end
          | (Done, s, db) => run_loop (pred <$> budget) turns s db
          | (Crashes c, s, db) => (Raised c, s, db)
          end
      end
  end.

Definition run_worker (turns : list turn) (db : control_db) : worker_end * worker_state * control_db :=
  run_loop (match max_iterations cfg with 0%nat => None | n => Some n end) turns fresh_worker db.
End worker.
