(* ===== verification/WorkerFacts.v ===== *)
(** * WorkerFacts: what a worker may claim to have done.

    A worker is one more client of the store.  It never counts work that is not
    recorded: each processed task has its run row, written under the worker's own
    lease, and a worker that reports no failure has completed every task it
    claimed.  A turn without interference finishes a claimable task. *)
From S2P Require Import Prelude Text Sha256 Json Calendar Timestamps Investigation ControlStore Leases WorkerJobs Worker.
Local Open Scope Z_scope.

Section facts.
Context `{IsoParser} (repr_strs : list str → str) (repr_rows : list (Z * str * str) → str) (str_of : json → str).
Context (cfg : WorkerConfig) (owner : str).

Abbreviation renew_ticks := (renew_ticks cfg owner).
Abbreviation job_result := (job_result repr_strs repr_rows str_of cfg owner).
Abbreviation work_claimed := (work_claimed repr_strs repr_rows str_of cfg owner).
Abbreviation work_turn := (work_turn repr_strs repr_rows str_of cfg owner).
Abbreviation run_loop := (run_loop repr_strs repr_rows str_of cfg owner).
Abbreviation run_worker := (run_worker repr_strs repr_rows str_of cfg owner).
Abbreviation report_of := (report_of cfg).

(** ** The environment *)

(** Others change the store by operations of the store only. *)
Definition gap_ok (g : gap) : Prop := ∀ db, control_steps db (g db).

(** The times that are printed lie in the calendar. *)
Definition lease_time (now : Z) : Prop := instant (shift now (claim_ttl_seconds cfg)).

Definition tick_ok (t : tick) : Prop := gap_ok (tick_gap t) ∧ lease_time (tick_now t).

Record turn_ok (t : turn) : Prop := {
  ok_select : gap_ok (gap_select t); ok_claim : gap_ok (gap_claim t); ok_complete : gap_ok (gap_complete t);
  ok_now : lease_time (now_claim t); ok_ticks : Forall tick_ok (ticks t); ok_late : Forall tick_ok (late_ticks t) }.

Lemma control_steps_app db1 db2 db3 : control_steps db1 db2 → control_steps db2 db3 → control_steps db1 db3.
Proof. intros H1 H2. induction H2; [done|by eapply control_trans]. Qed.

Lemma control_steps_one db db' : control_step db db' → control_steps db db'.
Proof. intros Hs. eapply control_trans; [apply control_refl|done]. Qed.

Lemma renew_ticks_steps id g r l db :
  Forall tick_ok l → control_steps db (renew_ticks id g r l db).2.
Proof.
  intros Hl. revert r db. induction Hl as [|t l [Hg Ht] _ IH]; intros r db; cbn [Worker.renew_ticks]; [apply control_refl|].
  eapply control_steps_app; [apply Hg|]. destruct r; [|apply IH..]. destruct (tick_fails t); [apply IH|].
  destruct (renew_claim id owner g (claim_ttl_seconds cfg) (tick_now t) (tick_gap t db)) as [res db'] eqn:Hr.
  apply step_renew in Hr; [|done]. eapply control_steps_app; [by apply control_steps_one|].
  destruct res as [x|[]]; apply IH.
Qed.

(** ** The result of a job *)

Lemma run_validate_status checks state_db s r :
  run_validate repr_strs repr_rows str_of checks state_db s = Ok r →
  (dr_status r = Completed ∧ exit_code r = 0) ∨ (dr_status r = Failed ∧ exit_code r ≠ 0).
Proof.
  unfold run_validate. destruct checks as [checks|e]; [|intros [= <-]; by right]. intros Hr. inv_ok.
  repeat case_match; injection Hr as <-; (by left) || by right.
Qed.

Lemma job_result_status t id slot payload g db :
  let r := job_result t id slot payload g db in
  (dr_status r = Completed ∧ exit_code r = 0) ∨ (dr_status r = Failed ∧ exit_code r ≠ 0).
Proof.
  cbv zeta. unfold Worker.job_result. case_bool_decide.
  - destruct (run_validate _ _ _ _ _ _) as [r|e] eqn:Hr; [by eapply run_validate_status|].
    case_bool_decide; by right.
  - destruct (build_argv _ _) as [argv|e]; cbn [mbind result_bind]; [|case_bool_decide; by right].
    destruct (_dispatch (jobs_main t) argv) as [r|e] eqn:Hr; [|case_bool_decide; by right].
    apply dispatch_completed in Hr as (_ & Hs & _ & Hexit). destruct Hs as [Hs|Hs]; [left; tauto|right].
    split; [done|]. intros Hz. apply Hexit in Hz. congruence.
Qed.

(** ** The accounts *)

Definition is_failed (r : run) : bool := bool_decide (run_status r = Failed).

(** The counters tell what the lists of claims and runs contain. *)
Record accounts (s : worker_state) (db : control_db) : Prop := {
  acc_processed : processed s = length (written s);
  acc_claimed : (length (claimed s) + length (List.filter is_failed (written s)) = processed s + failed s + fence_lost s)%nat;
  acc_failed : (length (List.filter is_failed (written s)) <= failed s)%nat;
  acc_written : Forall (λ r, r ∈ runs db ∧ run_owner r = owner ∧ run_key r ∈ claimed s ∧
    (run_status r = Completed ∧ run_exit_code r = Some 0 ∨ run_status r = Failed ∧ run_exit_code r ≠ Some 0)) (written s);
  acc_clean : failed s = 0%nat → fence_lost s = 0%nat → map run_key (written s) = claimed s }.

Lemma accounts_later s db db' : control_wf db → control_steps db db' → accounts s db → accounts s db'.
Proof.
  intros Hwf Hs [H1 H2 H3 H4 H5]. constructor; try done. eapply Forall_impl; [exact H4|].
  intros r (Hr & Hrest). split; [|done]. destruct (control_steps_history db db' Hs Hwf) as [[l Hl] _].
  rewrite Hl. apply elem_of_app. by left.
Qed.

Lemma fresh_accounts db : accounts fresh_worker db.
Proof. constructor; cbn; auto. Qed.

Lemma work_claimed_spec t id slot payload g s db e s' db' :
  turn_ok t → control_wf db → accounts s db →
  work_claimed t id slot payload g s db = (e, s', db') →
  control_steps db db' ∧ (e = Done → accounts s' db') ∧ e ≠ Idle.
Proof.
  intros Ht Hwf Hacc. unfold Worker.work_claimed.
  set (renewing := if 0 <? lease_renew_seconds cfg then Alive else Dead). clearbody renewing.
  destruct (renew_ticks id g renewing (ticks t) db) as [r db1] eqn:Hr1.
  pose proof (renew_ticks_steps id g renewing (ticks t) db (ok_ticks t Ht)) as Hs1. rewrite Hr1 in Hs1. cbn [snd] in Hs1.
  set (result := job_result t id slot payload g db1).
  pose proof (job_result_status t id slot payload g db1) as Hstatus. cbv zeta in Hstatus. fold result in Hstatus.
  clearbody result.
  destruct (renew_ticks id g r (late_ticks t) db1) as [r2 db2] eqn:Hr2.
  pose proof (renew_ticks_steps id g r (late_ticks t) db1 (ok_late t Ht)) as Hs2. rewrite Hr2 in Hs2. cbn [snd] in Hs2.
  cbn [processed failed fence_lost claimed written].
  assert (control_steps db db2) as Hs12 by by eapply control_steps_app.
  assert (control_steps db (gap_complete t db2)) as Hs3 by (eapply control_steps_app; [done|apply (ok_complete t Ht)]).
  case_bool_decide as Hlost.
  { intros [= <- <- <-]. split; [done|]. split; [|done]. intros _.
    pose proof (accounts_later _ _ _ Hwf Hs12 Hacc) as [H1 H2 H3 H4 H5]. constructor; cbn; try done.
    - rewrite length_app. cbn. lia.
    - eapply Forall_impl; [exact H4|]. intros x (? & ? & Hk & ?). rewrite elem_of_app. auto. }
  destruct (complete id owner g (dr_status result) (report_of result) (now_complete t) (gap_complete t db2))
    as [res db3] eqn:Hc.
  pose proof (step_complete _ _ _ _ _ _ _ _ _ Hc) as Hstep.
  assert (control_steps db db3) as Hs4 by by eapply control_trans.
  pose proof (accounts_later _ _ _ Hwf Hs4 Hacc) as [H1 H2 H3 H4 H5].
  destruct res as [[]|err].
  - apply complete_Ok in Hc as (_ & _ & _ & Hdb & _). intros [= <- <- <-]. split; [done|]. split; [|done]. intros _.
    set (r0 := run_of id owner g (dr_status result) (report_of result) (now_complete t)).
    assert (is_failed r0 = bool_decide (dr_status result = Failed)) as Hf by done.
    constructor; cbn [processed failed fence_lost claimed written].
    + rewrite length_app. cbn. lia.
    + rewrite List.filter_app, !length_app. cbn [List.filter]. rewrite Hf. case_bool_decide; cbn; lia.
    + rewrite List.filter_app, length_app. cbn [List.filter]. rewrite Hf. case_bool_decide; cbn; lia.
    + apply Forall_app. split.
      * eapply Forall_impl; [exact H4|]. intros x (? & ? & Hk & ?). rewrite elem_of_app. auto.
      * constructor; [|constructor]. split_and!.
        -- rewrite Hdb. unfold completed_db. cbn [set_claims set_task_state set_tasks set_runs runs].
           apply elem_of_app. right. by left.
        -- done.
        -- apply elem_of_app. right. by left.
        -- subst r0. cbn. destruct Hstatus as [[-> ->]|[-> Hx]]; [by left|right]. split; [done|]. congruence.
    + intros Hfz Hlz. case_bool_decide; [done|]. by rewrite map_app, H5.
  - destruct (is_control_store_error err).
    + intros [= <- <- <-]. split; [done|]. split; [|done]. intros _. constructor; cbn; try done.
      * rewrite length_app. cbn. lia.
      * lia.
      * eapply Forall_impl; [exact H4|]. intros x (? & ? & Hk & ?). rewrite elem_of_app. auto.
    + by intros [= <- <- <-].
Qed.

Lemma work_turn_spec t s db e s' db' :
  turn_ok t → control_wf db → accounts s db → work_turn t s db = (e, s', db') →
  control_steps db db' ∧ ((∀ c, e ≠ Crashes c) → accounts s' db').
Proof.
  intros Ht Hwf Hacc. unfold Worker.work_turn. pose proof (ok_select t Ht db) as Hs1.
  pose proof (control_steps_wf _ _ Hs1 Hwf) as Hwf1. pose proof (accounts_later _ _ _ Hwf Hs1 Hacc) as Hacc1.
  destruct (selectable_tasks (gap_select t db) (w_kind cfg) (now_select t) (Some 1%nat)) as [[|[id row] l]|err];
    [by intros [= <- <- <-]| |intros [= <- <- <-]; split; [done|]; intros Hx; by destruct (Hx (StoreRaises err))].
  destruct (match t_payload_json row with [] => Some (JObj []) | text => loads text end) as [payload|];
    [|intros [= <- <- <-]; split; [done|]; intros Hx; by destruct (Hx PayloadUnreadable)].
  destruct (t_lock t) as [| |le];
    [|by intros [= <- <- <-]|intros [= <- <- <-]; split; [done|]; intros Hx; by destruct (Hx (LockRaises le))].
  pose proof (ok_claim t Ht (gap_select t db)) as Hs2.
  pose proof (control_steps_app _ _ _ Hs1 Hs2) as Hs12.
  destruct (claim id owner (claim_ttl_seconds cfg) (now_claim t) (gap_claim t (gap_select t db))) as [res db2] eqn:Hc.
  apply step_claim in Hc; [|apply (ok_now t Ht)].
  assert (control_steps db db2) as Hs3 by by eapply control_trans.
  pose proof (control_steps_wf _ _ Hs3 Hwf) as Hwf3. pose proof (accounts_later _ _ _ Hwf Hs3 Hacc) as Hacc3.
  destruct res as [[[g a] x]|err].
  - intros Hw. destruct (work_claimed_spec _ _ _ _ _ _ _ _ _ _ Ht Hwf3 Hacc3 Hw) as (Hs4 & Hdone & Hidle).
    split; [by eapply control_steps_app|]. intros Hnc. apply Hdone. destruct e as [| |c]; [done|done|by destruct (Hnc c)].
  - destruct (is_control_store_error err); intros [= <- <- <-]; (split; [done|]); [done|].
    intros Hx. by destruct (Hx (StoreRaises err)).
Qed.

Lemma run_loop_spec budget turns s db e s' db' :
  Forall turn_ok turns → control_wf db → accounts s db → run_loop budget turns s db = (e, s', db') →
  control_steps db db' ∧ ((∀ c, e ≠ Raised c) → accounts s' db').
Proof.
  intros Hts. revert budget s db. induction Hts as [|t turns Ht _ IH]; intros budget s db Hwf Hacc;
    destruct budget as [[|n]|]; cbn [Worker.run_loop];
    try (intros [= <- <- <-]; split; [apply control_refl|done]).
  - destruct (work_turn t s db) as [[e1 s1] db1] eqn:Hw.
    destruct (work_turn_spec _ _ _ _ _ _ Ht Hwf Hacc Hw) as [Hs1 Ha1].
    destruct e1 as [| |c].
    + intros [= <- <- <-]. split; [done|]. intros _. by apply Ha1.
    + intros Hr. apply IH in Hr as [Hs2 Ha2]; [|by eapply control_steps_wf|by apply Ha1].
      split; [by eapply control_steps_app|done].
    + intros [= <- <- <-]. split; [done|]. intros Hx. by destruct (Hx c).
  - destruct (work_turn t s db) as [[e1 s1] db1] eqn:Hw.
    destruct (work_turn_spec _ _ _ _ _ _ Ht Hwf Hacc Hw) as [Hs1 Ha1].
    destruct e1 as [| |c].
    + intros Hr. apply IH in Hr as [Hs2 Ha2]; [|by eapply control_steps_wf|by apply Ha1].
      split; [by eapply control_steps_app|done].
    + intros Hr. apply IH in Hr as [Hs2 Ha2]; [|by eapply control_steps_wf|by apply Ha1].
      split; [by eapply control_steps_app|done].
    + intros [= <- <- <-]. split; [done|]. intros Hx. by destruct (Hx c).
Qed.

(** C7: A worker that does not crash keeps honest accounts, whatever the other
    processes do: it changed the store by operations of the store only; each
    processed task has its run row, written with this owner under a claim of this
    worker, completed exactly if the job returned zero; and if it reports neither a
    failure nor a lost fence, every task it claimed is completed. *)
Theorem worker_truthful turns db e s db' :
  Forall turn_ok turns → control_wf db → run_worker turns db = (e, s, db') → (∀ c, e ≠ Raised c) →
  control_steps db db' ∧ processed s = length (written s) ∧
  Forall (λ r, r ∈ runs db' ∧ run_owner r = owner ∧ run_key r ∈ claimed s ∧
    (run_status r = Completed ∧ run_exit_code r = Some 0 ∨ run_status r = Failed ∧ run_exit_code r ≠ Some 0)) (written s) ∧
  (had_failures s = false →
   ∀ id g, (id, g) ∈ claimed s → ∃ r, r ∈ runs db' ∧ run_key r = (id, g) ∧ run_owner r = owner ∧
     run_status r = Completed ∧ run_exit_code r = Some 0).
Proof.
  intros Hts Hwf Hr Hnc. unfold Worker.run_worker in Hr.
  apply run_loop_spec in Hr as [Hs Hacc]; [|done|done|apply fresh_accounts].
  destruct (Hacc Hnc) as [H1 H2 H3 H4 H5]. split_and!; [done..|]. intros Hno id g Hin.
  unfold had_failures in Hno. apply orb_false_iff in Hno as [Hf%Nat.ltb_ge Hl%Nat.ltb_ge].
  rewrite <-H5 in Hin by lia. apply list_elem_of_fmap in Hin as (r & Hk & Hin).
  rewrite Forall_forall in H4. destruct (H4 r Hin) as (Hrun & Ho & _ & Hst).
  exists r. split_and!; [done|done|done| |].
  - destruct Hst as [[? _]|[Hfailed _]]; [done|exfalso].
    assert (r ∈ List.filter is_failed (written s)) as Hx.
    { rewrite list_elem_of_In, List.filter_In, <-list_elem_of_In. split; [done|]. unfold is_failed.
      by rewrite bool_decide_eq_true_2. }
    destruct (List.filter is_failed (written s)); [inversion Hx|cbn in H3; lia].
  - destruct Hst as [[_ ?]|[Hfailed _]]; [done|exfalso].
    assert (r ∈ List.filter is_failed (written s)) as Hx.
    { rewrite list_elem_of_In, List.filter_In, <-list_elem_of_In. split; [done|]. unfold is_failed.
      by rewrite bool_decide_eq_true_2. }
    destruct (List.filter is_failed (written s)); [inversion Hx|cbn in H3; lia].
Qed.

(** ** A quiet turn *)

(** A new lease holds until it expires. *)
Lemma new_lease id ttl now db t a x db' :
  control_wf db → tasks db !! id = Some t → instant (shift now ttl) →
  claim id owner ttl now db = (Ok (t_generation t + 1, a, x), db') →
  is_Some (tasks db' !! id) ∧
  ∀ later, later < shift now ttl → is_ok (fenced_claim db' id owner (t_generation t + 1) later) = true.
Proof.
  intros Hwf Ht Hi Hrun. apply claim_Ok in Hrun as (_ & t' & Ht' & _ & Hm). simplify_eq.
  assert (∃ c ts, db' = claimed_db id c ts db ∧ c_owner c = owner ∧
    c_generation c = t_generation t + 1 ∧ c_expires_at_utc c = utc_now_iso (shift now ttl))
    as (c & ts & -> & Ho & Hg & Hx).
  { destruct (claims db !! id) as [c|] eqn:Hcl.
    - destruct Hm as (expiry & _ & Hm). destruct (expiry <=? now).
      + destruct Hm as (Hg & -> & -> & ->). by eexists _, _.
      + destruct Hm as (_ & Hg & _). destruct Hwf as (Hc & _).
        destruct (Hc id c Hcl) as (t' & ? & _ & Hg' & _). simplify_eq. lia.
    - destruct Hm as (Hg & -> & -> & ->). by eexists _, _. }
  split; [rewrite claimed_db_tasks, decide_True by done; rewrite Ht; by eexists|].
  intros later Hlater. rewrite is_ok_true. exists c. apply fenced_claim_Ok.
  rewrite claimed_db_claims, decide_True by done. split_and!; [done..|].
  exists (shift now ttl). rewrite Hx. unfold parse_utc. by rewrite parse_utc_now_iso.
Qed.

(** Nobody else acts during the turn. *)
Definition quiet (t : turn) : Prop :=
  (∀ db, gap_select t db = db) ∧ (∀ db, gap_claim t db = db) ∧ (∀ db, gap_complete t db = db) ∧
  ticks t = [] ∧ late_ticks t = [].

(** In a quiet turn the worker finishes the oldest task it is offered, if the job
    ends before the lease: the task is closed with one run, completed if the job
    returned zero, and the claim is released. *)
Theorem turn_finishes t s db id row l payload :
  control_wf db → quiet t → t_lock t = LockTaken →
  instant (now_select t) → now_select t <= now_claim t → lease_time (now_claim t) → 0 < claim_ttl_seconds cfg →
  now_complete t < shift (now_claim t) (claim_ttl_seconds cfg) →
  selectable_tasks db (w_kind cfg) (now_select t) None = Ok ((id, row) :: l) →
  loads (t_payload_json row) = Some payload →
  ∃ result s' db', work_turn t s db = (Done, s', db') ∧
    processed s' = S (processed s) ∧ fence_lost s' = fence_lost s ∧
    failed s' = (if bool_decide (dr_status result = Failed) then S (failed s) else failed s) ∧
    (∃ claimed_store, result = job_result t id (t_due_slot_utc row) payload (t_generation row + 1) claimed_store) ∧
    runs db' = runs db ++ [run_of id owner (t_generation row + 1) (dr_status result) (report_of result) (now_complete t)] ∧
    t_state <$> tasks db' !! id = Some (dr_status result) ∧ claims db' !! id = None.
Proof.
  intros Hwf (Hg1 & Hg2 & Hg3 & Hti & Hla) Hlock Hinst Hle Hlease Httl Hlate Hsel Hload.
  unfold selectable_tasks in Hsel. destruct (validate_kind (w_kind cfg)) as [k|] eqn:Hk; [|done].
  cbn [mbind result_bind limited] in Hsel. injection Hsel as Hsel.
  assert ((id, row) ∈ (id, row) :: l) as Hin by left. rewrite <-Hsel in Hin.
  apply list_elem_of_filter in Hin as [[_ Hel] Hrow]. rewrite ordered_tasks_elem in Hrow.
  apply eligible_free in Hel; [|done..].
  assert (t_state row = Pending ∨ (t_state row = Claimed ∧ ∃ c e, claims db !! id = Some c ∧
    instant e ∧ c_expires_at_utc c = utc_now_iso e ∧ e <= now_claim t)) as Hfree.
  { destruct Hel as [Hp|(Hc & c & e & H1 & H2 & H3 & H4)]; [by left|right]. split; [done|].
    exists c, e. split_and!; [done..|lia]. }
  destruct (claim_free id owner (claim_ttl_seconds cfg) (now_claim t) db row Hwf Hrow Httl Hfree) as (a & db1 & Hclaim).
  destruct (new_lease id _ _ db row a _ db1 Hwf Hrow Hlease Hclaim) as [Htask Hfence].
  assert (runs db1 = runs db) as Hruns.
  { apply claim_Ok in Hclaim as (_ & t0 & _ & _ & Hm). destruct (claims db !! id) as [c|].
    - destruct Hm as (expiry & _ & Hm). destruct (expiry <=? now_claim t).
      + by destruct Hm as (_ & _ & _ & ->).
      + by destruct Hm as (_ & _ & _ & _ & ->).
    - by destruct Hm as (_ & _ & _ & ->). }
  set (result := job_result t id (t_due_slot_utc row) payload (t_generation row + 1) db1).
  pose proof (job_result_status t id (t_due_slot_utc row) payload (t_generation row + 1) db1) as Hst.
  cbv zeta in Hst. fold result in Hst.
  assert (complete id owner (t_generation row + 1) (dr_status result) (report_of result) (now_complete t) db1 =
    (Ok tt, completed_db id (run_of id owner (t_generation row + 1) (dr_status result) (report_of result) (now_complete t))
              (dr_status result) db1)) as Hcomplete.
  { apply complete_Ok. split_and!; try done; [|by apply Hfence]. destruct Hst as [[? _]|[? _]]; auto. }
  exists result. unfold Worker.work_turn. rewrite Hg1. unfold selectable_tasks. rewrite Hk. cbn [mbind result_bind limited].
  rewrite Hsel. cbn [take].
  assert ((match t_payload_json row with [] => Some (JObj []) | text => loads text end) = Some payload) as ->
    by (destruct (t_payload_json row); [by vm_compute in Hload|done]).
  rewrite Hlock, Hg2, Hclaim. unfold Worker.work_claimed. rewrite Hti, Hla. cbn [Worker.renew_ticks].
  fold result. destruct (0 <? lease_renew_seconds cfg);
    (rewrite bool_decide_eq_false_2 by done); rewrite Hg3, Hcomplete; eexists _, _; (split; [done|]);
    cbn [processed fence_lost failed]; (split_and!; [done|done|done| | | |]).
  all: try (by exists db1).
  all: try (unfold completed_db; cbn [set_claims set_task_state set_tasks set_runs runs]; by rewrite Hruns).
  all: unfold completed_db; cbn [set_claims claims tasks]; try apply lookup_delete_eq.
  all: rewrite set_task_state_lookup, decide_True by done; cbn [set_runs tasks]; destruct Htask as [t1 ->]; done.
Qed.
End facts.

(** ** A run *)

Definition sample_config : WorkerConfig :=
  mk_config (u "ingest") (mk_path (u "/") [u "c"; u "control.db"]) (mk_path (u "/") [u "c"; u "state.db"])
    (mk_path (u "/") [u "c"; u "out"]) (mk_path (u "/") [u "c"; u "lock"]) (u "ingest") 60
    (Some (mk_path (u "/") [u "c"])) 2 0.

Definition sample_turn : turn :=
  mk_turn (λ db, db) (at_second 0) LockTaken (λ db, db) (at_second 0) []
    (λ _, mk_job_run [u "done"] [] (Returns 0)) (Err (exn_of "RuntimeError")) NoStateDb [] (λ db, db) (at_second 5).

Definition sample_payload_db : control_db :=
  (enqueue (H := fixed_parser) (u "ingest") sample_slot
     [(u "sources", JStr (u "s.toml")); (u "topics", JStr (u "t.toml")); (u "policy", JStr (u "p.toml"))]
     (at_second 0) empty_control).2.

Definition worker_name : str := _unique_owner (u "ingest") 1 1.

Definition sample_run :=
  run_worker (H := fixed_parser) (λ _, []) (λ _, []) (λ _, []) sample_config worker_name [sample_turn; sample_turn]
    sample_payload_db.

Lemma sample_payload_wf : control_wf sample_payload_db.
Proof.
  apply (control_steps_wf (H := fixed_parser) empty_control); [|apply empty_control_wf].
  apply control_steps_one. unfold sample_payload_db.
  destruct (enqueue (u "ingest") sample_slot _ _ empty_control) as [res db] eqn:He. by eapply step_enqueue.
Qed.

Lemma sample_turn_ok : turn_ok (H := fixed_parser) sample_config sample_turn.
Proof.
  constructor; try (intros db; apply control_refl); try constructor.
  - apply (bool_decide_unpack _). vm_compute. exact I.
  - apply (bool_decide_unpack _). vm_compute. exact I.
Qed.

Lemma worker_truthful_witness :
  control_steps (H := fixed_parser) sample_payload_db sample_run.2 ∧
  processed sample_run.1.2 = length (written sample_run.1.2) ∧
  Forall (λ r, r ∈ runs sample_run.2 ∧ run_owner r = worker_name ∧ run_key r ∈ claimed sample_run.1.2 ∧
    (run_status r = Completed ∧ run_exit_code r = Some 0 ∨ run_status r = Failed ∧ run_exit_code r ≠ Some 0))
    (written sample_run.1.2) ∧
  (had_failures sample_run.1.2 = false →
   ∀ id g, (id, g) ∈ claimed sample_run.1.2 → ∃ r, r ∈ runs sample_run.2 ∧ run_key r = (id, g) ∧
     run_owner r = worker_name ∧ run_status r = Completed ∧ run_exit_code r = Some 0).
Proof.
  apply (worker_truthful (H := fixed_parser) (λ _, []) (λ _, []) (λ _, []) sample_config worker_name
    [sample_turn; sample_turn] sample_payload_db Returned).
  - repeat constructor; try apply sample_turn_ok.
  - apply sample_payload_wf.
  - vm_compute. reflexivity.
  - done.
Defined.

(** The run did something: one claim, one completed run. *)
Example sample_outcome :
  sample_run.1.1 = Returned ∧ processed sample_run.1.2 = 1%nat ∧ had_failures sample_run.1.2 = false ∧
  map run_status (runs sample_run.2) = [Completed].
Proof. vm_compute. done. Qed.

Definition sample_row : task :=
  mk_task (u "ingest") sample_slot []
    (payload_text [(u "sources", JStr (u "s.toml")); (u "topics", JStr (u "t.toml")); (u "policy", JStr (u "p.toml"))])
    Pending 0 (utc_now_iso (at_second 0)).

Lemma turn_finishes_witness :
  ∃ result s' db', work_turn (H := fixed_parser) (λ _, []) (λ _, []) (λ _, []) sample_config worker_name sample_turn
      fresh_worker sample_payload_db = (Done, s', db') ∧
    processed s' = S (processed fresh_worker) ∧ fence_lost s' = fence_lost fresh_worker ∧
    failed s' = (if bool_decide (dr_status result = Failed) then S (failed fresh_worker) else failed fresh_worker) ∧
    (∃ claimed_store, result = job_result (λ _, []) (λ _, []) (λ _, []) sample_config worker_name sample_turn ingest_id
       (t_due_slot_utc sample_row)
       (JObj [(u "policy", JStr (u "p.toml")); (u "sources", JStr (u "s.toml")); (u "topics", JStr (u "t.toml"))])
       (t_generation sample_row + 1) claimed_store) ∧
    runs db' = runs sample_payload_db ++
      [run_of ingest_id worker_name (t_generation sample_row + 1) (dr_status result)
         (report_of sample_config result) (now_complete sample_turn)] ∧
    t_state <$> tasks db' !! ingest_id = Some (dr_status result) ∧ claims db' !! ingest_id = None.
Proof.
  apply (turn_finishes (H := fixed_parser) (λ _, []) (λ _, []) (λ _, []) sample_config worker_name sample_turn
    fresh_worker sample_payload_db ingest_id sample_row []).
  - apply sample_payload_wf.
  - repeat split.
  - reflexivity.
  - vm_compute. split; congruence.
  - vm_compute. discriminate.
  - vm_compute. split; congruence.
  - vm_compute. reflexivity.
  - vm_compute. reflexivity.
  - vm_compute. reflexivity.
  - vm_compute. reflexivity.
Defined.

(** ** Names and classes *)

(** The owner is unique only within one process namespace: a container whose worker
    always has the same process identifier restarts with the same owner, and a
    second worker of that name is handed a live lease of the first. *)
Lemma restarted_owner_shares_lease :
  let first := claim (H := fixed_parser) ingest_id worker_name 60 (at_second 0) sample_payload_db in
  let second := claim (H := fixed_parser) ingest_id (_unique_owner (u "ingest") 1 1) 60 (at_second 1) first.2 in
  first.1 = Ok (1, 1, utc_now_iso (at_second 60)) ∧ second.1 = first.1.
Proof. vm_compute. done. Qed.

(** [type(exc).__name__] has no module: the SQLite classes of the allowed list are
    never matched. *)
Lemma sqlite_class_not_kept :
  u "sqlite3.OperationalError" ∈ SANITIZED_ERROR_CLASSES ∧
  error_class (failed_result (exn_of "OperationalError")) = Some (u "ControlStoreError").
Proof. split; [apply (bool_decide_unpack _); vm_compute; done|vm_compute; done]. Qed.
