(* ===== verification/Delivery.v ===== *)
(** * Delivery: durable receipts of a delivered report.

    [scripts/news_pipeline/delivery.py] over the two tables of
    [delivery_schema_v6.py] and the [reports] table.  A delivery is a process:
    a [phase] with one atomic action left to do (a read, a transaction or one
    [send]), whose outcome the environment chooses.  The process can stop after
    any action, which is a crash; two processes can alternate.  [w_log] is a
    ghost: the texts the provider may have delivered, in order.

    The database is a migrated one ([validate_v6] holds).  The files of the
    artifact root are [read_artifacts], given the window of the report; the
    Telegram client is the environment. *)
From S2P Require Import Prelude Text Utf8 Sha256 Json.
Local Open Scope Z_scope.

(** ** Texts *)

Definition _MAX_TELEGRAM_CHARS : nat := 4096.

(** [re.fullmatch(r"[0-9a-f]{64}", s)] *)
Definition hex64 (s : str) : bool := (length s =? 64)%nat && forallb is_hex s.

(** [s.rfind("\n", 0, limit)], [None] for -1. *)
Fixpoint rfind_newline (s : str) (limit : nat) : option nat :=
  match s, limit with
  | c :: s', S limit' =>
      match rfind_newline s' limit' with
      | Some i => Some (S i)
      | None => if (c =? 10)%N then Some O else None
      end
  | _, _ => None
  end.

(** The cut of [remaining], longer than [max_chars]. *)
Definition boundary (remaining : str) (max_chars : nat) : nat :=
  match rfind_newline remaining (S max_chars) with
  | Some (S i) => S i
  | _ => max_chars
  end.

(** The while loop; one character at least is removed at each turn. *)
Fixpoint split_loop (fuel : nat) (remaining : str) (max_chars : nat) : list str :=
  match fuel with
  | O => []
  | S fuel' =>
      if (max_chars <? length remaining)%nat then
        let b := boundary remaining max_chars in
        take b remaining :: split_loop fuel' (drop b remaining) max_chars
      else if (length remaining =? 0)%nat then [] else [remaining]
  end.

Inductive delivery_exn : Type :=
  | DeliveryError
  | DeliveryRejected (message : str)
  | DeliveryAmbiguous (message : str)
  | DeliveryConflict (message : str)
  | IntegrityError
  | OperationalError
  | ValueError
  | OtherError.

#[export] Instance delivery_exn_eq_dec : EqDecision delivery_exn.
Proof. solve_decision. Defined.

Definition rejected (message : string) : delivery_exn := DeliveryRejected (u message).
Definition ambiguous (message : string) : delivery_exn := DeliveryAmbiguous (u message).
Definition conflict (message : string) : delivery_exn := DeliveryConflict (u message).

Definition split_telegram_text (text : str) (max_chars : nat) : result delivery_exn (list str) :=
  _ ← raise_if (length text =? 0)%nat ValueError;
  _ ← raise_if (max_chars <? 1)%nat ValueError;
  Ok (split_loop (length text) text max_chars).

(** [idempotency_key]; [0] is the separator. *)
Definition idempotency_key (report_id manifest_sha256 : str) : result delivery_exn str :=
  _ ← raise_if (length report_id =? 0)%nat ValueError;
  _ ← raise_if (negb (hex64 manifest_sha256)) ValueError;
  Ok (sha256 (u "phase6-telegram" ++ 0%N :: report_id ++ 0%N :: manifest_sha256)).

(** [json.dumps(ids, ensure_ascii=True, separators=(",", ":"))]: what is not
    printable ASCII is escaped, as a surrogate pair above 65535. *)
Definition u_escape (c : N) : str :=
  [92; 117; hex_digit (c / 4096); hex_digit (c / 256 mod 16); hex_digit (c / 16 mod 16);
   hex_digit (c mod 16)]%N.
Definition escape_ascii (c : N) : str :=
  if (c <? 127)%N then escape_char c
  else if (c <? 65536)%N then u_escape c
  else u_escape (55296 + (c - 65536) / 1024)%N ++ u_escape (56320 + (c - 65536) mod 1024)%N.
Definition quote_ascii (s : str) : str := 34%N :: concat (map escape_ascii s) ++ [34%N].
Definition _message_ids_json (ids : list str) : str := 91%N :: join (map quote_ascii ids) ++ [93%N].

(** ** The database *)

Record report_row := mk_report
  { rp_window_start : str; rp_window_end : str; rp_generation_status : str;
    rp_json_sha256 : option str; rp_jsonl_sha256 : option str;
    rp_markdown_sha256 : option str; rp_manifest_sha256 : option str;
    rp_delivery_state : str; rp_delivery_id : option str }.

Inductive delivery_state : Type := Prepared | Sent | Failed | Ambiguous | DryRun | Skipped.
#[export] Instance delivery_state_eq_dec : EqDecision delivery_state.
Proof. solve_decision. Defined.

Record delivery_row := mk_delivery
  { d_idempotency_key : str; d_channel : str; d_recipient_hash : str; d_content_sha256 : str;
    d_state : delivery_state; d_current_attempt_id : option str; d_created_at : str;
    d_updated_at : str }.

Record attempt_row := mk_attempt
  { a_report_id : str; a_ordinal : Z; a_state : delivery_state; a_content_sha256 : str;
    a_prepared_at : str; a_completed_at : option str; a_message_ids_json : option str;
    a_error_code : option str; a_error_detail : option str }.

Record delivery_db := mk_delivery_db
  { reports : gmap str report_row;
    report_deliveries : gmap str delivery_row;
    report_delivery_attempts : gmap str attempt_row }.

#[export] Instance delivery_row_eq_dec : EqDecision delivery_row.
Proof. solve_decision. Defined.

Definition set_reports (t : gmap str report_row) (db : delivery_db) : delivery_db :=
  mk_delivery_db t (report_deliveries db) (report_delivery_attempts db).
Definition set_deliveries (t : gmap str delivery_row) (db : delivery_db) : delivery_db :=
  mk_delivery_db (reports db) t (report_delivery_attempts db).
Definition set_attempts (t : gmap str attempt_row) (db : delivery_db) : delivery_db :=
  mk_delivery_db (reports db) (report_deliveries db) t.

Definition M_db : Type → Type := M delivery_db delivery_exn.

(** [INSERT INTO report_deliveries]: primary key, [UNIQUE(idempotency_key)], the
    foreign key and the checks. *)
Definition insert_delivery (report_id : str) (r : delivery_row) : M_db unit := λ db,
  if bool_decide (is_Some (report_deliveries db !! report_id)) ||
     existsb (λ kv, bool_decide (d_idempotency_key kv.2 = d_idempotency_key r))
       (map_to_list (report_deliveries db)) ||
     bool_decide (reports db !! report_id = None) ||
     negb (bool_decide (d_channel r = u "telegram")) ||
     negb (length (d_recipient_hash r) =? 64)%nat || negb (length (d_content_sha256 r) =? 64)%nat
  then (Err IntegrityError, db)
  else (Ok tt, set_deliveries (<[report_id := r]> (report_deliveries db)) db).

(** [INSERT INTO report_delivery_attempts]: primary key, [UNIQUE(report_id,
    ordinal)], the foreign key and the checks. *)
Definition insert_attempt (attempt_id : str) (a : attempt_row) : M_db unit := λ db,
  if bool_decide (is_Some (report_delivery_attempts db !! attempt_id)) ||
     existsb (λ kv, bool_decide (a_report_id kv.2 = a_report_id a ∧ a_ordinal kv.2 = a_ordinal a))
       (map_to_list (report_delivery_attempts db)) ||
     bool_decide (report_deliveries db !! a_report_id a = None) ||
     (a_ordinal a <? 1) || bool_decide (a_state a = Skipped) ||
     negb (length (a_content_sha256 a) =? 64)%nat
  then (Err IntegrityError, db)
  else (Ok tt, set_attempts (<[attempt_id := a]> (report_delivery_attempts db)) db).

(** [UPDATE ... WHERE key = ? AND guard]; the value is [rowcount]. *)
Definition update_delivery (report_id : str) (guard : delivery_row → bool)
    (f : delivery_row → delivery_row) : M_db nat := λ db,
  match report_deliveries db !! report_id with
  | Some r => if guard r then (Ok 1%nat, set_deliveries (<[report_id := f r]> (report_deliveries db)) db)
              else (Ok 0%nat, db)
  | None => (Ok 0%nat, db)
  end.

Definition update_attempt (attempt_id : str) (guard : attempt_row → bool)
    (f : attempt_row → attempt_row) : M_db nat := λ db,
  match report_delivery_attempts db !! attempt_id with
  | Some a => if guard a
              then (Ok 1%nat, set_attempts (<[attempt_id := f a]> (report_delivery_attempts db)) db)
              else (Ok 0%nat, db)
  | None => (Ok 0%nat, db)
  end.

Definition update_report (report_id : str) (guard : report_row → bool)
    (f : report_row → report_row) : M_db nat := λ db,
  match reports db !! report_id with
  | Some r => if guard r then (Ok 1%nat, set_reports (<[report_id := f r]> (reports db)) db)
              else (Ok 0%nat, db)
  | None => (Ok 0%nat, db)
  end.

Definition with_state (s : delivery_state) (updated_at : str) (r : delivery_row) : delivery_row :=
  mk_delivery (d_idempotency_key r) (d_channel r) (d_recipient_hash r) (d_content_sha256 r) s
    (d_current_attempt_id r) (d_created_at r) updated_at.

Definition with_projection (state : string) (delivery_id : str) (r : report_row) : report_row :=
  mk_report (rp_window_start r) (rp_window_end r) (rp_generation_status r) (rp_json_sha256 r)
    (rp_jsonl_sha256 r) (rp_markdown_sha256 r) (rp_manifest_sha256 r) (u state) (Some delivery_id).

Definition with_ids (ids : list str) (a : attempt_row) : attempt_row :=
  mk_attempt (a_report_id a) (a_ordinal a) (a_state a) (a_content_sha256 a) (a_prepared_at a)
    (a_completed_at a) (Some (_message_ids_json ids)) (a_error_code a) (a_error_detail a).

(** ** The report *)

Record ReportMaterial := mk_material
  { report_id : str; markdown : str; markdown_sha256 : str; manifest_sha256 : str;
    window_start : str; window_end : str; m_delivery_state : str }.

Definition is_complete (r : report_row) : bool := bool_decide (rp_generation_status r = u "complete").

Definition DELIVERABLE : list str := map u ["dry_run"; "not_attempted"; "failed"; "sent"].

(** [manifest.get(key, default)], which fails on what is not an object. *)
Definition dict_get (j : json) (key : string) (default_value : json) : result delivery_exn json :=
  match j with
  | JObj l => Ok (default default_value (lookup_key (u key) l))
  | _ => Err OtherError
  end.

(** [value == text] for a JSON value and a text. *)
Definition json_is (j : json) (text : str) : bool :=
  match j with JStr s => bool_decide (s = text) | _ => false end.

Definition hash_ok (h : option str) : bool := match h with Some s => hex64 s | None => false end.

Section material.
(** The bytes of the JSON, JSONL, Markdown and manifest files of a window. *)
Context (read_artifacts : str → str → option (list N * list N * list N * list N)).

(** The row checks made before any file is read. *)
Definition check_report (r : report_row) : result delivery_exn unit :=
  _ ← raise_if (negb (is_complete r)) (rejected "report is not complete");
  _ ← raise_if (negb (bool_decide (rp_delivery_state r ∈ DELIVERABLE)))
        (rejected "report is not in a deliverable state");
  _ ← raise_if (bool_decide (rp_delivery_state r = u "sent" ∧ rp_delivery_id r = None))
        (conflict "sent report has no delivery receipt identifier");
  raise_if (negb (hash_ok (rp_json_sha256 r) && hash_ok (rp_jsonl_sha256 r) &&
                  hash_ok (rp_markdown_sha256 r) && hash_ok (rp_manifest_sha256 r)))
    (rejected "report artifact hashes are incomplete").

(** The identity the manifest declares. *)
Definition check_manifest (stored_id : str) (markdown_hash : str) (bytes : list N)
    : result delivery_exn unit :=
  manifest ← of_option (rejected "report manifest is invalid") (text ← utf8_decode bytes; loads text);
  artifacts ← dict_get manifest "artifacts" (JObj []);
  entry ← dict_get artifacts "markdown" (JObj []);
  manifest_markdown ← dict_get entry "sha256" JNull;
  declared ← dict_get manifest "report_id" JNull;
  raise_if (negb (json_is declared stored_id && json_is manifest_markdown markdown_hash))
    (rejected "report manifest identity does not match the database").

Definition load_report_material (db : delivery_db) (id : str) : result delivery_exn ReportMaterial :=
  r ← of_option (rejected "report does not exist") (reports db !! id);
  _ ← check_report r;
  '(json_b, jsonl_b, markdown_b, manifest_b) ←
    of_option OtherError (read_artifacts (rp_window_start r) (rp_window_end r));
  let markdown_hash := default [] (rp_markdown_sha256 r) in
  let manifest_hash := default [] (rp_manifest_sha256 r) in
  _ ← raise_if (negb (bool_decide (
        Some (sha256_bytes json_b) = rp_json_sha256 r ∧
        Some (sha256_bytes jsonl_b) = rp_jsonl_sha256 r ∧
        sha256_bytes markdown_b = markdown_hash ∧ sha256_bytes manifest_b = manifest_hash)))
      (rejected "report artifact bytes do not match persisted hashes");
  _ ← check_manifest id markdown_hash manifest_b;
  text ← of_option ValueError (utf8_decode markdown_b);
  Ok (mk_material id text markdown_hash manifest_hash (rp_window_start r) (rp_window_end r)
        (rp_delivery_state r)).
End material.

(** ** The request *)

Definition DRY_RUN_RECIPIENT : str := sha256 (u "phase6-dry-run").

(** [transport]: the [recipient_hash] of the caller's transport, if it has one
    and it is a text; [config]: what loading the configuration file gives. *)
Definition recipient_of (enable_live : bool) (transport : option (option str))
    (config : option (result delivery_exn str)) : result delivery_exn str :=
  if enable_live then
    match transport with
    | None =>
        match config with
        | None => Err (rejected "live delivery requires an explicit Telegram config path")
        | Some r => r
        end
    | Some candidate_hash =>
        if hash_ok candidate_hash then Ok (default [] candidate_hash)
        else Err (rejected "live transport must provide a lowercase SHA-256 recipient_hash")
    end
  else
    match transport with
    | Some _ => Err (rejected "a transport cannot be supplied while live delivery is disabled")
    | None => Ok DRY_RUN_RECIPIENT
    end.

(** What a call has computed before it opens the receipts. *)
Record delivery_job := mk_job
  { j_report_id : str; j_report_state : str; j_parts : list str; j_key : str;
    j_content_hash : str; j_recipient_hash : str; j_enable_live : bool;
    j_retry_failed : bool; j_timestamp : str }.

Definition prepare_job read_artifacts (db : delivery_db) (id : str) (enable_live : bool)
    (transport : option (option str)) (config : option (result delivery_exn str))
    (retry_failed : bool) (timestamp : str) : result delivery_exn delivery_job :=
  material ← load_report_material read_artifacts db id;
  parts ← split_telegram_text (markdown material) _MAX_TELEGRAM_CHARS;
  key ← idempotency_key (report_id material) (manifest_sha256 material);
  recipient ← recipient_of enable_live transport config;
  Ok (mk_job (report_id material) (m_delivery_state material) parts key
        (sha256 (markdown material)) recipient enable_live retry_failed timestamp).

Record DeliveryResult := mk_result
  { r_report_id : str; r_attempt_id : str; r_idempotency_key : str; r_state : delivery_state;
    r_message_ids : list str; r_network_used : bool; r_replayed : bool }.

(** ** The receipt *)

(** [_attempt_ids] *)
Definition _attempt_ids (db : delivery_db) (attempt_id : str) : result delivery_exn (list str) :=
  match report_delivery_attempts db !! attempt_id ≫= a_message_ids_json with
  | None => Ok []
  | Some text =>
      values ← of_option ValueError (loads text);
      let malformed := conflict "persisted message identifiers are malformed" in
      match values with
      | JList l => mapR (λ j, match j with JStr s => Ok s | _ => Err malformed end) l
      | _ => Err malformed
      end
  end.

(** [_result_from_row] of a replay. *)
Definition _result_from_row (db : delivery_db) (id : str) (r : delivery_row)
    : result delivery_exn DeliveryResult :=
  let attempt_id := default [] (d_current_attempt_id r) in
  _ ← raise_if (length attempt_id =? 0)%nat (conflict "delivery receipt has no current attempt");
  ids ← _attempt_ids db attempt_id;
  Ok (mk_result id attempt_id (d_idempotency_key r) (d_state r) ids false true).

Definition unresolved : delivery_exn :=
  ambiguous "an unresolved delivery attempt blocks automatic replay".

Definition is_unresolved (s : delivery_state) : bool := bool_decide (s ∈ [Prepared; Ambiguous]).

(** What the receipt found first decides: [Some result] for a replay, [None] to
    go on. *)
Definition check_receipt (job : delivery_job) (db : delivery_db)
    : result delivery_exn (option DeliveryResult) :=
  match report_deliveries db !! j_report_id job with
  | Some r =>
      _ ← raise_if (negb (bool_decide (d_idempotency_key r = j_key job ∧
                                       d_content_sha256 r = j_content_hash job)))
            (conflict "durable receipt identity does not match the report");
      _ ← raise_if (j_enable_live job && negb (bool_decide (d_state r = DryRun)) &&
                    negb (bool_decide (d_recipient_hash r = j_recipient_hash job)))
            (conflict "recipient hash does not match the durable receipt");
      if bool_decide (d_state r = Sent) then Some <$> _result_from_row db (j_report_id job) r
      else
        _ ← raise_if (is_unresolved (d_state r)) unresolved;
        _ ← raise_if (bool_decide (d_state r = Skipped)) (rejected "delivery was explicitly skipped");
        _ ← raise_if (bool_decide (d_state r = Failed) &&
                      (negb (j_retry_failed job) || negb (j_enable_live job)))
              (rejected "a failed delivery requires explicit live retry_failed");
        if bool_decide (d_state r = DryRun) && negb (j_enable_live job)
        then Some <$> _result_from_row db (j_report_id job) r else Ok None
  | None =>
      _ ← raise_if (bool_decide (j_report_state job = u "sent"))
            (conflict "sent report lacks its durable v6 delivery row");
      Ok None
  end.

(** ** The transactions *)

Definition new_delivery (job : delivery_job) (s : delivery_state) (attempt_id : str) : delivery_row :=
  mk_delivery (j_key job) (u "telegram") (j_recipient_hash job) (j_content_hash job) s
    (Some attempt_id) (j_timestamp job) (j_timestamp job).

Definition dry_run_attempt_id (job : delivery_job) : str :=
  sha256 (j_key job ++ 0%N :: u "dry-run").

(** The dry run; [row] is the receipt read before. *)
Definition dry_run_body (job : delivery_job) (row : option delivery_row) : M_db DeliveryResult :=
  attempt_id ← match row with
    | None =>
        let attempt_id := dry_run_attempt_id job in
        _ ← insert_delivery (j_report_id job) (new_delivery job DryRun attempt_id);
        _ ← insert_attempt attempt_id
              (mk_attempt (j_report_id job) 1 DryRun (j_content_hash job) (j_timestamp job)
                 (Some (j_timestamp job)) (Some (u "[]")) None None);
        mret attempt_id
    | Some r =>
        let attempt_id := default [] (d_current_attempt_id r) in
        _ ← lift (raise_if (length attempt_id =? 0)%nat
                    (conflict "dry-run receipt has no current attempt"));
        mret attempt_id
    end;
  mret (mk_result (j_report_id job) attempt_id (j_key job) DryRun [] false
          (bool_decide (is_Some row))).

(** [COALESCE(MAX(ordinal), 0) + 1] *)
Definition next_ordinal (db : delivery_db) (id : str) : Z :=
  1 + foldr (λ kv m, if bool_decide (a_report_id kv.2 = id) then Z.max (a_ordinal kv.2) m else m) 0
        (map_to_list (report_delivery_attempts db)).

Definition live_attempt_id (job : delivery_job) (ordinal : Z) : str :=
  sha256 (j_key job ++ 0%N :: dec_of_Z ordinal).

(** The receipt is read again, then marked as prepared by a new attempt. *)
Definition prepare_body (job : delivery_job) : M_db str :=
  db ← get;
  let id := j_report_id job in
  let row := report_deliveries db !! id in
  _ ← lift (raise_if (match row with Some r => is_unresolved (d_state r) | None => false end)
              unresolved);
  let ordinal := next_ordinal db id in
  let attempt_id := live_attempt_id job ordinal in
  _ ← match row with
      | None => insert_delivery id (new_delivery job Prepared attempt_id)
      | Some _ =>
          _ ← update_delivery id (λ _, true) (λ r,
                mk_delivery (d_idempotency_key r) (d_channel r) (j_recipient_hash job)
                  (d_content_sha256 r) Prepared (Some attempt_id) (d_created_at r)
                  (j_timestamp job));
          mret tt
      end;
  _ ← insert_attempt attempt_id
        (mk_attempt id ordinal Prepared (j_content_hash job) (j_timestamp job) None
           (Some (u "[]")) None None);
  mret attempt_id.

(** The provider's identifiers so far. *)
Definition receipt_body (attempt_id : str) (sent_ids : list str) : M_db unit :=
  _ ← update_attempt attempt_id (λ _, true) (with_ids sent_ids);
  mret tt.

Definition current (attempt_id : str) (r : delivery_row) : bool :=
  bool_decide (d_current_attempt_id r = Some attempt_id).

Definition finalize_body (job : delivery_job) (attempt_id : str) (sent_ids : list str) : M_db unit :=
  let id := j_report_id job in
  _ ← update_attempt attempt_id (λ a, bool_decide (a_report_id a = id ∧ a_state a = Prepared)) (λ a,
        mk_attempt (a_report_id a) (a_ordinal a) Sent (a_content_sha256 a) (a_prepared_at a)
          (Some (j_timestamp job)) (Some (_message_ids_json sent_ids)) (a_error_code a)
          (a_error_detail a));
  changed ← update_delivery id (λ r, current attempt_id r && bool_decide (d_state r = Prepared))
        (with_state Sent (j_timestamp job));
  _ ← lift (raise_if (negb (changed =? 1)%nat)
              (conflict "delivery receipt changed before finalization"));
  changed ← update_report id (λ r, is_complete r && bool_decide (rp_delivery_state r ∈
        map u ["dry_run"; "not_attempted"; "failed"])) (with_projection "sent" attempt_id);
  lift (raise_if (negb (changed =? 1)%nat)
          (conflict "report delivery projection could not be finalized")).

(** [_mark_attempt] *)
Definition mark_body (job : delivery_job) (attempt_id : str) (s : delivery_state)
    (sent_ids : list str) (error_code error_detail : str) : M_db unit :=
  let id := j_report_id job in
  _ ← update_attempt attempt_id (λ a, bool_decide (a_report_id a = id)) (λ a,
        mk_attempt (a_report_id a) (a_ordinal a) s (a_content_sha256 a) (a_prepared_at a)
          (Some (j_timestamp job)) (Some (_message_ids_json sent_ids)) (Some error_code)
          (Some error_detail));
  _ ← update_delivery id (current attempt_id) (with_state s (j_timestamp job));
  _ ← update_report id is_complete (with_projection "failed" attempt_id);
  mret tt.

(** ** The process *)

Inductive phase : Type :=
  | Check
  | Dry (row : option delivery_row)
  | Prepare
  | Submit (attempt_id : str) (sent_ids todo : list str)
  | Receipt (attempt_id : str) (sent_ids todo : list str)
  | Finalize (attempt_id : str) (sent_ids : list str)
  | Mark (attempt_id : str) (sent_ids : list str) (e : delivery_exn)
  | Returned (r : DeliveryResult)
  | Raised (e : delivery_exn).

(** What [client.send(part)] does; after all but a rejection the provider may
    have delivered the text. *)
Inductive reply : Type :=
  | ReplyId (message_id : str)
  | ReplyRejected (message : str)
  | ReplyAmbiguous (message : str)
  | ReplyRaised.

(** The environment of one action: whether SQLite can do its work, whether it
    was BEGIN that failed if it cannot, and the provider's reply if it is asked. *)
Record env := mk_env { sqlite_ok : bool; begin_failed : bool; provider : reply }.

Record world := mk_world { w_db : delivery_db; w_log : list (str * str) }.

Definition on_db {A} (e : env) (m : M_db A) (w : world) (next : A → phase)
    (failed : delivery_exn → phase) : phase * world :=
  if sqlite_ok e then
    match transaction m (w_db w) with
    | (Ok a, db) => (next a, mk_world db (w_log w))
    | (Err x, db) => (failed x, mk_world db (w_log w))
    end
  else (failed OperationalError, w).

(** The next text to send, or the end. *)
Definition after_receipt (attempt_id : str) (sent_ids todo : list str) : phase :=
  match todo with [] => Finalize attempt_id sent_ids | _ => Submit attempt_id sent_ids todo end.

(** The handlers of the send loop: [failed] for a rejection, [ambiguous]
    otherwise; what is no delivery error propagates: among others the error of a
    BEGIN, which no inner handler turns into an ambiguous delivery. *)
Definition handled (attempt_id : str) (sent_ids : list str) (x : delivery_exn) : phase :=
  match x with
  | DeliveryRejected _ | DeliveryAmbiguous _ | DeliveryConflict _ => Mark attempt_id sent_ids x
  | _ => Raised x
  end.

Definition marked (x : delivery_exn) : delivery_state * str * str :=
  match x with
  | DeliveryRejected m => (Failed, u "rejected", m)
  | DeliveryConflict _ => (Ambiguous, u "conflict", u "receipt finalization conflict")
  | DeliveryAmbiguous m => (Ambiguous, u "ambiguous", m)
  | _ => (Ambiguous, u "ambiguous", [])
  end.

Definition sent_result (job : delivery_job) (attempt_id : str) (sent_ids : list str) : DeliveryResult :=
  mk_result (j_report_id job) attempt_id (j_key job) Sent sent_ids true false.

(** One action of [deliver_report]. *)
Definition deliver_step (job : delivery_job) (e : env) (p : phase) (w : world) : phase * world :=
  match p with
  | Check =>
      if negb (sqlite_ok e) then (Raised OperationalError, w)
      else match check_receipt job (w_db w) with
           | Err x => (Raised x, w)
           | Ok (Some r) => (Returned r, w)
           | Ok None =>
               (if j_enable_live job then Prepare
                else Dry (report_deliveries (w_db w) !! j_report_id job), w)
           end
  | Dry row => on_db e (dry_run_body job row) w Returned Raised
  | Prepare => on_db e (prepare_body job) w (λ a, after_receipt a [] (j_parts job)) Raised
  | Submit a ids [] => (Finalize a ids, w)
  | Submit a ids (part :: todo) =>
      let logged := mk_world (w_db w) (w_log w ++ [(j_report_id job, part)]) in
      match provider e with
      | ReplyId i => (Receipt a (ids ++ [i]) todo, logged)
      | ReplyRejected m => (handled a ids (DeliveryRejected m), w)
      | ReplyAmbiguous m => (handled a ids (DeliveryAmbiguous m), logged)
      | ReplyRaised => (Raised OtherError, logged)
      end
  | Receipt a ids todo =>
      on_db e (receipt_body a ids) w (λ _, after_receipt a ids todo)
        (λ _, if begin_failed e then Raised OperationalError
              else handled a ids (ambiguous "message sent but its receipt could not be persisted"))
  | Finalize a ids =>
      on_db e (finalize_body job a ids) w (λ _, Returned (sent_result job a ids)) (handled a ids)
  | Mark a ids x =>
      let '(s, code, detail) := marked x in
      on_db e (mark_body job a s ids code detail) w (λ _, Raised x) Raised
  | Returned _ | Raised _ => (p, w)
  end.

Definition finished (p : phase) : bool :=
  match p with Returned _ | Raised _ => true | _ => false end.

(** A run in an environment; it ends where the process does, or where the
    environment does, which is a crash. *)
Fixpoint deliver_run (job : delivery_job) (es : list env) (p : phase) (w : world) : phase * world :=
  match es with
  | [] => (p, w)
  | e :: es' => if finished p then (p, w)
                else let '(p', w') := deliver_step job e p w in deliver_run job es' p' w'
  end.

Definition deliver_report (job : delivery_job) (es : list env) (w : world) : phase * world :=
  deliver_run job es Check w.
