(* ===== verification/Receipts.v ===== *)
(** * Receipts: what the delivery process guarantees.

    Splitting a report loses nothing; a delivery ends within a bound of actions;
    across crashes and new calls a text is submitted at most once and in order
    unless a retry is asked for; a resolved receipt is never sent again; a
    successful delivery is recorded and replayed from its receipt. *)
From S2P Require Import Prelude Text Utf8 Sha256 Json Delivery.
Local Open Scope Z_scope.

(** ** Splitting *)

Lemma rfind_newline_bound s limit i : rfind_newline s limit = Some i → (i < limit)%nat.
Proof.
  revert limit i. induction s as [|c s IH]; intros [|limit] i; cbn; try done.
  destruct (rfind_newline s limit) as [j|] eqn:Hj.
  - intros [= <-]. apply IH in Hj. lia.
  - destruct (c =? 10)%N; [intros [= <-]; lia|done].
Qed.

Lemma boundary_bounds s max_chars :
  (0 < max_chars)%nat → (0 < boundary s max_chars <= max_chars)%nat.
Proof.
  intros Hm. unfold boundary. destruct (rfind_newline s (S max_chars)) as [[|i]|] eqn:Hr; try lia.
  apply rfind_newline_bound in Hr. lia.
Qed.

Lemma split_loop_spec fuel text max_chars :
  (0 < max_chars)%nat → (length text <= fuel)%nat →
  concat (split_loop fuel text max_chars) = text ∧
  Forall (λ part, (0 < length part <= max_chars)%nat) (split_loop fuel text max_chars).
Proof.
  intros Hm. revert text. induction fuel as [|fuel IH]; intros text Hf; cbn [split_loop].
  { destruct text; [done|cbn in Hf; lia]. }
  destruct (Nat.ltb_spec max_chars (length text)) as [Hlt|Hle].
  - pose proof (boundary_bounds text max_chars Hm) as Hb.
    destruct (IH (drop (boundary text max_chars) text)) as [Hc Hall].
    { rewrite length_drop. lia. }
    cbn [concat]. rewrite Hc, take_drop. split; [done|]. constructor; [|done].
    rewrite length_take. lia.
  - destruct text as [|c text]; cbn [length Nat.eqb]; [done|].
    cbn [concat]. rewrite app_nil_r. split; [done|].
    constructor; [cbn [length] in *; lia|constructor].
Qed.

Lemma split_telegram_text_Ok text max_chars parts :
  split_telegram_text text max_chars = Ok parts →
  concat parts = text ∧ parts ≠ [] ∧
  Forall (λ part, (0 < length part <= max_chars)%nat) parts.
Proof.
  unfold split_telegram_text. intros Hs.
  apply bind_Ok in Hs as (? & Ht%raise_if_Ok & Hs). apply bind_Ok in Hs as (? & Hm%raise_if_Ok & [= <-]).
  apply Nat.ltb_ge in Hm. apply Nat.eqb_neq in Ht.
  destruct (split_loop_spec (length text) text max_chars) as [Hc Hall]; [lia..|].
  split; [done|]. split; [|done]. intros Hn. rewrite Hn in Hc. by subst.
Qed.

(** The loop ends and cuts a text into non-empty parts of at most the given
    length whose concatenation is the text, and it refuses exactly the empty
    text and the limit zero. *)
Theorem split_telegram_text_lossless text max_chars :
  match split_telegram_text text max_chars with
  | Ok parts => concat parts = text ∧ parts ≠ [] ∧
      Forall (λ part, (0 < length part <= max_chars)%nat) parts
  | Err e => e = ValueError ∧ (text = [] ∨ max_chars = O)
  end.
Proof.
  destruct (split_telegram_text text max_chars) as [parts|e] eqn:Hs; [by apply split_telegram_text_Ok|].
  unfold split_telegram_text in Hs. destruct text as [|c text].
  - injection Hs as <-. auto.
  - destruct max_chars; [injection Hs as <-; auto|done].
Qed.

(** ** Termination *)

(** The actions a phase has left, at most. *)
Definition actions_left (job : delivery_job) (p : phase) : nat :=
  match p with
  | Check => 2 * length (j_parts job) + 5
  | Prepare => 2 * length (j_parts job) + 4
  | Submit _ _ todo => 2 * length todo + 3
  | Receipt _ _ todo => 2 * length todo + 4
  | Finalize _ _ => 2
  | Dry _ | Mark _ _ _ => 1
  | Returned _ | Raised _ => 0
  end.

Lemma on_db_cases {A} e (m : M_db A) w next failed p w' :
  on_db e m w next failed = (p, w') →
  (∃ a db, sqlite_ok e = true ∧ m (w_db w) = (Ok a, db) ∧ p = next a ∧ w' = mk_world db (w_log w)) ∨
  (∃ x, p = failed x ∧ w' = w).
Proof.
  unfold on_db. destruct (sqlite_ok e); [|intros [= <- <-]; right; by exists OperationalError].
  unfold transaction. destruct (m (w_db w)) as [[a|x] db] eqn:Hm; intros [= <- <-].
  - left. by exists a, db.
  - right. exists x. by destruct w.
Qed.

Lemma after_receipt_left job a ids todo :
  (actions_left job (after_receipt a ids todo) <= 2 * length todo + 3)%nat.
Proof. destruct todo; cbn; lia. Qed.

Lemma handled_left job a ids x : (actions_left job (handled a ids x) <= 1)%nat.
Proof. destruct x; cbn; lia. Qed.

Lemma deliver_step_left job e p w p' w' :
  finished p = false → deliver_step job e p w = (p', w') →
  (actions_left job p' < actions_left job p)%nat.
Proof.
  intros Hp. destruct p as [|row| |a ids [|part todo]|a ids todo|a ids|a ids x|r|x]; try done;
    cbn [deliver_step].
  - destruct (negb _); [intros [= <- _]; cbn; lia|].
    destruct (check_receipt _ _) as [[r|]|x]; intros [= <- _]; try (cbn; lia).
    destruct (j_enable_live job); cbn; lia.
  - intros [(r & db & _ & _ & -> & _)|(x & -> & _)]%on_db_cases; cbn; lia.
  - intros [(a & db & _ & _ & -> & _)|(x & -> & _)]%on_db_cases; [|cbn; lia].
    pose proof (after_receipt_left job a [] (j_parts job)). cbn. lia.
  - intros [= <- _]. cbn. lia.
  - destruct (provider e) as [i|m|m|]; intros [= <- _]; cbn; lia.
  - intros [(u0 & db & _ & _ & -> & _)|(x & -> & _)]%on_db_cases.
    + pose proof (after_receipt_left job a ids todo). cbn [actions_left]. lia.
    + destruct (begin_failed e); cbn; lia.
  - intros [(u0 & db & _ & _ & -> & _)|(x & -> & _)]%on_db_cases; [cbn; lia|].
    pose proof (handled_left job a ids x). cbn [actions_left]. lia.
  - destruct (marked x) as [[s code] detail].
    intros [(u0 & db & _ & _ & -> & _)|(y & -> & _)]%on_db_cases; cbn; lia.
Qed.

Lemma finished_none_left job p : actions_left job p = O → finished p = true.
Proof. destruct p; cbn; done || lia. Qed.

(** Whatever the database and the provider do, a delivery returns or raises
    after at most two actions per part and five more. *)
Theorem deliver_report_terminates job es w :
  (2 * length (j_parts job) + 5 <= length es)%nat → finished (deliver_report job es w).1 = true.
Proof.
  unfold deliver_report. change (2 * length (j_parts job) + 5)%nat with (actions_left job Check).
  generalize Check. revert w. induction es as [|e es IH]; intros w p Hlen; cbn [deliver_run].
  - apply (finished_none_left job). cbn [length fst] in *. lia.
  - destruct (finished p) eqn:Hp; [done|]. destruct (deliver_step job e p w) as [p' w'] eqn:Hs.
    apply deliver_step_left in Hs; [|done]. apply IH. cbn [length] in Hlen. lia.
Qed.

(** ** What each transaction changes *)

Definition row_of (w : world) (id : str) : option delivery_row := report_deliveries (w_db w) !! id.
Definition log_of (w : world) (id : str) : list str :=
  map snd (filter (λ x, x.1 = id) (w_log w)).

Lemma log_of_snoc db db' log id part id' :
  log_of (mk_world db (log ++ [(id, part)])) id' =
    log_of (mk_world db' log) id' ++ (if decide (id = id') then [part] else []).
Proof.
  unfold log_of. cbn [w_log]. rewrite filter_app, map_app. f_equal. rewrite filter_cons. cbn [fst].
  by case_decide.
Qed.

Lemma log_of_db db db' log id : log_of (mk_world db log) id = log_of (mk_world db' log) id.
Proof. done. Qed.

Lemma update_delivery_Ok id g f db n db' :
  update_delivery id g f db = (Ok n, db') →
  (n = 1%nat ∧ ∃ r, report_deliveries db !! id = Some r ∧ g r = true ∧
     db' = set_deliveries (<[id := f r]> (report_deliveries db)) db) ∨
  (n = 0%nat ∧ db' = db ∧ ∀ r, report_deliveries db !! id = Some r → g r = false).
Proof.
  unfold update_delivery. destruct (report_deliveries db !! id) as [r|] eqn:Hr.
  - destruct (g r) eqn:Hg; intros [= <- <-]; [left; eauto|right]. naive_solver.
  - intros [= <- <-]. right. naive_solver.
Qed.

Lemma update_attempt_deliveries id g f db n db' :
  update_attempt id g f db = (Ok n, db') →
  report_deliveries db' = report_deliveries db ∧ reports db' = reports db.
Proof.
  unfold update_attempt. destruct (report_delivery_attempts db !! id) as [a|]; [|by intros [= _ <-]].
  destruct (g a); by intros [= _ <-].
Qed.

Lemma update_report_deliveries id g f db n db' :
  update_report id g f db = (Ok n, db') → report_deliveries db' = report_deliveries db.
Proof.
  unfold update_report. destruct (reports db !! id) as [a|]; [|by intros [= _ <-]].
  destruct (g a); by intros [= _ <-].
Qed.

Lemma insert_delivery_Ok id r db db' :
  insert_delivery id r db = (Ok tt, db') →
  report_deliveries db !! id = None ∧
  db' = set_deliveries (<[id := r]> (report_deliveries db)) db.
Proof.
  unfold insert_delivery. destruct (_ || _) eqn:Hc; [done|]. intros [= <-].
  repeat (apply orb_false_iff in Hc as [Hc ?]). split; [|done].
  apply bool_decide_eq_false, eq_None_not_Some in Hc. done.
Qed.

Lemma insert_attempt_deliveries id a db db' :
  insert_attempt id a db = (Ok tt, db') →
  report_deliveries db' = report_deliveries db ∧ reports db' = reports db.
Proof. unfold insert_attempt. destruct (_ || _); [done|]. by intros [= <-]. Qed.

Lemma prepare_body_Ok job db a db' :
  prepare_body job db = (Ok a, db') →
  ∃ r', report_deliveries db' = <[j_report_id job := r']> (report_deliveries db) ∧
    d_state r' = Prepared ∧ d_current_attempt_id r' = Some a ∧
    d_content_sha256 r' = match report_deliveries db !! j_report_id job with
                          | Some r => d_content_sha256 r
                          | None => j_content_hash job
                          end.
Proof.
  unfold prepare_body. intros Hrun. apply M_bind_Ok in Hrun as (? & ? & [= <- <-] & Hrun).
  apply M_bind_Ok in Hrun as (? & ? & [= _ <-] & Hrun).
  apply M_bind_Ok in Hrun as ([] & db1 & Hup & Hrun).
  apply M_bind_Ok in Hrun as ([] & db2 & [Hd _]%insert_attempt_deliveries & [= <- <-]).
  rewrite Hd. destruct (report_deliveries db !! j_report_id job) as [r|] eqn:Hr.
  - apply M_bind_Ok in Hup as (n & db3 & Hup & [= <-]).
    apply update_delivery_Ok in Hup as [(_ & r0 & Hr0 & _ & ->)|(_ & _ & Hg)].
    + simplify_eq. eexists. by cbn.
    + by specialize (Hg r Hr).
  - apply insert_delivery_Ok in Hup as [_ ->]. eexists. by cbn.
Qed.

Lemma receipt_body_deliveries a ids db db' :
  receipt_body a ids db = (Ok tt, db') → report_deliveries db' = report_deliveries db.
Proof.
  unfold receipt_body. intros Hrun.
  by apply M_bind_Ok in Hrun as (? & ? & [? _]%update_attempt_deliveries & [= <-]).
Qed.

Lemma finalize_body_Ok job a ids db db' :
  finalize_body job a ids db = (Ok tt, db') →
  ∃ r, report_deliveries db !! j_report_id job = Some r ∧ d_current_attempt_id r = Some a ∧
    d_state r = Prepared ∧
    report_deliveries db' =
      <[j_report_id job := with_state Sent (j_timestamp job) r]> (report_deliveries db).
Proof.
  unfold finalize_body. intros Hrun.
  apply M_bind_Ok in Hrun as (? & db1 & [Hd1 _]%update_attempt_deliveries & Hrun).
  apply M_bind_Ok in Hrun as (n & db2 & Hup & Hrun).
  apply M_bind_Ok in Hrun as (? & ? & [= Hn%raise_if_Ok <-] & Hrun).
  apply negb_false_iff, Nat.eqb_eq in Hn. subst n.
  apply M_bind_Ok in Hrun as (m & db3 & Hd3%update_report_deliveries & [= _ <-]).
  apply update_delivery_Ok in Hup as [(_ & r & Hr & Hg & ->)|(? & _)]; [|done].
  rewrite Hd1 in *. apply andb_true_iff in Hg as [Hc%bool_decide_eq_true Hs%bool_decide_eq_true].
  exists r. rewrite Hd3. cbn. split_and!; congruence.
Qed.

Lemma mark_body_deliveries job a s ids code detail db db' :
  mark_body job a s ids code detail db = (Ok tt, db') →
  report_deliveries db' = match report_deliveries db !! j_report_id job with
    | Some r => if current a r
                then <[j_report_id job := with_state s (j_timestamp job) r]> (report_deliveries db)
                else report_deliveries db
    | None => report_deliveries db
    end.
Proof.
  unfold mark_body. intros Hrun.
  apply M_bind_Ok in Hrun as (? & db1 & [Hd1 _]%update_attempt_deliveries & Hrun).
  apply M_bind_Ok in Hrun as (n & db2 & Hup & Hrun).
  apply M_bind_Ok in Hrun as (m & db3 & Hd3%update_report_deliveries & [= <-]).
  rewrite Hd3. apply update_delivery_Ok in Hup as [(_ & r & Hr & Hg & ->)|(_ & -> & Hg)].
  - rewrite Hd1 in Hr. rewrite Hr, Hg. cbn. by rewrite Hd1.
  - rewrite Hd1 in *. destruct (report_deliveries db !! j_report_id job) as [r|]; [|done].
    by rewrite Hg.
Qed.

(** ** At most once *)

(** What a receipt says about the texts that may have been delivered. *)
Definition receipt_ok (w : world) (id : str) : Prop :=
  match row_of w id with
  | None => log_of w id = []
  | Some r =>
      match d_state r with
      | DryRun => log_of w id = []
      | Sent => ∃ text, split_telegram_text text _MAX_TELEGRAM_CHARS = Ok (log_of w id) ∧
          d_content_sha256 r = sha256 text
      | _ => ∃ text rest,
          split_telegram_text text _MAX_TELEGRAM_CHARS = Ok (log_of w id ++ rest) ∧
          d_content_sha256 r = sha256 text
      end
  end.

Definition job_ok (job : delivery_job) : Prop :=
  ∃ text, split_telegram_text text _MAX_TELEGRAM_CHARS = Ok (j_parts job) ∧
    j_content_hash job = sha256 text.

(** The receipt while the parts [todo] are left to send. *)
Definition sending (job : delivery_job) (w : world) (a : str) (todo : list str) : Prop :=
  ∃ r, row_of w (j_report_id job) = Some r ∧ d_state r = Prepared ∧
    d_current_attempt_id r = Some a ∧ d_content_sha256 r = j_content_hash job ∧
    log_of w (j_report_id job) ++ todo = j_parts job.

Definition phase_ok (job : delivery_job) (w : world) (p : phase) : Prop :=
  match p with
  | Check | Dry _ | Returned _ | Raised _ => True
  | Prepare => ∀ r, row_of w (j_report_id job) = Some r →
      d_state r = DryRun ∧ d_content_sha256 r = j_content_hash job
  | Submit a _ todo | Receipt a _ todo => sending job w a todo
  | Finalize a _ => sending job w a []
  | Mark a _ _ => ∃ rest, sending job w a rest
  end.

Lemma receipt_ok_same w w' id :
  row_of w' id = row_of w id → log_of w' id = log_of w id → receipt_ok w id → receipt_ok w' id.
Proof. unfold receipt_ok. by intros -> ->. Qed.

(** A resolved or partial receipt whose texts are a prefix of the parts. *)
Lemma sending_receipt_ok job w a todo :
  job_ok job → sending job w a todo → receipt_ok w (j_report_id job).
Proof.
  intros (text & Hs & Hc) (r & Hr & Hst & _ & Hcr & Hlog). unfold receipt_ok.
  rewrite Hr, Hst. exists text, todo. split; congruence.
Qed.

Lemma dry_run_body_Ok job row db r db' :
  dry_run_body job row db = (Ok r, db') →
  reports db' = reports db ∧
  (report_deliveries db' = report_deliveries db ∨
   (report_deliveries db !! j_report_id job = None ∧ ∃ d, d_state d = DryRun ∧
      report_deliveries db' = <[j_report_id job := d]> (report_deliveries db))).
Proof.
  unfold dry_run_body. intros Hrun. apply M_bind_Ok in Hrun as (a & db1 & Hrun & [= _ <-]).
  destruct row as [d|].
  - apply M_bind_Ok in Hrun as (? & ? & [= _ <-] & [= _ <-]). auto.
  - apply M_bind_Ok in Hrun as ([] & db2 & [Hn ->]%insert_delivery_Ok & Hrun).
    apply M_bind_Ok in Hrun as ([] & db3 & [Hd Hr]%insert_attempt_deliveries & [= _ <-]).
    rewrite Hd, Hr. split; [done|]. right. split; [done|].
    by exists (new_delivery job DryRun (dry_run_attempt_id job)).
Qed.

Lemma receipts_insert w db' id0 r' :
  report_deliveries db' = <[id0 := r']> (report_deliveries (w_db w)) →
  (∀ id, receipt_ok w id) → receipt_ok (mk_world db' (w_log w)) id0 →
  ∀ id, receipt_ok (mk_world db' (w_log w)) id.
Proof.
  intros Hd Hall H0 id. destruct (decide (id = id0)) as [->|Hne]; [done|].
  eapply receipt_ok_same; [| |apply (Hall id)]; [|done].
  unfold row_of. cbn [w_db]. by rewrite Hd, lookup_insert_ne.
Qed.

Lemma receipts_same w db' :
  report_deliveries db' = report_deliveries (w_db w) →
  (∀ id, receipt_ok w id) → ∀ id, receipt_ok (mk_world db' (w_log w)) id.
Proof.
  intros Hd Hall id. eapply receipt_ok_same; [| |apply (Hall id)]; [|done].
  unfold row_of. cbn [w_db]. by rewrite Hd.
Qed.

Lemma sending_same job w db' a todo :
  report_deliveries db' = report_deliveries (w_db w) → sending job w a todo →
  sending job (mk_world db' (w_log w)) a todo.
Proof. unfold sending, row_of. cbn [w_db]. by intros ->. Qed.

Lemma sending_phase job w a ids todo :
  sending job w a todo → phase_ok job w (after_receipt a ids todo).
Proof. by destruct todo. Qed.

Lemma handled_phase job w a ids x todo : sending job w a todo → phase_ok job w (handled a ids x).
Proof. intros Hs. destruct x; cbn; eauto. Qed.

(** Check lets a live delivery through only when nothing was sent. *)
Lemma check_receipt_go job w :
  j_retry_failed job = false → check_receipt job (w_db w) = Ok None →
  ∀ r, row_of w (j_report_id job) = Some r →
    d_state r = DryRun ∧ d_content_sha256 r = j_content_hash job.
Proof.
  intros Hretry Hc r Hr. unfold check_receipt in Hc. unfold row_of in Hr. rewrite Hr, Hretry in Hc.
  apply bind_Ok in Hc as (? & Hid%raise_if_Ok & Hc). apply bind_Ok in Hc as (? & _ & Hc).
  apply negb_false_iff, bool_decide_eq_true in Hid as [_ Hid]. split; [|done].
  destruct (d_state r) eqn:Hs; try done; cbn in Hc; try discriminate Hc.
  unfold fmap, result_fmap in Hc. destruct (_result_from_row _ _ _); discriminate Hc.
Qed.

Lemma prepare_step_ok job w a db' :
  job_ok job → (∀ id, receipt_ok w id) → phase_ok job w Prepare →
  prepare_body job (w_db w) = (Ok a, db') →
  (∀ id, receipt_ok (mk_world db' (w_log w)) id) ∧
  sending job (mk_world db' (w_log w)) a (j_parts job).
Proof.
  intros Hjob Hall Hp Hrun. apply prepare_body_Ok in Hrun as (r' & Hd & Hs & Ha & Hc).
  assert (log_of w (j_report_id job) = []) as Hlog.
  { specialize (Hall (j_report_id job)). unfold receipt_ok in Hall. cbn in Hp.
    destruct (row_of w (j_report_id job)) as [r|]; [|done].
    destruct (Hp r eq_refl) as [Hdry _]. by rewrite Hdry in Hall. }
  assert (sending job (mk_world db' (w_log w)) a (j_parts job)) as Hsend.
  { exists r'. unfold row_of. cbn [w_db]. rewrite Hd, lookup_insert_eq. split_and!; try done.
    - cbn in Hp. unfold row_of in Hp. destruct (report_deliveries (w_db w) !! _) as [r|]; [|done].
      rewrite Hc. by apply Hp.
    - change (log_of w (j_report_id job) ++ j_parts job = j_parts job). by rewrite Hlog. }
  split; [|done]. eapply receipts_insert; [done..|]. by eapply sending_receipt_ok.
Qed.

Lemma submit_logged job w db' part a todo :
  sending job w a (part :: todo) → report_deliveries db' = report_deliveries (w_db w) →
  sending job (mk_world db' (w_log w ++ [(j_report_id job, part)])) a todo.
Proof.
  intros (r & Hr & Hs & Ha & Hc & Hlog) Hd. exists r. unfold row_of in *. cbn [w_db]. rewrite Hd.
  split_and!; try done. rewrite (log_of_snoc _ (w_db w)), decide_True by done.
  rewrite <-app_assoc. destruct w. exact Hlog.
Qed.

Lemma logged_receipts job w part a todo :
  job_ok job → (∀ id, receipt_ok w id) → sending job w a (part :: todo) →
  ∀ id, receipt_ok (mk_world (w_db w) (w_log w ++ [(j_report_id job, part)])) id.
Proof.
  intros Hjob Hall Hs id. destruct (decide (id = j_report_id job)) as [->|Hne].
  - eapply sending_receipt_ok; [done|]. by apply submit_logged.
  - eapply receipt_ok_same; [| |apply (Hall id)]; [done|].
    rewrite (log_of_snoc _ (w_db w)), decide_False by done. rewrite app_nil_r. by destruct w.
Qed.

Lemma finalize_step_ok job w a ids db' :
  job_ok job → (∀ id, receipt_ok w id) → sending job w a [] →
  finalize_body job a ids (w_db w) = (Ok tt, db') →
  ∀ id, receipt_ok (mk_world db' (w_log w)) id.
Proof.
  intros (text & Hsplit & Htext) Hall (r0 & Hr0 & _ & _ & Hc & Hlog) Hrun.
  apply finalize_body_Ok in Hrun as (r & Hr & _ & _ & Hd).
  eapply receipts_insert; [done..|]. unfold row_of in Hr0. simplify_eq.
  unfold receipt_ok, row_of. cbn [w_db]. rewrite Hd, lookup_insert_eq. cbn [d_state with_state].
  exists text. rewrite app_nil_r in Hlog. change (log_of (mk_world db' (w_log w))) with (log_of w).
  rewrite Hlog. split; [done|]. cbn. congruence.
Qed.

Lemma mark_step_ok job w a ids s code detail db' :
  job_ok job → s = Failed ∨ s = Ambiguous → (∀ id, receipt_ok w id) →
  (∃ rest, sending job w a rest) →
  mark_body job a s ids code detail (w_db w) = (Ok tt, db') →
  ∀ id, receipt_ok (mk_world db' (w_log w)) id.
Proof.
  intros (text & Hsplit & Htext) Hs Hall (rest & r & Hr & _ & _ & Hc & Hlog) Hrun.
  apply mark_body_deliveries in Hrun. unfold row_of in Hr. rewrite Hr in Hrun.
  destruct (current a r); [|by apply receipts_same].
  eapply receipts_insert; [done..|]. unfold receipt_ok, row_of. cbn [w_db].
  rewrite Hrun, lookup_insert_eq. cbn [d_state with_state].
  assert (split_telegram_text text _MAX_TELEGRAM_CHARS =
    Ok (log_of (mk_world db' (w_log w)) (j_report_id job) ++ rest)) as Hsplit'
    by (rewrite Hsplit; by rewrite <-Hlog).
  destruct Hs as [-> | ->]; exists text, rest; (split; [done|cbn; congruence]).
Qed.

Lemma marked_state x : (marked x).1.1 = Failed ∨ (marked x).1.1 = Ambiguous.
Proof. destruct x; cbn; auto. Qed.

(** Every action keeps the receipts true to the log. *)
Lemma deliver_step_ok job e p w p' w' :
  job_ok job → j_retry_failed job = false → (∀ id, receipt_ok w id) → phase_ok job w p →
  deliver_step job e p w = (p', w') → (∀ id, receipt_ok w' id) ∧ phase_ok job w' p'.
Proof.
  intros Hjob Hretry Hall Hp. destruct p as [|row| |a ids [|part todo]|a ids todo|a ids|a ids x|r|x];
    cbn [deliver_step].
  - destruct (negb _); [by intros [= <- <-]|].
    destruct (check_receipt job (w_db w)) as [[r|]|x] eqn:Hc; intros [= <- <-]; try done.
    split; [done|]. destruct (j_enable_live job); [|done].
    intros r. exact (check_receipt_go job w Hretry Hc r).
  - intros [(r & db & _ & [_ Hd]%dry_run_body_Ok & -> & ->)|(x & -> & ->)]%on_db_cases; [|done].
    split; [|done]. destruct Hd as [Hd|(Hn & d & Hd & Hdb)]; [by apply receipts_same|].
    eapply receipts_insert; [done..|]. specialize (Hall (j_report_id job)).
    unfold receipt_ok, row_of in *. rewrite Hn in Hall. cbn [w_db].
    by rewrite Hdb, lookup_insert_eq, Hd.
  - intros [(a & db & _ & Hrun & -> & ->)|(x & -> & ->)]%on_db_cases; [|done].
    destruct (prepare_step_ok job w a db Hjob Hall Hp Hrun) as [? ?].
    split; [done|]. by apply sending_phase.
  - by intros [= <- <-].
  - cbn in Hp. destruct (provider e) as [i|m|m|]; intros [= <- <-].
    + split; [by eapply logged_receipts|]. by apply submit_logged.
    + split; [done|]. by eexists.
    + split; [by eapply logged_receipts|]. eexists. by apply submit_logged.
    + split; [by eapply logged_receipts|done].
  - intros [(u0 & db & _ & Hd & -> & ->)|(x & -> & ->)]%on_db_cases.
    + destruct u0. apply receipt_body_deliveries in Hd. split; [by apply receipts_same|].
      apply sending_phase. by apply sending_same.
    + split; [done|]. destruct (begin_failed e); [done|]. by eexists.
  - intros [(u0 & db & _ & Hrun & -> & ->)|(x & -> & ->)]%on_db_cases.
    + destruct u0. split; [by eapply finalize_step_ok|done].
    + split; [done|]. by eapply handled_phase.
  - pose proof (marked_state x) as Hm. destruct (marked x) as [[s code] detail].
    intros [(u0 & db & _ & Hrun & -> & ->)|(y & -> & ->)]%on_db_cases; [|done].
    destruct u0. split; [by eapply mark_step_ok|done].
  - by intros [= <- <-].
  - by intros [= <- <-].
Qed.

Lemma deliver_run_ok job es p w p' w' :
  job_ok job → j_retry_failed job = false → (∀ id, receipt_ok w id) → phase_ok job w p →
  deliver_run job es p w = (p', w') → ∀ id, receipt_ok w' id.
Proof.
  intros Hjob Hretry. revert p w. induction es as [|e es IH]; intros p w Hall Hp; cbn [deliver_run].
  { by intros [= _ <-]. }
  destruct (finished p); [by intros [= _ <-]|].
  destruct (deliver_step job e p w) as [p1 w1] eqn:Hs. intros Hrun.
  apply (deliver_step_ok job) in Hs as [Hall1 Hp1]; [|done..]. by eapply IH.
Qed.

Lemma prepare_job_ok read_artifacts db id live transport config retry ts job :
  prepare_job read_artifacts db id live transport config retry ts = Ok job →
  job_ok job ∧ j_retry_failed job = retry ∧ j_enable_live job = live.
Proof.
  unfold prepare_job. intros Hp. apply bind_Ok in Hp as (m & _ & Hp).
  apply bind_Ok in Hp as (parts & Hs & Hp). apply bind_Ok in Hp as (key & _ & Hp).
  apply bind_Ok in Hp as (recipient & _ & [= <-]). split; [|done]. by exists (markdown m).
Qed.

(** Calls one after the other, each of which may stop anywhere, while the rest of
    the program changes the reports. *)
Inductive delivery_history read_artifacts (w0 : world) : world → Prop :=
  | history_start : delivery_history read_artifacts w0 w0
  | history_reports w t :
      delivery_history read_artifacts w0 w →
      delivery_history read_artifacts w0 (mk_world (set_reports t (w_db w)) (w_log w))
  | history_call w id live transport config ts job es p w' :
      delivery_history read_artifacts w0 w →
      prepare_job read_artifacts (w_db w) id live transport config false ts = Ok job →
      deliver_report job es w = (p, w') → delivery_history read_artifacts w0 w'.

(** C5: Across crashes, provider failures and new calls, as long as no retry of a
    failed delivery is asked for, the texts submitted for a report are a prefix
    of the parts of one text, each at most once and in order; all of them when
    the receipt says sent; none when there is no receipt or only a dry run. *)
Theorem delivery_at_most_once read_artifacts w0 w :
  report_deliveries (w_db w0) = ∅ → w_log w0 = [] → delivery_history read_artifacts w0 w →
  ∀ id, receipt_ok w id.
Proof.
  intros Hd Hl Hw. induction Hw as [|w t _ IH|w id live tr config ts job es p w' _ IH Hjob Hrun].
  - intros id. unfold receipt_ok, row_of, log_of. by rewrite Hd, Hl, lookup_empty.
  - by apply receipts_same.
  - apply prepare_job_ok in Hjob as (Hok & Hretry & _).
    exact (deliver_run_ok job es Check w p w' Hok Hretry IH I Hrun).
Qed.

(** ** Receipts that decide alone *)

(** A receipt that no call may send again. *)
Definition settled (job : delivery_job) (r : delivery_row) : Prop :=
  d_state r ≠ DryRun ∧
  (d_state r = Failed → j_retry_failed job = false ∨ j_enable_live job = false).

Lemma check_receipt_settled job db r :
  report_deliveries db !! j_report_id job = Some r → settled job r →
  check_receipt job db ≠ Ok None.
Proof.
  intros Hr [Hdry Hf] Hc. unfold check_receipt in Hc. rewrite Hr in Hc.
  apply bind_Ok in Hc as (? & _ & Hc). apply bind_Ok in Hc as (? & _ & Hc).
  destruct (d_state r) eqn:Hs; cbn in Hc; try done.
  - unfold fmap, result_fmap in Hc. by destruct (_result_from_row _ _ _).
  - destruct (Hf eq_refl) as [Hj | Hj]; rewrite Hj in Hc; cbn in Hc; [done|].
    by rewrite orb_true_r in Hc.
Qed.

(** An unresolved, sent, skipped, or failed and not to be retried delivery is
    final: the call submits nothing and changes nothing, whatever happens. *)
Theorem settled_receipt_inert job es w r :
  row_of w (j_report_id job) = Some r → settled job r → (deliver_report job es w).2 = w.
Proof.
  intros Hr Hs. unfold deliver_report. destruct es as [|e es]; [done|]. cbn [deliver_run finished].
  destruct (deliver_step job e Check w) as [p' w'] eqn:Hstep.
  assert (w' = w ∧ finished p' = true) as [-> Hf].
  { cbn [deliver_step] in Hstep. destruct (negb (sqlite_ok e)); [by injection Hstep as <- <-|].
    pose proof (check_receipt_settled job (w_db w) r Hr Hs) as Hc.
    destruct (check_receipt job (w_db w)) as [[d|]|x]; by injection Hstep as <- <-. }
  destruct es as [|e' es]; cbn [deliver_run]; [done|]. by rewrite Hf.
Qed.

Lemma dry_step job e p w p' w' :
  j_enable_live job = false → (p = Check ∨ (∃ row, p = Dry row) ∨ finished p = true) →
  deliver_step job e p w = (p', w') →
  w_log w' = w_log w ∧ reports (w_db w') = reports (w_db w) ∧
  ((∃ row, p' = Dry row) ∨ finished p' = true).
Proof.
  intros Hl [-> | [[row ->]|Hf]]; cbn [deliver_step].
  - destruct (negb _); [by intros [= <- <-]; auto|]. rewrite Hl.
    destruct (check_receipt _ _) as [[r|]|x]; intros [= <- <-]; eauto.
  - intros [(r & db & _ & [Hr _]%dry_run_body_Ok & -> & ->)|(x & -> & ->)]%on_db_cases; auto.
  - destruct p; try done; intros [= <- <-]; auto.
Qed.

Lemma dry_run_from job es p w :
  j_enable_live job = false → (p = Check ∨ (∃ row, p = Dry row) ∨ finished p = true) →
  w_log (deliver_run job es p w).2 = w_log w ∧
  reports (w_db (deliver_run job es p w).2) = reports (w_db w).
Proof.
  intros Hl. revert p w. induction es as [|e es IH]; intros p w Hp; cbn [deliver_run]; [done|].
  destruct (deliver_step job e p w) as [p' w'] eqn:Hs.
  pose proof (dry_step _ _ _ _ _ _ Hl Hp Hs) as Hd. destruct (finished p); [done|].
  destruct Hd as (<- & <- & Hp'). apply IH. tauto.
Qed.

(** A call that is not enabled for live delivery never submits a text and never
    touches the reports. *)
Theorem dry_run_offline job es w :
  j_enable_live job = false →
  w_log (deliver_report job es w).2 = w_log w ∧
  reports (w_db (deliver_report job es w).2) = reports (w_db w).
Proof. intros Hl. apply dry_run_from; auto. Qed.

(** ** A delivery that succeeds *)

Definition ok : env := mk_env true false ReplyRaised.
Definition replies (ids : list str) : list env :=
  concat (map (λ i, [mk_env true false (ReplyId i); ok]) ids).

(** SQLite works and the provider answers [ids], one for each part. *)
Definition good_run (ids : list str) : list env := ok :: ok :: replies ids ++ [ok].

Lemma next_ordinal_above db id a at_ :
  report_delivery_attempts db !! a = Some at_ → a_report_id at_ = id →
  a_ordinal at_ < next_ordinal db id.
Proof.
  intros Ha%elem_of_map_to_list Hid. unfold next_ordinal. revert Ha.
  induction (map_to_list (report_delivery_attempts db)) as [|[k v] l IH]; [by intros ?%elem_of_nil|].
  cbn [foldr snd]. intros [[= -> ->]|Hin]%elem_of_cons.
  - rewrite bool_decide_eq_true_2 by done. lia.
  - specialize (IH Hin). case_bool_decide; lia.
Qed.

Lemma next_ordinal_positive db id : 1 <= next_ordinal db id.
Proof.
  unfold next_ordinal. enough (0 <= foldr (λ kv m, if bool_decide (a_report_id (snd kv) = id)
    then Z.max (a_ordinal (snd kv)) m else m) 0 (map_to_list (report_delivery_attempts db))) by lia.
  induction (map_to_list _) as [|kv l IH]; cbn [foldr]; [lia|]. case_bool_decide; lia.
Qed.

(** The attempt a live delivery would open now. *)
Definition next_attempt (job : delivery_job) (db : delivery_db) : str :=
  live_attempt_id job (next_ordinal db (j_report_id job)).

Definition prepared_attempt (job : delivery_job) (db : delivery_db) : attempt_row :=
  mk_attempt (j_report_id job) (next_ordinal db (j_report_id job)) Prepared (j_content_hash job)
    (j_timestamp job) None (Some (u "[]")) None None.

Lemma insert_attempt_runs a at_ db :
  report_delivery_attempts db !! a = None → a_ordinal at_ = next_ordinal db (a_report_id at_) →
  is_Some (report_deliveries db !! a_report_id at_) → a_state at_ = Prepared →
  length (a_content_sha256 at_) = 64%nat →
  insert_attempt a at_ db = (Ok tt, set_attempts (<[a := at_]> (report_delivery_attempts db)) db).
Proof.
  intros Hn Ho [r Hr] Hs Hl. unfold insert_attempt.
  rewrite Hn, Hr, Hs, Hl, Ho, (proj2 (Z.ltb_ge _ _)) by apply next_ordinal_positive.
  rewrite bool_decide_eq_false_2 by by intros []. rewrite orb_false_l.
  assert (existsb (λ kv, bool_decide (a_report_id kv.2 = a_report_id at_ ∧
    a_ordinal kv.2 = next_ordinal db (a_report_id at_))) (map_to_list (report_delivery_attempts db))
    = false) as ->; [|done].
  apply not_true_iff_false.
  intros ([k v] & Hin%list_elem_of_In%elem_of_map_to_list & [Hid Hord]%bool_decide_eq_true)%existsb_exists.
  cbn in *. pose proof (next_ordinal_above db _ k v Hin Hid). lia.
Qed.

(** What a live delivery needs of the store besides a receipt that lets it
    through. *)
Definition room_for (job : delivery_job) (db : delivery_db) : Prop :=
  is_Some (reports db !! j_report_id job) ∧
  report_delivery_attempts db !! next_attempt job db = None ∧
  length (j_content_hash job) = 64%nat ∧ length (j_recipient_hash job) = 64%nat ∧
  (report_deliveries db !! j_report_id job = None →
   ∀ id r, report_deliveries db !! id = Some r → d_idempotency_key r ≠ j_key job).

(** The receipt a live delivery prepares. *)
Definition prepared_row (job : delivery_job) (db : delivery_db) : delivery_row :=
  match report_deliveries db !! j_report_id job with
  | None => new_delivery job Prepared (next_attempt job db)
  | Some r => mk_delivery (d_idempotency_key r) (d_channel r) (j_recipient_hash job)
      (d_content_sha256 r) Prepared (Some (next_attempt job db)) (d_created_at r) (j_timestamp job)
  end.

Definition prepared_db (job : delivery_job) (db : delivery_db) : delivery_db :=
  mk_delivery_db (reports db)
    (<[j_report_id job := prepared_row job db]> (report_deliveries db))
    (<[next_attempt job db := prepared_attempt job db]> (report_delivery_attempts db)).

Lemma insert_delivery_runs id r db :
  report_deliveries db !! id = None → is_Some (reports db !! id) →
  (∀ k d, report_deliveries db !! k = Some d → d_idempotency_key d ≠ d_idempotency_key r) →
  d_channel r = u "telegram" → length (d_recipient_hash r) = 64%nat →
  length (d_content_sha256 r) = 64%nat →
  insert_delivery id r db = (Ok tt, set_deliveries (<[id := r]> (report_deliveries db)) db).
Proof.
  intros Hn [rp Hrp] Hk Hch Hr Hc. unfold insert_delivery.
  rewrite Hn, Hrp, Hch, Hr, Hc, (bool_decide_eq_false_2 (is_Some None)) by by intros [].
  rewrite orb_false_l.
  assert (existsb (λ kv, bool_decide (d_idempotency_key kv.2 = d_idempotency_key r))
    (map_to_list (report_deliveries db)) = false) as ->; [|done].
  apply not_true_iff_false.
  intros ([k v] & Hin%list_elem_of_In%elem_of_map_to_list & Heq%bool_decide_eq_true)%existsb_exists.
  by apply (Hk k v).
Qed.

Lemma prepare_body_runs job db :
  room_for job db →
  (∀ r, report_deliveries db !! j_report_id job = Some r → is_unresolved (d_state r) = false) →
  prepare_body job db = (Ok (next_attempt job db), prepared_db job db).
Proof.
  intros (Hrp & Hat & Hc & Hrec & Hkey) Hun.
  unfold prepare_body, prepared_db, prepared_row, mbind, M_bind, get, lift, mret, M_ret.
  cbv zeta. fold (next_attempt job db). fold (prepared_attempt job db).
  destruct (report_deliveries db !! j_report_id job) as [r|] eqn:Hr.
  - rewrite Hun by done. cbn [raise_if]. unfold update_delivery. rewrite Hr.
    rewrite insert_attempt_runs; [done| |done|cbn; by rewrite lookup_insert_eq|done..]. done.
  - cbn [raise_if]. rewrite insert_delivery_runs; try done; [|by apply Hkey].
    rewrite insert_attempt_runs; [done| |done|cbn; by rewrite lookup_insert_eq|done..]. done.
Qed.

Lemma update_attempt_runs a g f db at_ :
  report_delivery_attempts db !! a = Some at_ → g at_ = true →
  update_attempt a g f db = (Ok 1%nat, set_attempts (<[a := f at_]> (report_delivery_attempts db)) db).
Proof. intros Ha Hg. unfold update_attempt. by rewrite Ha, Hg. Qed.

Lemma update_delivery_runs id g f db r :
  report_deliveries db !! id = Some r → g r = true →
  update_delivery id g f db = (Ok 1%nat, set_deliveries (<[id := f r]> (report_deliveries db)) db).
Proof. intros Hr Hg. unfold update_delivery. by rewrite Hr, Hg. Qed.

Lemma update_report_runs id g f db r :
  reports db !! id = Some r → g r = true →
  update_report id g f db = (Ok 1%nat, set_reports (<[id := f r]> (reports db)) db).
Proof. intros Hr Hg. unfold update_report. by rewrite Hr, Hg. Qed.

(** The attempt row once the identifiers are recorded. *)
Definition recorded (a : str) (ids : list str) (at_ : attempt_row) (db : delivery_db) : delivery_db :=
  set_attempts (<[a := with_ids ids at_]> (report_delivery_attempts db)) db.

Lemma recorded_twice a ids ids' at_ db :
  recorded a ids' (with_ids ids at_) (recorded a ids at_ db) = recorded a ids' at_ db.
Proof. unfold recorded, set_attempts. cbn. by rewrite insert_insert_eq. Qed.

Lemma receipt_body_runs a ids at_ db :
  report_delivery_attempts db !! a = Some at_ →
  receipt_body a ids db = (Ok tt, recorded a ids at_ db).
Proof.
  intros Ha. unfold receipt_body, mbind, M_bind.
  by rewrite (update_attempt_runs _ _ _ _ at_).
Qed.

Lemma submit_run job a es news : ∀ ids todo db log at_,
  todo ≠ [] → length news = length todo → report_delivery_attempts db !! a = Some at_ →
  deliver_run job (replies news ++ es) (Submit a ids todo) (mk_world db log) =
  deliver_run job es (Finalize a (ids ++ news))
    (mk_world (recorded a (ids ++ news) at_ db) (log ++ map (pair (j_report_id job)) todo)).
Proof.
  induction news as [|i news IH]; intros ids [|part todo] db log at_ Ht Hlen Ha; try done.
  injection Hlen as Hlen. unfold replies. cbn [map concat app]. fold (replies news).
  cbn [deliver_run finished deliver_step provider]. unfold on_db, ok. cbn [sqlite_ok w_db w_log].
  unfold transaction. rewrite (receipt_body_runs _ _ at_) by done.
  destruct todo as [|part' todo].
  - destruct news; [|done]. done.
  - cbn [after_receipt]. fold ok. rewrite (IH _ _ _ _ (with_ids (ids ++ [i]) at_)); [|done|done|].
    + by rewrite recorded_twice, <-!app_assoc.
    + unfold recorded. cbn. by rewrite lookup_insert_eq.
Qed.

Definition finalized_attempt (job : delivery_job) (ids : list str) (at_ : attempt_row) : attempt_row :=
  mk_attempt (a_report_id at_) (a_ordinal at_) Sent (a_content_sha256 at_) (a_prepared_at at_)
    (Some (j_timestamp job)) (Some (_message_ids_json ids)) (a_error_code at_) (a_error_detail at_).

Definition PROJECTABLE : list str := map u ["dry_run"; "not_attempted"; "failed"].

Lemma finalize_body_runs job a ids db at_ r rp :
  report_delivery_attempts db !! a = Some at_ → a_report_id at_ = j_report_id job →
  a_state at_ = Prepared → report_deliveries db !! j_report_id job = Some r →
  d_current_attempt_id r = Some a → d_state r = Prepared →
  reports db !! j_report_id job = Some rp → is_complete rp = true →
  rp_delivery_state rp ∈ PROJECTABLE →
  finalize_body job a ids db = (Ok tt, mk_delivery_db
    (<[j_report_id job := with_projection "sent" a rp]> (reports db))
    (<[j_report_id job := with_state Sent (j_timestamp job) r]> (report_deliveries db))
    (<[a := finalized_attempt job ids at_]> (report_delivery_attempts db))).
Proof.
  intros Ha Hid Hs Hr Hcur Hst Hrp Hc Hp. unfold finalize_body, mbind, M_bind, lift.
  rewrite (update_attempt_runs _ _ _ _ at_) by (try done; by rewrite bool_decide_eq_true_2).
  rewrite (update_delivery_runs _ _ _ _ r) by
    (try done; unfold current; by rewrite !bool_decide_eq_true_2).
  cbn [Nat.eqb negb raise_if].
  rewrite (update_report_runs _ _ _ _ rp) by (try done; by rewrite Hc, bool_decide_eq_true_2).
  done.
Qed.

(** The store after a successful delivery. *)
Definition delivered_db (job : delivery_job) (ids : list str) (rp : report_row) (db : delivery_db)
    : delivery_db :=
  let a := next_attempt job db in
  mk_delivery_db (<[j_report_id job := with_projection "sent" a rp]> (reports db))
    (<[j_report_id job := with_state Sent (j_timestamp job) (prepared_row job db)]>
       (report_deliveries db))
    (<[a := finalized_attempt job ids (prepared_attempt job db)]> (report_delivery_attempts db)).

Lemma check_receipt_unresolved job db r :
  check_receipt job db = Ok None → report_deliveries db !! j_report_id job = Some r →
  is_unresolved (d_state r) = false ∧ d_idempotency_key r = j_key job ∧
  d_content_sha256 r = j_content_hash job.
Proof.
  intros Hc Hr. unfold check_receipt in Hc. rewrite Hr in Hc.
  apply bind_Ok in Hc as (? & Hid%raise_if_Ok & Hc). apply bind_Ok in Hc as (? & _ & Hc).
  apply negb_false_iff, bool_decide_eq_true in Hid as [Hk Hcont]. split; [|done].
  by destruct (d_state r).
Qed.

Lemma prepared_row_fields job db :
  check_receipt job db = Ok None →
  let r := prepared_row job db in
  d_state r = Prepared ∧ d_current_attempt_id r = Some (next_attempt job db) ∧
  d_idempotency_key r = j_key job ∧ d_content_sha256 r = j_content_hash job ∧
  d_recipient_hash r = j_recipient_hash job.
Proof.
  intros Hc. unfold prepared_row. cbv zeta.
  destruct (report_deliveries db !! j_report_id job) as [r|] eqn:Hr; [|done].
  destruct (check_receipt_unresolved job db r Hc Hr) as (_ & ? & ?). done.
Qed.

Lemma submits_run job w es ids :
  j_enable_live job = true → check_receipt job (w_db w) = Ok None → room_for job (w_db w) →
  j_parts job ≠ [] → length ids = length (j_parts job) →
  deliver_report job (ok :: ok :: replies ids ++ es) w =
  deliver_run job es (Finalize (next_attempt job (w_db w)) ids)
    (mk_world (recorded (next_attempt job (w_db w)) ids (prepared_attempt job (w_db w))
                 (prepared_db job (w_db w)))
       (w_log w ++ map (pair (j_report_id job)) (j_parts job))).
Proof.
  intros Hl Hc Hroom Hparts Hids. unfold deliver_report. cbn [deliver_run finished deliver_step].
  cbn [ok sqlite_ok negb]. rewrite Hc, Hl. cbn [finished deliver_step]. unfold on_db.
  cbn [sqlite_ok]. unfold transaction. rewrite prepare_body_runs; [|done|].
  - destruct (j_parts job) as [|part todo] eqn:Hp; [done|]. cbn [after_receipt ok sqlite_ok].
    rewrite (submit_run job _ es ids [] (part :: todo) _ _ (prepared_attempt job (w_db w)));
      [done|done|done|]. unfold prepared_db. cbn. by rewrite lookup_insert_eq.
  - intros r Hr. by destruct (check_receipt_unresolved job (w_db w) r Hc Hr).
Qed.

Lemma good_run_delivers job w ids rp :
  j_enable_live job = true → check_receipt job (w_db w) = Ok None → room_for job (w_db w) →
  j_parts job ≠ [] → length ids = length (j_parts job) →
  reports (w_db w) !! j_report_id job = Some rp → is_complete rp = true →
  rp_delivery_state rp ∈ PROJECTABLE →
  deliver_report job (good_run ids) w =
    (Returned (sent_result job (next_attempt job (w_db w)) ids),
     mk_world (delivered_db job ids rp (w_db w))
       (w_log w ++ map (pair (j_report_id job)) (j_parts job))).
Proof.
  intros Hl Hc Hroom Hparts Hids Hrp Hcomp Hproj. unfold good_run.
  rewrite (submits_run job w [ok] ids) by done.
  destruct (prepared_row_fields job (w_db w) Hc) as (Hs & Ha & _).
  cbn [deliver_run finished deliver_step]. unfold on_db, ok. cbn [sqlite_ok w_db w_log].
  unfold transaction.
  rewrite (finalize_body_runs job _ ids _ (with_ids ids (prepared_attempt job (w_db w)))
    (prepared_row job (w_db w)) rp); try done.
  - do 2 f_equal. unfold delivered_db, recorded, prepared_db, set_attempts. cbn. f_equal.
    + by rewrite insert_insert_eq.
    + by rewrite !insert_insert_eq.
  - unfold recorded. cbn. by rewrite lookup_insert_eq.
  - unfold recorded, prepared_db. cbn. by rewrite lookup_insert_eq.
Qed.

(** *** The stored identifiers can be read back *)

Definition ascii (s : str) : Prop := Forall (λ c, (c < 127)%N) s.

Lemma quote_ascii_ascii s : ascii s → quote_ascii s = quote s.
Proof.
  intros Hs. unfold quote_ascii, quote, escape. do 3 f_equal. apply map_ext_Forall.
  eapply Forall_impl; [exact Hs|]. intros c Hc. unfold escape_ascii. by rewrite (proj2 (N.ltb_lt _ _)).
Qed.

Lemma message_ids_canonical ids :
  Forall ascii ids → _message_ids_json ids = canonical (JList (map JStr ids)).
Proof.
  intros Hall. unfold _message_ids_json, canonical. cbn [dumps]. rewrite map_map.
  do 3 f_equal. apply map_ext_Forall. eapply Forall_impl; [exact Hall|].
  intros s Hs. by apply quote_ascii_ascii.
Qed.

Lemma loads_message_ids ids :
  Forall ascii ids → loads (_message_ids_json ids) = Some (JList (map JStr ids)).
Proof.
  intros Hall. rewrite message_ids_canonical by done. rewrite loads_canonical.
  - cbn [sorted_keys]. rewrite map_map. done.
  - cbn. clear Hall. by induction ids.
Qed.

Lemma mapR_strings (e : delivery_exn) ids :
  mapR (λ j, match j with JStr s => Ok s | _ => Err e end) (map JStr ids) = Ok ids.
Proof. induction ids as [|i ids IH]; [done|]. cbn [map mapR mbind result_bind]. by rewrite IH. Qed.

Lemma delivered_replay job w ids rp log e es :
  check_receipt job (w_db w) = Ok None → Forall ascii ids → sqlite_ok e = true →
  let w' := mk_world (delivered_db job ids rp (w_db w)) log in
  deliver_report job (e :: es) w' =
    (Returned (mk_result (j_report_id job) (next_attempt job (w_db w)) (j_key job) Sent ids false true), w').
Proof.
  intros Hc Hids He. cbv zeta. unfold deliver_report. cbn [deliver_run finished deliver_step].
  rewrite He. cbn [negb w_db].
  destruct (prepared_row_fields job (w_db w) Hc) as (Hs & Ha & Hk & Hcont & Hrec).
  assert (check_receipt job (delivered_db job ids rp (w_db w)) = Ok (Some (mk_result
    (j_report_id job) (next_attempt job (w_db w)) (j_key job) Sent ids false true))) as ->.
  { unfold check_receipt, delivered_db. cbn [report_deliveries]. rewrite lookup_insert_eq.
    cbn [with_state d_idempotency_key d_content_sha256 d_state d_recipient_hash].
    rewrite Hk, Hcont, Hrec, bool_decide_eq_true_2 by done.
    rewrite (bool_decide_eq_true_2 (j_recipient_hash job = _)) by done. rewrite andb_false_r.
    cbn [negb raise_if mbind result_bind]. rewrite bool_decide_eq_true_2 by done.
    unfold _result_from_row. cbn [with_state d_current_attempt_id d_idempotency_key d_state].
    rewrite Ha, Hk. cbn [default from_option id].
    assert (length (next_attempt job (w_db w)) = 64%nat) as -> by apply sha256_length.
    cbn [Nat.eqb raise_if mbind result_bind]. unfold _attempt_ids. cbn [report_delivery_attempts].
    rewrite lookup_insert_eq. cbn [mbind option_bind finalized_attempt a_message_ids_json].
    rewrite loads_message_ids by done. cbn [of_option mbind result_bind].
    by rewrite mapR_strings. }
  by destruct es.
Qed.

(** When the store and the provider work, a live delivery that its receipt lets
    through submits every part once, in order, returns the provider's
    identifiers, leaves the receipt and the report marked as sent, and a later
    call returns the same identifiers from the receipt without the network. *)
Theorem delivery_succeeds job w ids rp :
  j_enable_live job = true → check_receipt job (w_db w) = Ok None → room_for job (w_db w) →
  j_parts job ≠ [] → length ids = length (j_parts job) →
  reports (w_db w) !! j_report_id job = Some rp → is_complete rp = true →
  rp_delivery_state rp ∈ PROJECTABLE → Forall ascii ids →
  let a := next_attempt job (w_db w) in
  let '(p, w') := deliver_report job (good_run ids) w in
  p = Returned (sent_result job a ids) ∧
  w_log w' = w_log w ++ map (pair (j_report_id job)) (j_parts job) ∧
  (∃ r, row_of w' (j_report_id job) = Some r ∧ d_state r = Sent ∧ d_current_attempt_id r = Some a) ∧
  reports (w_db w') !! j_report_id job = Some (with_projection "sent" a rp) ∧
  ∀ e es, sqlite_ok e = true → deliver_report job (e :: es) w' =
    (Returned (mk_result (j_report_id job) a (j_key job) Sent ids false true), w').
Proof.
  intros Hl Hc Hroom Hparts Hids Hrp Hcomp Hproj Hascii a.
  rewrite (good_run_delivers job w ids rp) by done.
  destruct (prepared_row_fields job (w_db w) Hc) as (_ & Ha & _). split_and!; try done.
  - exists (with_state Sent (j_timestamp job) (prepared_row job (w_db w))).
    unfold row_of, delivered_db. cbn [w_db report_deliveries]. by rewrite lookup_insert_eq.
  - unfold delivered_db. cbn [w_db reports]. by rewrite lookup_insert_eq.
  - intros e es He. by apply (delivered_replay job w ids rp).
Qed.

Lemma log_of_pairs db db' log id parts :
  log_of (mk_world db (log ++ map (pair id) parts)) id = log_of (mk_world db' log) id ++ parts.
Proof.
  unfold log_of. cbn [w_log]. rewrite filter_app, map_app. f_equal.
  induction parts as [|p parts IH]; [done|]. cbn [map]. rewrite filter_cons_True by done.
  cbn [map snd]. by rewrite IH.
Qed.

(** *** What a retry repeats

    A delivery rejected after its first part leaves a failed receipt; a retry
    then starts again from the first part, which the provider has already
    delivered. *)
Lemma retry_repeats_delivered_part job w ids part rest :
  j_enable_live job = true → check_receipt job (w_db w) = Ok None → room_for job (w_db w) →
  j_parts job = part :: rest → length ids = length (j_parts job) →
  log_of w (j_report_id job) = [part] →
  log_of (deliver_report job (ok :: ok :: replies ids) w).2 (j_report_id job) = part :: part :: rest.
Proof.
  intros Hl Hc Hroom Hparts Hids Hlog.
  pose proof (submits_run job w [] ids Hl Hc Hroom) as Hrun. rewrite app_nil_r in Hrun.
  rewrite Hrun by (done || by rewrite Hparts). cbn [deliver_run snd].
  rewrite (log_of_pairs _ (w_db w)). destruct w as [db log]. cbn [w_db w_log].
  by rewrite Hlog, Hparts.
Qed.

(** *** Two calls at once

    The receipt is read again in the transaction that prepares an attempt, but
    only an unresolved one stops it there: a call that read the receipt before
    another call completed the delivery prepares a second attempt and submits
    every part again. *)
Lemma concurrent_call_sends_twice job w r ids :
  j_parts job ≠ [] → length ids = length (j_parts job) → room_for job (w_db w) →
  row_of w (j_report_id job) = Some r → d_state r = Sent →
  log_of w (j_report_id job) = j_parts job →
  log_of (deliver_run job (ok :: replies ids) Prepare w).2 (j_report_id job) =
    j_parts job ++ j_parts job.
Proof.
  intros Hparts Hids Hroom Hr Hs Hlog. cbn [deliver_run finished deliver_step].
  unfold on_db, ok at 1. cbn [sqlite_ok]. unfold transaction.
  rewrite prepare_body_runs; [|done|].
  - destruct (j_parts job) as [|part todo] eqn:Hp; [done|]. cbn [after_receipt ok sqlite_ok].
    pose proof (submit_run job (next_attempt job (w_db w)) [] ids [] (part :: todo)
      (prepared_db job (w_db w)) (w_log w) (prepared_attempt job (w_db w))) as Hrun.
    rewrite app_nil_r in Hrun. rewrite Hrun; [|done|done|].
    + cbn [deliver_run snd]. rewrite (log_of_pairs _ (w_db w)). destruct w as [db log].
      cbn [w_db w_log]. by rewrite Hlog.
    + unfold prepared_db. cbn. by rewrite lookup_insert_eq.
  - intros r' Hr'. unfold row_of in Hr. simplify_eq. by rewrite Hs.
Qed.

(** ** A concrete delivery *)

Definition sample_timestamp : str := u "2026-01-02T00:00:00Z".

(** A report of two short parts, as the process sees it. *)
Definition sample_job (live retry : bool) : delivery_job :=
  mk_job (u "r1") (u "not_attempted") [u "one"; u "two"] (u "key") (pad 64 1) (pad 64 2) live retry
    sample_timestamp.
Definition sample_report : report_row :=
  mk_report (u "2026-01-01T00:00:00Z") (u "2026-01-02T00:00:00Z") (u "complete") None None None None
    (u "not_attempted") None.
Definition sample_world : world :=
  mk_world (mk_delivery_db {[u "r1" := sample_report]} ∅ ∅) [].

Lemma fresh_room job db :
  report_deliveries db = ∅ → report_delivery_attempts db = ∅ → is_Some (reports db !! j_report_id job) →
  length (j_content_hash job) = 64%nat → length (j_recipient_hash job) = 64%nat → room_for job db.
Proof.
  intros Hd Ha Hr Hc Hrec. unfold room_for. rewrite Hd, Ha. split_and!; try assumption.
  - apply lookup_empty.
  - intros _ id r Hl. by rewrite lookup_empty in Hl.
Qed.

Lemma delivery_succeeds_witness :
  w_log (deliver_report (sample_job true false) (good_run [u "41"; u "42"]) sample_world).2 =
    [(u "r1", u "one"); (u "r1", u "two")].
Proof.
  pose proof (delivery_succeeds (sample_job true false) sample_world [u "41"; u "42"] sample_report)
    as Hd.
  cbv zeta in Hd.
  destruct (deliver_report (sample_job true false) (good_run [u "41"; u "42"]) sample_world) as [p w'].
  destruct Hd as (_ & Hlog & _); [reflexivity|reflexivity| |discriminate|reflexivity|reflexivity|
    reflexivity| |repeat constructor|exact Hlog].
  - apply fresh_room; [reflexivity..|by eexists|reflexivity|reflexivity].
  - apply (bool_decide_unpack _). vm_compute. exact I.
Defined.

Lemma deliver_report_terminates_witness :
  finished (deliver_report (sample_job true false) (replicate 9 (mk_env false true ReplyRaised)) sample_world).1
    = true.
Proof. apply deliver_report_terminates. cbn. lia. Defined.

Lemma dry_run_offline_witness :
  w_log (deliver_report (sample_job false false) (good_run [u "41"]) sample_world).2 = [].
Proof.
  destruct (dry_run_offline (sample_job false false) (good_run [u "41"]) sample_world) as [Hlog _];
    [reflexivity|]. exact Hlog.
Defined.

(** A world where the process of the sample was killed while preparing. *)
Definition killed_world : world :=
  mk_world (mk_delivery_db {[u "r1" := sample_report]}
    {[u "r1" := new_delivery (sample_job true false) Prepared (u "a1")]} ∅) [].

Lemma settled_receipt_inert_witness :
  (deliver_report (sample_job true true) (good_run [u "41"; u "42"]) killed_world).2 = killed_world.
Proof.
  apply (settled_receipt_inert _ _ _ (new_delivery (sample_job true false) Prepared (u "a1"))).
  - reflexivity.
  - split; discriminate.
Defined.

(** The files of a report and its row. *)
Definition sample_markdown : str := u "news".
Definition sample_manifest : str := canonical (JObj
  [(u "artifacts", JObj [(u "markdown", JObj [(u "sha256", JStr (sha256 sample_markdown))])]);
   (u "report_id", JStr (u "r1"))]).
Definition sample_files (_ _ : str) : option (list N * list N * list N * list N) :=
  Some (utf8 (u "{}"), utf8 (u "{}"), utf8 sample_markdown, utf8 sample_manifest).
Definition complete_report : report_row :=
  mk_report (u "2026-01-01T00:00:00Z") (u "2026-01-02T00:00:00Z") (u "complete")
    (Some (sha256 (u "{}"))) (Some (sha256 (u "{}"))) (Some (sha256 sample_markdown))
    (Some (sha256 sample_manifest)) (u "not_attempted") None.
Definition complete_world : world :=
  mk_world (mk_delivery_db {[u "r1" := complete_report]} ∅ ∅) [].

(** The provider's answer is lost, and the process dies. *)
Definition lost_answer : list env := [ok; ok; mk_env true false ReplyRaised].

Lemma delivery_at_most_once_witness :
  ∃ job, prepare_job sample_files (w_db complete_world) (u "r1") true (Some (Some (pad 64 2))) None
      false sample_timestamp = Ok job ∧
    receipt_ok (deliver_report job lost_answer complete_world).2 (u "r1").
Proof.
  destruct (prepare_job sample_files (w_db complete_world) (u "r1") true (Some (Some (pad 64 2))) None
    false sample_timestamp) as [job|e] eqn:Hjob.
  - exists job. split; [reflexivity|].
    apply (delivery_at_most_once sample_files complete_world); [reflexivity|reflexivity|].
    apply (history_call _ _ complete_world (u "r1") true (Some (Some (pad 64 2))) None sample_timestamp
      job lost_answer (deliver_report job lost_answer complete_world).1).
    + constructor.
    + exact Hjob.
    + destruct (deliver_report job lost_answer complete_world); reflexivity.
  - exfalso. assert (is_ok (prepare_job sample_files (w_db complete_world) (u "r1") true
      (Some (Some (pad 64 2))) None false sample_timestamp) = true) as Hok by (vm_compute; reflexivity).
    rewrite Hjob in Hok. discriminate Hok.
Defined.
