(* ===== verification/Models.v ===== *)
(** * Models: categories, subjects and how an event gets its subject.

    The enumerations and the routing functions of
    [scripts/news_pipeline/models.py].  A [Category] or [Subject] is a [str] enum,
    so in the collections of the callers it is its value. *)
From S2P Require Import Prelude Text.
Local Open Scope N_scope.

Inductive Category :=
  | AI | WORLD | AUDIO_ENGINEERING | HARDWARE | FANTASY_NOVEL | AUDIOVISUAL | AV_CORPORATE | OUR_SETUP.
#[export] Instance Category_eq_dec : EqDecision Category.
Proof. solve_decision. Defined.

Definition CATEGORIES : list Category :=
  [AI; WORLD; AUDIO_ENGINEERING; HARDWARE; FANTASY_NOVEL; AUDIOVISUAL; AV_CORPORATE; OUR_SETUP].

Definition category_value (c : Category) : str :=
  u match c with
    | AI => "ai" | WORLD => "world" | AUDIO_ENGINEERING => "audio_engineering"
    | HARDWARE => "hardware" | FANTASY_NOVEL => "fantasy_novel" | AUDIOVISUAL => "audiovisual"
    | AV_CORPORATE => "av_corporate" | OUR_SETUP => "our_setup"
    end.

(** [Enum(value)]; [None] is [ValueError]. *)
Definition enum_of {A} (members : list A) (value : A → str) (s : str) : option A :=
  List.find (λ a, bool_decide (value a = s)) members.
Definition category_of : str → option Category := enum_of CATEGORIES category_value.

Inductive Subject :=
  | SUBJECT_AI | SUBJECT_WORLD | SUBJECT_AUDIO_ENGINEERING | SUBJECT_PROFESSIONAL_AV | SUBJECT_HARDWARE
  | SUBJECT_FANTASY_NOVEL | SUBJECT_OUR_SETUP.
#[export] Instance Subject_eq_dec : EqDecision Subject.
Proof. solve_decision. Defined.

Definition SUBJECTS : list Subject :=
  [SUBJECT_AI; SUBJECT_WORLD; SUBJECT_AUDIO_ENGINEERING; SUBJECT_PROFESSIONAL_AV; SUBJECT_HARDWARE;
   SUBJECT_FANTASY_NOVEL; SUBJECT_OUR_SETUP].

Definition subject_value (s : Subject) : str :=
  u match s with
    | SUBJECT_AI => "ai" | SUBJECT_WORLD => "world" | SUBJECT_AUDIO_ENGINEERING => "audio_engineering"
    | SUBJECT_PROFESSIONAL_AV => "professional_av" | SUBJECT_HARDWARE => "hardware"
    | SUBJECT_FANTASY_NOVEL => "fantasy_novel" | SUBJECT_OUR_SETUP => "our_setup"
    end.
Definition subject_of : str → option Subject := enum_of SUBJECTS subject_value.

Inductive SubjectDecision := ASSIGNED | PENDING_SUBJECT_REVIEW.
#[export] Instance SubjectDecision_eq_dec : EqDecision SubjectDecision.
Proof. solve_decision. Defined.

Definition CATEGORY_TO_SUBJECT (c : Category) : Subject :=
  match c with
  | AI => SUBJECT_AI
  | WORLD => SUBJECT_WORLD
  | AUDIO_ENGINEERING => SUBJECT_AUDIO_ENGINEERING
  | HARDWARE => SUBJECT_HARDWARE
  | FANTASY_NOVEL => SUBJECT_FANTASY_NOVEL
  | AUDIOVISUAL => SUBJECT_PROFESSIONAL_AV
  | AV_CORPORATE => SUBJECT_PROFESSIONAL_AV
  | OUR_SETUP => SUBJECT_OUR_SETUP
  end.

(** Every exception here is a [ValueError]. *)
Inductive model_error : Type := BadValue.

Definition subject_for_category (category : str) : result model_error Subject :=
  CATEGORY_TO_SUBJECT <$> of_option BadValue (category_of category).

(** ** The checked records *)

Record SubjectAssignment := mk_assignment
  { as_subject : option Subject; as_decision : SubjectDecision; as_categories : list str; as_reason : str }.

Record SubjectCollision := mk_collision
  { primary_subject : option Subject; suppressed_subjects : list Subject; co_decision : SubjectDecision;
    co_reason : str }.

Definition blank (s : str) : bool := bool_decide (strip s = []).

Definition new_assignment (a : SubjectAssignment) : result model_error SubjectAssignment :=
  _ ← raise_if (negb (bool_decide (NoDup (as_categories a)))) BadValue;
  _ ← mapR subject_for_category (as_categories a);
  _ ← match as_decision a, as_subject a with
      | ASSIGNED, None => Err BadValue
      | PENDING_SUBJECT_REVIEW, Some _ => Err BadValue
      | _, _ => Ok tt
      end;
  _ ← raise_if (blank (as_reason a)) BadValue;
  Ok a.

Definition new_collision (c : SubjectCollision) : result model_error SubjectCollision :=
  _ ← raise_if (negb (bool_decide (NoDup (suppressed_subjects c)))) BadValue;
  _ ← match co_decision c with
      | ASSIGNED =>
          match primary_subject c with
          | None => Err BadValue
          | Some primary => raise_if (bool_decide (primary ∈ suppressed_subjects c)) BadValue
          end
      | PENDING_SUBJECT_REVIEW =>
          raise_if (bool_decide (primary_subject c ≠ None) || bool_decide (suppressed_subjects c ≠ [])) BadValue
      end;
  _ ← raise_if (blank (co_reason c)) BadValue;
  Ok c.

(** ** Routing *)

Definition _SUBJECT_PRIORITY : list Subject :=
  [SUBJECT_AUDIO_ENGINEERING; SUBJECT_PROFESSIONAL_AV; SUBJECT_AI; SUBJECT_WORLD; SUBJECT_HARDWARE;
   SUBJECT_FANTASY_NOVEL; SUBJECT_OUR_SETUP].

Definition assign_primary_subject (subjects : list str) (preferred_subject : option str)
    : result model_error SubjectCollision :=
  _ ← raise_if (negb (bool_decide (NoDup subjects))) BadValue;
  normalized ← mapR (λ s, of_option BadValue (subject_of s)) subjects;
  _ ← raise_if (negb (bool_decide (NoDup normalized))) BadValue;
  match normalized with
  | [] => new_collision (mk_collision None [] PENDING_SUBJECT_REVIEW (u "missing_subject"))
  | _ =>
      '(primary, reason) ←
        match preferred_subject with
        | Some preferred =>
            primary ← of_option BadValue (subject_of preferred);
            _ ← raise_if (negb (bool_decide (primary ∈ normalized))) BadValue;
            Ok (primary, u (if (1 <? length normalized)%nat then "grounded_preferred_subject" else "single_subject"))
        | None =>
            primary ← of_option BadValue (List.find (λ s, bool_decide (s ∈ normalized)) _SUBJECT_PRIORITY);
            Ok (primary, u (if (1 <? length normalized)%nat then "deterministic_primary_subject"
                            else "single_subject"))
        end;
      let suppressed := List.filter (λ s, bool_decide (s ∈ normalized) && negb (bool_decide (s = primary)))
                          _SUBJECT_PRIORITY in
      new_collision (mk_collision (Some primary) suppressed ASSIGNED reason)
  end.

(** The set of subjects of some categories. *)
Definition subject_set (subjects : list Subject) : list Subject :=
  List.filter (λ s, bool_decide (s ∈ subjects)) SUBJECTS.

Definition assign_subject (categories : list str) : result model_error SubjectAssignment :=
  _ ← raise_if (negb (bool_decide (NoDup categories))) BadValue;
  match categories with
  | [] => new_assignment (mk_assignment None PENDING_SUBJECT_REVIEW [] (u "missing_category"))
  | _ =>
      let normalized := List.filter (λ v, bool_decide (v ∈ categories)) (map category_value CATEGORIES) in
      _ ← raise_if (negb (length normalized =? length categories)%nat) BadValue;
      subjects ← mapR subject_for_category normalized;
      match subject_set subjects with
      | [subject] => new_assignment (mk_assignment (Some subject) ASSIGNED normalized (u "single_subject"))
      | _ => new_assignment (mk_assignment None PENDING_SUBJECT_REVIEW normalized (u "multiple_subjects"))
      end
  end.

Example routing_examples :
  assign_primary_subject (map u ["world"; "ai"; "professional_av"]) None =
    Ok (mk_collision (Some SUBJECT_PROFESSIONAL_AV) [SUBJECT_AI; SUBJECT_WORLD] ASSIGNED
          (u "deterministic_primary_subject")) ∧
  assign_subject (map u ["av_corporate"; "audiovisual"]) =
    Ok (mk_assignment (Some SUBJECT_PROFESSIONAL_AV) ASSIGNED (map u ["audiovisual"; "av_corporate"])
          (u "single_subject")).
Proof. vm_compute. done. Qed.

(** ** What routing gives *)

Lemma enum_of_Some {A} (members : list A) (value : A → str) s a :
  enum_of members value s = Some a → a ∈ members ∧ value a = s.
Proof.
  intros [Ha Hv]%List.find_some. apply bool_decide_eq_true in Hv. by rewrite list_elem_of_In.
Qed.

Lemma subject_of_value s : subject_of (subject_value s) = Some s.
Proof. by destruct s. Qed.

Lemma category_of_value c : category_of (category_value c) = Some c.
Proof. by destruct c. Qed.

Lemma category_value_inj c d : category_value c = category_value d → c = d.
Proof. intros H. pose proof (category_of_value c) as Hc. rewrite H, category_of_value in Hc. congruence. Qed.

Lemma elem_of_CATEGORIES c : c ∈ CATEGORIES.
Proof. destruct c; repeat (first [left|right]). Qed.

Definition same_up_to_order {A} (r r' : result model_error (list A)) : Prop :=
  match r, r' with Ok l, Ok l' => l ≡ₚ l' | Err _, Err _ => True | _, _ => False end.

Lemma mapR_Permutation {A B} (f : A → result model_error B) l l' :
  l ≡ₚ l' → same_up_to_order (mapR f l) (mapR f l').
Proof.
  induction 1 as [|x l l' _ IH|x y l|l1 l2 l3 _ IH1 _ IH2]; cbn [mapR].
  - by constructor.
  - destruct (f x); [|done]. cbn. by destruct (mapR f l), (mapR f l'); cbn in *; try apply perm_skip.
  - destruct (f x), (f y); cbn; try done; destruct (mapR f l); cbn; try done. apply perm_swap.
  - destruct (mapR f l1), (mapR f l2), (mapR f l3); cbn in *; try done. by etrans.
Qed.

(** The order in which the subjects are given does not matter. *)
Theorem assign_primary_order subjects subjects' preferred :
  subjects ≡ₚ subjects' → assign_primary_subject subjects preferred = assign_primary_subject subjects' preferred.
Proof.
  intros Hp. unfold assign_primary_subject.
  rewrite (bool_decide_ext (NoDup subjects) (NoDup subjects')) by by rewrite Hp.
  destruct (raise_if _ _); cbn [mbind result_bind]; [|done].
  pose proof (mapR_Permutation (λ s, of_option BadValue (subject_of s)) _ _ Hp) as Hn.
  destruct (mapR _ subjects) as [n|[]], (mapR _ subjects') as [n'|[]]; cbn in Hn; try done.
  cbn [mbind result_bind].
  rewrite (bool_decide_ext (NoDup n) (NoDup n')) by by rewrite Hn.
  destruct (raise_if (negb (bool_decide (NoDup n'))) BadValue) as [[]|[]]; [|done].
  cbn [mbind result_bind].
  assert (∀ s, bool_decide (s ∈ n) = bool_decide (s ∈ n')) as Hin
    by (intros s; apply bool_decide_ext; by rewrite Hn).
  assert (∀ primary, List.filter (λ s, bool_decide (s ∈ n) && negb (bool_decide (s = primary))) _SUBJECT_PRIORITY =
    List.filter (λ s, bool_decide (s ∈ n') && negb (bool_decide (s = primary))) _SUBJECT_PRIORITY) as Hfilter
    by (intros primary; apply List.filter_ext; intros s; by rewrite Hin).
  assert (List.find (λ s, bool_decide (s ∈ n)) _SUBJECT_PRIORITY =
    List.find (λ s, bool_decide (s ∈ n')) _SUBJECT_PRIORITY) as Hfind.
  { generalize _SUBJECT_PRIORITY. intros l. induction l as [|s l IH]; [done|]. cbn [List.find]. by rewrite Hin, IH. }
  destruct n as [|x n], n' as [|x' n']; try done;
    try (by apply Permutation_nil in Hn); try (by symmetry in Hn; apply Permutation_nil in Hn).
  rewrite Hfind, (Permutation_length Hn). destruct preferred as [p|].
  - destruct (of_option _ (subject_of p)) as [primary|]; cbn [mbind result_bind]; [|done]. rewrite Hin.
    destruct (raise_if _ _); cbn [mbind result_bind]; [|done]. by rewrite Hfilter.
  - destruct (of_option _ (List.find _ _)) as [primary|]; cbn [mbind result_bind]; [|done]. by rewrite Hfilter.
Qed.

Lemma elem_of_PRIORITY s : s ∈ _SUBJECT_PRIORITY.
Proof. destruct s; repeat (first [left|right]). Qed.

Definition suppressed_of (normalized : list Subject) (primary : Subject) : list Subject :=
  List.filter (λ s, bool_decide (s ∈ normalized) && negb (bool_decide (s = primary))) _SUBJECT_PRIORITY.

Lemma suppressed_In normalized primary s :
  s ∈ suppressed_of normalized primary ↔ s ∈ normalized ∧ s ≠ primary.
Proof.
  unfold suppressed_of. rewrite list_elem_of_In, List.filter_In, andb_true_iff, negb_true_iff.
  rewrite bool_decide_eq_true, bool_decide_eq_false, <-list_elem_of_In.
  pose proof (elem_of_PRIORITY s). naive_solver.
Qed.

Lemma suppressed_NoDup normalized primary : NoDup (suppressed_of normalized primary).
Proof.
  apply NoDup_ListNoDup, List.NoDup_filter, NoDup_ListNoDup.
  apply (bool_decide_unpack _). vm_compute. done.
Qed.

Lemma primary_and_suppressed normalized primary :
  NoDup normalized → primary ∈ normalized → primary :: suppressed_of normalized primary ≡ₚ normalized.
Proof.
  intros Hn Hp. apply NoDup_Permutation; [|done|].
  - constructor; [|apply suppressed_NoDup]. rewrite suppressed_In. naive_solver.
  - intros s. rewrite elem_of_cons, suppressed_In. destruct (decide (s = primary)); naive_solver.
Qed.

Lemma new_collision_assigned normalized primary reason :
  blank reason = false →
  new_collision (mk_collision (Some primary) (suppressed_of normalized primary) ASSIGNED reason) =
    Ok (mk_collision (Some primary) (suppressed_of normalized primary) ASSIGNED reason).
Proof.
  intros Hr. unfold new_collision. cbn [suppressed_subjects co_decision primary_subject co_reason].
  rewrite (bool_decide_eq_true_2 (NoDup _)) by apply suppressed_NoDup. cbn [negb raise_if mbind result_bind].
  rewrite bool_decide_eq_false_2 by (rewrite suppressed_In; naive_solver). cbn [raise_if mbind result_bind].
  by rewrite Hr.
Qed.

Lemma subjects_normalized subjects :
  Forall (λ s, is_Some (subject_of s)) subjects →
  ∃ normalized, mapR (λ s, of_option BadValue (subject_of s)) subjects = Ok normalized ∧
    map subject_value normalized = subjects.
Proof.
  induction 1 as [|s subjects [x Hx] _ (normalized & Hn & Hm)]; [by exists []|].
  exists (x :: normalized). cbn [mapR]. rewrite Hx. cbn [of_option mbind result_bind]. rewrite Hn.
  apply enum_of_Some in Hx as [_ Hx]. split; [done|]. cbn [map]. congruence.
Qed.

(** Distinct known subjects, with a preference among them if there is one: one of
    them becomes the primary subject, the preferred one or the first by priority;
    all the others are suppressed, none is lost. *)
Theorem assign_primary_partition subjects preferred :
  subjects ≠ [] → NoDup subjects → Forall (λ s, is_Some (subject_of s)) subjects →
  (∀ p, preferred = Some p → p ∈ subjects) →
  ∃ primary suppressed reason,
    assign_primary_subject subjects preferred = Ok (mk_collision (Some primary) suppressed ASSIGNED reason) ∧
    map subject_value (primary :: suppressed) ≡ₚ subjects ∧
    (∀ p, preferred = Some p → subject_value primary = p) ∧
    (preferred = None → ∃ before after, _SUBJECT_PRIORITY = before ++ primary :: after ∧
       Forall (λ s, subject_value s ∉ subjects) before).
Proof.
  intros Hne Hnd Hall Hpref. destruct (subjects_normalized subjects Hall) as (n & Hn & Hm).
  assert (NoDup n) as Hndn by (rewrite <-Hm in Hnd; by apply NoDup_fmap_1 in Hnd).
  assert (∀ s, s ∈ n ↔ subject_value s ∈ subjects) as Hin.
  { intros s. rewrite <-Hm, list_elem_of_fmap. split; [by exists s|]. intros (s' & Hs & Hs').
    pose proof (subject_of_value s) as H. rewrite Hs, subject_of_value in H. by injection H as <-. }
  assert (∀ p s, subject_of s = Some p → s ∈ subjects → p ∈ n) as Hof.
  { intros p s Hs Hss. apply Hin. by apply enum_of_Some in Hs as [_ ->]. }
  unfold assign_primary_subject. rewrite (bool_decide_eq_true_2 (NoDup _)) by done. cbn [negb raise_if mbind result_bind].
  rewrite Hn. cbn [mbind result_bind]. rewrite (bool_decide_eq_true_2 (NoDup _)) by done. cbn [negb raise_if mbind result_bind].
  destruct n as [|x n]; [by subst subjects|]. set (n' := x :: n) in *.
  assert (∀ primary reason, primary ∈ n' → blank reason = false →
    ∃ suppressed, new_collision (mk_collision (Some primary) (suppressed_of n' primary) ASSIGNED reason) =
      Ok (mk_collision (Some primary) suppressed ASSIGNED reason) ∧
      map subject_value (primary :: suppressed) ≡ₚ subjects) as Hnew.
  { intros primary reason Hp Hr. exists (suppressed_of n' primary). split; [by apply new_collision_assigned|].
    rewrite <-Hm. by apply Permutation_map, primary_and_suppressed. }
  destruct preferred as [p|].
  - specialize (Hpref p eq_refl). rewrite Forall_forall in Hall. destruct (Hall p Hpref) as [primary Hp].
    pose proof (Hof primary p Hp Hpref) as Hpn. rewrite Hp. cbn [of_option mbind result_bind].
    rewrite bool_decide_eq_true_2 by done. cbn [negb raise_if mbind result_bind].
    edestruct (Hnew primary) as (suppressed & Hs & Hperm); [done| |exists primary, suppressed; eexists; split; [exact Hs|]].
    { by destruct (1 <? length n')%nat. }
    split_and!; [done| |done]. intros ? [= <-]. by apply enum_of_Some in Hp as [_ Hp].
  - destruct (List.find _ _SUBJECT_PRIORITY) as [primary|] eqn:Hf.
    + assert (∃ before after, _SUBJECT_PRIORITY = before ++ primary :: after ∧ Forall (λ s, s ∉ n') before ∧
        primary ∈ n') as (before & after & Heq & Hb & Hp).
      { revert Hf. generalize _SUBJECT_PRIORITY. intros l. induction l as [|s l IH]; [done|]. cbn [List.find].
        case_bool_decide as Hs; [intros [= <-]; by exists [], l|].
        intros (before & after & -> & Hb & Hp)%IH. exists (s :: before), after. split_and!; [done|by constructor|done]. }
      cbn [of_option mbind result_bind].
      edestruct (Hnew primary) as (suppressed & Hs & Hperm); [done| |exists primary, suppressed; eexists; split; [exact Hs|]].
      { by destruct (1 <? length n')%nat. }
      split_and!; [done|done|]. intros _. exists before, after. split; [done|].
      eapply Forall_impl; [exact Hb|]. intros s. cbv beta. by rewrite Hin.
    + exfalso. pose proof (List.find_none _ _ Hf x) as Hx. cbv beta in Hx.
      rewrite bool_decide_eq_true_2 in Hx by left. discriminate Hx.
      apply list_elem_of_In, elem_of_PRIORITY.
Qed.

Lemma assign_primary_partition_witness :
  let subjects := map u ["world"; "ai"; "professional_av"] in
  ∃ primary suppressed reason,
    assign_primary_subject subjects (Some (u "ai")) = Ok (mk_collision (Some primary) suppressed ASSIGNED reason) ∧
    map subject_value (primary :: suppressed) ≡ₚ subjects ∧
    (∀ p, Some (u "ai") = Some p → subject_value primary = p) ∧
    (Some (u "ai") = None → ∃ before after, _SUBJECT_PRIORITY = before ++ primary :: after ∧
       Forall (λ s, subject_value s ∉ subjects) before).
Proof.
  apply assign_primary_partition.
  - done.
  - apply (bool_decide_unpack _). vm_compute. reflexivity.
  - repeat constructor; eexists; vm_compute; reflexivity.
  - intros p [= <-]. right. left.
Defined.
