(* ===== verification/Contracts.v ===== *)
(** * Contracts: candidates, results and UTC texts of the filtering engine.

    [scripts/news_pipeline/contracts.py].  A candidate's [published_evidence] is one
    of the four literals [__post_init__] accepts.  Instants are microseconds; a
    [datetime] that [fromisoformat] reads is a wall clock and, if it is aware, its
    offset ([IsoReader]: code that is not here). *)
From S2P Require Import Prelude Text Calendar Timestamps Models.
Local Open Scope Z_scope.

(** [datetime.fromisoformat(text)]: the wall clock and the offset from UTC, in
    microseconds; [None] is [ValueError].  It reads what [isoformat] writes. *)
Class IsoReader := {
  read_iso : str → option (Z * option Z);
  read_iso_utc t :
    instant t → t mod 1000000 = 0 → read_iso (stamp t ++ u "+00:00") = Some (t, Some 0) }.

(** [value.replace(microsecond=0)] *)
Definition whole_second (t : Z) : Z := t - t mod 1000000.

Definition has_char (c : N) (s : str) : bool := existsb (N.eqb c) s.
Definition count_char (c : N) (s : str) : nat := length (List.filter (N.eqb c) s).

(** [value[:-1] + "+00:00"] *)
Definition zulu_to_offset (value : str) : str := removelast value ++ u "+00:00".

Section contracts.
Context `{IsoReader}.

Definition validate_utc_iso (value : str) : option str :=
  candidate ←
    match value with
    | [] => None
    | _ =>
        if ends_with (u "Z") value then Some (zulu_to_offset value)
        else if has_char 43 (drop 10 value) || (2 <? count_char 45 value)%nat then
          if negb (has_char 43 (drop 10 value)) && (count_char 45 (drop 10 value) =? 0)%nat then None
          else Some value
        else None
    end;
  '(wall, offset) ← read_iso candidate;
  if bool_decide (offset = Some 0) then Some (format_utc_z (whole_second wall)) else None.

(** [fromisoformat(text).astimezone(utc)] of a text with an offset. *)
Definition read_aware (text : str) : option Z :=
  '(wall, offset) ← read_iso text;
  offset ← offset;
  Some (wall - offset).
End contracts.

Inductive DecisionCode :=
  | KEEP | SUPPRESS_BATCH_EXACT | SUPPRESS_EXACT_URL | SUPPRESS_EXACT_IDENTITY | SUPPRESS_RECENT_TITLE
  | DROP_STALE | DROP_BLOCKED_SOURCE | DROP_NON_ARTICLE_URL
  | PENDING_MISSING_EVIDENCE | PENDING_INVALID_EVIDENCE | PENDING_POSSIBLE_UPDATE | PENDING_HISTORY_UNAVAILABLE.
#[export] Instance DecisionCode_eq_dec : EqDecision DecisionCode.
Proof. solve_decision. Defined.

Inductive ReasonCode :=
  | OK_KEEP | OK_BLOCKED_SOURCE | OK_OBSERVED_FALLBACK | OK_TITLE_ONLY_LOW_CONFIDENCE | OK_TRUSTED_SOURCE
  | OK_UNKNOWN_SOURCE
  | BLOCKED_SOURCE_EXACT | BLOCKED_SOURCE_SUBDOMAIN | STALE | MISSING_DATE | INVALID_DATE | FUTURE_DATE
  | FUTURE_DATE_CLAMPED | WITHIN_BATCH_EXACT
  | HISTORY_EXACT_URL | HISTORY_EXACT_IDENTITY | HISTORY_RECENT_TITLE | HISTORY_URL_CHANGED_CONTENT
  | HISTORY_TITLE_CHANGED_SNIPPET
  | UNKNOWN_QUERY_GROUP | MALFORMED_CANONICAL_URL | CANONICAL_MISMATCH | MISSING_URL | NON_ARTICLE_URL
  | HISTORY_UNAVAILABLE | CROSS_CATEGORY_PASSTHROUGH.
#[export] Instance ReasonCode_eq_dec : EqDecision ReasonCode.
Proof. solve_decision. Defined.

Inductive TrustTier := BLOCKED | ALLOWED | TRUSTED | UNKNOWN.
#[export] Instance TrustTier_eq_dec : EqDecision TrustTier.
Proof. solve_decision. Defined.

Inductive PublishedEvidence := EV_SOURCE | EV_METADATA | EV_MISSING | EV_UNPARSEABLE.
#[export] Instance PublishedEvidence_eq_dec : EqDecision PublishedEvidence.
Proof. solve_decision. Defined.

Record CandidateArticle := mk_candidate
  { candidate_id : str; category : Category; query_group : str; title : str; snippet : str;
    original_url : option str; canonical_url : option str; published_at : option str;
    published_evidence : PublishedEvidence; observed_at : option str; evaluated_at : str }.

Record FilterResult := mk_result
  { candidate : CandidateArticle; decision : DecisionCode; reasons : list ReasonCode;
    matched_article_ids : list str; matched_observation_ids : list str; trust_tier : TrustTier;
    evaluated_publication_time : option str; ordinal : nat; date_evidence : str; recency_status : str;
    audit_only : bool }.

Record HistoryMatch := mk_match
  { article_id : str; observation_id : str; hm_category : Category; occurred_at : str; hm_title : str;
    hm_snippet : str; hm_canonical_url : option str; identity_basis : str; event_id : option str;
    event_version : option Z }.

(** ** Normalised texts *)

Lemma whole_second_mod t : whole_second t mod 1000000 = 0.
Proof. unfold whole_second. Z.to_euclidean_division_equations. lia. Qed.

Lemma whole_second_le t : whole_second t <= t < whole_second t + 1000000.
Proof. unfold whole_second. Z.to_euclidean_division_equations. lia. Qed.

Lemma instant_whole_second t : instant t → instant (whole_second t).
Proof.
  unfold instant, whole_second. change (days_from_civil 1000 1 1 * DAY_US) with (-30610224000 * 1000000).
  change (days_from_civil 10000 1 1 * DAY_US) with (253402300800 * 1000000).
  Z.to_euclidean_division_equations. lia.
Qed.

Lemma zulu_of_format t : zulu_to_offset (format_utc_z t) = stamp t ++ u "+00:00".
Proof. unfold zulu_to_offset, format_utc_z. change (u "Z") with [90%N]. by rewrite removelast_snoc. Qed.

(** A normalised text is valid and stays as it is. *)
Lemma validate_utc_iso_format `{IsoReader} t :
  instant t → t mod 1000000 = 0 → validate_utc_iso (format_utc_z t) = Some (format_utc_z t).
Proof.
  intros Ht Hm. unfold validate_utc_iso.
  assert (format_utc_z t ≠ []) as Hne by (unfold format_utc_z; by destruct (stamp t)).
  rewrite zulu_of_format. assert (ends_with (u "Z") (format_utc_z t) = true) as -> by apply ends_with_app.
  destruct (format_utc_z t) as [|c s] eqn:Hf; [done|]. rewrite <-Hf. cbn [mbind option_bind].
  rewrite read_iso_utc by done. cbn [mbind option_bind]. rewrite bool_decide_eq_true_2 by done.
  unfold whole_second. by rewrite Hm, Z.sub_0_r.
Qed.

(** A reader of the texts the program writes. *)
Definition fixed_reader : IsoReader.
Proof.
  refine {| read_iso := λ s, t ← fixed_iso s; Some (t, Some 0) |}.
  intros t Ht Hm. by rewrite fixed_iso_s.
Defined.
