(* ===== verification/JsonAscii.v ===== *)
(** * JsonAscii: lists of texts as ASCII JSON, written and read back.

    [json.dumps(list, separators=(",", ":"))] escapes what is not printable ASCII,
    surrogates one by one; [json.loads] joins two escapes that make a pair.  So what
    is read back is the list with its pairs rejoined ([rejoined]), which is the list
    itself unless it holds a lone surrogate next to another. *)
From S2P Require Import Prelude Text Utf8 Sha256 Json Delivery.
Local Open Scope N_scope.

Definition rejoined (s : str) : str := foldr join_surrogates [] s.

Lemma hex_value_digit d : d < 16 → hex_value (hex_digit d) = Some d.
Proof.
  intros Hd. assert (d ∈ N.of_nat <$> seq 0 16) as Hin.
  { apply list_elem_of_fmap. exists (N.to_nat d). rewrite N2Nat.id, elem_of_seq. split; [done|lia]. }
  cbn in Hin. rewrite !elem_of_cons, elem_of_nil in Hin.
  repeat destruct Hin as [->|Hin]; try done; by vm_compute.
Qed.

#[local] Ltac Zify.zify_post_hook ::= Z.to_euclidean_division_equations.

Lemma parse_u_escape c t r1 r2 : c < 65536 → parse_chars t = Some (r1, r2) →
  parse_chars (u_escape c ++ t) = Some (join_surrogates c r1, r2).
Proof.
  intros Hc Ht. unfold u_escape. cbn [app parse_chars].
  change (92 =? 34) with false. change (92 =? 92) with true. change (117 =? 117) with true. cbv iota.
  unfold hex4. rewrite !hex_value_digit by lia. cbn [mbind option_bind]. rewrite Ht. cbn [mbind option_bind].
  do 3 f_equal. lia.
Qed.

(** The limit of a code point. *)
Definition code_point (c : N) : Prop := c < 1114112.

Lemma parse_escape_ascii c t r1 r2 : code_point c → parse_chars t = Some (r1, r2) →
  parse_chars (escape_ascii c ++ t) = Some (join_surrogates c r1, r2).
Proof.
  unfold code_point. intros Hc Ht. unfold escape_ascii.
  destruct (N.ltb_spec c 127); [rewrite join_surrogates_low by lia; by apply parse_chars_escape_char|].
  destruct (N.ltb_spec c 65536); [by apply parse_u_escape|].
  rewrite <- app_assoc.
  rewrite (parse_u_escape _ _ (join_surrogates (56320 + (c - 65536) mod 1024) r1) r2); [|lia|apply parse_u_escape; [lia|done]].
  f_equal. f_equal. unfold join_surrogates at 2.
  assert (in_range 55296 56319 (56320 + (c - 65536) mod 1024) = false) as Hlo.
  { apply not_true_iff_false. rewrite in_range_true. lia. }
  assert ((match r1 with
           | [] => [56320 + (c - 65536) mod 1024]
           | d :: s' => if in_range 55296 56319 (56320 + (c - 65536) mod 1024) && in_range 56320 57343 d
                        then 65536 + 1024 * (56320 + (c - 65536) mod 1024 - 55296) + (d - 56320) :: s'
                        else (56320 + (c - 65536) mod 1024) :: r1
           end) = (56320 + (c - 65536) mod 1024) :: r1) as -> by (destruct r1; [done|by rewrite Hlo]).
  cbn [join_surrogates]. rewrite (proj2 (in_range_true _ _ _)), (proj2 (in_range_true _ _ _)) by lia. cbn [andb].
  assert (in_range 55296 56319 c = false) as Hc'.
  { apply not_true_iff_false. rewrite in_range_true. lia. }
  unfold join_surrogates. rewrite Hc'. destruct r1; f_equal; lia.
Qed.

Lemma parse_quote_ascii s rest : Forall code_point s →
  parse_chars (concat (map escape_ascii s) ++ 34 :: rest) = Some (rejoined s, rest).
Proof.
  induction 1 as [|c s Hc _ IH]; [done|]. cbn [map concat]. rewrite <- app_assoc. by apply parse_escape_ascii.
Qed.

Lemma parse_value_quoted fuel s rest : Forall code_point s →
  parse_value dict_hook float_hook (S fuel) (quote_ascii s ++ rest) = Some (JStr (rejoined s), rest).
Proof.
  intros Hs. unfold quote_ascii. cbn [app parse_value]. change (34 =? 34) with true. cbv iota.
  rewrite <- app_assoc. cbn [app]. by rewrite parse_quote_ascii.
Qed.

Lemma quoted_opens s rest : skip_ws (quote_ascii s ++ rest) = quote_ascii s ++ rest.
Proof. done. Qed.

Lemma parse_quoted_list l fuel rest : l ≠ [] → Forall (Forall code_point) l → (length l < fuel)%nat →
  parse_elements dict_hook float_hook fuel (join (map quote_ascii l) ++ 93 :: rest) =
    Some (map (JStr ∘ rejoined) l, rest).
Proof.
  revert fuel. induction l as [|x l IH]; intros fuel Hl Hall Hfuel; [done|].
  apply Forall_cons in Hall as [Hx Hall]. destruct fuel as [|f]; [cbn in Hfuel; lia|]. cbn [length] in Hfuel.
  assert (∀ t, parse_value dict_hook float_hook f (quote_ascii x ++ t) = Some (JStr (rejoined x), t)) as Hpv.
  { intros t. destruct f; [lia|]. by apply parse_value_quoted. }
  destruct (decide (l = [])) as [->|Hne]; cbn [map].
  - cbn [parse_elements join]. by rewrite Hpv.
  - rewrite join_cons by (by destruct l). rewrite <- app_assoc. cbn [parse_elements app].
    rewrite Hpv. cbn [mbind option_bind skip_ws].
    change (is_ws 44) with false. change (44 =? 93) with false. change (44 =? 44) with true. cbv iota.
    assert (skip_ws (join (map quote_ascii l) ++ 93 :: rest) = join (map quote_ascii l) ++ 93 :: rest) as ->.
    { destruct l as [|y [|z l]]; [done|done|done]. }
    rewrite IH; [done|done|done|lia].
Qed.

Lemma join_length_lower (l : list str) : (length l ≤ S (length (join l)))%nat.
Proof.
  induction l as [|x l IH]; [cbn; lia|]. destruct (decide (l = [])) as [->|Hne]; [cbn; lia|].
  rewrite join_cons by done. rewrite length_app. cbn. lia.
Qed.

(** An array with something in it. *)
Lemma parse_value_array fuel s l rest : (∀ t, s ≠ 93 :: t) → skip_ws s = s → s ≠ [] →
  parse_elements dict_hook float_hook fuel s = Some (l, rest) →
  parse_value dict_hook float_hook (S fuel) (91 :: s) = Some (JList l, rest).
Proof.
  intros Hs Hw Hne H. cbv beta delta [parse_value] iota. fold parse_value parse_elements parse_members.
  change (91 =? 34) with false. change (91 =? 123) with false. change (91 =? 91) with true. cbv iota.
  rewrite Hw. destruct s as [|d s]; [done|]. destruct (N.eqb_spec d 93) as [->|_]; [by destruct (Hs s)|].
  unfold parse_elements in H. by rewrite H.
Qed.

(** Reading back what was written. *)
Lemma loads_message_ids_json l : Forall (Forall code_point) l →
  loads (_message_ids_json l) = Some (JList (map (JStr ∘ rejoined) l)).
Proof.
  intros Hall. unfold loads, loads_with, _message_ids_json. cbn [skip_ws]. change (is_ws 91) with false. cbv iota.
  destruct (decide (l = [])) as [->|Hne]; [by vm_compute|].
  assert (length l < length (91%N :: join (map quote_ascii l) ++ [93%N]))%nat as Hf.
  { cbn [length]. rewrite length_app. cbn [length]. pose proof (join_length_lower (map quote_ascii l)) as Hj.
    rewrite length_map in Hj. lia. }
  erewrite parse_value_array; [| | | |by apply parse_quoted_list]; [done|by destruct l as [|y [|z l]]..].
Qed.

(** What joining keeps. *)
Lemma join_surrogates_bound c s : (length (join_surrogates c s) ≤ S (length s))%nat ∧ join_surrogates c s ≠ [].
Proof. unfold join_surrogates. destruct s as [|d s]; [done|]. destruct (_ && _); cbn; split; (lia || done). Qed.

Lemma rejoined_length s : (length (rejoined s) ≤ length s)%nat.
Proof.
  induction s as [|c s IH]; [done|]. cbn [rejoined foldr]. fold (rejoined s).
  destruct (join_surrogates_bound c (rejoined s)) as [H _]. cbn [length]. lia.
Qed.

Lemma rejoined_nonempty s : s ≠ [] → rejoined s ≠ [].
Proof. destruct s as [|c s]; [done|]. intros _. apply join_surrogates_bound. Qed.

Lemma rejoined_Forall (P : N → Prop) s : (∀ c, 65536 ≤ c < 1114112 → P c) → Forall P s → Forall P (rejoined s).
Proof.
  intros HP. induction 1 as [|c s Hc _ IH]; [done|]. cbn [rejoined foldr]. fold (rejoined s).
  unfold join_surrogates. destruct (rejoined s) as [|d t]; [by repeat constructor|].
  apply Forall_cons in IH as [Hd Ht]. destruct (in_range 55296 56319 c && in_range 56320 57343 d) eqn:E.
  - apply andb_prop in E as [H1%in_range_true H2%in_range_true]. constructor; [|done]. apply HP. lia.
  - by repeat constructor.
Qed.

(** A text of scalar values is read back as it is. *)
Lemma rejoined_scalar s : Forall (λ c, scalar c = true) s → rejoined s = s.
Proof.
  induction 1 as [|c s Hc _ IH]; [done|]. cbn [rejoined foldr]. fold (rejoined s). rewrite IH.
  unfold join_surrogates. destruct s as [|d s]; [done|].
  assert (in_range 55296 56319 c = false) as ->; [|done].
  apply not_true_iff_false. rewrite in_range_true. unfold scalar in Hc.
  rewrite orb_true_iff, N.ltb_lt, in_range_true in Hc. lia.
Qed.
