(* ===== verification/SubjectDelivery.v ===== *)
(** * SubjectDelivery: the outbox of subject reports.

    [scripts/news_pipeline/subject_delivery.py] over the tables of [schema_v9.py]: a
    report of one subject is prepared with its outbox row, an attempt is started
    before the text is sent and completed after it.  A call is a process ([proc]):
    outside a transaction every statement sees the database of its own moment, a
    transaction is one step.  Arguments have their annotated types and the connection
    holds a valid schema without an open transaction; the [CHECK] constraints on
    states are the enumerations below.  [IsoReader] is [datetime.fromisoformat]. *)
From S2P Require Import Prelude Text Utf8 Sha256 Json Timestamps Models Contracts Delivery JsonAscii.
Local Open Scope Z_scope.

Inductive subject_exn :=
  | ValueError | OverflowError | UnicodeEncodeError | IntegrityError | OperationalError
  | Conflict | Rejected | Unresolved.
#[export] Instance subject_exn_eq_dec : EqDecision subject_exn.
Proof. solve_decision. Defined.

Inductive outbox_state := SPrepared | SSent | SFailed | SAmbiguous | SSkipped.
#[export] Instance outbox_state_eq_dec : EqDecision outbox_state.
Proof. solve_decision. Defined.
Definition outbox_state_value (s : outbox_state) : str :=
  u match s with
    | SPrepared => "prepared" | SSent => "sent" | SFailed => "failed" | SAmbiguous => "ambiguous" | SSkipped => "skipped"
    end.

(** ** The tables *)

Record subject_row := mk_subject
  { s_parent : str; s_subject : str; s_revision : Z; s_content : str; s_count : Z; s_created : str }.

Record outbox_row := mk_outbox
  { o_key : str; o_channel : option str; o_recipient : option str; o_content : str; o_state : outbox_state;
    o_attempt : option str; o_created : str; o_updated : str }.

Record subject_attempt := mk_subject_attempt
  { t_report : str; t_ordinal : Z; t_state : outbox_state; t_recipient : str; t_content : str; t_prepared : str;
    t_completed : option str; t_ids : option str; t_code : option str; t_detail : option str }.

(** [parents] is [generation_status] of the table [reports]. *)
Record subject_db := mk_subject_db
  { parents : gmap str str; subject_reports : gmap str subject_row;
    outbox : gmap str outbox_row; attempts : gmap str subject_attempt }.

Definition no_subjects : subject_db := mk_subject_db ∅ ∅ ∅ ∅.

Definition set_subjects t d := mk_subject_db (parents d) t (outbox d) (attempts d).
Definition set_outbox t d := mk_subject_db (parents d) (subject_reports d) t (attempts d).
Definition set_attempts t d := mk_subject_db (parents d) (subject_reports d) (outbox d) t.

(** ** Calls as processes *)

(** [Call m k] executes the statement or the transaction [m] and goes on with its
    value; an exception of [m] is the outcome of the call. *)
Inductive proc (A : Type) : Type :=
  | Done (r : result subject_exn A)
  | Call (B : Type) (m : M subject_db subject_exn B) (k : B → proc A).
Arguments Done {A} r.
Arguments Call {A B} m k.

#[export] Instance proc_ret : MRet proc := λ A a, Done (Ok a).
#[export] Instance proc_bind : MBind proc := λ A B f,
  fix bind p :=
    match p with
    | Done (Ok a) => f a
    | Done (Err e) => Done (Err e)
    | Call m k => Call m (λ b, bind (k b))
    end.

Definition call {A} (m : M subject_db subject_exn A) : proc A := Call m mret.
Definition pure {A} (r : result subject_exn A) : proc A := Done r.

(** One step of a call. *)
Definition advance {A} (p : proc A) (d : subject_db) : proc A * subject_db :=
  match p with
  | Done r => (Done r, d)
  | Call m k => match m d with (Ok b, d') => (k b, d') | (Err e, d') => (Done (Err e), d') end
  end.

(** A call that nothing interrupts. *)
Fixpoint undisturbed {A} (p : proc A) (d : subject_db) : result subject_exn A * subject_db :=
  match p with
  | Done r => (r, d)
  | Call m k => match m d with (Ok b, d') => undisturbed (k b) d' | (Err e, d') => (Err e, d') end
  end.

(** ** Checked values *)

Definition is_control (c : N) : bool :=
  (c <=? 8)%N || bool_decide (c = 11%N) || bool_decide (c = 12%N) || in_range 14 31 c || bool_decide (c = 127%N).

(** [bool(text)], at most 256 characters, none of them a control character. *)
Definition clean_text (s : str) : bool := (length s <=? 256)%nat && negb (existsb is_control s).

Definition _nonempty (s : str) : result subject_exn str :=
  if negb (bool_decide (strip s = [])) && clean_text s then Ok s else Err ValueError.

Definition _hash (s : str) : result subject_exn str := if hex64 s then Ok s else Err ValueError.

Definition identifier (more : N → bool) (limit : nat) (s : str) : bool :=
  match s with
  | c :: s => (is_digit c || is_lower c) && forallb more s && (length s <=? limit)%nat
  | [] => false
  end.
Definition is_channel : str → bool := identifier (λ c, is_digit c || is_lower c || bool_decide (c = 95%N) || bool_decide (c = 45%N)) 31.
Definition is_error_code : str → bool := identifier (λ c, is_digit c || is_lower c || bool_decide (c = 95%N)) 63.

Definition _channel (s : str) : result subject_exn str := if is_channel s then Ok s else Err ValueError.

Definition _subject (value : str) : result subject_exn Subject := of_option ValueError (subject_of value).

Definition sha256_text (s : str) : result subject_exn str :=
  bytes ← of_option UnicodeEncodeError (utf8_encode s); Ok (sha256_bytes bytes).

(** Binding a text: SQLite takes it as UTF-8. *)
Definition bind_text (s : str) : result subject_exn unit :=
  _ ← of_option UnicodeEncodeError (utf8_encode s); Ok tt.

Section delivery.
Context `{IsoReader}.

(** [isoformat(timespec=...)] with [Z] for the offset. *)
Definition canonical_utc (t : Z) : str :=
  stamp t ++ (if t mod 1000000 =? 0 then [] else u "." ++ pad 6 (t mod 1000000)) ++ u "Z".

Definition _timestamp (value : str) : result subject_exn str :=
  _ ← raise_if (negb (ends_with (u "Z") value)) ValueError;
  '(wall, offset) ← of_option ValueError (read_iso (zulu_to_offset value));
  _ ← raise_if (negb (bool_decide (offset = Some 0))) ValueError;
  if bool_decide (canonical_utc wall = value) then Ok value else Err ValueError.

(** ** Identities *)

Definition subject_report_id (parent_report_id subject content_sha256 : str) : result subject_exn str :=
  parent ← _nonempty parent_report_id;
  normalized ← _subject subject;
  content_hash ← _hash content_sha256;
  digest ← sha256_text (u "subject-report-v1" ++ 0%N :: parent ++ 0%N :: subject_value normalized ++ 0%N :: content_hash);
  Ok (u "subject-report-" ++ digest).

Definition subject_idempotency_key (subject report_id content_sha256 : str) : result subject_exn str :=
  normalized ← _subject subject;
  report ← _nonempty report_id;
  content_hash ← _hash content_sha256;
  sha256_text (u "subject-delivery-v1" ++ 0%N :: subject_value normalized ++ 0%N :: report ++ 0%N :: content_hash).

Definition _attempt_id (idempotency_key : str) (ordinal : Z) : str :=
  sha256 (u "subject-attempt-v1" ++ 0%N :: idempotency_key ++ 0%N :: dec_of_Z ordinal).

(** ** Message identifiers *)

Definition is_message_id (j : json) : bool :=
  match j with JStr s => negb (bool_decide (s = [])) && clean_text s | _ => false end.

Definition text_value (j : json) : str := match j with JStr s => s | _ => [] end.

Definition _message_ids (value : option str) : result subject_exn (list str) :=
  match value with
  | None => Ok []
  | Some text =>
      match loads text with
      | Some (JList l) => if forallb is_message_id l then Ok (map text_value l) else Err Conflict
      | _ => Err Conflict
      end
  end.

(** ** Rows *)

Record SubjectReportRecord := mk_report_record
  { rr_id : str; rr_parent : str; rr_subject : str; rr_revision : Z; rr_content : str; rr_count : Z; rr_created : str }.
Record SubjectOutboxRecord := mk_outbox_record
  { or_id : str; or_key : str; or_channel : option str; or_recipient : option str; or_content : str;
    or_state : outbox_state; or_attempt : option str; or_created : str; or_updated : str }.
Record SubjectAttemptRecord := mk_attempt_record
  { ar_id : str; ar_report : str; ar_ordinal : Z; ar_state : outbox_state; ar_recipient : str; ar_content : str;
    ar_prepared : str; ar_completed : option str; ar_message_ids : list str; ar_code : option str; ar_detail : option str }.
Record SubjectDeliverySnapshot := mk_snapshot
  { sn_report : SubjectReportRecord; sn_outbox : SubjectOutboxRecord; sn_attempt : option SubjectAttemptRecord }.

#[export] Instance snapshot_eq_dec : EqDecision SubjectDeliverySnapshot.
Proof.
  assert (EqDecision SubjectReportRecord) by solve_decision.
  assert (EqDecision SubjectOutboxRecord) by solve_decision.
  assert (EqDecision SubjectAttemptRecord) by solve_decision.
  solve_decision.
Defined.

Definition _report_record (report_id : str) (row : subject_row) : result subject_exn SubjectReportRecord :=
  parent ← _nonempty (s_parent row);
  subject ← _subject (s_subject row);
  digest ← _hash (s_content row);
  _ ← raise_if (s_revision row <? 1) Conflict;
  _ ← raise_if (s_count row <? 0) Conflict;
  created ← _timestamp (s_created row);
  expected ← subject_report_id parent (subject_value subject) digest;
  _ ← raise_if (negb (bool_decide (report_id = expected))) Conflict;
  Ok (mk_report_record report_id parent (subject_value subject) (s_revision row) digest (s_count row) created).

(** [if value is not None: check(value)] *)
Definition optional {A} (check : A → result subject_exn A) (value : option A) : result subject_exn (option A) :=
  match value with None => Ok None | Some a => Some <$> check a end.

Definition _outbox_record (report_id : str) (row : outbox_row) (report : SubjectReportRecord)
    : result subject_exn SubjectOutboxRecord :=
  _ ← raise_if (negb (bool_decide (report_id = rr_id report))) Conflict;
  expected_key ← subject_idempotency_key (rr_subject report) (rr_id report) (rr_content report);
  _ ← raise_if (negb (bool_decide (o_key row = expected_key))) Conflict;
  _ ← raise_if (negb (bool_decide (o_content row = rr_content report))) Conflict;
  _ ← raise_if (negb (default true (is_channel <$> o_channel row))) Conflict;
  _ ← optional _hash (o_recipient row);
  _ ← optional _nonempty (o_attempt row);
  created ← _timestamp (o_created row);
  updated ← _timestamp (o_updated row);
  Ok (mk_outbox_record report_id (o_key row) (o_channel row) (o_recipient row) (rr_content report) (o_state row)
        (o_attempt row) created updated).

Definition _attempt_record (attempt_id : str) (row : subject_attempt) (report : SubjectReportRecord)
    : result subject_exn SubjectAttemptRecord :=
  _ ← _nonempty attempt_id;
  _ ← raise_if (negb (bool_decide (t_report row = rr_id report))) Conflict;
  _ ← raise_if (t_ordinal row <? 1) Conflict;
  _ ← raise_if (bool_decide (t_state row = SSkipped)) Conflict;
  recipient ← _hash (t_recipient row);
  _ ← raise_if (negb (bool_decide (t_content row = rr_content report))) Conflict;
  completed ← optional _timestamp (t_completed row);
  _ ← raise_if (negb (default true (is_error_code <$> t_code row))) Conflict;
  _ ← optional _nonempty (t_detail row);
  prepared ← _timestamp (t_prepared row);
  ids ← _message_ids (t_ids row);
  Ok (mk_attempt_record attempt_id (t_report row) (t_ordinal row) (t_state row) recipient (rr_content report)
        prepared completed ids (t_code row) (t_detail row)).

(** ** The snapshot *)

Definition select_report (report_id : str) : M subject_db subject_exn SubjectReportRecord :=
  _ ← lift (bind_text report_id);
  d ← get;
  row ← lift (of_option Rejected (subject_reports d !! report_id));
  lift (_report_record report_id row).

Definition select_outbox (report : SubjectReportRecord) : M subject_db subject_exn SubjectOutboxRecord :=
  d ← get;
  row ← lift (of_option Conflict (outbox d !! rr_id report));
  lift (_outbox_record (rr_id report) row report).

Definition select_attempt (report : SubjectReportRecord) (attempt_id : str)
    : M subject_db subject_exn SubjectAttemptRecord :=
  _ ← lift (bind_text attempt_id);
  d ← get;
  row ← lift (of_option Conflict (attempts d !! attempt_id));
  lift (_attempt_record attempt_id row report).

Definition absent {A} (o : option A) : bool := match o with None => true | Some _ => false end.

(** The checks across the three rows. *)
Definition check_attempt (outbox : SubjectOutboxRecord) (attempt : SubjectAttemptRecord) : result subject_exn unit :=
  _ ← raise_if (negb (bool_decide (ar_state attempt = or_state outbox))) Conflict;
  raise_if (negb (bool_decide (Some (ar_recipient attempt) = or_recipient outbox))) Conflict.

Definition check_snapshot (report : SubjectReportRecord) (outbox : SubjectOutboxRecord) (attempt : option SubjectAttemptRecord)
    : result subject_exn SubjectDeliverySnapshot :=
  let in_state s := bool_decide (or_state outbox = s) in
  _ ← raise_if (if rr_count report =? 0 then negb (in_state SSkipped) || negb (absent attempt) else in_state SSkipped) Conflict;
  _ ← raise_if ((in_state SSent || in_state SFailed || in_state SAmbiguous) && absent attempt) Conflict;
  _ ← raise_if (in_state SPrepared && absent attempt && (negb (absent (or_channel outbox)) || negb (absent (or_recipient outbox)))) Conflict;
  _ ← raise_if (negb (absent attempt) && (absent (or_channel outbox) || absent (or_recipient outbox))) Conflict;
  Ok (mk_snapshot report outbox attempt).

(** [_load_snapshot]: three statements; [stmt] executes one, [check] raises. *)
Definition load_with {F : Type → Type} `{MRet F, MBind F} (stmt : ∀ A, M subject_db subject_exn A → F A)
    (check : ∀ A, result subject_exn A → F A) (report_id : str) : F SubjectDeliverySnapshot :=
  report ← stmt _ (select_report report_id);
  outbox ← stmt _ (select_outbox report);
  attempt ← match or_attempt outbox with
            | None => mret None
            | Some attempt_id =>
                attempt ← stmt _ (select_attempt report attempt_id);
                _ ← check _ (check_attempt outbox attempt);
                mret (Some attempt)
            end;
  check _ (check_snapshot report outbox attempt).

Definition _load_snapshot : str → proc SubjectDeliverySnapshot := load_with (@call) (@pure).

(** Inside a transaction. *)
Definition load_here : str → M subject_db subject_exn SubjectDeliverySnapshot := load_with (λ _ m, m) (@lift _ _).

Definition load_subject_delivery (report_id : str) : proc SubjectDeliverySnapshot :=
  report_id ← pure (_nonempty report_id);
  _load_snapshot report_id.

(** ** Preparing a report *)

Definition of_subject (parent subject : str) (row : subject_row) : Prop := s_parent row = parent ∧ s_subject row = subject.
#[export] Instance of_subject_dec parent subject row : Decision (of_subject parent subject row).
Proof. unfold of_subject. apply _. Defined.

Definition reports_of (parent subject : str) (d : subject_db) : list (str * subject_row) :=
  filter (λ kv, of_subject parent subject kv.2) (map_to_list (subject_reports d)).

(** [SELECT COALESCE(MAX(column),0)+1] *)
Definition next_number (l : list Z) : Z := foldr Z.max 0 l + 1.

Definition require_complete (parent : str) : M subject_db subject_exn unit :=
  d ← get; lift (raise_if (negb (bool_decide (parents d !! parent = Some (u "complete")))) Rejected).

(** Whether the content is there already, under its identity and story count. *)
Definition find_existing (parent subject content_hash report_id : str) (story_count : Z) : M subject_db subject_exn bool :=
  d ← get;
  match filter (λ kv, s_content kv.2 = content_hash) (reports_of parent subject d) with
  | [] => mret false
  | (existing_id, row) :: _ =>
      _ ← lift (raise_if (negb (bool_decide (existing_id = report_id)) || negb (s_count row =? story_count)) Conflict);
      mret true
  end.

Definition INT64_MAX : Z := 9223372036854775807.

Definition insert_report (report_id : str) (row : subject_row) : M subject_db subject_exn unit :=
  _ ← lift (raise_if (INT64_MAX <? s_count row) OverflowError);
  d ← get;
  let siblings := reports_of (s_parent row) (s_subject row) d in
  _ ← lift (raise_if (bool_decide (is_Some (subject_reports d !! report_id)) || bool_decide (parents d !! s_parent row = None) ||
                      existsb (λ kv, (s_revision kv.2 =? s_revision row) || bool_decide (s_content kv.2 = s_content row)) siblings)
                     IntegrityError);
  put (set_subjects (<[report_id := row]> (subject_reports d)) d).

Definition insert_outbox (report_id : str) (row : outbox_row) : M subject_db subject_exn unit :=
  d ← get;
  _ ← lift (raise_if (bool_decide (is_Some (outbox d !! report_id)) || bool_decide (subject_reports d !! report_id = None) ||
                      existsb (λ kv, bool_decide (o_key kv.2 = o_key row)) (map_to_list (outbox d)))
                     IntegrityError);
  put (set_outbox (<[report_id := row]> (outbox d)) d).

(** The transaction of [prepare_subject_report]. *)
Definition prepare_tx (parent subject content_hash report_id key : str) (story_count : Z) (created : str)
    : M subject_db subject_exn unit :=
  existing ← find_existing parent subject content_hash report_id story_count;
  if existing : bool then mret tt
  else
    d ← get;
    let revision := next_number (map (s_revision ∘ snd) (reports_of parent subject d)) in
    _ ← insert_report report_id (mk_subject parent subject revision content_hash story_count created);
    let state := if story_count =? 0 then SSkipped else SPrepared in
    insert_outbox report_id (mk_outbox key None None content_hash state None created created).

Definition prepare_subject_report (parent_report_id subject rendered_text : str) (story_count : Z) (created_at : str)
    : proc SubjectDeliverySnapshot :=
  parent ← pure (_nonempty parent_report_id);
  normalized ← pure (_subject subject);
  _ ← pure (raise_if (story_count <? 0) ValueError);
  _ ← pure (raise_if ((story_count =? 0) && negb (bool_decide (rendered_text = []))) ValueError);
  _ ← pure (raise_if ((0 <? story_count) && bool_decide (rendered_text = [])) ValueError);
  created ← pure (_timestamp created_at);
  content_hash ← pure (sha256_text rendered_text);
  report_id ← pure (subject_report_id parent (subject_value normalized) content_hash);
  key ← pure (subject_idempotency_key (subject_value normalized) report_id content_hash);
  _ ← call (require_complete parent);
  existing ← call (find_existing parent (subject_value normalized) content_hash report_id story_count);
  if existing : bool then _load_snapshot report_id
  else
    _ ← call (transaction (prepare_tx parent (subject_value normalized) content_hash report_id key story_count created));
    _load_snapshot report_id.

(** ** Starting an attempt *)

Definition attempts_of (report_id : str) (d : subject_db) : list (str * subject_attempt) :=
  filter (λ kv, t_report kv.2 = report_id) (map_to_list (attempts d)).

Definition insert_attempt (attempt_id : str) (row : subject_attempt) : M subject_db subject_exn unit :=
  d ← get;
  _ ← lift (raise_if (bool_decide (is_Some (attempts d !! attempt_id)) || bool_decide (outbox d !! t_report row = None) ||
                      existsb (λ kv, t_ordinal kv.2 =? t_ordinal row) (attempts_of (t_report row) d))
                     IntegrityError);
  put (set_attempts (<[attempt_id := row]> (attempts d)) d).

(** [UPDATE ... WHERE]: another number of changed rows than one is a conflict. *)
Definition update_outbox (report_id : str) (matches : outbox_row → bool) (f : outbox_row → outbox_row)
    : M subject_db subject_exn unit :=
  d ← get;
  match outbox d !! report_id with
  | Some row =>
      if matches row then put (set_outbox (<[report_id := f row]> (outbox d)) d) else throw Conflict
  | None => throw Conflict
  end.

Definition update_attempt (attempt_id : str) (matches : subject_attempt → bool) (f : subject_attempt → subject_attempt)
    : M subject_db subject_exn unit :=
  d ← get;
  match attempts d !! attempt_id with
  | Some row =>
      if matches row then put (set_attempts (<[attempt_id := f row]> (attempts d)) d) else throw Conflict
  | None => throw Conflict
  end.

(** The transaction of [start_subject_delivery]. *)
Definition start_tx (report_id recipient channel prepared : str) (initial : SubjectDeliverySnapshot)
    : M subject_db subject_exn unit :=
  current ← load_here report_id;
  _ ← lift (raise_if (negb (bool_decide (current = initial))) Conflict);
  d ← get;
  let ordinal := next_number (map (t_ordinal ∘ snd) (attempts_of report_id d)) in
  let attempt_id := _attempt_id (or_key (sn_outbox current)) ordinal in
  _ ← insert_attempt attempt_id
        (mk_subject_attempt report_id ordinal SPrepared recipient (rr_content (sn_report current)) prepared
           None (Some (u "[]")) None None);
  update_outbox report_id
    (λ row, bool_decide (o_state row = or_state (sn_outbox current)) && bool_decide (o_attempt row = or_attempt (sn_outbox current)))
    (λ row, mk_outbox (o_key row) (Some channel) (Some recipient) (o_content row) SPrepared (Some attempt_id)
              (o_created row) prepared).

Definition start_subject_delivery (report_id recipient_hash channel prepared_at : str) (retry_failed : bool)
    : proc SubjectDeliverySnapshot :=
  report_id ← pure (_nonempty report_id);
  recipient ← pure (_hash recipient_hash);
  delivery_channel ← pure (_channel channel);
  prepared ← pure (_timestamp prepared_at);
  initial ← _load_snapshot report_id;
  let state := or_state (sn_outbox initial) in
  if bool_decide (state = SSent ∨ state = SSkipped) then mret initial
  else
    _ ← pure (raise_if (bool_decide (state = SAmbiguous)) Unresolved);
    _ ← pure (raise_if (bool_decide (state = SPrepared ∧ is_Some (sn_attempt initial))) Unresolved);
    _ ← pure (raise_if (bool_decide (state = SFailed) && negb retry_failed) Rejected);
    _ ← pure (raise_if (negb (default true ((λ c, bool_decide (c = delivery_channel)) <$> or_channel (sn_outbox initial)))) Conflict);
    _ ← pure (raise_if (negb (default true ((λ h, bool_decide (h = recipient)) <$> or_recipient (sn_outbox initial)))) Conflict);
    _ ← call (transaction (start_tx report_id recipient delivery_channel prepared initial));
    _load_snapshot report_id.

(** ** Completing an attempt *)

Definition completed_state (state : str) : option outbox_state := enum_of [SSent; SFailed; SAmbiguous] outbox_state_value state.

(** What is written: the state, the identifiers as JSON and the error. *)
Definition _completion_fields (state : str) (message_ids : list str) (error_code error_detail : option str)
    : result subject_exn (outbox_state * str * option str * option str) :=
  state ← of_option ValueError (completed_state state);
  encoded_ids ← _message_ids (Some (_message_ids_json message_ids));
  if bool_decide (state = SSent) then
    _ ← raise_if (bool_decide (encoded_ids = [])) ValueError;
    _ ← raise_if (negb (bool_decide (error_code = None ∧ error_detail = None))) ValueError;
    Ok (state, _message_ids_json encoded_ids, None, None)
  else
    code ← of_option ValueError error_code;
    _ ← raise_if (negb (is_error_code code)) ValueError;
    detail ← of_option ValueError error_detail;
    detail ← _nonempty detail;
    Ok (state, _message_ids_json encoded_ids, Some code, Some detail).

(** The transaction of [complete_subject_delivery]. *)
Definition complete_tx (report_id attempt completed : str) (state : outbox_state) (ids : str) (code detail : option str)
    : M subject_db subject_exn unit :=
  current ← load_here report_id;
  _ ← lift (raise_if (negb (bool_decide (or_state (sn_outbox current) = SPrepared)) ||
                      match sn_attempt current with
                      | Some a => negb (bool_decide (ar_id a = attempt)) || negb (bool_decide (ar_state a = SPrepared))
                      | None => true
                      end) Conflict);
  _ ← lift (raise_if (match sn_attempt current with
                      | Some a => negb (bool_decide (ar_content a = rr_content (sn_report current)))
                      | None => false
                      end) Conflict);
  _ ← lift (match detail with Some s => bind_text s | None => Ok tt end);
  _ ← update_attempt attempt
        (λ row, bool_decide (t_report row = report_id) && bool_decide (t_state row = SPrepared) &&
                bool_decide (t_content row = rr_content (sn_report current)))
        (λ row, mk_subject_attempt (t_report row) (t_ordinal row) state (t_recipient row) (t_content row) (t_prepared row)
                  (Some completed) (Some ids) code detail);
  update_outbox report_id
    (λ row, bool_decide (o_state row = SPrepared) && bool_decide (o_attempt row = Some attempt) &&
            bool_decide (o_content row = rr_content (sn_report current)))
    (λ row, mk_outbox (o_key row) (o_channel row) (o_recipient row) (o_content row) state (o_attempt row)
              (o_created row) completed).

Definition complete_subject_delivery (report_id attempt_id state completed_at : str) (message_ids : list str)
    (error_code error_detail : option str) : proc SubjectDeliverySnapshot :=
  report_id ← pure (_nonempty report_id);
  attempt ← pure (_nonempty attempt_id);
  completed ← pure (_timestamp completed_at);
  '(state, ids, code, detail) ← pure (_completion_fields state message_ids error_code error_detail);
  _ ← call (transaction (complete_tx report_id attempt completed state ids code detail));
  _load_snapshot report_id.
End delivery.
