(* ===== verification/SubjectFacts.v ===== *)
(** * SubjectFacts: a subject report is delivered at most once.

    Whatever calls are interleaved, statement by statement, each report of a subject
    has a [delivery] that only grows by the steps of [delivery_step]: attempts one
    after the other, the next only when the last one failed, for one recipient; and
    nothing follows an attempt that was sent or is ambiguous.  Undisturbed, every
    call answers as its table says. *)
From stdpp Require Import relations.
From S2P Require Import Prelude Text Utf8 Sha256 Json Timestamps Models Contracts Delivery JsonAscii SubjectDelivery.
Local Open Scope Z_scope.

(** ** What a report has been through *)

(** The idempotency key, the story count, the channel and recipient once they are
    bound, and the attempts. *)
Record delivery := mk_progress { dl_key : str; dl_count : Z; dl_binding : option (str * str); dl_tries : list subject_attempt }.

Definition last_try (x : delivery) : option subject_attempt := last (dl_tries x).

Definition status (x : delivery) : outbox_state :=
  match last_try x with
  | Some t => t_state t
  | None => if dl_count x =? 0 then SSkipped else SPrepared
  end.

Definition final (s : outbox_state) : Prop := s = SSent ∨ s = SFailed ∨ s = SAmbiguous.

(** A completed attempt keeps what it was started with. *)
Record completes (t t' : subject_attempt) : Prop := {
  completes_report : t_report t' = t_report t;
  completes_ordinal : t_ordinal t' = t_ordinal t;
  completes_recipient : t_recipient t' = t_recipient t;
  completes_content : t_content t' = t_content t;
  completes_prepared : t_prepared t' = t_prepared t;
  completes_before : t_state t = SPrepared;
  completes_after : final (t_state t');
  completes_ids : t_state t' = SSent → ∃ ids, _message_ids (t_ids t') = Ok ids ∧ ids ≠ [] }.

Inductive delivery_step : option delivery → option delivery → Prop :=
  | step_prepare key n : 0 <= n → delivery_step None (Some (mk_progress key n None []))
  | step_start key n b l channel recipient t :
      n ≠ 0 → (l = [] ∨ ∃ t0, last l = Some t0 ∧ t_state t0 = SFailed) →
      (b = None ∨ b = Some (channel, recipient)) → t_state t = SPrepared → t_recipient t = recipient →
      delivery_step (Some (mk_progress key n b l)) (Some (mk_progress key n (Some (channel, recipient)) (l ++ [t])))
  | step_complete key n b l t t' : completes t t' →
      delivery_step (Some (mk_progress key n b (l ++ [t]))) (Some (mk_progress key n b (l ++ [t']))).

(** ** Digests are clean texts *)

Lemma sha256_text_Ok s h : sha256_text s = Ok h ↔ Forall (λ c, scalar c = true) s ∧ h = sha256 s.
Proof.
  unfold sha256_text. destruct (utf8_encode s) as [b|] eqn:E; cbn.
  - apply utf8_encode_Some in E as [Hs ->]. split; [by intros [= <-]|by intros [_ ->]].
  - split; [done|]. intros [Hs _]. assert (utf8_encode s = Some (utf8 s)) as E' by by apply utf8_encode_Some. congruence.
Qed.

Lemma is_hex_range c : is_hex c = true → (48 <= c <= 102)%N.
Proof. unfold is_hex, is_digit. rewrite orb_true_iff, !in_range_true. lia. Qed.

Lemma is_hex_plain c : is_hex c = true → is_space c = false ∧ is_control c = false ∧ scalar c = true.
Proof.
  intros H. pose proof (is_hex_range c H) as Hc.
  assert (∀ c, In c (map N.of_nat (List.seq 48 55)) → is_hex c = true → is_space c = false ∧ is_control c = false ∧ scalar c = true) as Hall.
  { assert (forallb (λ c, negb (is_hex c) || (negb (is_space c) && negb (is_control c) && scalar c)) (map N.of_nat (List.seq 48 55)) = true)
      as Hb by (vm_compute; reflexivity).
    intros c' Hin H'. apply (proj1 (List.forallb_forall _ _) Hb) in Hin. rewrite H' in Hin. cbn [negb orb] in Hin.
    apply andb_prop in Hin as [[Hs%negb_true_iff Hk%negb_true_iff]%andb_prop Hsc]. done. }
  apply Hall; [|done]. apply List.in_map_iff. exists (N.to_nat c). rewrite N2Nat.id. split; [done|]. apply List.in_seq. lia.
Qed.

Lemma strip_no_space c s : is_space c = false → strip (c :: s) ≠ [].
Proof.
  intros Hc H. unfold strip in H. assert (lstrip (c :: s) = c :: s) as E by (cbn; by rewrite Hc). rewrite E in H.
  apply (f_equal reverse) in H. rewrite reverse_involutive in H.
  assert (∀ l, c ∈ l → lstrip l ≠ []) as Haux.
  { clear -Hc. induction l as [|x l IH]; intros Hin; [by apply elem_of_nil in Hin|]. cbn. destruct (is_space x) eqn:E; [|done].
    apply elem_of_cons in Hin as [->|Hin]; [congruence|by apply IH]. }
  apply (Haux (reverse (c :: s))); [|done]. apply elem_of_reverse, list_elem_of_here.
Qed.

(** Texts that a digest is made of. *)
Definition digest_like (s : str) : Prop :=
  (0 < length s <= 256)%nat ∧ Forall (λ c, is_space c = false ∧ is_control c = false ∧ scalar c = true) s.

Lemma digest_like_nonempty s : digest_like s → _nonempty s = Ok s.
Proof.
  intros [[Hpos Hlen] Hall]. unfold _nonempty, clean_text. destruct s as [|c s]; [cbn in Hpos; lia|].
  rewrite bool_decide_false by (apply strip_no_space; by apply Forall_cons in Hall as [[? _] _]).
  rewrite (proj2 (Nat.leb_le _ _) Hlen). cbn [negb andb].
  assert (existsb is_control (c :: s) = false) as ->; [|done].
  apply not_true_iff_false. intros (x & Hx%list_elem_of_In & Hc)%List.existsb_exists.
  rewrite Forall_forall in Hall. destruct (Hall x Hx) as (_ & ? & _). congruence.
Qed.

Lemma digest_like_bind s : digest_like s → bind_text s = Ok tt.
Proof.
  intros [_ Hall]. unfold bind_text. assert (utf8_encode s = Some (utf8 s)) as ->; [|done].
  apply utf8_encode_Some. split; [|done]. eapply Forall_impl; [exact Hall|]. by intros ? (_ & _ & ?).
Qed.

Lemma digest_like_sha256 s : digest_like (sha256 s).
Proof.
  split; [rewrite sha256_length; lia|]. eapply Forall_impl; [apply sha256_hex|]. intros c. apply is_hex_plain.
Qed.

Lemma digest_like_app s t : Forall (λ c, is_space c = false ∧ is_control c = false ∧ scalar c = true) s →
  (length s + length t <= 256)%nat → digest_like t → digest_like (s ++ t).
Proof. intros Hs Hl [[Ht1 Ht2] Ht]. split; [rewrite length_app; lia|by apply Forall_app]. Qed.

Lemma attempt_id_like key n : digest_like (_attempt_id key n).
Proof. apply digest_like_sha256. Qed.

Lemma report_id_like parent subject content id : subject_report_id parent subject content = Ok id → digest_like id.
Proof.
  unfold subject_report_id. intros (? & _ & (? & _ & (? & _ & (digest & [_ Hd]%sha256_text_Ok & Hid)%bind_Ok)%bind_Ok)%bind_Ok)%bind_Ok.
  assert (id = u "subject-report-" ++ digest) as -> by congruence. rewrite Hd.
  apply digest_like_app; [|rewrite sha256_length; cbn; lia|apply digest_like_sha256].
  apply Forall_forall. intros c Hc. vm_compute in Hc.
  repeat (apply elem_of_cons in Hc as [->|Hc]; [vm_compute; done|]). by apply elem_of_nil in Hc.
Qed.

#[local] Opaque _attempt_id.

Section facts.
Context `{IsoReader}.

(** ** The rows of a report *)

Definition report_record (id : str) (r : subject_row) : SubjectReportRecord :=
  mk_report_record id (s_parent r) (s_subject r) (s_revision r) (s_content r) (s_count r) (s_created r).
Definition outbox_record (id : str) (o : outbox_row) : SubjectOutboxRecord :=
  mk_outbox_record id (o_key o) (o_channel o) (o_recipient o) (o_content o) (o_state o) (o_attempt o) (o_created o) (o_updated o).
Definition message_ids_of (t : subject_attempt) : list str := match _message_ids (t_ids t) with Ok l => l | Err _ => [] end.
Definition attempt_record (a : str) (t : subject_attempt) : SubjectAttemptRecord :=
  mk_attempt_record a (t_report t) (t_ordinal t) (t_state t) (t_recipient t) (t_content t) (t_prepared t) (t_completed t)
    (message_ids_of t) (t_code t) (t_detail t).

(** The identifier of the [n]th attempt, counted from one. *)
Definition nth_id (o : outbox_row) (i : nat) : str := _attempt_id (o_key o) (Z.of_nat i + 1).

Definition current_id (o : outbox_row) (l : list subject_attempt) : option str :=
  match l with [] => None | _ => Some (nth_id o (pred (length l))) end.

(** The rows of the report [id] stand for [x]. *)
Record stands (d : subject_db) (id : str) (x : delivery) (r : subject_row) (o : outbox_row) : Prop := {
  st_report : subject_reports d !! id = Some r;
  st_outbox : outbox d !! id = Some o;
  st_report_ok : _report_record id r = Ok (report_record id r);
  st_outbox_ok : _outbox_record id o (report_record id r) = Ok (outbox_record id o);
  st_key : o_key o = dl_key x;
  st_count : s_count r = dl_count x;
  st_state : o_state o = status x;
  st_binding : dl_binding x = match o_channel o, o_recipient o with Some c, Some h => Some (c, h) | _, _ => None end;
  st_unbound : dl_binding x = None → o_channel o = None ∧ o_recipient o = None;
  st_current : o_attempt o = current_id o (dl_tries x);
  st_tries : ∀ i t, dl_tries x !! i = Some t →
    attempts d !! nth_id o i = Some t ∧ t_report t = id ∧ t_ordinal t = Z.of_nat i + 1 ∧ Some (t_recipient t) = o_recipient o ∧
    _attempt_record (nth_id o i) t (report_record id r) = Ok (attempt_record (nth_id o i) t);
  st_only : ∀ a t, attempts d !! a = Some t → t_report t = id → ∃ i, a = nth_id o i ∧ dl_tries x !! i = Some t;
  st_bound : dl_tries x ≠ [] ↔ is_Some (dl_binding x);
  st_empty : dl_count x = 0 → dl_tries x = [];
  st_failed : ∀ l t, dl_tries x = l ++ [t] → Forall (λ t, t_state t = SFailed) l }.

Definition represents (d : subject_db) (id : str) (x : option delivery) : Prop :=
  match x with
  | Some x => ∃ r o, stands d id x r o
  | None => subject_reports d !! id = None ∧ outbox d !! id = None ∧ ∀ a t, attempts d !! a = Some t → t_report t ≠ id
  end.

Definition wellformed (d : subject_db) : Prop := ∀ id, ∃ x, represents d id x.

Lemma bound_channel d id x r o t : stands d id x r o → last_try x = Some t →
  ∃ c, o_channel o = Some c ∧ o_recipient o = Some (t_recipient t).
Proof.
  intros Hs Ht. unfold last_try in Ht. apply last_Some in Ht as [l Hl].
  assert (is_Some (dl_binding x)) as [[c h] Hb] by (apply (st_bound _ _ _ _ _ Hs); rewrite Hl; by destruct l).
  rewrite (st_binding _ _ _ _ _ Hs) in Hb.
  destruct (st_tries _ _ _ _ _ Hs (length l) t) as (_ & _ & _ & Hr & _); [by rewrite Hl, list_lookup_middle|].
  destruct (o_channel o) as [c'|], (o_recipient o) as [h'|]; try done. exists c'. by rewrite <- Hr.
Qed.

Lemma report_id_of id r : _report_record id r = Ok (report_record id r) → digest_like id.
Proof.
  unfold _report_record. intros Hr. do 6 (apply bind_Ok in Hr as (? & _ & Hr)).
  apply bind_Ok in Hr as (expected & Hid & Hr). apply bind_Ok in Hr as (? & Heq & _).
  apply raise_if_Ok, negb_false_iff, bool_decide_eq_true in Heq as ->. by eapply report_id_like.
Qed.

(** ** Reading a snapshot *)

Definition snapshot_of (id : str) (x : delivery) (r : subject_row) (o : outbox_row) : SubjectDeliverySnapshot :=
  mk_snapshot (report_record id r) (outbox_record id o)
    (attempt_record (nth_id o (pred (length (dl_tries x)))) <$> last_try x).

Lemma select_report_stands d id x r o : stands d id x r o → select_report id d = (Ok (report_record id r), d).
Proof.
  intros Hs. unfold select_report, mbind, M_bind, get, lift. rewrite (digest_like_bind id) by (by eapply report_id_of, Hs).
  rewrite (st_report _ _ _ _ _ Hs). cbn [of_option]. by rewrite (st_report_ok _ _ _ _ _ Hs).
Qed.

Lemma select_outbox_stands d id x r o : stands d id x r o →
  select_outbox (report_record id r) d = (Ok (outbox_record id o), d).
Proof.
  intros Hs. unfold select_outbox, mbind, M_bind, get, lift. cbn [rr_id report_record].
  rewrite (st_outbox _ _ _ _ _ Hs). cbn [of_option]. by rewrite (st_outbox_ok _ _ _ _ _ Hs).
Qed.

Lemma last_try_lookup x t : last_try x = Some t → dl_tries x !! pred (length (dl_tries x)) = Some t.
Proof. unfold last_try. by rewrite last_lookup. Qed.

Lemma select_attempt_stands d id x r o t : stands d id x r o → last_try x = Some t →
  let a := nth_id o (pred (length (dl_tries x))) in
  select_attempt (report_record id r) a d = (Ok (attempt_record a t), d).
Proof.
  intros Hs Ht a. unfold select_attempt, mbind, M_bind, get, lift. rewrite (digest_like_bind a) by apply attempt_id_like. subst a.
  destruct (st_tries _ _ _ _ _ Hs _ _ (last_try_lookup _ _ Ht)) as (-> & _ & _ & _ & Hok). cbn [of_option]. by rewrite Hok.
Qed.

Lemma check_stands d id x r o : stands d id x r o →
  match last_try x with
  | Some t => check_attempt (outbox_record id o) (attempt_record (nth_id o (pred (length (dl_tries x)))) t) = Ok tt
  | None => True
  end ∧
  check_snapshot (report_record id r) (outbox_record id o) (attempt_record (nth_id o (pred (length (dl_tries x)))) <$> last_try x) =
    Ok (snapshot_of id x r o).
Proof.
  intros Hs. pose proof (st_state _ _ _ _ _ Hs) as Hst. pose proof (st_count _ _ _ _ _ Hs) as Hc. unfold status in Hst.
  unfold check_snapshot, snapshot_of. cbn [or_state outbox_record rr_count report_record or_channel or_recipient].
  rewrite Hst, Hc. destruct (last_try x) as [t|] eqn:Ht; cbn [fmap option_fmap option_map absent].
  - destruct (bound_channel _ _ _ _ _ _ Hs Ht) as (c & Hch & Hrc). split.
    { unfold check_attempt. cbn. rewrite Hst, Hrc, !bool_decide_true by done. done. }
    rewrite Hch, Hrc. cbn [absent negb].
    assert (dl_count x ≠ 0) as Hne.
    { intros Hz. apply (st_empty _ _ _ _ _ Hs) in Hz. unfold last_try in Ht. by rewrite Hz in Ht. }
    rewrite (proj2 (Z.eqb_neq _ _) Hne). 
    assert (t_state t ≠ SSkipped) as Hsk.
    { destruct (st_tries _ _ _ _ _ Hs _ _ (last_try_lookup _ _ Ht)) as (_ & _ & _ & _ & Hok). unfold _attempt_record in Hok.
      do 3 (apply bind_Ok in Hok as (? & _ & Hok)). apply bind_Ok in Hok as (? & Hsk & _).
      by apply raise_if_Ok, bool_decide_eq_false in Hsk. }
    rewrite (bool_decide_false (t_state t = SSkipped)) by done. by rewrite !andb_false_r.
  - split; [done|].
    assert (dl_binding x = None) as Hb.
    { destruct (dl_binding x) eqn:Hb; [|done]. assert (dl_tries x ≠ []) as Hne by (apply (st_bound _ _ _ _ _ Hs); by rewrite Hb).
      unfold last_try in Ht. by apply last_None in Ht. }
    destruct (st_unbound _ _ _ _ _ Hs Hb) as [-> ->]. by destruct (dl_count x =? 0).
Qed.

Lemma load_here_stands d id x r o : stands d id x r o → load_here id d = (Ok (snapshot_of id x r o), d).
Proof.
  intros Hs. unfold load_here, load_with, mbind, M_bind. rewrite (select_report_stands _ _ _ _ _ Hs). cbv beta iota.
  rewrite (select_outbox_stands _ _ _ _ _ Hs). cbv beta iota. cbn [or_attempt outbox_record].
  destruct (check_stands _ _ _ _ _ Hs) as [Hca Hcs]. rewrite (st_current _ _ _ _ _ Hs).
  destruct (last_try x) as [t|] eqn:Ht.
  - assert (current_id o (dl_tries x) = Some (nth_id o (pred (length (dl_tries x))))) as ->.
    { unfold last_try in Ht. by destruct (dl_tries x). }
    rewrite (select_attempt_stands _ _ _ _ _ _ Hs Ht). cbv beta iota. unfold lift. cbv beta. rewrite Hca. cbv beta iota.
    cbn [fmap option_fmap option_map] in Hcs. unfold mret, M_ret. by rewrite Hcs.
  - assert (current_id o (dl_tries x) = None) as ->.
    { unfold last_try in Ht. apply last_None in Ht. by rewrite Ht. }
    unfold mret, M_ret, lift. cbv beta iota. cbn [fmap option_fmap option_map] in Hcs. by rewrite Hcs.
Qed.
(** ** Statements that read *)

Definition reads {A} (m : M subject_db subject_exn A) : Prop := ∀ d, (m d).2 = d.

Lemma reads_lift {A} (r : result subject_exn A) : reads (lift r).
Proof. done. Qed.
Lemma reads_get : reads get.
Proof. done. Qed.
Lemma reads_bind {A B} (m : M subject_db subject_exn A) (f : A → M subject_db subject_exn B) :
  reads m → (∀ a, reads (f a)) → reads (m ≫= f).
Proof.
  intros Hm Hf d. unfold mbind, M_bind. specialize (Hm d). destruct (m d) as [[a|e] d1]; cbn in Hm; subst; [apply Hf|done].
Qed.
Lemma reads_ret {A} (a : A) : reads (mret a).
Proof. done. Qed.
Create HintDb reads.
#[local] Hint Resolve reads_lift reads_get reads_ret : reads.
#[local] Hint Extern 2 (reads (_ ≫= _)) => apply reads_bind; [|intro] : reads.

Lemma reads_select_report id : reads (select_report id).
Proof. unfold select_report. auto 10 with reads. Qed.
Lemma reads_select_outbox report : reads (select_outbox report).
Proof. unfold select_outbox. auto 10 with reads. Qed.
Lemma reads_select_attempt report a : reads (select_attempt report a).
Proof. unfold select_attempt. auto 10 with reads. Qed.
#[local] Hint Resolve reads_select_report reads_select_outbox reads_select_attempt : reads.

Lemma reads_load_here id : reads (load_here id).
Proof.
  unfold load_here, load_with. apply reads_bind; [auto with reads|intros report]. apply reads_bind; [auto with reads|intros o].
  apply reads_bind; [destruct (or_attempt o); auto with reads|auto with reads].
Qed.

Lemma reads_require_complete parent : reads (require_complete parent).
Proof. unfold require_complete. auto with reads. Qed.
Lemma reads_find_existing parent subject content id n : reads (find_existing parent subject content id n).
Proof. unfold find_existing. apply reads_bind; [auto with reads|intros d]. destruct (filter _ _) as [|[]]; auto with reads. Qed.
#[local] Hint Resolve reads_load_here reads_require_complete reads_find_existing : reads.

(** In a well-formed database a snapshot shows what the report has been through. *)
Lemma load_here_Ok d id s d' : wellformed d → load_here id d = (Ok s, d') →
  d' = d ∧ ∃ x r o, stands d id x r o ∧ s = snapshot_of id x r o.
Proof.
  intros Hw Hl. pose proof (reads_load_here id d) as Hd. rewrite Hl in Hd. cbn in Hd. split; [done|].
  destruct (Hw id) as [[x|] Hx].
  - destruct Hx as (r & o & Hs). rewrite (load_here_stands _ _ _ _ _ Hs) in Hl. injection Hl as <- <-. eauto.
  - destruct Hx as (Hr & _). exfalso. unfold load_here, load_with in Hl.
    apply M_bind_Ok in Hl as (? & ? & Hr' & _). unfold select_report in Hr'.
    apply M_bind_Ok in Hr' as (? & d1 & [= _ <-] & Hr'). apply M_bind_Ok in Hr' as (? & ? & [= <- <-] & Hr').
    apply M_bind_Ok in Hr' as (? & ? & [= Hr'' <-] & _). by rewrite Hr in Hr''.
Qed.

(** ** Steps of the database *)

Definition delivery_steps (x y : option delivery) : Prop := y = x ∨ delivery_step x y.

Definition evolves (d d' : subject_db) : Prop := ∀ id x, represents d id x → ∃ y, represents d' id y ∧ delivery_steps x y.

Definition good {A} (m : M subject_db subject_exn A) : Prop := ∀ d r d', wellformed d → m d = (r, d') → evolves d d'.

Lemma evolves_refl d : evolves d d.
Proof. intros id x Hx. exists x. split; [done|by left]. Qed.

Lemma evolves_wellformed d d' : evolves d d' → wellformed d → wellformed d'.
Proof. intros He Hw id. destruct (Hw id) as [x Hx]. destruct (He id x Hx) as (y & Hy & _). eauto. Qed.

Lemma reads_good {A} (m : M subject_db subject_exn A) : reads m → good m.
Proof. intros Hm d r d' _ Hr. specialize (Hm d). rewrite Hr in Hm. cbn in Hm. subst. apply evolves_refl. Qed.

(** An exception undoes a transaction. *)
Lemma good_transaction {A} (m : M subject_db subject_exn A) :
  (∀ d a d', wellformed d → m d = (Ok a, d') → evolves d d') → good (transaction m).
Proof.
  intros Hm d [a|e] d' Hw.
  - rewrite transaction_Ok. by apply Hm.
  - rewrite transaction_Err. intros [-> _]. apply evolves_refl.
Qed.

(** A report whose rows are left alone. *)
Lemma represents_frame d d' id x :
  subject_reports d' !! id = subject_reports d !! id → outbox d' !! id = outbox d !! id →
  (∀ a t, t_report t = id → attempts d' !! a = Some t ↔ attempts d !! a = Some t) →
  represents d id x → represents d' id x.
Proof.
  intros Hr Ho Ha. destruct x as [x|].
  - intros (r & o & [? ? ? ? ? ? ? ? ? ? Htries Honly ? ? ?]). exists r, o. split; try done.
    + by rewrite Hr.
    + by rewrite Ho.
    + intros i t Ht. destruct (Htries i t Ht) as (Hat & Hrest). split; [apply Ha; [apply Hrest|done]|done].
    + intros a t Hat Hid. apply Honly; [by apply Ha|done].
  - intros (H1 & H2 & H3). split_and!; [by rewrite Hr|by rewrite Ho|]. intros a t Hat Hid. by apply (H3 a t); [apply Ha|].
Qed.

Lemma evolves_one d d' id :
  (∀ id', id' ≠ id → subject_reports d' !! id' = subject_reports d !! id' ∧ outbox d' !! id' = outbox d !! id' ∧
     ∀ a t, t_report t = id' → attempts d' !! a = Some t ↔ attempts d !! a = Some t) →
  (∀ x, represents d id x → ∃ y, represents d' id y ∧ delivery_step x y) → evolves d d'.
Proof.
  intros Hother Hone id' x Hx. destruct (decide (id' = id)) as [->|Hne].
  - destruct (Hone x Hx) as (y & ? & ?). exists y. split; [done|by right].
  - destruct (Hother id' Hne) as (? & ? & ?). exists x. split; [by eapply represents_frame|by left].
Qed.
(** ** Checks return what they were given *)

Lemma nonempty_Ok s t : _nonempty s = Ok t → t = s.
Proof. unfold _nonempty. destruct (_ && _); [by intros [= <-]|done]. Qed.
Lemma hash_Ok s t : _hash s = Ok t → t = s ∧ hex64 s = true.
Proof. unfold _hash. destruct (hex64 s); [by intros [= <-]|done]. Qed.
Lemma channel_Ok s t : _channel s = Ok t → t = s ∧ is_channel s = true.
Proof. unfold _channel. destruct (is_channel s); [by intros [= <-]|done]. Qed.
Lemma timestamp_Ok s t : _timestamp s = Ok t → t = s.
Proof.
  unfold _timestamp. intros Ht. apply bind_Ok in Ht as (? & _ & Ht). apply bind_Ok in Ht as ([wall offset] & _ & Ht).
  apply bind_Ok in Ht as (? & _ & Ht). case_bool_decide; [by injection Ht as <-|done].
Qed.
Lemma subject_Ok s t : _subject s = Ok t → subject_value t = s.
Proof. unfold _subject. intros Ht%of_option_Ok. by apply enum_of_Some in Ht as [_ ?]. Qed.
Lemma subject_value_Ok s : _subject (subject_value s) = Ok s.
Proof. unfold _subject. by rewrite subject_of_value. Qed.

Lemma report_id_Ok parent subject content id : subject_report_id parent subject content = Ok id →
  _nonempty parent = Ok parent ∧ (∃ s, _subject subject = Ok s) ∧ _hash content = Ok content.
Proof.
  unfold subject_report_id. intros (p & Hp & (s & Hs & (c & Hc & _)%bind_Ok)%bind_Ok)%bind_Ok.
  pose proof (nonempty_Ok _ _ Hp) as ->. pose proof (proj1 (hash_Ok _ _ Hc)) as ->. eauto.
Qed.

Lemma report_record_Ok id r s : s_subject r = subject_value s →
  subject_report_id (s_parent r) (s_subject r) (s_content r) = Ok id → 1 <= s_revision r → 0 <= s_count r →
  _timestamp (s_created r) = Ok (s_created r) → _report_record id r = Ok (report_record id r).
Proof.
  intros Hs Hid Hrev Hcount Hat. unfold _report_record. pose proof (report_id_Ok _ _ _ _ Hid) as (-> & _ & ->).
  rewrite Hs, subject_value_Ok in *. cbn [mbind result_bind]. rewrite (proj2 (Z.ltb_ge _ _)) by lia. cbn [raise_if].
  rewrite (proj2 (Z.ltb_ge _ _)) by lia. cbn [raise_if mbind result_bind]. rewrite Hat. cbn [mbind result_bind]. rewrite Hid. cbn [mbind result_bind].
  rewrite bool_decide_true by done. cbn [negb raise_if mbind result_bind]. unfold report_record. by rewrite Hs.
Qed.

(** What an outbox row must be for its report. *)
Record outbox_valid (id : str) (r : subject_row) (o : outbox_row) : Prop := {
  ov_key : subject_idempotency_key (s_subject r) id (s_content r) = Ok (o_key o);
  ov_content : o_content o = s_content r;
  ov_channel : default true (is_channel <$> o_channel o) = true;
  ov_recipient : default true (hex64 <$> o_recipient o) = true;
  ov_attempt : ∀ a, o_attempt o = Some a → digest_like a;
  ov_created : _timestamp (o_created o) = Ok (o_created o);
  ov_updated : _timestamp (o_updated o) = Ok (o_updated o) }.

Lemma outbox_record_Ok id r o : outbox_valid id r o → _outbox_record id o (report_record id r) = Ok (outbox_record id o).
Proof.
  intros [Hk Hc Hch Hr Ha Hcr Hup]. unfold _outbox_record. cbn [rr_id rr_subject rr_content report_record].
  rewrite (bool_decide_true (id = id)) by done. cbn [negb raise_if mbind result_bind]. rewrite Hk. cbn [mbind result_bind].
  rewrite (bool_decide_true (o_key o = o_key o)) by done. cbn [negb raise_if mbind result_bind].
  rewrite (bool_decide_true (o_content o = s_content r)) by done. cbn [negb raise_if mbind result_bind]. rewrite Hch.
  cbn [negb raise_if mbind result_bind].
  assert (optional _hash (o_recipient o) = Ok (o_recipient o)) as ->.
  { destruct (o_recipient o); [|done]. cbn in Hr |- *. unfold _hash. by rewrite Hr. }
  assert (optional _nonempty (o_attempt o) = Ok (o_attempt o)) as ->.
  { destruct (o_attempt o) as [a|]; [|done]. cbn. by rewrite (digest_like_nonempty a) by by apply Ha. }
  cbn [mbind result_bind]. rewrite Hcr. cbn [mbind result_bind]. rewrite Hup. cbn [mbind result_bind]. unfold outbox_record. by rewrite Hc.
Qed.

Lemma outbox_record_valid id r o : digest_like id → (∀ a, o_attempt o = Some a → digest_like a) →
  _outbox_record id o (report_record id r) = Ok (outbox_record id o) → outbox_valid id r o.
Proof.
  intros _ Ha. unfold _outbox_record. cbn [rr_id rr_subject rr_content report_record].
  intros (? & _ & (key & Hk & (? & Hkey & (? & Hc & (? & Hch & (? & Hr & (? & _ & (? & Hcr & (? & Hup & _)%bind_Ok)%bind_Ok)%bind_Ok)%bind_Ok)%bind_Ok)%bind_Ok)%bind_Ok)%bind_Ok)%bind_Ok.
  apply raise_if_Ok, negb_false_iff in Hkey, Hc, Hch. apply bool_decide_eq_true in Hkey, Hc.
  pose proof (timestamp_Ok _ _ Hcr) as ->. pose proof (timestamp_Ok _ _ Hup) as ->. split; try done; [by rewrite Hkey|].
  destruct (o_recipient o) as [h|]; [|done]. cbn in Hr |- *. unfold _hash in Hr. by destruct (hex64 h).
Qed.

(** ** Preparing *)

Lemma next_number_positive l : 1 <= next_number l.
Proof. unfold next_number. assert (0 <= foldr Z.max 0 l); [|lia]. induction l; cbn; lia. Qed.

Lemma find_existing_Ok parent subject content id n d b d' :
  find_existing parent subject content id n d = (Ok b, d') → d' = d.
Proof. intros Hf. pose proof (reads_find_existing parent subject content id n d) as Hd. rewrite Hf in Hd. by cbn in Hd. Qed.

(** Running a statement that checks and writes. *)
Lemma checked_put_Ok (b : subject_db → bool) (e : subject_exn) (f : subject_db → subject_db) d u d' :
  (d ← get; _ ← lift (raise_if (b d) e); put (f d)) d = (Ok u, d') → b d = false ∧ d' = f d.
Proof. unfold mbind, M_bind, get, lift, put, raise_if. destruct (b d); [done|]. by intros [= _ <-]. Qed.

Lemma lift_bind_Ok {A B} (r : result subject_exn A) (f : A → M subject_db subject_exn B) d b d' :
  (a ← lift r; f a) d = (Ok b, d') → ∃ a, r = Ok a ∧ f a d = (Ok b, d').
Proof. unfold mbind, M_bind, lift. destruct r; [eauto|done]. Qed.

Lemma insert_report_Ok id row d u d' : insert_report id row d = (Ok u, d') →
  subject_reports d !! id = None ∧ d' = set_subjects (<[id := row]> (subject_reports d)) d.
Proof.
  unfold insert_report. intros (? & _ & Hi)%lift_bind_Ok.
  apply checked_put_Ok in Hi as [Hc ->]. split; [|done]. apply orb_false_iff in Hc as [Hc _].
  apply orb_false_iff in Hc as [Hc%bool_decide_eq_false _]. by apply eq_None_not_Some.
Qed.

Lemma insert_outbox_Ok id row d u d' : insert_outbox id row d = (Ok u, d') →
  outbox d !! id = None ∧ d' = set_outbox (<[id := row]> (outbox d)) d.
Proof.
  unfold insert_outbox. intros Hi. apply checked_put_Ok in Hi as [Hc ->]. split; [|done].
  apply orb_false_iff in Hc as [Hc _]. apply orb_false_iff in Hc as [Hc%bool_decide_eq_false _]. by apply eq_None_not_Some.
Qed.

Lemma insert_attempt_Ok a row d u d' : insert_attempt a row d = (Ok u, d') →
  attempts d !! a = None ∧ d' = set_attempts (<[a := row]> (attempts d)) d.
Proof.
  unfold insert_attempt. intros Hi. apply checked_put_Ok in Hi as [Hc ->]. split; [|done].
  apply orb_false_iff in Hc as [Hc _]. apply orb_false_iff in Hc as [Hc%bool_decide_eq_false _]. by apply eq_None_not_Some.
Qed.

Lemma update_outbox_Ok id b f d u d' : update_outbox id b f d = (Ok u, d') →
  ∃ o, outbox d !! id = Some o ∧ b o = true ∧ d' = set_outbox (<[id := f o]> (outbox d)) d.
Proof.
  unfold update_outbox, mbind, M_bind, get. destruct (outbox d !! id) as [o|]; [|done]. destruct (b o) eqn:E; [|done].
  intros [= _ <-]. eauto.
Qed.

Lemma update_attempt_Ok a b f d u d' : update_attempt a b f d = (Ok u, d') →
  ∃ t, attempts d !! a = Some t ∧ b t = true ∧ d' = set_attempts (<[a := f t]> (attempts d)) d.
Proof.
  unfold update_attempt, mbind, M_bind, get. destruct (attempts d !! a) as [t|]; [|done]. destruct (b t) eqn:E; [|done].
  intros [= _ <-]. eauto.
Qed.

(** A new report stands for one without attempts. *)
Lemma stands_fresh d id row o :
  subject_reports d !! id = Some row → outbox d !! id = Some o → (∀ a t, attempts d !! a = Some t → t_report t ≠ id) →
  _report_record id row = Ok (report_record id row) → outbox_valid id row o →
  o_channel o = None → o_recipient o = None → o_attempt o = None →
  o_state o = (if s_count row =? 0 then SSkipped else SPrepared) →
  stands d id (mk_progress (o_key o) (s_count row) None []) row o.
Proof.
  intros Hr Ho Ha Hrec Hval Hch Hrc Hat Hst. split; cbn [dl_key dl_count dl_tries dl_binding]; try done.
  - by apply outbox_record_Ok.
  - by rewrite Hch.
  - intros a t Hat' Hid. by destruct (Ha a t).
  - by intros [|] ? [=].
Qed.

Lemma prepare_tx_good parent subject content id key n created :
  subject_report_id parent (subject_value subject) content = Ok id →
  subject_idempotency_key (subject_value subject) id content = Ok key → 0 <= n → _timestamp created = Ok created →
  good (transaction (prepare_tx parent (subject_value subject) content id key n created)).
Proof.
  intros Hid Hkey Hn Hat. apply good_transaction. intros d u d' Hw Hp. unfold prepare_tx in Hp.
  apply M_bind_Ok in Hp as (existing & d1 & Hf & Hp). apply find_existing_Ok in Hf as ->.
  destruct existing; [injection Hp as _ <-; apply evolves_refl|].
  apply M_bind_Ok in Hp as (? & ? & [= <- <-] & Hp). apply M_bind_Ok in Hp as ([] & d1 & Hi & Ho).
  apply insert_report_Ok in Hi as [Hnone ->]. apply insert_outbox_Ok in Ho as [Honone ->].
  set (row := mk_subject _ _ _ _ _ _) in *. set (o := mk_outbox _ _ _ _ _ _ _ _) in *.
  apply (evolves_one _ _ id).
  - intros id' Hne. cbn. rewrite !lookup_insert_ne by done. done.
  - intros [x|] Hx; [by destruct Hx as (r0 & o0 & Hs); rewrite (st_report _ _ _ _ _ Hs) in Hnone|].
    destruct Hx as (_ & _ & Hno). exists (Some (mk_progress key n None [])). split; [|by constructor].
    exists row, o. apply (stands_fresh _ id row o).
    + cbn. by rewrite lookup_insert_eq.
    + cbn. by rewrite lookup_insert_eq.
    + done.
    + apply (report_record_Ok id row subject); try done. cbn. apply next_number_positive.
    + by split.
    + done.
    + done.
    + done.
    + done.
Qed.
(** ** Attempts *)

Record attempt_valid (a id content : str) (t : subject_attempt) : Prop := {
  av_id : digest_like a;
  av_report : t_report t = id;
  av_ordinal : 1 <= t_ordinal t;
  av_state : t_state t ≠ SSkipped;
  av_recipient : hex64 (t_recipient t) = true;
  av_content : t_content t = content;
  av_completed : optional _timestamp (t_completed t) = Ok (t_completed t);
  av_code : default true (is_error_code <$> t_code t) = true;
  av_detail : optional _nonempty (t_detail t) = Ok (t_detail t);
  av_prepared : _timestamp (t_prepared t) = Ok (t_prepared t);
  av_ids : ∃ ids, _message_ids (t_ids t) = Ok ids }.

Lemma attempt_record_Ok a id r t : attempt_valid a id (s_content r) t →
  _attempt_record a t (report_record id r) = Ok (attempt_record a t).
Proof.
  intros [Ha Hr Ho Hst Hrc Hc Hco Hcd Hdt Hp [ids Hids]]. unfold _attempt_record. cbn [rr_id rr_content report_record].
  rewrite (digest_like_nonempty a Ha). cbn [mbind result_bind]. rewrite (bool_decide_true (t_report t = id)) by done.
  rewrite (proj2 (Z.ltb_ge _ _)) by lia. rewrite (bool_decide_false (t_state t = SSkipped)) by done.
  rewrite (bool_decide_true (t_content t = s_content r)), Hcd by done. unfold _hash. rewrite Hrc. cbn [negb raise_if mbind result_bind].
  rewrite Hco. cbn [mbind result_bind]. rewrite Hdt. cbn [mbind result_bind]. rewrite Hp. cbn [mbind result_bind]. rewrite Hids.
  cbn [mbind result_bind]. unfold attempt_record, message_ids_of. by rewrite Hids, Hc.
Qed.

Lemma optional_same {A} (check : A → result subject_exn A) o o' : (∀ a b, check a = Ok b → b = a) →
  optional check o = Ok o' → o' = o.
Proof.
  intros Hc. destruct o as [a|]; cbn; [|by intros [= <-]]. destruct (check a) eqn:E; [|done]. intros [= <-]. by rewrite (Hc _ _ E).
Qed.

Lemma attempt_record_valid a id r t b : digest_like a → _attempt_record a t (report_record id r) = Ok b →
  attempt_valid a id (s_content r) t.
Proof.
  intros Ha. unfold _attempt_record. cbn [rr_id rr_content report_record].
  intros (? & _ & (? & Hr & (? & Ho & (? & Hst & (? & Hrc & (? & Hc & (? & Hco & (? & Hcd & (? & Hdt & (? & Hp & (ids & Hids & _)%bind_Ok)%bind_Ok)%bind_Ok)%bind_Ok)%bind_Ok)%bind_Ok)%bind_Ok)%bind_Ok)%bind_Ok)%bind_Ok)%bind_Ok.
  apply raise_if_Ok, negb_false_iff in Hr, Hc, Hcd. apply raise_if_Ok in Ho, Hst. apply bool_decide_eq_true in Hr, Hc.
  apply bool_decide_eq_false in Hst. apply Z.ltb_ge in Ho. apply hash_Ok in Hrc as [_ Hrc]. pose proof (timestamp_Ok _ _ Hp) as ->.
  pose proof (optional_same _ _ _ timestamp_Ok Hco) as ->. pose proof (optional_same _ _ _ nonempty_Ok Hdt) as ->. split; eauto.
Qed.

Lemma nth_id_key o o' i : o_key o' = o_key o → nth_id o' i = nth_id o i.
Proof. unfold nth_id. by intros ->. Qed.

Lemma elem_of_attempts_of id d a t : (a, t) ∈ attempts_of id d ↔ attempts d !! a = Some t ∧ t_report t = id.
Proof. unfold attempts_of. rewrite list_elem_of_filter, elem_of_map_to_list. cbn. tauto. Qed.

Lemma next_number_bound l n : 0 <= n → (∀ z, z ∈ l → z <= n) → (n = 0 ∨ n ∈ l) → next_number l = n + 1.
Proof.
  intros Hn Hle Hin. unfold next_number. f_equal. apply Z.le_antisymm.
  - clear Hin. induction l as [|z l IH]; [done|]. cbn. apply Z.max_lub; [apply Hle, list_elem_of_here|].
    apply IH. intros y Hy. by apply Hle, list_elem_of_further.
  - destruct Hin as [->|Hin]; [clear; induction l; cbn; lia|]. clear Hle. induction l as [|z l IH]; [by apply elem_of_nil in Hin|].
    cbn. apply elem_of_cons in Hin as [->|Hin]; [lia|]. specialize (IH Hin). lia.
Qed.

Lemma next_ordinal d id x r o : stands d id x r o →
  next_number (map (t_ordinal ∘ snd) (attempts_of id d)) = Z.of_nat (length (dl_tries x)) + 1.
Proof.
  intros Hs. apply next_number_bound; [lia| |].
  - intros z ([a t] & -> & [Ha Hr]%elem_of_attempts_of)%list_elem_of_fmap. cbn.
    destruct (st_only _ _ _ _ _ Hs a t Ha Hr) as (i & _ & Hi). destruct (st_tries _ _ _ _ _ Hs i t Hi) as (_ & _ & -> & _).
    apply lookup_lt_Some in Hi. lia.
  - destruct (dl_tries x) as [|t0 l] eqn:El; [by left|]. right. rewrite <- El.
    destruct (last_try x) as [t|] eqn:Ht; [|unfold last_try in Ht; apply last_None in Ht; by rewrite El in Ht].
    destruct (st_tries _ _ _ _ _ Hs _ _ (last_try_lookup _ _ Ht)) as (Ha & Hr & Hord & _).
    apply list_elem_of_fmap. exists (nth_id o (pred (length (dl_tries x))), t). split; [cbn|by apply elem_of_attempts_of].
    rewrite Hord, El. cbn [length pred]. lia.
Qed.

(** ** Starting *)

Definition may_start (x : delivery) (channel recipient : str) : Prop :=
  dl_count x ≠ 0 ∧ (dl_tries x = [] ∨ ∃ t0, last_try x = Some t0 ∧ t_state t0 = SFailed) ∧
  (dl_binding x = None ∨ dl_binding x = Some (channel, recipient)).

Definition started (x : delivery) (id content channel recipient at_ : str) : delivery :=
  mk_progress (dl_key x) (dl_count x) (Some (channel, recipient))
    (dl_tries x ++ [mk_subject_attempt id (Z.of_nat (length (dl_tries x)) + 1) SPrepared recipient content at_ None (Some (u "[]")) None None]).

Definition started_outbox (x : delivery) (o : outbox_row) (channel recipient at_ : str) : outbox_row :=
  mk_outbox (o_key o) (Some channel) (Some recipient) (o_content o) SPrepared (Some (nth_id o (length (dl_tries x)))) (o_created o) at_.

Lemma started_step x id content channel recipient at_ : may_start x channel recipient →
  delivery_step (Some x) (Some (started x id content channel recipient at_)).
Proof. intros (Hn & Hl & Hb). destruct x as [key n b l]. by constructor. Qed.

Lemma outbox_of_stands d id x r o : stands d id x r o → outbox_valid id r o.
Proof.
  intros Hs. apply outbox_record_valid; [by eapply report_id_of, Hs| |by apply Hs].
  rewrite (st_current _ _ _ _ _ Hs). unfold current_id. destruct (dl_tries x); [done|]. intros a [= <-]. apply attempt_id_like.
Qed.

Lemma current_id_snoc o l t : current_id o (l ++ [t]) = Some (nth_id o (length l)).
Proof.
  unfold current_id. assert (length (l ++ [t]) = S (length l)) as E by (rewrite length_app; cbn; lia).
  destruct (l ++ [t]); [done|]. by rewrite E.
Qed.

(** The attempts of the report after one was added or changed at the end. *)
Lemma tries_snoc d d' id x r o o' l t channel recipient :
  stands d id x r o → l = take (length l) (dl_tries x) → o_key o' = o_key o →
  (∀ i u, l !! i = Some u → attempts d' !! nth_id o i = attempts d !! nth_id o i) →
  attempts d' !! nth_id o (length l) = Some t → attempt_valid (nth_id o (length l)) id (s_content r) t →
  t_ordinal t = Z.of_nat (length l) + 1 → t_recipient t = recipient →
  (∀ u, u ∈ l → Some (t_recipient u) = Some recipient) →
  o_channel o' = Some channel → o_recipient o' = Some recipient →
  ∀ i u, (l ++ [t]) !! i = Some u →
    attempts d' !! nth_id o' i = Some u ∧ t_report u = id ∧ t_ordinal u = Z.of_nat i + 1 ∧ Some (t_recipient u) = o_recipient o' ∧
    _attempt_record (nth_id o' i) u (report_record id r) = Ok (attempt_record (nth_id o' i) u).
Proof.
  intros Hs Hl Hkey Hold Hnew Hval Hord Hrc Hrcs Hch Hrc' i v Hi. rewrite (nth_id_key _ _ _ Hkey), Hrc'.
  destruct (decide (i < length l)%nat) as [Hlt|Hge].
  - rewrite lookup_app_l in Hi by done. pose proof (Hold i v Hi) as Ho.
    assert (dl_tries x !! i = Some v) as Hx by (rewrite Hl in Hi; by apply lookup_take_Some in Hi as [? _]).
    destruct (st_tries _ _ _ _ _ Hs i v Hx) as (Ha & Hr & Hor & _ & Hok). rewrite Ho. split_and!; [done|done|done| |done].
    apply Hrcs. by eapply list_elem_of_lookup_2.
  - assert (i = length l) as -> by (apply lookup_lt_Some in Hi; rewrite length_app in Hi; cbn in Hi; lia).
    rewrite list_lookup_middle in Hi by done. injection Hi as <-. split_and!; [done|apply Hval|done|by rewrite Hrc|].
    by apply attempt_record_Ok.
Qed.
Lemma stands_start d id x r o channel recipient at_ :
  stands d id x r o → may_start x channel recipient → attempts d !! nth_id o (length (dl_tries x)) = None →
  hex64 recipient = true → is_channel channel = true → _timestamp at_ = Ok at_ →
  let x' := started x id (s_content r) channel recipient at_ in
  let o' := started_outbox x o channel recipient at_ in
  ∀ d', subject_reports d' = subject_reports d → outbox d' = <[id := o']> (outbox d) →
    (∃ t, dl_tries x' = dl_tries x ++ [t] ∧ attempts d' = <[nth_id o (length (dl_tries x)) := t]> (attempts d)) →
    stands d' id x' r o'.
Proof.
  intros Hs (Hcount & Hlast & Hbind) Hnew Hhex Hchan Hat x' o' d' Hreports Houtbox (t & Ht & Hattempts).
  cbn in Ht. apply app_inv_head in Ht. injection Ht as <-. set (t := mk_subject_attempt _ _ _ _ _ _ _ _ _ _) in *.
  pose proof (outbox_of_stands _ _ _ _ _ Hs) as Hval.
  assert (∀ u, u ∈ dl_tries x → Some (t_recipient u) = Some recipient) as Hrcs.
  { intros u [i Hi]%list_elem_of_lookup. destruct (st_tries _ _ _ _ _ Hs i u Hi) as (_ & _ & _ & -> & _).
    assert (is_Some (dl_binding x)) as Hb by (apply (st_bound _ _ _ _ _ Hs); intros E; by rewrite E in Hi).
    pose proof (st_binding _ _ _ _ _ Hs) as Hbd. destruct Hbind as [Hb'|Hb']; [by rewrite Hb' in Hb; destruct Hb|].
    rewrite Hb' in Hbd. destruct (o_channel o), (o_recipient o); simplify_eq; done. }
  assert (∀ i u, dl_tries x !! i = Some u → nth_id o i ≠ nth_id o (length (dl_tries x))) as Hfresh.
  { intros i u Hi E. destruct (st_tries _ _ _ _ _ Hs i u Hi) as (Ha & _). rewrite E, Hnew in Ha. done. }
  assert (dl_tries x' = dl_tries x ++ [t]) as Hx' by reflexivity.
  split; rewrite ?Hx'.
  - rewrite Hreports. apply Hs.
  - by rewrite Houtbox, lookup_insert_eq.
  - apply Hs.
  - apply outbox_record_Ok. destruct Hval as [Hk Hc _ _ _ Hcr _]. split; try done. intros a [= <-]. apply attempt_id_like.
  - apply Hs.
  - apply Hs.
  - unfold status, last_try. by rewrite Hx', last_snoc.
  - done.
  - done.
  - rewrite current_id_snoc. reflexivity.
  - eapply (tries_snoc d d' id x r o o' (dl_tries x) t channel recipient); try done.
    + by rewrite firstn_all.
    + intros i u Hi. rewrite Hattempts. apply lookup_insert_ne. intros E. exact (Hfresh i u Hi (eq_sym E)).
    + rewrite Hattempts. by rewrite lookup_insert_eq.
    + split; cbn; try done; [apply attempt_id_like|lia|by exists []].
  - intros a u Ha Hu. rewrite Hattempts in Ha. destruct (decide (a = nth_id o (length (dl_tries x)))) as [->|Hne].
    + rewrite lookup_insert_eq in Ha. injection Ha as <-. exists (length (dl_tries x)). split; [symmetry; apply nth_id_key; reflexivity|]. by rewrite list_lookup_middle.
    + rewrite lookup_insert_ne in Ha by done. destruct (st_only _ _ _ _ _ Hs a u Ha Hu) as (i & -> & Hi). exists i. split; [symmetry; apply nth_id_key; reflexivity|].
      rewrite lookup_app_l; [done|by eapply lookup_lt_Some].
  - split; [done|]. intros _. by destruct (dl_tries x).
  - done.
  - intros l u E. apply app_inj_tail in E as [<- <-]. destruct Hlast as [->|(t0 & Ht0 & Hf)]; [constructor|].
    unfold last_try in Ht0. apply last_Some in Ht0 as [l0 E0]. rewrite E0. apply Forall_app. split; [|by constructor].
    by apply (st_failed _ _ _ _ _ Hs l0 t0).
Qed.

(** ** Completing *)

Definition completed (x : delivery) (l : list subject_attempt) (t' : subject_attempt) : delivery :=
  mk_progress (dl_key x) (dl_count x) (dl_binding x) (l ++ [t']).

Definition completed_outbox (o : outbox_row) (state : outbox_state) (at_ : str) : outbox_row :=
  mk_outbox (o_key o) (o_channel o) (o_recipient o) (o_content o) state (o_attempt o) (o_created o) at_.

Lemma completed_step x l t t' : dl_tries x = l ++ [t] → completes t t' → delivery_step (Some x) (Some (completed x l t')).
Proof. destruct x as [key n b tries]. cbn. intros -> Hc. by constructor. Qed.

Lemma stands_complete d id x r o l t t' at_ :
  stands d id x r o → dl_tries x = l ++ [t] → completes t t' → _timestamp at_ = Ok at_ →
  attempt_valid (nth_id o (length l)) id (s_content r) t' →
  let o' := completed_outbox o (t_state t') at_ in
  ∀ d', subject_reports d' = subject_reports d → outbox d' = <[id := o']> (outbox d) →
    attempts d' = <[nth_id o (length l) := t']> (attempts d) → stands d' id (completed x l t') r o'.
Proof.
  intros Hs Hl Hc Hat Hvalt o' d' Hreports Houtbox Hattempts. pose proof (outbox_of_stands _ _ _ _ _ Hs) as Hval.
  destruct (bound_channel d id x r o t Hs) as (ch & Hch & Hrc); [unfold last_try; by rewrite Hl, last_snoc|].
  pose proof Hc as [Hrep Hord Hrec Hcont Hprep Hbefore Hafter _].
  assert (∀ i u, l !! i = Some u → dl_tries x !! i = Some u) as Hin.
  { intros i u Hi. rewrite Hl. apply lookup_app_l_Some, Hi. }
  destruct (st_tries _ _ _ _ _ Hs (length l) t) as (Hat0 & Hr0 & Hord0 & _); [by rewrite Hl, list_lookup_middle|].
  assert (∀ i u, l !! i = Some u → nth_id o i ≠ nth_id o (length l)) as Hfresh.
  { intros i u Hi E. destruct (st_tries _ _ _ _ _ Hs i u (Hin i u Hi)) as (Ha & _ & Ho & _). rewrite E, Hat0 in Ha.
    injection Ha as <-. apply lookup_lt_Some in Hi. lia. }
  split; cbn [dl_count dl_binding dl_tries completed].
  - rewrite Hreports. apply Hs.
  - by rewrite Houtbox, lookup_insert_eq.
  - apply Hs.
  - apply outbox_record_Ok. destruct Hval. by split.
  - apply Hs.
  - apply Hs.
  - unfold status, last_try. cbn [dl_tries completed]. by rewrite last_snoc.
  - apply Hs.
  - apply Hs.
  - cbn [o_attempt o' completed_outbox]. rewrite (st_current _ _ _ _ _ Hs), Hl, !current_id_snoc. reflexivity.
  - eapply (tries_snoc d d' id x r o o' l t' ch (t_recipient t)); try done.
    + by rewrite Hl, take_app_length.
    + intros i u Hi. rewrite Hattempts. apply lookup_insert_ne. intros E. exact (Hfresh i u Hi (eq_sym E)).
    + by rewrite Hattempts, lookup_insert_eq.
    + by rewrite Hord.
    + intros u [i Hi]%list_elem_of_lookup. destruct (st_tries _ _ _ _ _ Hs i u (Hin i u Hi)) as (_ & _ & _ & -> & _). done.
  - intros a u Ha Hu. rewrite Hattempts in Ha. destruct (decide (a = nth_id o (length l))) as [->|Hne].
    + rewrite lookup_insert_eq in Ha. injection Ha as <-. exists (length l). split; [symmetry; apply nth_id_key; reflexivity|]. by rewrite list_lookup_middle.
    + rewrite lookup_insert_ne in Ha by done. destruct (st_only _ _ _ _ _ Hs a u Ha Hu) as (i & -> & Hi). exists i. split; [symmetry; apply nth_id_key; reflexivity|].
      rewrite Hl in Hi. apply lookup_app_Some in Hi as [Hi|[Hge Hi]]; [by apply lookup_app_l_Some|].
      apply list_lookup_singleton_Some in Hi as [Hi <-]. assert (i = length l) as -> by lia. destruct Hne. reflexivity.
  - split; [intros _|intros _; by destruct l]. apply (st_bound _ _ _ _ _ Hs). rewrite Hl. by destruct l.
  - intros Hz. apply (st_empty _ _ _ _ _ Hs) in Hz. rewrite Hl in Hz. by destruct l.
  - intros l' u E. apply app_inj_tail in E as [<- <-]. by apply (st_failed _ _ _ _ _ Hs l t).
Qed.
(** ** The transactions that start and complete *)

Definition started_attempt (x : delivery) (id content recipient at_ : str) : subject_attempt :=
  mk_subject_attempt id (Z.of_nat (length (dl_tries x)) + 1) SPrepared recipient content at_ None (Some (u "[]")) None None.

Definition started_db (d : subject_db) (id : str) (x : delivery) (r : subject_row) (o : outbox_row) (channel recipient at_ : str) : subject_db :=
  set_outbox (<[id := started_outbox x o channel recipient at_]> (outbox d))
    (set_attempts (<[nth_id o (length (dl_tries x)) := started_attempt x id (s_content r) recipient at_]> (attempts d)) d).

Lemma start_tx_Ok id recipient channel at_ initial d u d' : wellformed d →
  start_tx id recipient channel at_ initial d = (Ok u, d') →
  ∃ x r o, stands d id x r o ∧ initial = snapshot_of id x r o ∧ attempts d !! nth_id o (length (dl_tries x)) = None ∧
           d' = started_db d id x r o channel recipient at_.
Proof.
  intros Hw Hst. unfold start_tx in Hst. apply M_bind_Ok in Hst as (current & d1 & Hl & Hst).
  apply load_here_Ok in Hl as [-> (x & r & o & Hs & ->)]; [|done].
  apply lift_bind_Ok in Hst as (_ & Hc%raise_if_Ok & Hst). apply negb_false_iff, bool_decide_eq_true in Hc as <-.
  apply M_bind_Ok in Hst as (? & ? & [= <- <-] & Hst). rewrite (next_ordinal _ _ _ _ _ Hs) in Hst.
  apply M_bind_Ok in Hst as ([] & d1 & Hi & Hu). apply insert_attempt_Ok in Hi as [Hnone ->].
  apply update_outbox_Ok in Hu as (o' & Ho & _ & ->). cbn in Ho. rewrite (st_outbox _ _ _ _ _ Hs) in Ho. injection Ho as <-.
  exists x, r, o. done.
Qed.

Lemma start_conditions d id x r o channel recipient : stands d id x r o →
  let initial := snapshot_of id x r o in
  ¬ (or_state (sn_outbox initial) = SSent ∨ or_state (sn_outbox initial) = SSkipped) →
  or_state (sn_outbox initial) ≠ SAmbiguous →
  ¬ (or_state (sn_outbox initial) = SPrepared ∧ is_Some (sn_attempt initial)) →
  default true ((λ c, bool_decide (c = channel)) <$> or_channel (sn_outbox initial)) = true →
  default true ((λ h, bool_decide (h = recipient)) <$> or_recipient (sn_outbox initial)) = true →
  may_start x channel recipient.
Proof.
  intros Hs. cbn [sn_outbox snapshot_of or_state or_channel or_recipient outbox_record sn_attempt].
  rewrite (st_state _ _ _ _ _ Hs). unfold status. intros H1 H2 H3 Hch Hrc.
  destruct (last_try x) as [t|] eqn:Ht.
  - destruct (bound_channel _ _ _ _ _ _ Hs Ht) as (c & Ec & Er). rewrite Ec in Hch. rewrite Er in Hrc. cbn in Hch, Hrc.
    apply bool_decide_eq_true in Hch, Hrc. subst. split_and!.
    + intros Hz. apply (st_empty _ _ _ _ _ Hs) in Hz. unfold last_try in Ht. by rewrite Hz in Ht.
    + right. exists t. split; [done|]. destruct (st_tries _ _ _ _ _ Hs _ _ (last_try_lookup _ _ Ht)) as (_ & _ & _ & _ & Hok).
      apply attempt_record_valid in Hok as [_ _ _ Hsk _ _ _ _ _ _ _]; [|apply attempt_id_like].
      destruct (t_state t); try done; [destruct H3; split; [done|by eexists]|by destruct H1; left].
    + right. by rewrite (st_binding _ _ _ _ _ Hs), Ec, Er.
  - assert (dl_tries x = []) as Hnil by by apply last_None. split_and!.
    + intros Hz. rewrite Hz in H1. by destruct H1; right.
    + by left.
    + left. destruct (dl_binding x) eqn:Hb; [|done]. assert (dl_tries x ≠ []) as Hne by (apply (st_bound _ _ _ _ _ Hs); by rewrite Hb). done.
Qed.

Lemma started_evolves d id x r o channel recipient at_ :
  stands d id x r o → may_start x channel recipient → attempts d !! nth_id o (length (dl_tries x)) = None →
  hex64 recipient = true → is_channel channel = true → _timestamp at_ = Ok at_ →
  let d' := started_db d id x r o channel recipient at_ in
  stands d' id (started x id (s_content r) channel recipient at_) r (started_outbox x o channel recipient at_) ∧
  (∀ id', id' ≠ id → subject_reports d' !! id' = subject_reports d !! id' ∧ outbox d' !! id' = outbox d !! id' ∧
     ∀ a t, t_report t = id' → attempts d' !! a = Some t ↔ attempts d !! a = Some t).
Proof.
  intros Hs Hmay Hnone Hh Hc Ha d'. split.
  - apply (stands_start d id x r o channel recipient at_); try done. by eexists.
  - intros id' Hne. cbn. rewrite lookup_insert_ne by done. split_and!; [done|done|]. intros a t Ht.
    destruct (decide (a = nth_id o (length (dl_tries x)))) as [->|Hna]; [|by rewrite lookup_insert_ne].
    rewrite lookup_insert_eq, Hnone. split; [intros [= <-]|done]. by destruct Hne.
Qed.

(** Rows that stand for a report stand for one [delivery] only. *)
Lemma stands_functional d id x y r o r' o' : stands d id x r o → stands d id y r' o' → x = y ∧ r = r' ∧ o = o'.
Proof.
  intros Hx Hy. pose proof (st_report _ _ _ _ _ Hx) as Er. rewrite (st_report _ _ _ _ _ Hy) in Er. injection Er as ->.
  pose proof (st_outbox _ _ _ _ _ Hx) as Eo. rewrite (st_outbox _ _ _ _ _ Hy) in Eo. injection Eo as ->. split; [|done].
  assert (∀ x y, stands d id x r o → stands d id y r o → ∀ i t, dl_tries x !! i = Some t → dl_tries y !! i = Some t) as Hsub.
  { clear. intros x y Hx Hy i t Hi. destruct (st_tries _ _ _ _ _ Hx i t Hi) as (Ha & Hr & Ho & _).
    destruct (st_only _ _ _ _ _ Hy _ _ Ha Hr) as (j & _ & Hj). destruct (st_tries _ _ _ _ _ Hy j t Hj) as (_ & _ & Ho' & _).
    assert (i = j) as -> by lia. done. }
  assert (dl_tries x = dl_tries y) as Ht.
  { apply list_eq. intros i. apply option_eq. intros t. split; by apply Hsub. }
  pose proof (st_key _ _ _ _ _ Hx) as Hkx. rewrite (st_key _ _ _ _ _ Hy) in Hkx.
  pose proof (st_count _ _ _ _ _ Hx) as Hcx. rewrite (st_count _ _ _ _ _ Hy) in Hcx.
  pose proof (st_binding _ _ _ _ _ Hx) as Hbx. rewrite <- (st_binding _ _ _ _ _ Hy) in Hbx.
  destruct x, y; cbn in *; by subst.
Qed.

Lemma start_tx_good id recipient channel at_ initial :
  hex64 recipient = true → is_channel channel = true → _timestamp at_ = Ok at_ →
  ¬ (or_state (sn_outbox initial) = SSent ∨ or_state (sn_outbox initial) = SSkipped) →
  or_state (sn_outbox initial) ≠ SAmbiguous →
  ¬ (or_state (sn_outbox initial) = SPrepared ∧ is_Some (sn_attempt initial)) →
  default true ((λ c, bool_decide (c = channel)) <$> or_channel (sn_outbox initial)) = true →
  default true ((λ h, bool_decide (h = recipient)) <$> or_recipient (sn_outbox initial)) = true →
  good (transaction (start_tx id recipient channel at_ initial)).
Proof.
  intros Hh Hc Ha H1 H2 H3 H4 H5. apply good_transaction. intros d u d' Hw Hst.
  apply start_tx_Ok in Hst as (x & r & o & Hs & -> & Hnone & ->); [|done].
  assert (may_start x channel recipient) as Hmay by by eapply start_conditions.
  destruct (started_evolves d id x r o channel recipient at_) as [Hstands Hother]; try done.
  apply (evolves_one _ _ id); [exact Hother|]. intros y Hy. destruct y as [y|].
  - destruct Hy as (r' & o' & Hy). destruct (stands_functional _ _ _ _ _ _ _ _ Hs Hy) as (<- & <- & <-).
    exists (Some (started x id (s_content r) channel recipient at_)). split; [eexists _, _; exact Hstands|by apply started_step].
  - destruct Hy as (Hy & _). by rewrite (st_report _ _ _ _ _ Hs) in Hy.
Qed.
(** What the fields of a completion are. *)
Record completion (state : outbox_state) (ids : str) (code detail : option str) : Prop := {
  cp_final : final state;
  cp_ids : ∃ l, _message_ids (Some ids) = Ok l ∧ (state = SSent → l ≠ []);
  cp_code : default true (is_error_code <$> code) = true;
  cp_detail : optional _nonempty detail = Ok detail }.

Lemma rejoined_clean s : clean_text s = true → clean_text (rejoined s) = true.
Proof.
  unfold clean_text. intros [Hl%Nat.leb_le Hc%negb_true_iff]%andb_prop. pose proof (rejoined_length s).
  apply andb_true_intro. split; [apply Nat.leb_le; lia|]. apply negb_true_iff, not_true_iff_false.
  intros (c & Hin%list_elem_of_In & Hk)%List.existsb_exists.
  assert (Forall (λ c, is_control c = false) (rejoined s)) as Hall.
  { apply rejoined_Forall.
    - intros c' Hc'. unfold is_control. rewrite (proj2 (N.leb_gt c' 8)) by lia.
      rewrite !bool_decide_false by lia. unfold in_range. rewrite (proj2 (N.leb_gt c' 31)) by lia. by rewrite andb_false_r.
    - apply Forall_forall. intros c' Hc'. apply not_true_iff_false. intros Hk'.
      assert (existsb is_control s = true) as E; [|congruence]. apply List.existsb_exists. exists c'. by rewrite <- list_elem_of_In. }
  rewrite Forall_forall in Hall. by rewrite (Hall c Hin) in Hk.
Qed.

Lemma message_ids_again ids encoded : Forall (Forall code_point) ids →
  _message_ids (Some (_message_ids_json ids)) = Ok encoded →
  encoded = map rejoined ids ∧ ∃ l, _message_ids (Some (_message_ids_json encoded)) = Ok l ∧ (encoded ≠ [] → l ≠ []).
Proof.
  intros Hids. unfold _message_ids. rewrite (loads_message_ids_json ids Hids).
  destruct (forallb is_message_id _) eqn:Hall; [|done]. intros [= <-]. rewrite map_map.
  change (map (λ x, text_value ((JStr ∘ rejoined) x)) ids) with (map rejoined ids). split; [done|].
  assert (Forall (Forall code_point) (map rejoined ids)) as Hids'.
  { apply Forall_fmap. eapply Forall_impl; [exact Hids|]. intros x Hx. apply rejoined_Forall; [|done]. intros c [_ ?]. done. }
  rewrite (loads_message_ids_json _ Hids').
  assert (forallb is_message_id (map (JStr ∘ rejoined) (map rejoined ids)) = true) as ->.
  { apply List.forallb_forall. intros j (y & <- & Hy)%List.in_map_iff. apply List.in_map_iff in Hy as (x & <- & Hx).
    assert (is_message_id (JStr (rejoined x)) = true) as Hok.
    { apply (proj1 (List.forallb_forall _ _) Hall). apply List.in_map_iff. by exists x. }
    cbn in Hok |- *. apply andb_prop in Hok as [Hne%negb_true_iff%bool_decide_eq_false Hc].
    rewrite bool_decide_false by by apply rejoined_nonempty. cbn. by apply rejoined_clean. }
  eexists. split; [done|]. by destruct ids.
Qed.

Lemma completion_fields state ids code detail s text c dt : Forall (Forall code_point) ids →
  _completion_fields state ids code detail = Ok (s, text, c, dt) → completion s text c dt.
Proof.
  intros Hids. unfold _completion_fields.
  intros (s' & Hs%of_option_Ok & (encoded & He & H')%bind_Ok)%bind_Ok. apply enum_of_Some in Hs as [Hs _].
  assert (final s') as Hfinal by (unfold final; repeat (apply elem_of_cons in Hs as [->|Hs]; [tauto|]); by apply elem_of_nil in Hs).
  destruct (message_ids_again ids encoded Hids He) as [_ (l & Hl & Hne)].
  case_bool_decide as Hsent.
  - apply bind_Ok in H' as (? & Hnil%raise_if_Ok%bool_decide_eq_false & H'). apply bind_Ok in H' as (? & _ & [= <- <- <- <-]).
    split; [done|exists l; split; [done|auto]|done|done].
  - apply bind_Ok in H' as (code' & Hcode%of_option_Ok & H'). apply bind_Ok in H' as (? & Hcd%raise_if_Ok%negb_false_iff & H').
    apply bind_Ok in H' as (detail' & Hdt%of_option_Ok & H'). apply bind_Ok in H' as (d' & Hd' & [= <- <- <- <-]).
    split; [done|exists l; split; [done|by intros ->]|done|]. cbn. pose proof (nonempty_Ok _ _ Hd') as ->. by rewrite Hd'.
Qed.
Definition completed_attempt (t : subject_attempt) (state : outbox_state) (at_ ids : str) (code detail : option str) : subject_attempt :=
  mk_subject_attempt (t_report t) (t_ordinal t) state (t_recipient t) (t_content t) (t_prepared t) (Some at_) (Some ids) code detail.

Definition completed_db (d : subject_db) (id a : str) (o : outbox_row) (t' : subject_attempt) (at_ : str) : subject_db :=
  set_outbox (<[id := completed_outbox o (t_state t') at_]> (outbox d)) (set_attempts (<[a := t']> (attempts d)) d).

Lemma last_nth_id x l t o : dl_tries x = l ++ [t] → nth_id o (pred (length (dl_tries x))) = nth_id o (length l).
Proof.
  intros ->. assert (pred (length (l ++ [t])) = length l) as ->; [|reflexivity]. rewrite length_app. cbn. lia.
Qed.

Lemma complete_tx_Ok id a at_ state ids code detail d u d' : wellformed d →
  complete_tx id a at_ state ids code detail d = (Ok u, d') →
  ∃ x r o l t, stands d id x r o ∧ dl_tries x = l ++ [t] ∧ t_state t = SPrepared ∧ a = nth_id o (length l) ∧
    d' = completed_db d id a o (completed_attempt t state at_ ids code detail) at_.
Proof.
  intros Hw Hst. unfold complete_tx in Hst. apply M_bind_Ok in Hst as (current & d1 & Hl & Hst).
  apply load_here_Ok in Hl as [-> (x & r & o & Hs & ->)]; [|done].
  apply lift_bind_Ok in Hst as (_ & Hc%raise_if_Ok & Hst). apply orb_false_iff in Hc as [_ Hc].
  apply lift_bind_Ok in Hst as (_ & _ & Hst). apply lift_bind_Ok in Hst as (_ & _ & Hst).
  apply M_bind_Ok in Hst as ([] & d1 & Hi & Hu). apply update_attempt_Ok in Hi as (t' & Ht' & Hcond & ->).
  apply update_outbox_Ok in Hu as (o' & Ho & _ & ->). cbn in Ho. rewrite (st_outbox _ _ _ _ _ Hs) in Ho. injection Ho as <-.
  cbn [sn_attempt snapshot_of] in Hc. destruct (last_try x) as [t|] eqn:Ht; [|done]. cbn [fmap option_fmap option_map] in Hc.
  apply orb_false_iff in Hc as [Hid%negb_false_iff%bool_decide_eq_true Hprep%negb_false_iff%bool_decide_eq_true].
  cbn [ar_id ar_state attempt_record] in Hid, Hprep.
  destruct (st_tries _ _ _ _ _ Hs _ _ (last_try_lookup _ _ Ht)) as (Ha & _). rewrite Hid, Ht' in Ha. injection Ha as ->.
  pose proof Ht as Hl. unfold last_try in Hl. apply last_Some in Hl as [l Hl].
  exists x, r, o, l, t. rewrite (last_nth_id x l t o Hl) in Hid. done.
Qed.

Lemma completed_evolves d id x r o l t state at_ ids code detail :
  stands d id x r o → dl_tries x = l ++ [t] → t_state t = SPrepared → completion state ids code detail → _timestamp at_ = Ok at_ →
  let t' := completed_attempt t state at_ ids code detail in
  let d' := completed_db d id (nth_id o (length l)) o t' at_ in
  stands d' id (completed x l t') r (completed_outbox o state at_) ∧ completes t t' ∧
  (∀ id', id' ≠ id → subject_reports d' !! id' = subject_reports d !! id' ∧ outbox d' !! id' = outbox d !! id' ∧
     ∀ a u, t_report u = id' → attempts d' !! a = Some u ↔ attempts d !! a = Some u).
Proof.
  intros Hs Hl Hprep [Hfin (ml & Hml & Hsent) Hcode Hdetail] Hat t' d'.
  destruct (st_tries _ _ _ _ _ Hs (length l) t) as (Ha & Hr & Ho & _ & Hok); [by rewrite Hl, list_lookup_middle|].
  assert (completes t t') as Hc.
  { split; try done. intros Hse. exists ml. split; [done|]. by apply Hsent. }
  split_and!; [|done|].
  - apply (stands_complete d id x r o l t t' at_); try done.
    apply attempt_record_valid in Hok as [? ? ? ? ? ? ? ? ? ? ?]; [|apply attempt_id_like]. split; try done.
    + cbn. intros ->. by destruct Hfin as [|[]].
    + cbn. by rewrite Hat.
    + exists ml. done.
  - intros id' Hne. cbn. rewrite lookup_insert_ne by done. split_and!; [done|done|]. intros a v Hv.
    destruct (decide (a = nth_id o (length l))) as [->|Hna]; [|by rewrite lookup_insert_ne].
    rewrite lookup_insert_eq, Ha. split; [intros [= <-]; cbn in Hv; congruence|intros [= <-]; congruence].
Qed.

Lemma complete_tx_good id a at_ state ids code detail : completion state ids code detail → _timestamp at_ = Ok at_ →
  good (transaction (complete_tx id a at_ state ids code detail)).
Proof.
  intros Hcp Hat. apply good_transaction. intros d u d' Hw Hst.
  apply complete_tx_Ok in Hst as (x & r & o & l & t & Hs & Hl & Hprep & -> & ->); [|done].
  destruct (completed_evolves d id x r o l t state at_ ids code detail) as (Hstands & Hc & Hother); try done.
  apply (evolves_one _ _ id); [exact Hother|]. intros y Hy. destruct y as [y|].
  - destruct Hy as (r' & o' & Hy). destruct (stands_functional _ _ _ _ _ _ _ _ Hs Hy) as (<- & <- & <-).
    exists (Some (completed x l (completed_attempt t state at_ ids code detail))).
    split; [eexists _, _; exact Hstands|by eapply completed_step].
  - destruct Hy as (Hy & _). by rewrite (st_report _ _ _ _ _ Hs) in Hy.
Qed.
(** ** Calls *)

Fixpoint sound {A} (p : proc A) : Prop :=
  match p with
  | Done _ => True
  | Call m k => good m ∧ ∀ b, sound (k b)
  end.

Lemma sound_ret {A} (a : A) : sound (mret a).
Proof. done. Qed.
Lemma sound_bind {A B} (p : proc A) (f : A → proc B) : sound p → (∀ a, sound (f a)) → sound (p ≫= f).
Proof.
  intros Hp Hf. induction p as [[a|e]|C m k IH]; [apply Hf|done|]. destruct Hp as [Hm Hk]. split; [done|]. intros b. by apply IH.
Qed.
Lemma sound_pure {A B} (r : result subject_exn A) (f : A → proc B) : (∀ a, r = Ok a → sound (f a)) → sound (pure r ≫= f).
Proof. intros Hf. destruct r as [a|e]; [by apply Hf|done]. Qed.
Lemma sound_call {A} (m : M subject_db subject_exn A) : good m → sound (call m).
Proof. done. Qed.
Lemma sound_reads {A} (m : M subject_db subject_exn A) : reads m → sound (call m).
Proof. intros Hm. by apply sound_call, reads_good. Qed.

Lemma sound_load_snapshot id : sound (_load_snapshot id).
Proof.
  unfold _load_snapshot, load_with. apply sound_bind; [by apply sound_reads, reads_select_report|intros report].
  apply sound_bind; [by apply sound_reads, reads_select_outbox|intros o]. apply sound_bind; [|done].
  destruct (or_attempt o) as [a|]; [|done]. apply sound_bind; [by apply sound_reads, reads_select_attempt|intros t].
  by apply sound_pure.
Qed.

Lemma sound_load id : sound (load_subject_delivery id).
Proof. unfold load_subject_delivery. apply sound_pure. intros ? _. apply sound_load_snapshot. Qed.

Lemma sound_prepare parent subject text n at_ : sound (prepare_subject_report parent subject text n at_).
Proof.
  unfold prepare_subject_report. apply sound_pure. intros p Hp. apply sound_pure. intros s Hs. apply sound_pure. intros _ Hn%raise_if_Ok.
  apply sound_pure. intros _ _. apply sound_pure. intros _ _. apply sound_pure. intros c Hc. apply sound_pure. intros h Hh.
  apply sound_pure. intros id Hid. apply sound_pure. intros key Hkey. pose proof (timestamp_Ok _ _ Hc) as ->.
  apply sound_bind; [by apply sound_reads, reads_require_complete|intros _].
  apply sound_bind; [by apply sound_reads, reads_find_existing|intros [|]]; [apply sound_load_snapshot|].
  apply sound_bind; [|intros _; apply sound_load_snapshot]. apply sound_call.
  apply (prepare_tx_good p s h id key n at_); [done|done|by apply Z.ltb_ge in Hn|done].
Qed.

Lemma sound_start id recipient channel at_ retry : sound (start_subject_delivery id recipient channel at_ retry).
Proof.
  unfold start_subject_delivery. apply sound_pure. intros id' _. apply sound_pure. intros rc [-> Hrc]%hash_Ok.
  apply sound_pure. intros ch [-> Hch]%channel_Ok. apply sound_pure. intros p Hp. pose proof (timestamp_Ok _ _ Hp) as ->.
  apply sound_bind; [apply sound_load_snapshot|intros initial]. case_bool_decide as H1; [done|].
  apply sound_pure. intros _ H2%raise_if_Ok%bool_decide_eq_false. apply sound_pure. intros _ H3%raise_if_Ok%bool_decide_eq_false.
  apply sound_pure. intros _ _. apply sound_pure. intros _ H4%raise_if_Ok%negb_false_iff. apply sound_pure.
  intros _ H5%raise_if_Ok%negb_false_iff. apply sound_bind; [|intros _; apply sound_load_snapshot]. apply sound_call.
  by apply start_tx_good.
Qed.

Lemma sound_complete id a state at_ ids code detail : Forall (Forall code_point) ids →
  sound (complete_subject_delivery id a state at_ ids code detail).
Proof.
  intros Hids. unfold complete_subject_delivery. apply sound_pure. intros id' _. apply sound_pure. intros a' _.
  apply sound_pure. intros p Hp. pose proof (timestamp_Ok _ _ Hp) as ->. apply sound_pure. intros [[[s text] c] dt] Hf.
  apply sound_bind; [|intros _; apply sound_load_snapshot]. apply sound_call. apply complete_tx_good; [|done].
  by eapply completion_fields.
Qed.

(** ** Many calls on one database *)

Inductive request :=
  | LoadSubject (report_id : str)
  | PrepareSubject (parent subject text : str) (story_count : Z) (created_at : str)
  | StartSubject (report_id recipient_hash channel prepared_at : str) (retry_failed : bool)
  | CompleteSubject (report_id attempt_id state completed_at : str) (ids : list str) (code detail : option str).

Definition serve (q : request) : proc SubjectDeliverySnapshot :=
  match q with
  | LoadSubject id => load_subject_delivery id
  | PrepareSubject parent subject text n at_ => prepare_subject_report parent subject text n at_
  | StartSubject id recipient channel at_ retry => start_subject_delivery id recipient channel at_ retry
  | CompleteSubject id a state at_ ids code detail => complete_subject_delivery id a state at_ ids code detail
  end.

(** Python's texts hold code points only. *)
Definition python_request (q : request) : Prop :=
  match q with CompleteSubject _ _ _ _ ids _ _ => Forall (Forall code_point) ids | _ => True end.

Record world := mk_world { calls : list (proc SubjectDeliverySnapshot); store : subject_db }.

(** A new call, a statement or transaction of one, an exception or a crash between
    them, or a report whose generation changes. *)
Inductive world_step : relation world :=
  | world_call q ps d : python_request q → world_step (mk_world ps d) (mk_world (ps ++ [serve q]) d)
  | world_advance i p ps d : ps !! i = Some p →
      world_step (mk_world ps d) (mk_world (<[i := (advance p d).1]> ps) (advance p d).2)
  | world_raise i p e ps d : ps !! i = Some p → world_step (mk_world ps d) (mk_world (<[i := Done (Err e)]> ps) d)
  | world_parent parent status ps d :
      world_step (mk_world ps d)
        (mk_world ps (mk_subject_db (<[parent := status]> (parents d)) (subject_reports d) (outbox d) (attempts d))).

(** No call yet, and no subject report. *)
Definition initial_world (w : world) : Prop := ∃ ps, w = mk_world [] (mk_subject_db ps ∅ ∅ ∅).

Definition world_ok (w : world) : Prop := Forall sound (calls w) ∧ wellformed (store w).

Lemma serve_sound q : python_request q → sound (serve q).
Proof. destruct q; intros Hq; [apply sound_load|apply sound_prepare|apply sound_start|by apply sound_complete]. Qed.

Lemma advance_sound {A} (p : proc A) d : sound p → wellformed d → sound (advance p d).1 ∧ evolves d (advance p d).2.
Proof.
  destruct p as [r|B m k]; [split; [done|apply evolves_refl]|]. intros [Hm Hk] Hw. cbn. specialize (Hm d).
  destruct (m d) as [[b|e] d'] eqn:E; cbn; (split; [done || apply Hk|by eapply Hm]).
Qed.

Lemma world_step_ok w w' : world_ok w → world_step w w' → world_ok w' ∧ evolves (store w) (store w').
Proof.
  intros Hok Hstep. destruct Hstep as [q ps d Hq|i p ps d Hi|i p e ps d Hi|parent st ps d]; destruct Hok as [Hc Hw]; cbn [calls store] in *.
  - split; [|apply evolves_refl]. split; cbn [calls store]; [|exact Hw]. apply Forall_app. split; [done|]. constructor; [by apply serve_sound|done].
  - assert (sound p) as Hp by (rewrite Forall_lookup in Hc; by eapply Hc).
    destruct (advance_sound p d Hp Hw) as [Ha He]. split; [|done]. split; cbn [calls store]; [by apply Forall_insert|by eapply evolves_wellformed].
  - split; [|apply evolves_refl]. split; cbn [calls store]; [|exact Hw]. by apply Forall_insert.
  - assert (evolves d (mk_subject_db (<[parent := st]> (parents d)) (subject_reports d) (outbox d) (attempts d))) as He.
    { intros id x Hx. exists x. split; [|by left]. by apply (represents_frame d). }
    split; [|done]. split; cbn [calls store]; [done|by eapply evolves_wellformed].
Qed.

Lemma world_steps_ok w w' : world_ok w → rtc world_step w w' →
  world_ok w' ∧ ∀ id x, represents (store w) id x → ∃ y, represents (store w') id y ∧ rtc delivery_step x y.
Proof.
  intros Hw. induction 1 as [w|w w1 w2 Hs _ IH]; [split; [done|]; intros id x Hx; by exists x|].
  destruct (world_step_ok _ _ Hw Hs) as [Hw1 He]. destruct (IH Hw1) as [Hw2 Hr]. split; [done|].
  intros id x Hx. destruct (He id x Hx) as (y & Hy & Hxy). destruct (Hr id y Hy) as (z & Hz & Hyz). exists z. split; [done|].
  destruct Hxy as [->|Hxy]; [done|]. by eapply rtc_l.
Qed.

Lemma initial_ok w : initial_world w → world_ok w.
Proof.
  intros [ps ->]. split; [constructor|]. intros id. exists None. cbn. rewrite !lookup_empty. split_and!; [done|done|].
  intros a t Ha. by rewrite lookup_empty in Ha.
Qed.
(** ** Whatever is interleaved *)

(** The tables implement the abstract deliveries: in every reachable world each
    subject report stands for a [delivery], and any further interleaving of calls,
    failures and crashes takes it only along [delivery_step]. *)
Theorem subject_delivery_refines w0 w : initial_world w0 → rtc world_step w0 w →
  (∀ id, ∃ x, represents (store w) id x) ∧
  ∀ w' id x, rtc world_step w w' → represents (store w) id x → ∃ y, represents (store w') id y ∧ rtc delivery_step x y.
Proof.
  intros H0%initial_ok Hw. destruct (world_steps_ok w0 w H0 Hw) as [Hok _]. split; [apply Hok|].
  intros w' id x Hw'. by apply world_steps_ok.
Qed.

(** After an attempt that was sent or is ambiguous nothing happens. *)
Lemma settled x t y : last_try x = Some t → t_state t = SSent ∨ t_state t = SAmbiguous → rtc delivery_step (Some x) y → y = Some x.
Proof.
  intros Ht Hst Hxy. inversion Hxy as [|? z ? Hstep]; subst; [done|]. exfalso. unfold last_try in Ht.
  inversion Hstep as [|key n b l ch rc u Hn Hl|key n b l u u' Hc]; subst; cbn in Ht.
  - destruct Hl as [->|(t0 & Hl & Hf)]; [done|]. rewrite Hl in Ht. injection Ht as ->. rewrite Hf in Hst. by destruct Hst.
  - rewrite last_snoc in Ht. injection Ht as ->. rewrite (completes_before _ _ Hc) in Hst. by destruct Hst.
Qed.

(** The recipient does not change. *)
Lemma bound_stays x b y : dl_binding x = Some b → rtc delivery_step (Some x) y → ∃ z, y = Some z ∧ dl_binding z = Some b.
Proof.
  intros Hb Hxy. remember (Some x) as o eqn:Ho. revert x Hb Ho. induction Hxy as [o|o o1 o2 Hs _ IH]; intros x Hb ->; [eauto|].
  inversion Hs as [|key n b' l ch rc t Hn Hl Hbind|key n b' l t t' Hc]; subst; cbn in Hb.
  - eapply IH; [|done]. cbn. destruct Hbind as [->|Hbind]; [done|]. congruence.
  - eapply IH; [|reflexivity]. exact Hb.
Qed.

Lemma attempt_stands d a t : wellformed d → attempts d !! a = Some t →
  ∃ x r o i, stands d (t_report t) x r o ∧ a = nth_id o i ∧ dl_tries x !! i = Some t.
Proof.
  intros Hw Ha. destruct (Hw (t_report t)) as [[x|] Hx].
  - destruct Hx as (r & o & Hs). destruct (st_only _ _ _ _ _ Hs a t Ha eq_refl) as (i & ? & ?). by exists x, r, o, i.
  - destruct Hx as (_ & _ & Hno). by destruct (Hno a t).
Qed.

Lemma unfailed_last d id x r o i t : stands d id x r o → dl_tries x !! i = Some t → t_state t ≠ SFailed →
  i = pred (length (dl_tries x)) ∧ last_try x = Some t.
Proof.
  intros Hs Hi Hf. destruct (last_try x) as [u|] eqn:Hu; [|unfold last_try in Hu; apply last_None in Hu; by rewrite Hu in Hi].
  pose proof Hu as Hl. unfold last_try in Hl. apply last_Some in Hl as [l Hl]. pose proof (st_failed _ _ _ _ _ Hs l u Hl) as Hall.
  rewrite Hl, length_app. cbn. rewrite Nat.add_1_r. cbn. rewrite Hl in Hi. apply lookup_app_Some in Hi as [Hi|[Hge Hi]].
  - rewrite Forall_lookup in Hall. by destruct (Hf (Hall i t Hi)).
  - apply list_lookup_singleton_Some in Hi as [Hi ->]. split; [lia|done].
Qed.

Lemma same_attempts d d' id x r o r' o' b v : stands d id x r o → stands d' id x r' o' → t_report v = id →
  attempts d !! b = Some v → attempts d' !! b = Some v.
Proof.
  intros Hs Hs' Hv Hb. destruct (st_only _ _ _ _ _ Hs b v Hb Hv) as (i & -> & Hi).
  rewrite <- (nth_id_key o o'); [by apply (st_tries _ _ _ _ _ Hs' i v Hi)|].
  by rewrite (st_key _ _ _ _ _ Hs), (st_key _ _ _ _ _ Hs').
Qed.

(** C6: A subject report is sent at most once: of its attempts at most one has not
    failed; once one was sent or is ambiguous, no other is ever made and none changes;
    and all go to one recipient. *)
Theorem subject_sent_once w0 w w' : initial_world w0 → rtc world_step w0 w → rtc world_step w w' →
  (∀ a b t u, attempts (store w) !! a = Some t → attempts (store w) !! b = Some u → t_report t = t_report u →
     t_state t ≠ SFailed → t_state u ≠ SFailed → a = b) ∧
  (∀ a t, attempts (store w) !! a = Some t → t_state t = SSent ∨ t_state t = SAmbiguous →
     ∀ b u, t_report u = t_report t → attempts (store w') !! b = Some u ↔ attempts (store w) !! b = Some u) ∧
  (∀ a b t u, attempts (store w) !! a = Some t → attempts (store w') !! b = Some u → t_report t = t_report u →
     t_recipient u = t_recipient t).
Proof.
  intros H0%initial_ok Hw Hw'. destruct (world_steps_ok w0 w H0 Hw) as [Hok _].
  destruct (world_steps_ok w w' Hok Hw') as [Hok' Hsteps]. split_and!.
  - intros a b t v Ha Hb Htv Hft Hfv. destruct (attempt_stands _ _ _ (proj2 Hok) Ha) as (x & r & o & i & Hs & -> & Hi).
    rewrite Htv in Hs. destruct (st_only _ _ _ _ _ Hs b v Hb eq_refl) as (j & -> & Hj).
    destruct (unfailed_last _ _ _ _ _ _ _ Hs Hi Hft) as [-> _]. by destruct (unfailed_last _ _ _ _ _ _ _ Hs Hj Hfv) as [-> _].
  - intros a t Ha Hst b v Hv. destruct (attempt_stands _ _ _ (proj2 Hok) Ha) as (x & r & o & i & Hs & -> & Hi).
    destruct (unfailed_last _ _ _ _ _ _ _ Hs Hi) as [_ Hlast]; [by destruct Hst as [-> | ->]|].
    destruct (Hsteps (t_report t) (Some x)) as (y & Hy & Hxy); [by exists r, o|]. rewrite (settled x t y Hlast Hst Hxy) in Hy.
    destruct Hy as (r' & o' & Hs'). split; [by eapply (same_attempts (store w'))|by eapply (same_attempts (store w))].
  - intros a b t v Ha Hb Htv. destruct (attempt_stands _ _ _ (proj2 Hok) Ha) as (x & r & o & i & Hs & -> & Hi).
    assert (is_Some (dl_binding x)) as [[c h] Hbind] by (apply (st_bound _ _ _ _ _ Hs); intros E; by rewrite E in Hi).
    destruct (Hsteps (t_report t) (Some x)) as (y & Hy & Hxy); [by exists r, o|].
    destruct (bound_stays x _ y Hbind Hxy) as (z & -> & Hz). destruct Hy as (r' & o' & Hs').
    destruct (st_only _ _ _ _ _ Hs' b v Hb (eq_sym Htv)) as (j & _ & Hj).
    destruct (st_tries _ _ _ _ _ Hs i t Hi) as (_ & _ & _ & Hrt & _). destruct (st_tries _ _ _ _ _ Hs' j v Hj) as (_ & _ & _ & Hrv & _).
    rewrite (st_binding _ _ _ _ _ Hs) in Hbind. rewrite (st_binding _ _ _ _ _ Hs') in Hz.
    destruct (o_channel o), (o_recipient o), (o_channel o'), (o_recipient o'); simplify_eq. done.
Qed.
(** ** Undisturbed calls *)

Lemma undisturbed_bind {A B} (p : proc A) (f : A → proc B) d :
  undisturbed (p ≫= f) d =
    match undisturbed p d with (Ok a, d') => undisturbed (f a) d' | (Err e, d') => (Err e, d') end.
Proof.
  revert d. induction p as [[a|e]|C m k IH]; intros d; [done|done|]. cbn. destruct (m d) as [[b|e] d']; [apply IH|done].
Qed.
Lemma undisturbed_pure {A B} (r : result subject_exn A) (f : A → proc B) a d : r = Ok a → undisturbed (pure r ≫= f) d = undisturbed (f a) d.
Proof. by intros ->. Qed.
Lemma undisturbed_call {A} (m : M subject_db subject_exn A) d : undisturbed (call m) d = m d.
Proof. unfold call. cbn. by destruct (m d) as [[b|e] d']. Qed.
Lemma M_run {A B} (m : M subject_db subject_exn A) (f : A → M subject_db subject_exn B) d :
  (m ≫= f) d = match m d with (Ok a, d') => f a d' | (Err e, d') => (Err e, d') end.
Proof. done. Qed.

Lemma undisturbed_load id d : undisturbed (_load_snapshot id) d = load_here id d.
Proof.
  unfold _load_snapshot, load_here, load_with. rewrite undisturbed_bind, M_run, undisturbed_call.
  destruct (select_report id d) as [[report|e] d1]; [|done]. rewrite undisturbed_bind, M_run, undisturbed_call.
  destruct (select_outbox report d1) as [[ob|e] d2]; [|done]. rewrite undisturbed_bind, M_run.
  destruct (or_attempt ob) as [a|]; [|done]. rewrite undisturbed_bind, M_run, undisturbed_call.
  destruct (select_attempt report a d2) as [[t|e] d3]; [|done]. rewrite undisturbed_bind, M_run. unfold lift, pure. cbn [undisturbed].
  by destruct (check_attempt ob t) as [[]|e].
Qed.

Lemma undisturbed_load_stands d id x r o : stands d id x r o → undisturbed (_load_snapshot id) d = (Ok (snapshot_of id x r o), d).
Proof. intros Hs. by rewrite undisturbed_load, (load_here_stands _ _ _ _ _ Hs). Qed.

(** The next attempt is inserted unless its identifier is taken, which only a
    collision of SHA-256 can bring about. *)
Lemma start_tx_run d id x r o recipient channel at_ : stands d id x r o →
  transaction (start_tx id recipient channel at_ (snapshot_of id x r o)) d =
    match attempts d !! nth_id o (length (dl_tries x)) with
    | None => (Ok tt, started_db d id x r o channel recipient at_)
    | Some _ => (Err IntegrityError, d)
    end.
Proof.
  intros Hs. unfold transaction, start_tx. rewrite M_run, (load_here_stands _ _ _ _ _ Hs), M_run. unfold lift at 1.
  rewrite bool_decide_true by done. cbn [negb raise_if]. rewrite M_run. unfold get at 1. cbv beta iota zeta.
  rewrite (next_ordinal _ _ _ _ _ Hs), M_run.
  cbn [sn_outbox sn_report snapshot_of or_key outbox_record rr_content report_record or_state or_attempt].
  unfold insert_attempt. rewrite M_run. unfold get at 1. cbn [t_report t_ordinal]. rewrite M_run. unfold lift at 1.
  rewrite (bool_decide_false (outbox d !! id = None)) by (by rewrite (st_outbox _ _ _ _ _ Hs)).
  assert (existsb (λ kv, t_ordinal kv.2 =? Z.of_nat (length (dl_tries x)) + 1) (attempts_of id d) = false) as ->.
  { apply not_true_iff_false. intros ([a t] & [Ha Hr]%list_elem_of_In%elem_of_attempts_of & He%Z.eqb_eq)%List.existsb_exists.
    cbn in He. destruct (st_only _ _ _ _ _ Hs a t Ha Hr) as (i & _ & Hi). destruct (st_tries _ _ _ _ _ Hs i t Hi) as (_ & _ & Ho & _).
    apply lookup_lt_Some in Hi. lia. }
  change (_attempt_id (o_key o) (Z.of_nat (length (dl_tries x)) + 1)) with (nth_id o (length (dl_tries x))).
  destruct (attempts d !! nth_id o (length (dl_tries x))) as [t|] eqn:Hnew.
  - rewrite bool_decide_true by done. done.
  - rewrite bool_decide_false by (by intros [? [=]]). cbn [orb raise_if]. unfold put at 1. cbv beta iota.
    unfold update_outbox. rewrite M_run. unfold get. cbn [outbox set_attempts]. rewrite (st_outbox _ _ _ _ _ Hs).
    rewrite !bool_decide_true by done. done.
Qed.

(** What a call to start an attempt is answered. *)
Inductive answer := Replayed | Refused (e : subject_exn) | Started.

Definition start_answer (x : delivery) (channel recipient : str) (retry_failed : bool) : answer :=
  match status x with
  | SSent | SSkipped => Replayed
  | SAmbiguous => Refused Unresolved
  | SPrepared => if decide (dl_tries x = []) then Started else Refused Unresolved
  | SFailed =>
      if retry_failed then if decide (dl_binding x = Some (channel, recipient)) then Started else Refused Conflict
      else Refused Rejected
  end.

Lemma stands_nonempty d id x r o : stands d id x r o → _nonempty id = Ok id.
Proof. intros Hs. by eapply digest_like_nonempty, report_id_of, Hs. Qed.

Lemma start_answers d id x r o recipient channel at_ retry : stands d id x r o →
  hex64 recipient = true → is_channel channel = true → _timestamp at_ = Ok at_ →
  undisturbed (start_subject_delivery id recipient channel at_ retry) d =
    match start_answer x channel recipient retry with
    | Replayed => (Ok (snapshot_of id x r o), d)
    | Refused e => (Err e, d)
    | Started =>
        match attempts d !! nth_id o (length (dl_tries x)) with
        | Some _ => (Err IntegrityError, d)
        | None =>
            (Ok (snapshot_of id (started x id (s_content r) channel recipient at_) r (started_outbox x o channel recipient at_)),
             started_db d id x r o channel recipient at_)
        end
    end.
Proof.
  intros Hs Hh Hc Ha. unfold start_subject_delivery. rewrite (undisturbed_pure _ _ id) by (by eapply stands_nonempty).
  rewrite (undisturbed_pure _ _ recipient) by (unfold _hash; by rewrite Hh).
  rewrite (undisturbed_pure _ _ channel) by (unfold _channel; by rewrite Hc). rewrite (undisturbed_pure _ _ at_) by done.
  rewrite undisturbed_bind, (undisturbed_load_stands _ _ _ _ _ Hs). cbn [sn_outbox snapshot_of or_state or_channel or_recipient outbox_record].
  set (initial := snapshot_of id x r o). rewrite (st_state _ _ _ _ _ Hs). unfold start_answer.
  assert (may_start x channel recipient →
    undisturbed (_ ← call (transaction (start_tx id recipient channel at_ initial)); _load_snapshot id) d =
    match attempts d !! nth_id o (length (dl_tries x)) with
    | Some _ => (Err IntegrityError, d)
    | None => (Ok (snapshot_of id (started x id (s_content r) channel recipient at_) r (started_outbox x o channel recipient at_)),
               started_db d id x r o channel recipient at_)
    end) as Hrun.
  { intros Hmay. rewrite undisturbed_bind, undisturbed_call. unfold initial. rewrite (start_tx_run _ _ _ _ _ _ _ _ Hs).
    destruct (attempts d !! nth_id o (length (dl_tries x))) eqn:Hnew; [done|].
    destruct (started_evolves d id x r o channel recipient at_) as [Hst _]; try done. by apply undisturbed_load_stands. }
  assert (sn_attempt initial = None ↔ dl_tries x = []) as Hnone.
  { unfold initial. cbn [sn_attempt snapshot_of]. unfold last_try. rewrite fmap_None. apply last_None. }
  pose proof (start_conditions d id x r o channel recipient Hs) as Hcond. cbv zeta in Hcond.
  cbn [sn_outbox snapshot_of or_state or_channel or_recipient outbox_record] in Hcond. rewrite (st_state _ _ _ _ _ Hs) in Hcond.
  fold initial in Hcond. clearbody initial. destruct (status x) eqn:Est.
  - rewrite bool_decide_false by (by intros [[=]|[=]]). rewrite (undisturbed_pure _ _ tt) by done.
    destruct (decide (dl_tries x = [])) as [Hnil|Hne].
    + assert (¬ (SPrepared = SPrepared ∧ is_Some (sn_attempt initial))) as Hno.
      { intros [_ [t Ht]]. apply Hnone in Hnil. congruence. }
      rewrite (bool_decide_false _ Hno). rewrite (undisturbed_pure _ _ tt) by done. rewrite (undisturbed_pure _ _ tt) by done.
      assert (dl_binding x = None) as Hb.
      { apply eq_None_not_Some. intros Hsome. by apply (proj2 (st_bound _ _ _ _ _ Hs) Hsome). }
      destruct (st_unbound _ _ _ _ _ Hs Hb) as [Ech Erc]. rewrite Ech, Erc in *. rewrite (undisturbed_pure _ _ tt) by done.
      rewrite (undisturbed_pure _ _ tt) by done. apply Hrun, Hcond; try done. by intros [[=]|[=]].
    + assert (SPrepared = SPrepared ∧ is_Some (sn_attempt initial)) as Hyes.
      { split; [done|]. apply not_eq_None_Some. by rewrite Hnone. }
      by rewrite (bool_decide_true _ Hyes).
  - by rewrite bool_decide_true by (by left).
  - rewrite bool_decide_false by (by intros [[=]|[=]]). rewrite (undisturbed_pure _ _ tt) by done.
    rewrite (bool_decide_false (SFailed = SPrepared ∧ is_Some (sn_attempt initial))) by (by intros [[=] _]).
    rewrite (undisturbed_pure _ _ tt) by done. destruct retry; [|done]. rewrite (undisturbed_pure _ _ tt) by done.
    destruct (last_try x) as [t|] eqn:Ht; [|unfold status in Est; rewrite Ht in Est; by destruct (dl_count x =? 0)].
    destruct (bound_channel _ _ _ _ _ _ Hs Ht) as (c & Ec & Er). rewrite (st_binding _ _ _ _ _ Hs), Ec, Er in *. cbn [fmap option_fmap option_map default] in *.
    destruct (decide (c = channel)) as [->|Hch].
    + rewrite (bool_decide_true (channel = channel)) in * by done. rewrite (undisturbed_pure _ _ tt) by done.
      destruct (decide (t_recipient t = recipient)) as [Hrec|Hrec].
      * rewrite Hrec in *. rewrite (bool_decide_true (recipient = recipient)) in * by done. rewrite (undisturbed_pure _ _ tt) by done.
        rewrite decide_True by done. apply Hrun, Hcond; try done; [by intros [[=]|[=]]|by intros [[=] _]].
      * rewrite (bool_decide_false (t_recipient t = recipient)) by done. rewrite decide_False by (by intros [=]). done.
    + rewrite (bool_decide_false (c = channel)) by done. rewrite decide_False by (by intros [=]). done.
  - rewrite bool_decide_false by (by intros [[=]|[=]]). reflexivity.
  - by rewrite bool_decide_true by (by right).
Qed.
Definition bindable (detail : option str) : Prop := match detail with Some s => bind_text s = Ok tt | None => True end.

(** The attempt under [a] is the last one and waits for its completion. *)
Definition awaits (x : delivery) (o : outbox_row) (a : str) (t : subject_attempt) : Prop :=
  last_try x = Some t ∧ t_state t = SPrepared ∧ a = nth_id o (pred (length (dl_tries x))).

Lemma complete_tx_run d id x r o a at_ state ids code detail t : stands d id x r o → awaits x o a t → bindable detail →
  transaction (complete_tx id a at_ state ids code detail) d =
    (Ok tt, completed_db d id a o (completed_attempt t state at_ ids code detail) at_).
Proof.
  intros Hs (Ht & Hprep & Ha) Hb. assert (status x = SPrepared) as Hst by (unfold status; by rewrite Ht).
  destruct (st_tries _ _ _ _ _ Hs _ _ (last_try_lookup _ _ Ht)) as (Hat & Hr & _ & _ & Hok). rewrite <- Ha in Hat, Hok.
  apply attempt_record_valid in Hok as [_ _ _ _ _ Hcont _ _ _ _ _]; [|rewrite Ha; apply attempt_id_like].
  unfold transaction, complete_tx. rewrite M_run, (load_here_stands _ _ _ _ _ Hs), M_run. unfold lift at 1.
  cbn [sn_outbox sn_attempt sn_report snapshot_of or_state outbox_record rr_content report_record].
  rewrite Ht, (st_state _ _ _ _ _ Hs), Hst. cbn [fmap option_fmap option_map ar_id ar_state ar_content attempt_record].
  rewrite <- Ha. rewrite Hprep, !bool_decide_true by done. cbn [negb orb raise_if]. rewrite M_run. unfold lift at 1.
  cbn [negb raise_if]. rewrite M_run. unfold lift at 1.
  assert (match detail with Some s => bind_text s | None => Ok tt end = Ok tt) as -> by (by destruct detail).
  unfold update_attempt, update_outbox. rewrite M_run, M_run. unfold get at 1. rewrite Hat, Hr, Hprep, Hcont.
  rewrite !(bool_decide_true (_ = _)) by done. cbn [andb]. unfold put at 1. cbv beta iota. rewrite M_run. unfold get. cbn [outbox set_attempts].
  rewrite (st_outbox _ _ _ _ _ Hs).
  assert (o_state o = SPrepared) as Eos by (by rewrite (st_state _ _ _ _ _ Hs), Hst).
  assert (o_attempt o = Some a) as Eoa.
  { rewrite (st_current _ _ _ _ _ Hs), Ha. unfold last_try in Ht. by destruct (dl_tries x). }
  pose proof (ov_content _ _ _ (outbox_of_stands _ _ _ _ _ Hs)) as Eoc.
  rewrite (bool_decide_true _ Eos), (bool_decide_true _ Eoa), (bool_decide_true _ Eoc). cbn [andb].
  unfold put, completed_db, completed_attempt. by rewrite Hr, Hcont.
Qed.

Lemma complete_tx_conflict d id x r o a at_ state ids code detail : stands d id x r o → (∀ t, ¬ awaits x o a t) →
  transaction (complete_tx id a at_ state ids code detail) d = (Err Conflict, d).
Proof.
  intros Hs Hno. unfold transaction, complete_tx. rewrite M_run, (load_here_stands _ _ _ _ _ Hs), M_run. unfold lift at 1.
  cbn [sn_outbox sn_attempt sn_report snapshot_of or_state outbox_record rr_content report_record].
  destruct (last_try x) as [t|] eqn:Ht; cbn [fmap option_fmap option_map ar_id ar_state ar_content attempt_record]; [|by rewrite orb_true_r].
  destruct (decide (t_state t = SPrepared)) as [Hp|Hp]; [|by rewrite (bool_decide_false (t_state t = SPrepared)), !orb_true_r by done].
  rewrite (bool_decide_false (nth_id o (pred (length (dl_tries x))) = a)); [by rewrite orb_true_r|].
  intros Ha. apply (Hno t). by split_and!.
Qed.

(** What a call to complete an attempt is answered. *)
Lemma complete_answers d id x r o a at_ state ids code detail s text c dt : stands d id x r o →
  _nonempty a = Ok a → _timestamp at_ = Ok at_ → Forall (Forall code_point) ids →
  _completion_fields state ids code detail = Ok (s, text, c, dt) → bindable dt →
  (∀ l t, dl_tries x = l ++ [t] → awaits x o a t →
     let t' := completed_attempt t s at_ text c dt in
     undisturbed (complete_subject_delivery id a state at_ ids code detail) d =
       (Ok (snapshot_of id (completed x l t') r (completed_outbox o s at_)), completed_db d id a o t' at_)) ∧
  ((∀ t, ¬ awaits x o a t) →
     undisturbed (complete_subject_delivery id a state at_ ids code detail) d = (Err Conflict, d)).
Proof.
  intros Hs Ha Hat Hids Hf Hb. pose proof (completion_fields _ _ _ _ _ _ _ _ Hids Hf) as Hcp.
  assert (undisturbed (complete_subject_delivery id a state at_ ids code detail) d =
          undisturbed (_ ← call (transaction (complete_tx id a at_ s text c dt)); _load_snapshot id) d) as ->.
  { unfold complete_subject_delivery. rewrite (undisturbed_pure _ _ id) by (by eapply stands_nonempty).
    rewrite (undisturbed_pure _ _ a), (undisturbed_pure _ _ at_) by done. by rewrite (undisturbed_pure _ _ (s, text, c, dt)). }
  rewrite undisturbed_bind, undisturbed_call. split.
  - intros l t Hl Haw t'. rewrite (complete_tx_run _ _ _ _ _ _ _ _ _ _ _ t Hs Haw Hb). fold t'.
    destruct Haw as (Hlast & Hprep & ->). rewrite (last_nth_id x l t o Hl).
    destruct (completed_evolves d id x r o l t s at_ text c dt) as (Hst & _ & _); try done. by apply undisturbed_load_stands.
  - intros Hno. by rewrite (complete_tx_conflict _ _ _ _ _ _ _ _ _ _ _ Hs Hno).
Qed.
(** ** A new report *)

(** The parent is complete, its content is new, and no digest is taken. *)
Record fresh_report (d : subject_db) (parent subject h id key : str) : Prop := {
  fr_complete : parents d !! parent = Some (u "complete");
  fr_content : ∀ i row, subject_reports d !! i = Some row → of_subject parent subject row → s_content row ≠ h;
  fr_id : subject_reports d !! id = None;
  fr_key : ∀ i o, outbox d !! i = Some o → o_key o ≠ key }.

Lemma elem_of_reports_of parent subject d i row :
  (i, row) ∈ reports_of parent subject d ↔ subject_reports d !! i = Some row ∧ of_subject parent subject row.
Proof. unfold reports_of. rewrite list_elem_of_filter, elem_of_map_to_list. cbn. tauto. Qed.

Lemma next_number_above l z : z ∈ l → z < next_number l.
Proof.
  unfold next_number. induction l as [|y l IH]; intros Hin; [by apply elem_of_nil in Hin|]. cbn.
  apply elem_of_cons in Hin as [->|Hin]; [lia|]. specialize (IH Hin). lia.
Qed.

Lemma find_existing_fresh d parent subject h id key n : fresh_report d parent subject h id key →
  find_existing parent subject h id n d = (Ok false, d).
Proof.
  intros [_ Hc _ _]. unfold find_existing. rewrite M_run. unfold get.
  destruct (filter _ (reports_of parent subject d)) as [|[i row] l] eqn:E; [done|]. exfalso.
  assert ((i, row) ∈ filter (λ kv, s_content kv.2 = h) (reports_of parent subject d)) as Hin by (rewrite E; apply list_elem_of_here).
  apply list_elem_of_filter in Hin as [Hh [Hi Ho]%elem_of_reports_of]. by apply (Hc i row).
Qed.

Definition fresh_row (d : subject_db) (parent subject h : str) (n : Z) (at_ : str) : subject_row :=
  mk_subject parent subject (next_number (map (s_revision ∘ snd) (reports_of parent subject d))) h n at_.
Definition fresh_outbox (key h : str) (n : Z) (at_ : str) : outbox_row :=
  mk_outbox key None None h (if n =? 0 then SSkipped else SPrepared) None at_ at_.
Definition prepared_db (d : subject_db) (parent subject h id key : str) (n : Z) (at_ : str) : subject_db :=
  set_outbox (<[id := fresh_outbox key h n at_]> (outbox d))
    (set_subjects (<[id := fresh_row d parent subject h n at_]> (subject_reports d)) d).

Lemma prepare_tx_run d parent subject h id key n at_ : wellformed d → fresh_report d parent subject h id key → n <= INT64_MAX →
  transaction (prepare_tx parent subject h id key n at_) d = (Ok tt, prepared_db d parent subject h id key n at_).
Proof.
  intros Hw Hf Hn. pose proof Hf as [Hp Hc Hid Hkey].
  assert (outbox d !! id = None) as Ho.
  { destruct (Hw id) as [[x|] Hx]; [destruct Hx as (r & o & Hs); by rewrite (st_report _ _ _ _ _ Hs) in Hid|apply Hx]. }
  unfold transaction, prepare_tx. rewrite M_run, (find_existing_fresh _ _ _ _ _ _ _ Hf), M_run. unfold get at 1. rewrite M_run.
  unfold insert_report. rewrite M_run. unfold lift at 1. cbn [s_count s_parent s_subject s_revision s_content].
  rewrite (proj2 (Z.ltb_ge _ _)) by done. cbn [raise_if]. rewrite M_run. unfold get at 1. cbv zeta. rewrite M_run. unfold lift at 1.
  rewrite (bool_decide_false (is_Some _)) by (rewrite Hid; by intros [? [=]]).
  rewrite (bool_decide_false (parents d !! parent = None)) by (by rewrite Hp).
  assert (existsb (λ kv : str * subject_row, (s_revision kv.2 =? next_number (map (s_revision ∘ snd) (reports_of parent subject d)))
            || bool_decide (s_content kv.2 = h)) (reports_of parent subject d) = false) as ->.
  { apply not_true_iff_false. intros ([i row] & Hin%list_elem_of_In & Hor)%List.existsb_exists. cbn in Hor.
    apply orb_prop in Hor as [Hr%Z.eqb_eq|Hh%bool_decide_eq_true].
    - assert (s_revision row ∈ map (s_revision ∘ snd) (reports_of parent subject d)) as Hm.
      { apply list_elem_of_fmap. by exists (i, row). }
      apply next_number_above in Hm. lia.
    - apply elem_of_reports_of in Hin as [Hi Hof]. by apply (Hc i row). }
  cbn [orb raise_if]. unfold put at 1. cbv beta iota. unfold insert_outbox. rewrite M_run. unfold get. rewrite M_run. unfold lift.
  cbn [outbox subject_reports set_subjects o_key]. rewrite (bool_decide_false (is_Some _)) by (rewrite Ho; by intros [? [=]]).
  rewrite (bool_decide_false (_ = None)) by (by rewrite lookup_insert_eq).
  assert (existsb (λ kv : str * outbox_row, bool_decide (o_key kv.2 = key)) (map_to_list (outbox d)) = false) as ->; [|done].
  apply not_true_iff_false. intros ([i o] & Hin%list_elem_of_In%elem_of_map_to_list & Hk%bool_decide_eq_true)%List.existsb_exists.
  by apply (Hkey i o).
Qed.

Lemma stands_prepared d parent subject h id key n at_ : wellformed d →
  fresh_report d parent (subject_value subject) h id key →
  subject_report_id parent (subject_value subject) h = Ok id → subject_idempotency_key (subject_value subject) id h = Ok key →
  0 <= n → _timestamp at_ = Ok at_ →
  stands (prepared_db d parent (subject_value subject) h id key n at_) id (mk_progress key n None [])
    (fresh_row d parent (subject_value subject) h n at_) (fresh_outbox key h n at_).
Proof.
  intros Hw Hf Hid Hkey Hn Hat.
  apply (stands_fresh _ id (fresh_row d parent (subject_value subject) h n at_) (fresh_outbox key h n at_)); cbn [subject_reports outbox attempts prepared_db set_outbox set_subjects];
    [by rewrite lookup_insert_eq|by rewrite lookup_insert_eq| | | |done..].
  - destruct (Hw id) as [[x|] Hx]; [|apply Hx]. destruct Hx as (r & o & Hs). pose proof (fr_id _ _ _ _ _ _ Hf) as Hnone.
    by rewrite (st_report _ _ _ _ _ Hs) in Hnone.
  - apply (report_record_Ok _ _ subject); try done. apply next_number_positive.
  - by split.
Qed.
(** ** Undisturbed, a report is delivered *)

(** Identifiers as a channel gives them. *)
Definition plain_id (s : str) : Prop := s ≠ [] ∧ clean_text s = true ∧ Forall (λ c, scalar c = true) s.

Lemma plain_id_points ids : Forall plain_id ids → Forall (Forall code_point) ids.
Proof.
  intros Hids. eapply Forall_impl; [exact Hids|]. intros s (_ & _ & Hs). eapply Forall_impl; [exact Hs|]. intros c Hc.
  unfold scalar in Hc. rewrite orb_true_iff, N.ltb_lt, in_range_true in Hc. unfold code_point. lia.
Qed.

Lemma plain_ids_read ids : Forall plain_id ids → _message_ids (Some (_message_ids_json ids)) = Ok ids.
Proof.
  intros Hids. unfold _message_ids. rewrite loads_message_ids_json by by apply plain_id_points.
  assert (map (JStr ∘ rejoined) ids = map JStr ids) as ->.
  { clear -Hids. induction Hids as [|s ids (_ & _ & Hs) _ IH]; [done|]. cbn. by rewrite rejoined_scalar, IH. }
  assert (forallb is_message_id (map JStr ids) = true) as ->.
  { apply List.forallb_forall. intros j (s & <- & Hs)%List.in_map_iff. rewrite Forall_forall in Hids.
    destruct (Hids s (proj2 (list_elem_of_In _ _) Hs)) as (Hne & Hc & _). unfold is_message_id. rewrite bool_decide_false by done. exact Hc. }
  by rewrite map_map, map_id.
Qed.

Lemma sent_fields ids : ids ≠ [] → Forall plain_id ids →
  _completion_fields (u "sent") ids None None = Ok (SSent, _message_ids_json ids, None, None).
Proof.
  intros Hne Hids. unfold _completion_fields. change (completed_state (u "sent")) with (Some SSent). cbn [of_option mbind result_bind].
  rewrite (plain_ids_read ids Hids). cbn [mbind result_bind]. rewrite (bool_decide_true (SSent = SSent)) by done.
  by rewrite (bool_decide_false (ids = [])).
Qed.

Lemma undisturbed_prepare d parent subject text n created h id key : wellformed d → _nonempty parent = Ok parent →
  0 < n <= INT64_MAX → text ≠ [] → _timestamp created = Ok created → sha256_text text = Ok h →
  subject_report_id parent (subject_value subject) h = Ok id → subject_idempotency_key (subject_value subject) id h = Ok key →
  fresh_report d parent (subject_value subject) h id key →
  let d' := prepared_db d parent (subject_value subject) h id key n created in
  let x := mk_progress key n None [] in
  let row := fresh_row d parent (subject_value subject) h n created in
  let o := fresh_outbox key h n created in
  stands d' id x row o ∧
  undisturbed (prepare_subject_report parent (subject_value subject) text n created) d = (Ok (snapshot_of id x row o), d').
Proof.
  intros Hw Hp Hn Htext Hat Hh Hid Hkey Hf d' x row o.
  assert (stands d' id x row o) as Hs by (apply stands_prepared; (done || lia)). split; [done|].
  unfold prepare_subject_report. rewrite (undisturbed_pure _ _ parent), (undisturbed_pure _ _ subject) by (done || apply subject_value_Ok).
  rewrite (undisturbed_pure _ _ tt) by (by rewrite (proj2 (Z.ltb_ge _ _)) by lia).
  rewrite (undisturbed_pure _ _ tt) by (by rewrite (proj2 (Z.eqb_neq _ _)) by lia).
  rewrite (undisturbed_pure _ _ tt) by (by rewrite bool_decide_false, andb_false_r).
  rewrite (undisturbed_pure _ _ created), (undisturbed_pure _ _ h), (undisturbed_pure _ _ id), (undisturbed_pure _ _ key) by done.
  rewrite undisturbed_bind, undisturbed_call. unfold require_complete. rewrite M_run. unfold get at 1, lift at 1.
  rewrite bool_decide_true by apply Hf. cbn [negb raise_if].
  rewrite undisturbed_bind, undisturbed_call, (find_existing_fresh _ _ _ _ _ _ _ Hf).
  rewrite undisturbed_bind, undisturbed_call, (prepare_tx_run _ _ _ _ _ _ _ _ Hw Hf) by lia. by apply undisturbed_load_stands.
Qed.

(** Every call on a report answers as its table says: a start by what the report has
    been through, a completion by whether it names the attempt that waits. *)
Theorem subject_calls_answer d id x r o : stands d id x r o →
  (∀ recipient channel at_ retry, hex64 recipient = true → is_channel channel = true → _timestamp at_ = Ok at_ →
     undisturbed (start_subject_delivery id recipient channel at_ retry) d =
       match start_answer x channel recipient retry with
       | Replayed => (Ok (snapshot_of id x r o), d)
       | Refused e => (Err e, d)
       | Started =>
           match attempts d !! nth_id o (length (dl_tries x)) with
           | Some _ => (Err IntegrityError, d)
           | None =>
               (Ok (snapshot_of id (started x id (s_content r) channel recipient at_) r (started_outbox x o channel recipient at_)),
                started_db d id x r o channel recipient at_)
           end
       end) ∧
  (∀ a at_ state ids code detail s text c dt, _nonempty a = Ok a → _timestamp at_ = Ok at_ → Forall (Forall code_point) ids →
     _completion_fields state ids code detail = Ok (s, text, c, dt) → bindable dt →
     (∀ l t, dl_tries x = l ++ [t] → awaits x o a t →
        let t' := completed_attempt t s at_ text c dt in
        undisturbed (complete_subject_delivery id a state at_ ids code detail) d =
          (Ok (snapshot_of id (completed x l t') r (completed_outbox o s at_)), completed_db d id a o t' at_)) ∧
     ((∀ t, ¬ awaits x o a t) →
        undisturbed (complete_subject_delivery id a state at_ ids code detail) d = (Err Conflict, d))).
Proof. intros Hs. split; intros; [by apply start_answers|by eapply complete_answers]. Qed.

(** Prepared, started and completed with nothing in between, a subject report ends as
    sent with the identifiers of the channel, and a later start only replays this. *)
Theorem subject_delivered d parent subject text n created h id key recipient channel started_at completed_at ids :
  wellformed d → _nonempty parent = Ok parent → 0 < n <= INT64_MAX → text ≠ [] → sha256_text text = Ok h →
  subject_report_id parent (subject_value subject) h = Ok id → subject_idempotency_key (subject_value subject) id h = Ok key →
  fresh_report d parent (subject_value subject) h id key → attempts d !! _attempt_id key 1 = None →
  hex64 recipient = true → is_channel channel = true → ids ≠ [] → Forall plain_id ids →
  _timestamp created = Ok created → _timestamp started_at = Ok started_at → _timestamp completed_at = Ok completed_at →
  ∃ s1 d1 s2 d2 s3 d3,
    undisturbed (prepare_subject_report parent (subject_value subject) text n created) d = (Ok s1, d1) ∧
    undisturbed (start_subject_delivery id recipient channel started_at false) d1 = (Ok s2, d2) ∧
    undisturbed (complete_subject_delivery id (_attempt_id key 1) (u "sent") completed_at ids None None) d2 = (Ok s3, d3) ∧
    or_state (sn_outbox s3) = SSent ∧ ar_message_ids <$> sn_attempt s3 = Some ids ∧
    ∀ at_ retry, _timestamp at_ = Ok at_ → undisturbed (start_subject_delivery id recipient channel at_ retry) d3 = (Ok s3, d3).
Proof.
  intros Hw Hp Hn Htext Hh Hid Hkey Hf Hnew Hrc Hch Hne Hids Hcr Hst Hco.
  destruct (undisturbed_prepare d parent subject text n created h id key) as [Hs1 Hr1]; try done.
  set (x1 := mk_progress key n None []) in *. set (row := fresh_row d parent (subject_value subject) h n created) in *.
  set (o1 := fresh_outbox key h n created) in *. set (d1 := prepared_db d parent (subject_value subject) h id key n created) in *.
  pose proof (start_answers d1 id x1 row o1 recipient channel started_at false Hs1 Hrc Hch Hst) as Hr2.
  assert (start_answer x1 channel recipient false = Started) as Ha.
  { unfold start_answer, status. cbn [last_try dl_tries x1 last dl_count]. by rewrite (proj2 (Z.eqb_neq n 0)) by lia. }
  assert (attempts d1 !! nth_id o1 (length (dl_tries x1)) = None) as Hnone by exact Hnew.
  rewrite Ha, Hnone in Hr2.
  assert (may_start x1 channel recipient) as Hmay by (split; [cbn; lia|split; by left]).
  destruct (started_evolves d1 id x1 row o1 channel recipient started_at Hs1 Hmay Hnone Hrc Hch Hst) as [Hs2 _].
  set (x2 := started x1 id (s_content row) channel recipient started_at) in *.
  set (o2 := started_outbox x1 o1 channel recipient started_at) in *. set (d2 := started_db d1 id x1 row o1 channel recipient started_at) in *.
  set (t := started_attempt x1 id (s_content row) recipient started_at).
  assert (dl_tries x2 = [] ++ [t]) as Hl by reflexivity.
  assert (awaits x2 o2 (_attempt_id key 1) t) as Haw by (split_and!; reflexivity).
  pose proof (sent_fields ids Hne Hids) as Hfields. pose proof (plain_id_points ids Hids) as Hpoints.
  destruct (complete_answers d2 id x2 row o2 (_attempt_id key 1) completed_at (u "sent") ids None None _ _ _ _ Hs2
              (digest_like_nonempty _ (attempt_id_like key 1)) Hco Hpoints Hfields I) as [Hr3 _].
  specialize (Hr3 [] t Hl Haw). cbv zeta in Hr3.
  destruct (completed_evolves d2 id x2 row o2 [] t SSent completed_at (_message_ids_json ids) None None Hs2 Hl eq_refl
              (completion_fields _ _ _ _ _ _ _ _ Hpoints Hfields) Hco) as (Hs3 & _ & _).
  do 6 eexists. split_and!; [exact Hr1|exact Hr2|exact Hr3|reflexivity| |].
  - cbn [sn_attempt snapshot_of]. unfold last_try. cbn [dl_tries completed app last fmap option_fmap option_map ar_message_ids attempt_record].
    unfold message_ids_of. cbn [t_ids completed_attempt]. by rewrite (plain_ids_read ids Hids).
  - intros at_ retry Hat. exact (start_answers _ _ _ _ _ recipient channel at_ retry Hs3 Hrc Hch Hat).
Qed.
(** ** Worlds in which a call runs alone *)

Lemma world_run i p ps d : ps !! i = Some p →
  rtc world_step (mk_world ps d) (mk_world (<[i := Done (undisturbed p d).1]> ps) (undisturbed p d).2).
Proof.
  revert ps d. induction p as [r|C m k IH]; intros ps d Hi; [cbn; by rewrite list_insert_id|].
  eapply rtc_l; [by apply world_advance|]. cbn. destruct (m d) as [[b|e] d'] eqn:E; [|done]. cbn.
  rewrite <- (list_insert_insert_eq ps i (Done (undisturbed (k b) d').1) (k b)).
  apply IH, list_lookup_insert_eq. by eapply lookup_lt_Some.
Qed.

Lemma world_serves q ps d : python_request q →
  rtc world_step (mk_world ps d) (mk_world (ps ++ [Done (undisturbed (serve q) d).1]) (undisturbed (serve q) d).2).
Proof.
  intros Hq. eapply rtc_l; [by apply (world_call q)|].
  pose proof (world_run (length ps) (serve q) (ps ++ [serve q]) d) as Hr.
  rewrite insert_app_r_alt in Hr by lia. rewrite Nat.sub_diag in Hr. apply Hr. by rewrite list_lookup_middle.
Qed.
End facts.

(** ** On examples *)

Section examples.
#[local] Existing Instance fixed_reader.

Definition sample_db : subject_db := mk_subject_db {[u "r1" := u "complete"]} ∅ ∅ ∅.
Definition at_noon : str := u "2026-01-01T12:00:00Z".
Definition sample_recipient : str := sha256 (u "recipient").
Definition sample_hash : str := sha256 (u "text").

Definition value_of {A} (a : A) (r : result subject_exn A) : A := match r with Ok b => b | Err _ => a end.
Definition sample_id : str := Eval vm_compute in value_of [] (subject_report_id (u "r1") (u "ai") sample_hash).
Definition sample_key : str := Eval vm_compute in value_of [] (subject_idempotency_key (u "ai") sample_id sample_hash).
Definition sample_attempt (n : Z) : str := _attempt_id sample_key n.

Definition prepare_sample : request := PrepareSubject (u "r1") (u "ai") (u "text") 2 at_noon.
Definition start_sample (retry : bool) : request := StartSubject sample_id sample_recipient (u "telegram") at_noon retry.
Definition complete_sample (n : Z) (state : string) (ids : list str) (code : option str) : request :=
  CompleteSubject sample_id (sample_attempt n) (u state) at_noon ids code code.

Definition after (q : request) (d : subject_db) : subject_db := (undisturbed (serve q) d).2.
Definition shown (r : result subject_exn SubjectDeliverySnapshot) : result subject_exn (outbox_state * option Z * option (list str)) :=
  (λ s, (or_state (sn_outbox s), ar_ordinal <$> sn_attempt s, ar_message_ids <$> sn_attempt s)) <$> r.
Definition says (q : request) (d : subject_db) := shown (undisturbed (serve q) d).1.

Fixpoint advances {A} (n : nat) (p : proc A) (d : subject_db) : proc A * subject_db :=
  match n with O => (p, d) | S n => advances n (advance p d).1 (advance p d).2 end.

Definition prepared_sample : subject_db := after prepare_sample sample_db.
Definition started_sample : subject_db := after (start_sample false) prepared_sample.
Definition failed_sample : subject_db := after (complete_sample 1 "failed" [] (Some (u "timeout"))) started_sample.

(** One life of a report: failed once, sent the second time; nothing starts after. *)
Example delivery_examples :
  says prepare_sample sample_db = Ok (SPrepared, None, None) ∧
  says (start_sample false) prepared_sample = Ok (SPrepared, Some 1, Some []) ∧
  says (start_sample false) started_sample = Err Unresolved ∧
  says (start_sample false) failed_sample = Err Rejected ∧
  says (start_sample true) failed_sample = Ok (SPrepared, Some 2, Some []) ∧
  (let sent := after (complete_sample 2 "sent" [u "7"; [55357; 56832]%N] None) (after (start_sample true) failed_sample) in
   says (start_sample true) sent = Ok (SSent, Some 2, Some [u "7"; [128512%N]])).
Proof. cbv zeta. split_and!; vm_compute; reflexivity. Qed.

(** A snapshot is read in three statements.  Between the second and the third another
    call completes the attempt, and the reader reports a conflict in tables that are
    consistent all the time. *)
Example torn_snapshot_conflicts :
  let '(reader, d) := advances 2 (serve (LoadSubject sample_id)) started_sample in
  let d := after (complete_sample 1 "sent" [u "7"] None) d in
  shown (undisturbed reader d).1 = Err Conflict ∧ says (LoadSubject sample_id) d = Ok (SSent, Some 1, Some [u "7"]).
Proof. vm_compute. repeat split. Qed.

(** The snapshot that a start returns is read after its transaction.  If its attempt
    is completed as failed before that and another call starts the next one, both
    calls return the same prepared attempt, and both will send. *)
Example late_read_returns_foreign_attempt :
  let '(first, d) := advances 3 (serve (start_sample false)) prepared_sample in
  let d := after (complete_sample 1 "failed" [] (Some (u "timeout"))) d in
  says (start_sample true) d = Ok (SPrepared, Some 2, Some []) ∧
  shown (undisturbed first (after (start_sample true) d)).1 = Ok (SPrepared, Some 2, Some []).
Proof. vm_compute. repeat split. Qed.
(** ** Witnesses *)

Definition sample_world : world := mk_world [] sample_db.

(** The calls one after the other. *)
Fixpoint served (qs : list request) (w : world) : world :=
  match qs with
  | [] => w
  | q :: qs => served qs (mk_world (calls w ++ [Done (undisturbed (serve q) (store w)).1]) (after q (store w)))
  end.

Lemma served_steps qs w : Forall python_request qs → rtc world_step w (served qs w).
Proof.
  revert w. induction qs as [|q qs IH]; intros [ps d]; [done|]. intros [Hq Hqs]%Forall_cons. cbn [served calls store].
  etrans; [by apply world_serves|by apply IH].
Qed.

Lemma sample_initial : initial_world sample_world.
Proof. by eexists. Qed.

Lemma subject_delivery_refines_witness :
  rtc world_step sample_world (served [prepare_sample] sample_world) ∧
  rtc world_step (served [prepare_sample] sample_world) (served [start_sample false] (served [prepare_sample] sample_world)) ∧
  ∀ x, represents (store (served [prepare_sample] sample_world)) sample_id x →
    ∃ y, represents (store (served [start_sample false] (served [prepare_sample] sample_world))) sample_id y ∧ rtc delivery_step x y.
Proof.
  assert (rtc world_step sample_world (served [prepare_sample] sample_world)) as H1 by (apply served_steps; by repeat constructor).
  assert (rtc world_step (served [prepare_sample] sample_world) (served [start_sample false] (served [prepare_sample] sample_world))) as H2
    by (apply served_steps; by repeat constructor).
  split; [exact H1|]. split; [exact H2|]. intros x Hx.
  exact (proj2 (subject_delivery_refines sample_world _ sample_initial H1) _ _ _ H2 Hx).
Defined.

Definition sent_world : world :=
  served [prepare_sample; start_sample false; complete_sample 1 "sent" [u "7"] None] sample_world.

Lemma subject_sent_once_witness :
  ∃ t, attempts (store sent_world) !! sample_attempt 1 = Some t ∧ t_state t = SSent ∧
    ∀ b v, t_report v = t_report t → attempts (store (served [start_sample true] sent_world)) !! b = Some v ↔ attempts (store sent_world) !! b = Some v.
Proof.
  assert (rtc world_step sample_world sent_world) as H1.
  { apply served_steps. repeat constructor; cbv; done. }
  assert (rtc world_step sent_world (served [start_sample true] sent_world)) as H2 by (apply served_steps; by repeat constructor).
  assert (∃ t, attempts (store sent_world) !! sample_attempt 1 = Some t ∧ t_state t = SSent) as (t & Ht & Hst).
  { eexists. split; [vm_compute; reflexivity|reflexivity]. }
  exists t. split; [exact Ht|]. split; [exact Hst|]. intros b v Hv.
  destruct (subject_sent_once sample_world sent_world (served [start_sample true] sent_world) sample_initial H1 H2) as (_ & Hsent & _).
  exact (Hsent (sample_attempt 1) t Ht (or_introl Hst) b v Hv).
Defined.

Lemma sample_fresh : fresh_report sample_db (u "r1") (subject_value SUBJECT_AI) sample_hash sample_id sample_key.
Proof.
  split; [vm_compute; reflexivity| |vm_compute; reflexivity|].
  - intros i row Hi. cbn [subject_reports sample_db] in Hi. rewrite lookup_empty in Hi. discriminate Hi.
  - intros i o Hi. cbn [outbox sample_db] in Hi. rewrite lookup_empty in Hi. discriminate Hi.
Qed.

Lemma subject_calls_answer_witness :
  ∃ x r o, stands prepared_sample sample_id x r o ∧
    undisturbed (start_subject_delivery sample_id sample_recipient (u "telegram") at_noon false) prepared_sample =
      (Ok (snapshot_of sample_id (started x sample_id (s_content r) (u "telegram") sample_recipient at_noon) r
             (started_outbox x o (u "telegram") sample_recipient at_noon)),
       started_db prepared_sample sample_id x r o (u "telegram") sample_recipient at_noon).
Proof.
  destruct (undisturbed_prepare sample_db (u "r1") SUBJECT_AI (u "text") 2 at_noon sample_hash sample_id sample_key) as [Hs Hr];
    [apply (initial_ok _ sample_initial)|vm_compute; reflexivity|done|done|vm_compute; reflexivity|vm_compute; reflexivity
    |vm_compute; reflexivity|vm_compute; reflexivity|exact sample_fresh|].
  set (x := mk_progress sample_key 2 None []) in *.
  set (r := fresh_row sample_db (u "r1") (subject_value SUBJECT_AI) sample_hash 2 at_noon) in *.
  set (o := fresh_outbox sample_key sample_hash 2 at_noon) in *.
  assert (prepared_sample = prepared_db sample_db (u "r1") (subject_value SUBJECT_AI) sample_hash sample_id sample_key 2 at_noon) as E.
  { unfold prepared_sample, after. change (serve prepare_sample) with (prepare_subject_report (u "r1") (u "ai") (u "text") 2 at_noon).
    change (u "ai") with (subject_value SUBJECT_AI). by rewrite Hr. }
  rewrite <- E in Hs. exists x, r, o. split; [exact Hs|].
  assert (attempts prepared_sample !! nth_id o (length (dl_tries x)) = None) as Hnone by (rewrite E; apply lookup_empty).
  pose proof (proj1 (subject_calls_answer prepared_sample sample_id x r o Hs) sample_recipient (u "telegram") at_noon false) as Hanswer.
  rewrite Hanswer; [|vm_compute; reflexivity..]. rewrite Hnone. reflexivity.
Defined.

Lemma subject_delivered_witness :
  ∃ s1 d1 s2 d2 s3 d3,
    undisturbed (prepare_subject_report (u "r1") (subject_value SUBJECT_AI) (u "text") 2 at_noon) sample_db = (Ok s1, d1) ∧
    undisturbed (start_subject_delivery sample_id sample_recipient (u "telegram") at_noon false) d1 = (Ok s2, d2) ∧
    undisturbed (complete_subject_delivery sample_id (_attempt_id sample_key 1) (u "sent") at_noon [u "7"] None None) d2 = (Ok s3, d3) ∧
    or_state (sn_outbox s3) = SSent.
Proof.
  destruct (subject_delivered sample_db (u "r1") SUBJECT_AI (u "text") 2 at_noon sample_hash sample_id sample_key sample_recipient
              (u "telegram") at_noon at_noon [u "7"]) as (s1 & d1 & s2 & d2 & s3 & d3 & H1 & H2 & H3 & H4 & _);
    [apply (initial_ok _ sample_initial)|vm_compute; reflexivity|done|done|vm_compute; reflexivity|vm_compute; reflexivity
    |vm_compute; reflexivity|exact sample_fresh|apply lookup_empty|vm_compute; reflexivity|vm_compute; reflexivity|done
    |repeat constructor; done|vm_compute; reflexivity..|].
  exists s1, d1, s2, d2, s3, d3. split; [exact H1|]. split; [exact H2|]. split; [exact H3|exact H4].
Defined.
End examples.
